(* ===== verification/_CoqProject ===== *)
-Q . S2P
Prelude.v
Macro.v
ListHead.v
HList.v
ListMacros.v
Buddy.v
Chunks.v
BuddyInv.v
BuddyOps.v
BuddySpec.v
BuddyCount.v
BuddyInit.v
BuddyTheorems.v
PageTable.v
PageTableInv.v
Mmu.v
PageTableOps.v
Pages.v
PageTableTheorems.v
PageTableTypes.v
Slab.v
SlabInv.v
SlabOps.v
SlabSpec.v
SlabTheorems.v
Utils.v
Kmalloc.v
KmallocTheorems.v
Mm.v
FreeLists.v
SlabExact.v
SlabTest.v
Printk.v
PrintkSpec.v
Mmio.v
Uart.v
PrintkTheorems.v
UartTheorems.v
Kprint.v
KernelLog.v
Bitops.v
Sync.v
Atomics.v
Locked.v
BuddySmp.v
Boot.v
BootInit.v
BootAsm.v
CacheAsm.v
KernelAsm.v
KernelMap.v
Machine.v
MachineTheorems.v
Pmu.v
Exception.v
ExceptionOps.v
Constants.v
SystemRegs.v
DeviceMap.v
Timer.v
Poweroff.v
Main.v
ExceptionTheorems.v
MainTheorems.v
