(* ===== verification/Prelude.v ===== *)
(** * KingdoMicroKernel: a verification library

    KingdoMicroKernel is a small AArch64 kernel for the Raspberry Pi 3, in C.
    This library is a shallow embedding of its code, file by file, with the
    theorems that make each part correct.

    ** The program and where it is modelled

    - Boot stage ([src/arch/aarch64/boot/raspi3]): clears [.bss], wakes the other
      cores, builds the first page tables, enters the kernel.  [Boot] the tables
      and [.bss]; [BootInit] the whole run, in which every event (a message, [sev],
      the jump to the kernel) is recorded with the memory it finds.
    - Page allocator ([src/mm/buddy.c]): chunks of [2^o] pages, split and merged,
      on linked free lists.  State and operations in [Buddy] (one definition per
      C function, on the record [bstate]: page array, list nodes, counters,
      lock), lists in [ListHead]; [Chunks], [BuddyInv] the invariant, [BuddyOps]
      its preservation, [BuddySpec] the abstract allocator (a map from frames to
      orders), [BuddyCount] the counters, [BuddyInit] initialisation,
      [BuddyTheorems] the theorems; [BuddySmp] the same code access by access on
      any number of CPUs.
    - Block allocator ([src/mm/slab.c]): slabs of equal blocks on top of the page
      allocator.  [Slab], [SlabInv], [SlabOps], [SlabSpec], [SlabTheorems].
    - [kmalloc]/[kfree]/[get_pages] ([src/mm/kmalloc.c]): [Pages], [Kmalloc],
      [KmallocTheorems].
    - Bringing up memory ([src/mm/mm.c], the self tests of [kmalloc.c] and
      [slab_test.c]): [Mm] (the allocators, [run_test1], [kmalloc_test]);
      [FreeLists] and [SlabExact] say to the block which free lists and slabs an
      allocation leaves, which [SlabTest] needs for [run_test].
    - Page tables ([src/arch/aarch64/mm/page_table.c]): [PageTable] over any
      source of pages (the class [PageSource], whose instance on the page
      allocator is in [Pages]), [PageTableInv] (tables form a tree, the walk the
      code makes), [Mmu] (the walk of the MMU, from the bits of the architecture's
      descriptors), [PageTableOps], [PageTableTheorems]; [PageTableTypes] the four views of
      [pte_t] and the typing of the code.  [KernelMap] puts the boot tables, the
      allocators and the page table code together, as [main] does.
    - Lists, words, strings ([src/include/common]): [ListHead], [HList],
      [ListMacros] ([container_of], the loop that may delete), [Macro], [Utils],
      [Bitops].
    - Console output ([src/lib/printk.c], [kprint.h]): [Printk] over any console
      (class [Console]), [PrintkSpec] (what a format denotes, from a table of
      conversions of its own), [PrintkTheorems], [Kprint] (the messages of a build:
      Debug, which the Makefile makes, or Release), [KernelLog] (the text of a
      message as a function of its format).
    - Devices: [Mmio] (registers as unknown inputs and recorded writes), [Uart],
      [UartTheorems] (the PL011 driver with its ring buffer, and the others).
    - Cores, interrupts, timers, power, system calls ([smp.c], [irq.c],
      [timer.c], [irq_entry.c], [poweroff.c], [syscall.c]): [Machine],
      [MachineTheorems], [Timer], [Poweroff], [Pmu] (the cycle counter).  [DeviceMap] the register blocks of
      [machine.h], [Constants] the tables of [errno.h], [syscall_num.h], [esr.h],
      [SystemRegs] the fields of [esr.h] and [registers.h].
    - Exception entry ([src/arch/aarch64/irq/irq_entry.S]): [Exception], the
      vectors instruction by instruction, calling the C code through the class
      [KernelCode]; [ExceptionOps], [ExceptionTheorems], where the kernel's own
      routines are the instance ([kernel_code]).
    - Start of a core ([start.S], [tools.S], [head.S]): [BootAsm], [CacheAsm] (the
      set/way loops of [invalidate_cache_all]), [KernelAsm] (the entry of the
      kernel, the TLB flush, the wait loop of the other cores).
    - The kernel's [main] ([src/arch/aarch64/main.c]) with everything it calls:
      [Main] on the state of the whole kernel, [MainTheorems].
    - Locks and atomics ([sync.h], [lock.h]): [Sync], [Atomics]; [Locked] any
      object behind a spin lock (record [object], class [object_laws], which
      [BuddySmp] meets), and why its calls are atomic.

    ** How code is modelled

    A routine is a function [M S A := S -> res (A * S)] on the explicit state of
    its component; [Halt] is a run that does not return ([BUG_ON], [kerror], a
    bad address, a deadlock).  Integers are [Z] with the wrap-around of their C
    type written out; addresses are the C addresses, so lists, page arrays and
    page tables live in maps from addresses.  [wp m s Q] says that [m] returns
    from [s] and [Q] holds: every theorem built on it is a total correctness
    statement.  Components that several CPUs enter at once ([Sync], [Atomics])
    are step relations, one constructor per instruction.  The allocators are
    functions that run without interruption; for the page allocator [Locked] and
    [BuddySmp] prove that interleaved CPUs behave as if it were so.  The slab
    allocator and what is above it are sequential.

    ** What the theorems show

    - Heap: [heap_clients_safe] (any sequence of [kmalloc] and [kfree] by clients
      keeps the blocks in use disjoint, and never halts), [kmalloc_correct],
      [kfree_correct]; below it the refinements of the
      slab ([slab_alloc_correct], [slab_free_correct], round trip, disjointness)
      and of the page allocator ([buddy_get_pages_refines],
      [buddy_free_pages_refines], round trip, statistics, initialisation).
    - Boot and memory: [init_buddy_establishes], [init_slab_establishes],
      [mm_init_self_tests], [run_test_replays] (the second round of the slab test
      gets the addresses of the first), [init_kernel_pt_maps],
      [boot_reaches_kernel], [kernel_stack_mapped], [invalidate_covers]; also
      [start_kernel_enters], [secondary_cpu_boot_enters], [secondaries_parked].
    - The whole: [main_runs] (from a state the boot stage leaves, in either
      build, [main] passes every self test and assertion, prints exactly the text
      [main_text], with the lengths of the free lists as they are, and powers the
      machine off).
    - Exceptions: [irq_transparent], [syscall_returns]; also
      [unexpected_vectors], [context_layout], [elX_to_el1], [mmu_activated],
      [flush_dcache_covers].
    - Page tables: [map_range_maps], [map_range_frame], [query_is_walk],
      [set_pte_flags_fields], [map_range_oom_panics], [page_table_code_typed].
    - Concurrency: [buddy_smp_linearizable] (every history of calls and returns of
      the page allocator on any number of CPUs is one of the abstract allocator),
      [buddy_smp_safe] (disjoint blocks, consistent lists whenever the lock is
      free, no CPU halts), [buddy_smp_returns] (every call can return);
      [spin_lock_mutual_exclusion], [spin_lock_progress], [atomics_linearizable],
      [fetch_add_exact].
    - Output and devices: [printk_renders], [simple_outputi_exact],
      [uart_ring_is_queue], [plat_handle_irq_dispatch], [timer_tick_and_clock],
      [poweroff_sequence].
    - Utilities: [find_next_bit_first], [strcmp_lexicographic], [memcpy_copies],
      [hlist_is_list], [for_each_safe_deletes], [error_pointers_roundtrip],
      [device_registers_mapped], [data_abort_syndrome_partition].
    - Defects found while modelling are theorems about the code as it is:
      [init_buddy_small_memory_faults], [page_array_overlap],
      [kzalloc_does_not_zero], [outputi_binary_overflow],
      [ttbr0_gets_virtual_address], [pmu_disable_resets] and others named in the files.

    ** Bounds and fuel

    Loops that the C code bounds by a count use that count.  The others take
    fuel: list walks the length of the list plus one, [merge_chunk_rec] and
    [split_chunk_rec] the number of orders, [map_tables] the number of pages plus
    one, the conversion loop of [printk] the length of the format, the cache loops
    the numbers of levels, ways and sets; the theorems prove that [HFuel] (or
    [None]) never shows up.  A polling loop takes the device's
    [patience]: that the device answers within it is a hypothesis.

    ** Not modelled

    - Of the assembly: what the caches hold (the operands of the maintenance
      instructions are modelled, not the lines), the TLB invalidation inside
      [el1_mmu_activate], [put32] and [get32], which are the device accesses of
      the drivers; the linker script, whose symbols are parameters.
    - Memory barriers: accesses are interleaved one at a time; the plain
      [ldar]/[stlr] macros, which nothing uses.
    - The slab allocator on several CPUs: it holds a container's lock while it
      takes the page allocator's, and hands a slab back before it is unlinked.
    - What compiled C code leaves in scratch registers and on the stack is a
      parameter of [Exception], with the hypothesis that a call uses at most one
      kernel stack below its stack pointer.
    - [secondary_start] (an empty loop), and the functions that [common_pte.h] declares and nobody defines.
    - Delays ([delay], [wait_cycles]): they only pass time.
    - The messages of the allocators on calls that fail ([kwarn] in [buddy.c],
      [slab.c] and [kmalloc.c], [kdebug] of [free_pages]), and what is printed
      between a failed check and the halt: the models of these functions have no
      console. *)

From Stdlib Require Import ZArith Lia.
From stdpp Require Export prelude gmap.

#[global] Open Scope Z_scope.
#[global] Set Default Goal Selector "!".

(** ** How a kernel routine can end

    A routine either returns, or never returns.  The kernel has exactly these
    ways of not returning: [BUG_ON]/[BUG]/[assert] (print, then loop for ever),
    [kerror] (print, then [while (1)]), a load or store through an address
    that holds no object, and a spin lock that is already held by the only
    running core.  [HFuel] marks the end of the fuel of a bounded loop; the
    theorems prove that it never shows up. *)
Inductive halt : Type := HBug | HKerror | HFault | HDeadlock | HFuel.

#[global] Instance halt_eq_dec : EqDecision halt.
Proof. solve_decision. Defined.

Inductive res (A : Type) : Type :=
| Ok (a : A)
| Halt (h : halt).
Arguments Ok {A} _.
Arguments Halt {A} _.

(** ** The state-and-halt monad *)
Definition M (S A : Type) : Type := S → res (A * S).

#[global] Instance M_ret {S : Type} : MRet (M S) := λ A a s, Ok (a, s).
#[global] Instance M_bind {S : Type} : MBind (M S) := λ A B f m s,
  match m s with
  | Ok (a, s') => f a s'
  | Halt h => Halt h
  end.

Definition stop {S A : Type} (h : halt) : M S A := λ _, Halt h.
Definition gets {S A : Type} (f : S → A) : M S A := λ s, Ok (f s, s).
Definition modify {S : Type} (f : S → S) : M S unit := λ s, Ok (tt, f s).

(** A load: [None] means that the address holds no object. *)
Definition load {S A : Type} (f : S → option A) : M S A := λ s,
  match f s with
  | Some a => Ok (a, s)
  | None => Halt HFault
  end.

(** [BUG_ON(expr)] *)
Definition BUG_ON {S : Type} (b : bool) : M S unit :=
  if b then stop HBug else mret tt.

(** Run a routine on a part of the state. *)
Definition zoom {S T A : Type} (get : S → T) (put : T → S → S) (m : M T A) : M S A := λ s,
  match m (get s) with
  | Ok (a, t) => Ok (a, put t s)
  | Halt h => Halt h
  end.

(** [for (i = lo; i < lo + n; i++) body(i)] *)
Fixpoint for_up {S : Type} (n : nat) (i : Z) (body : Z → M S unit) : M S unit :=
  match n with
  | O => mret tt
  | S n' => body i ;; for_up n' (i + 1) body
  end.

(** ** Total-correctness assertions

    [wp m s Q]: run from [s], [m] returns (it does not halt) and its result
    and final state satisfy [Q]. *)
Definition wp {S A : Type} (m : M S A) (s : S) (Q : A → S → Prop) : Prop :=
  match m s with
  | Ok (a, s') => Q a s'
  | Halt _ => False
  end.

Section wp_rules.
Context {S : Type}.

Lemma wp_inv {A} (m : M S A) s Q :
  wp m s Q ↔ ∃ a s', m s = Ok (a, s') ∧ Q a s'.
Proof.
  unfold wp. split.
  - intros H. destruct (m s) as [[a s']|h] eqn:E; [eauto|done].
  - by intros (a & s' & -> & H).
Qed.

Lemma wp_ok {A} (m : M S A) s a s' (Q : A → S → Prop) :
  m s = Ok (a, s') → Q a s' → wp m s Q.
Proof. intros E H. unfold wp. by rewrite E. Qed.

Lemma wp_bind {A B} (m : M S A) (f : A → M S B) s Q :
  wp m s (λ a s', wp (f a) s' Q) → wp (m ≫= f) s Q.
Proof. unfold wp, mbind, M_bind. by destruct (m s) as [[a s']|h]. Qed.

Lemma wp_bind_inv {A B} (m : M S A) (f : A → M S B) s Q : wp (m ≫= f) s Q → wp m s (λ a s', wp (f a) s' Q).
Proof. unfold wp, mbind, M_bind. by destruct (m s) as [[a s']|h]. Qed.

Lemma wp_bind2 {A B D} (m : M S A) (m' : M S B) (f : B → M S D) s Q :
  wp (m ;; m') s (λ b s', wp (f b) s' Q) → wp (m ;; b ← m'; f b) s Q.
Proof.
  unfold wp, mbind, M_bind. destruct (m s) as [[a s']|h]; [|done]. by destruct (m' s') as [[b s'']|h].
Qed.

Lemma wp_bind_assoc {A B D} (m : M S A) (m' : A → M S B) (f : B → M S D) s Q :
  wp (m ≫= m') s (λ b s', wp (f b) s' Q) → wp (a ← m; b ← m' a; f b) s Q.
Proof.
  unfold wp, mbind, M_bind. destruct (m s) as [[a s']|h]; [|done]. by destruct (m' a s') as [[b s'']|h].
Qed.

(** The first of three steps has a result that the rest needs. *)
Lemma wp_bind_keep {A B C D} (m1 : M S A) (m2 : M S B) (m3 : B → M S C) (f : A → M S D) s Q :
  wp (a ← m1; b ← m2; m3 b ;; mret a) s (λ a s', wp (f a) s' Q) → wp (a ← m1; b ← m2; m3 b ;; f a) s Q.
Proof.
  unfold wp, mbind, M_bind. destruct (m1 s) as [[a s1]|h]; [|done]. destruct (m2 s1) as [[b s2]|h]; [|done].
  by destruct (m3 b s2) as [[c s3]|h].
Qed.

Lemma wp_mono {A} (m : M S A) s (P Q : A → S → Prop) :
  (∀ a s', P a s' → Q a s') → wp m s P → wp m s Q.
Proof. unfold wp. destruct (m s) as [[a s']|h]; naive_solver. Qed.

Lemma wp_ret {A} (a : A) s (Q : A → S → Prop) : Q a s → wp (mret a) s Q.
Proof. done. Qed.

Lemma wp_gets {A} (f : S → A) s (Q : A → S → Prop) : Q (f s) s → wp (gets f) s Q.
Proof. done. Qed.

Lemma wp_modify (f : S → S) s (Q : unit → S → Prop) : Q tt (f s) → wp (modify f) s Q.
Proof. done. Qed.

Lemma wp_load {A} (f : S → option A) s a (Q : A → S → Prop) :
  f s = Some a → Q a s → wp (load f) s Q.
Proof. intros E H. unfold wp, load. by rewrite E. Qed.

Lemma wp_BUG_ON b s (Q : unit → S → Prop) : b = false → Q tt s → wp (BUG_ON b) s Q.
Proof. by intros ->. Qed.

Lemma wp_zoom {T A} (get : S → T) (put : T → S → S) (m : M T A) s Q :
  wp m (get s) (λ a t, Q a (put t s)) → wp (zoom get put m) s Q.
Proof. unfold wp, zoom. by destruct (m (get s)) as [[a t]|h]. Qed.

Lemma wp_for_up (I : Z → S → Prop) n i body s Q :
  I i s →
  (∀ j s', i ≤ j < i + Z.of_nat n → I j s' → wp (body j) s' (λ _ s'', I (j + 1) s'')) →
  (∀ s', I (i + Z.of_nat n) s' → Q tt s') →
  wp (for_up n i body) s Q.
Proof.
  revert i s. induction n as [|n IH]; intros i s HI Hstep HQ.
  - apply wp_ret, HQ. by replace (i + Z.of_nat 0) with i by lia.
  - cbn [for_up]. apply wp_bind.
    eapply wp_mono; [|apply Hstep; [lia|done]].
    intros [] s' HI'. apply IH; [done| |].
    + intros j s'' Hj. apply Hstep. lia.
    + intros s''. replace (i + 1 + Z.of_nat n) with (i + Z.of_nat (Datatypes.S n)) by lia. apply HQ.
Qed.
End wp_rules.

(** Symbolic execution of straight-line monadic code: binds are associated to
    the left of the continuation and the primitives are run. *)
Ltac wp_step :=
  lazymatch goal with
  | |- wp (mbind _ _) _ _ => apply wp_bind
  | |- wp (mret _) _ _ => apply wp_ret
  | |- wp (gets _) _ _ => apply wp_gets
  | |- wp (modify _) _ _ => apply wp_modify
  | |- wp (zoom _ _ _) _ _ => apply wp_zoom
  | |- wp (load _) _ _ => eapply wp_load; [eassumption|]
  end.
Ltac wp_go := repeat (wp_step; cbn beta).

(** ** Machine words *)
Definition u64 (x : Z) : Z := x mod 2 ^ 64.
Definition u32 (x : Z) : Z := x mod 2 ^ 32.
Definition s32 (x : Z) : Z := (x + 2 ^ 31) mod 2 ^ 32 - 2 ^ 31.
Definition s64 (x : Z) : Z := (x + 2 ^ 63) mod 2 ^ 64 - 2 ^ 63.
(** [~x] on a 64-bit word *)
Definition not64 (x : Z) : Z := u64 (Z.lnot x).

Notation NULL := 0 (only parsing).

Create HintDb kmk discriminated.

Section words.

Lemma pow2_pos k : 0 < 2 ^ k ∨ k < 0.
Proof. destruct (Z_lt_dec k 0); [by right|left; apply Z.pow_pos_nonneg; lia]. Qed.

Lemma pow2_gt0 k : 0 ≤ k → 0 < 2 ^ k.
Proof. intros. apply Z.pow_pos_nonneg; lia. Qed.

Lemma pow2_succ k : 0 ≤ k → 2 ^ (k + 1) = 2 * 2 ^ k.
Proof. intros. rewrite Z.pow_add_r by lia. lia. Qed.

Lemma pow2_split j k : 0 ≤ j ≤ k → 2 ^ k = 2 ^ (k - j) * 2 ^ j.
Proof. intros. rewrite <- Z.pow_add_r by lia. f_equal. lia. Qed.

Lemma pow2_le j k : 0 ≤ j ≤ k → 2 ^ j ≤ 2 ^ k.
Proof. intros. apply Z.pow_le_mono_r; lia. Qed.

Lemma u64_small x : 0 ≤ x < 2 ^ 64 → u64 x = x.
Proof. intros. by apply Z.mod_small. Qed.

Lemma u64_range x : 0 ≤ u64 x < 2 ^ 64.
Proof. apply Z.mod_pos_bound. lia. Qed.

Lemma u32_small x : 0 ≤ x < 2 ^ 32 → u32 x = x.
Proof. intros. by apply Z.mod_small. Qed.

Lemma s64_small x : - 2 ^ 63 ≤ x < 2 ^ 63 → s64 x = x.
Proof. intros. unfold s64. rewrite Z.mod_small; lia. Qed.

Lemma s32_small x : - 2 ^ 31 ≤ x < 2 ^ 31 → s32 x = x.
Proof. intros. unfold s32. rewrite Z.mod_small; lia. Qed.

Lemma not64_eq x : 0 ≤ x < 2 ^ 64 → not64 x = 2 ^ 64 - 1 - x.
Proof.
  intros. unfold not64, u64.
  replace (Z.lnot x) with (2 ^ 64 - 1 - x + (-1) * 2 ^ 64) by (pose proof (Z.add_lnot_diag x); lia).
  rewrite Z.mod_add by lia. apply Z.mod_small. lia.
Qed.

(** Masking with [~(2^k - 1)] clears the low [k] bits. *)
Lemma land_not64_ones x k :
  0 ≤ x < 2 ^ 64 → 0 ≤ k ≤ 64 → Z.land x (not64 (2 ^ k - 1)) = x - x mod 2 ^ k.
Proof.
  intros Hx Hk. unfold not64, u64.
  rewrite <- Z.land_ones by lia. rewrite (Z.land_comm (Z.lnot _)), Z.land_assoc.
  rewrite Z.land_ones by lia. rewrite (Z.mod_small x) by lia.
  change (Z.land x (Z.lnot (2 ^ k - 1)) = x - x mod 2 ^ k).
  replace (2 ^ k - 1) with (Z.ones k) by (rewrite Z.ones_equiv; lia).
  rewrite <- Z.ldiff_land, Z.ldiff_ones_r by lia.
  rewrite Z.shiftl_mul_pow2, Z.shiftr_div_pow2 by lia.
  pose proof (Z.div_mod x (2 ^ k)). pose proof (pow2_gt0 k). lia.
Qed.

Lemma land_ones_mod x k : 0 ≤ k → Z.land x (2 ^ k - 1) = x mod 2 ^ k.
Proof.
  intros. rewrite <- Z.land_ones by lia. f_equal. rewrite Z.ones_equiv. lia.
Qed.

(** An aligned block of size [2^j] that meets an aligned block of size [2^k],
    [j <= k], lies inside it. *)
Lemma aligned_inside a b j k :
  0 ≤ j ≤ k → a mod 2 ^ j = 0 → b mod 2 ^ k = 0 →
  a < b + 2 ^ k → b < a + 2 ^ j → b ≤ a ∧ a + 2 ^ j ≤ b + 2 ^ k.
Proof.
  intros Hjk Ha Hb H1 H2.
  apply Z.mod_divide in Ha as [qa ->]; [|pose proof (pow2_gt0 j); lia].
  apply Z.mod_divide in Hb as [qb ->]; [|pose proof (pow2_gt0 k); lia].
  pose proof (pow2_gt0 j). pose proof (pow2_gt0 (k - j)).
  rewrite (pow2_split j k) in * by lia.
  set (e := 2 ^ j) in *. set (d := 2 ^ (k - j)) in *.
  assert (qa < qb * d + d) by (apply (Z.mul_lt_mono_pos_r e); lia).
  assert (qb * d < qa + 1) by (apply (Z.mul_lt_mono_pos_r e); lia).
  assert (qb * d * e ≤ qa * e) by (apply Z.mul_le_mono_nonneg_r; lia).
  assert ((qa + 1) * e ≤ (qb * d + d) * e) by (apply Z.mul_le_mono_nonneg_r; lia). lia.
Qed.

Lemma aligned_weaken a j k : 0 ≤ j ≤ k → a mod 2 ^ k = 0 → a mod 2 ^ j = 0.
Proof.
  intros Hjk Ha. apply Z.mod_divide in Ha as [q ->]; [|pose proof (pow2_gt0 k); lia].
  rewrite (pow2_split j k), Z.mul_assoc by lia. apply Z.mod_mul.
  pose proof (pow2_gt0 j); lia.
Qed.

Lemma aligned_add a j q : 0 ≤ j → a mod 2 ^ j = 0 → (a + q * 2 ^ j) mod 2 ^ j = 0.
Proof. intros. rewrite Z.mod_add; [done|]. pose proof (pow2_gt0 j); lia. Qed.

(** A multiple of [2^o] that is no multiple of [2^(o+1)] is one past such a multiple. *)
Lemma parent_aligned a o :
  0 ≤ o → a mod 2 ^ o = 0 → a mod 2 ^ (o + 1) ≠ 0 → (a - 2 ^ o) mod 2 ^ (o + 1) = 0.
Proof.
  intros Ho Ha Hna. pose proof (pow2_gt0 o Ho). rewrite (pow2_succ o Ho) in *.
  apply Z.mod_divide in Ha as [q ->]; [|lia].
  destruct (Z.Even_or_Odd q) as [[r ->]|[r ->]].
  - exfalso. apply Hna. replace (2 * r * 2 ^ o) with (r * (2 * 2 ^ o)) by lia. apply Z.mod_mul. lia.
  - replace ((2 * r + 1) * 2 ^ o - 2 ^ o) with (r * (2 * 2 ^ o)) by lia. apply Z.mod_mul. lia.
Qed.

Lemma div_mul_aligned a n : 0 < n → a mod n = 0 → a / n * n = a.
Proof. intros Hn Ha. pose proof (Z.div_mod a n). lia. Qed.
End words.

#[export] Hint Resolve pow2_gt0 : kmk.
#[export] Hint Rewrite u64_small u32_small s64_small s32_small using lia : kmk.

(** Case analysis on the first boolean comparison of the goal. *)
Ltac case_cmp :=
  match goal with
  | |- context [?a =? ?b] => destruct (Z.eqb_spec a b)
  | |- context [?a <? ?b] => destruct (Z.ltb_spec a b)
  | |- context [?a <=? ?b] => destruct (Z.leb_spec a b)
  | |- context [?a >? ?b] => rewrite (Z.gtb_ltb a b); destruct (Z.ltb_spec b a)
  | |- context [?a >=? ?b] => rewrite (Z.geb_leb a b); destruct (Z.leb_spec b a)
  end.
Tactic Notation "case_cmp" "as" ident(H) :=
  match goal with
  | |- context [?a =? ?b] => destruct (Z.eqb_spec a b) as [H|H]
  | |- context [?a <? ?b] => destruct (Z.ltb_spec a b) as [H|H]
  | |- context [?a <=? ?b] => destruct (Z.leb_spec a b) as [H|H]
  | |- context [?a >? ?b] => rewrite (Z.gtb_ltb a b); destruct (Z.ltb_spec b a) as [H|H]
  | |- context [?a >=? ?b] => rewrite (Z.geb_leb a b); destruct (Z.leb_spec b a) as [H|H]
  end.
