(* ===== verification/Macro.v ===== *)
(** * Shared macros and address-space constants

    [include/common/macro.h], [include/common/vars.h],
    [include/arch/aarch64/arch/mmu.h], [include/arch/aarch64/arch/boot.h] and
    the error numbers of [include/common/errno.h] that the modelled code
    returns.  The macros work on [unsigned long] operands, so every sum wraps
    at 64 bits. *)

From S2P Require Import Prelude.

(** ** macro.h *)
Definition ROUND_UP (x n : Z) : Z := Z.land (u64 (x + n - 1)) (not64 (n - 1)).
Definition ROUND_DOWN (x n : Z) : Z := Z.land x (not64 (n - 1)).
Definition DIV_ROUND_UP (n d : Z) : Z := u64 (n + d - 1) / d.
Definition IS_ALIGNED (x a : Z) : bool := Z.land x (a - 1) =? 0.
Definition BIT (x : Z) : Z := u64 (Z.shiftl 1 x).
Definition MAX (x y : Z) : Z := if x <? y then y else x.
Definition MIN (x y : Z) : Z := if x <? y then x else y.
Definition CACHELINE_SZ : Z := 64.
Definition pad_to_cache_line (n : Z) : Z := u64 (ROUND_UP n CACHELINE_SZ - n).

(** ** vars.h, mmu.h, boot.h, page_table.h, mm.h *)
Definition CPU_STACK_SIZE : Z := 4096.
Definition KBASE : Z := 0xFFFFFF0000000000.
Definition KSTACK_BASE : Z := 0xFFFFFFFF00000000.
Definition KSTACKx_ADDR (cpuid : Z) : Z := u64 (cpuid * 2 * CPU_STACK_SIZE + KSTACK_BASE).
Definition PHYS_MEM_END : Z := 0x3F000000.
Definition PAGE_SHIFT : Z := 12.
Definition PAGE_SIZE : Z := Z.shiftl 1 PAGE_SHIFT.
Definition phys_to_virt (x : Z) : Z := u64 (x + KBASE).
Definition virt_to_phys (x : Z) : Z := u64 (x - KBASE).

(** ** errno.h *)
Definition ENOMEM : Z := 12.
Definition EINVAL : Z := 22.
Definition EBADSYSCALL : Z := 202.
Definition EMAX : Z := 205.
Definition PTR_ERR (x : Z) : Z := s64 x.
Definition ERR_PTR (x : Z) : Z := u64 (s64 x).
Definition IS_ERR (x : Z) : bool := (s64 x <? 0) && (s64 x >? - EMAX).

(** ** Facts *)
Lemma PAGE_SIZE_eq : PAGE_SIZE = 4096.
Proof. reflexivity. Qed.

Lemma ROUND_DOWN_pow2 x k :
  0 ≤ x < 2 ^ 64 → 0 ≤ k ≤ 64 → ROUND_DOWN x (2 ^ k) = x - x mod 2 ^ k.
Proof. apply land_not64_ones. Qed.

Lemma ROUND_DOWN_aligned x k :
  0 ≤ x < 2 ^ 64 → 0 ≤ k ≤ 64 →
  ROUND_DOWN x (2 ^ k) mod 2 ^ k = 0 ∧ ROUND_DOWN x (2 ^ k) ≤ x < ROUND_DOWN x (2 ^ k) + 2 ^ k.
Proof.
  intros Hx Hk. rewrite ROUND_DOWN_pow2 by done. pose proof (pow2_gt0 k).
  pose proof (Z.mod_pos_bound x (2 ^ k)). split; [|lia].
  rewrite Zminus_mod_idemp_r, Z.sub_diag. by apply Z.mod_0_l; lia.
Qed.

Lemma ROUND_UP_pow2 x k :
  0 ≤ x → 0 ≤ k ≤ 64 → x + 2 ^ k - 1 < 2 ^ 64 →
  ROUND_UP x (2 ^ k) mod 2 ^ k = 0 ∧ x ≤ ROUND_UP x (2 ^ k) < x + 2 ^ k.
Proof.
  intros Hx Hk Hlt. pose proof (pow2_gt0 k). unfold ROUND_UP.
  rewrite u64_small by lia. fold (ROUND_DOWN (x + 2 ^ k - 1) (2 ^ k)).
  pose proof (ROUND_DOWN_aligned (x + 2 ^ k - 1) k). lia.
Qed.

(** An aligned address is its own rounding. *)
Lemma ROUND_UP_id x k :
  0 ≤ x → 0 ≤ k ≤ 64 → x + 2 ^ k - 1 < 2 ^ 64 → x mod 2 ^ k = 0 → ROUND_UP x (2 ^ k) = x.
Proof.
  intros Hx Hk Hlt Hal. destruct (ROUND_UP_pow2 x k) as [Hm Hr]; [done..|].
  destruct (aligned_inside (ROUND_UP x (2 ^ k)) x k k); [lia|done|done|lia|lia|]. lia.
Qed.

(** The direct map: on physical addresses below 2^40 the two conversions are
    inverse to each other and do not wrap. *)
Lemma phys_to_virt_eq x : 0 ≤ x < 2 ^ 40 → phys_to_virt x = x + KBASE.
Proof. intros. unfold phys_to_virt. apply u64_small. unfold KBASE. lia. Qed.

Lemma virt_to_phys_eq x : KBASE ≤ x < 2 ^ 64 → virt_to_phys x = x - KBASE.
Proof. intros. unfold virt_to_phys. apply u64_small. unfold KBASE in *. lia. Qed.

Lemma virt_phys_virt x : 0 ≤ x < 2 ^ 64 → virt_to_phys (phys_to_virt x) = x.
Proof.
  intros Hx. unfold virt_to_phys, phys_to_virt, u64. rewrite Zminus_mod_idemp_l.
  replace (x + KBASE - KBASE) with x by lia. by apply Z.mod_small.
Qed.

Lemma virt_to_phys_to_virt x : 0 ≤ x < 2 ^ 40 → virt_to_phys (phys_to_virt x) = x.
Proof. intros. rewrite phys_to_virt_eq by done. rewrite virt_to_phys_eq; unfold KBASE; lia. Qed.

(** The rounding is the only aligned address in reach. *)
Lemma ROUND_UP_unique x k y :
  0 ≤ x → 0 ≤ k ≤ 64 → x + 2 ^ k - 1 < 2 ^ 64 → y mod 2 ^ k = 0 → x ≤ y < x + 2 ^ k → ROUND_UP x (2 ^ k) = y.
Proof.
  intros Hx Hk Hlt Hy Hxy. destruct (ROUND_UP_pow2 x k) as [Hm Hr]; [done..|].
  destruct (aligned_inside (ROUND_UP x (2 ^ k)) y k k); [lia|done|done|lia|lia|]. lia.
Qed.
