(* ===== verification/ListHead.v ===== *)
(** * Intrusive doubly linked lists: [include/common/list.h]

    A [struct list_head] is a pair of pointers; all list nodes of one
    component live in a store [nheap] from node addresses to nodes.  The
    routines below perform the same loads and stores, in the same order, as
    the C code; a load or store through an address that holds no node halts
    with [HFault].

    [dlist h hd l] is the specification: starting from the head node at [hd],
    the [next] pointers visit exactly [l] and come back to [hd], and the [prev]
    pointers run the same cycle backwards. *)

From S2P Require Import Prelude.

Record list_head : Type := mk_list_head { prev : Z; next : Z }.

Abbreviation nheap := (gmap Z list_head).

Definition rd_next (a : Z) : M nheap Z := load (λ h : nheap, next <$> h !! a).
Definition rd_prev (a : Z) : M nheap Z := load (λ h : nheap, prev <$> h !! a).
Definition wr_next (a v : Z) : M nheap unit :=
  n ← load (λ h : nheap, h !! a);
  modify (λ h : nheap, <[a := mk_list_head (prev n) v]> h).
Definition wr_prev (a v : Z) : M nheap unit :=
  n ← load (λ h : nheap, h !! a);
  modify (λ h : nheap, <[a := mk_list_head v (next n)]> h).

Definition init_list_head (list : Z) : M nheap unit :=
  wr_next list list ;;
  wr_prev list list.

Definition list_add (new head : Z) : M nheap unit :=
  hn ← rd_next head;
  wr_next new hn ;;
  wr_prev new head ;;
  hn' ← rd_next head;
  wr_prev hn' new ;;
  wr_next head new.

Definition list_append (new head : Z) : M nheap unit :=
  tail ← rd_prev head;
  list_add new tail.

Definition list_del (node : Z) : M nheap unit :=
  p ← rd_prev node;
  n ← rd_next node;
  wr_next p n ;;
  n' ← rd_next node;
  p' ← rd_prev node;
  wr_prev n' p'.

Definition list_empty (head : Z) : M nheap bool :=
  n ← rd_next head;
  mret (n =? head).

(** [for_each_in_list(elem, ...)] that stops with [true] at the node [target];
    [fuel] bounds the number of nodes visited. *)
Fixpoint list_find (fuel : nat) (elem head target : Z) : M nheap bool :=
  match fuel with
  | O => stop HFuel
  | S fuel' =>
      if elem =? head then mret false
      else if elem =? target then mret true
      else (n ← rd_next elem; list_find fuel' n head target)
  end.

(** The nodes [for_each_in_list] visits, in order. *)
Fixpoint list_nodes (fuel : nat) (elem head : Z) : M nheap (list Z) :=
  match fuel with
  | O => stop HFuel
  | S fuel' =>
      if elem =? head then mret []
      else (n ← rd_next elem; l ← list_nodes fuel' n head; mret (elem :: l))
  end.

(** ** Well-linked cycles *)
Definition nxt (h : nheap) (a : Z) : option Z := next <$> h !! a.
Definition prv (h : nheap) (a : Z) : option Z := prev <$> h !! a.

Definition linked (h : nheap) (a b : Z) : Prop := nxt h a = Some b ∧ prv h b = Some a.

Fixpoint chain (h : nheap) (a : Z) (l : list Z) (b : Z) : Prop :=
  match l with
  | [] => linked h a b
  | x :: l' => linked h a x ∧ chain h x l' b
  end.

Definition dlist (h : nheap) (hd : Z) (l : list Z) : Prop :=
  NoDup (hd :: l) ∧ chain h hd l hd.

(** ** Stores *)
Section stores.
Implicit Types (h : nheap) (a b v : Z).

Lemma wp_rd_next h a v Q : nxt h a = Some v → Q v h → wp (rd_next a) h Q.
Proof. intros. by eapply wp_load. Qed.

Lemma wp_rd_prev h a v Q : prv h a = Some v → Q v h → wp (rd_prev a) h Q.
Proof. intros. by eapply wp_load. Qed.

Lemma wp_wr_next h a v Q :
  is_Some (h !! a) →
  (∀ h', (∀ b, nxt h' b = if decide (b = a) then Some v else nxt h b) →
         (∀ b, prv h' b = prv h b) → (∀ b, b ≠ a → h' !! b = h !! b) → Q tt h') →
  wp (wr_next a v) h Q.
Proof.
  intros [n Hn] HQ. unfold wr_next. wp_go. apply HQ; intros b; unfold nxt, prv.
  - rewrite lookup_insert. repeat case_decide; naive_solver.
  - rewrite lookup_insert. case_decide; subst; [by rewrite Hn|done].
  - intros. by rewrite lookup_insert_ne.
Qed.

Lemma wp_wr_prev h a v Q :
  is_Some (h !! a) →
  (∀ h', (∀ b, nxt h' b = nxt h b) →
         (∀ b, prv h' b = if decide (b = a) then Some v else prv h b) →
         (∀ b, b ≠ a → h' !! b = h !! b) → Q tt h') →
  wp (wr_prev a v) h Q.
Proof.
  intros [n Hn] HQ. unfold wr_prev. wp_go. apply HQ; intros b; unfold nxt, prv.
  - rewrite lookup_insert. case_decide; subst; [by rewrite Hn|done].
  - rewrite lookup_insert. repeat case_decide; naive_solver.
  - intros. by rewrite lookup_insert_ne.
Qed.

Lemma nxt_is_Some h a v : nxt h a = Some v → is_Some (h !! a).
Proof. unfold nxt. destruct (h !! a); naive_solver. Qed.

Lemma prv_is_Some h a v : prv h a = Some v → is_Some (h !! a).
Proof. unfold prv. destruct (h !! a); naive_solver. Qed.

Lemma nxt_of_is_Some h a : is_Some (h !! a) → ∃ v, nxt h a = Some v.
Proof. intros [n Hn]. unfold nxt. rewrite Hn. eauto. Qed.
End stores.

#[export] Hint Resolve nxt_is_Some prv_is_Some : kmk.

(** ** Chains *)
Section chains.
Implicit Types (h : nheap) (a b x : Z) (l : list Z).

Lemma chain_frame h h' a l b :
  (∀ x, x ∈ a :: l → nxt h' x = nxt h x) →
  (∀ x, x ∈ l ++ [b] → prv h' x = prv h x) →
  chain h a l b → chain h' a l b.
Proof.
  revert a. induction l as [|y l IH]; intros a Hn Hp; simpl.
  - intros [H1 H2]. split; [rewrite Hn|rewrite Hp]; set_solver.
  - intros [[H1 H2] Hc]. split.
    + split; [rewrite Hn|rewrite Hp]; set_solver.
    + apply IH; [set_solver..|done].
Qed.

Lemma chain_app h a l1 x l2 b :
  chain h a (l1 ++ x :: l2) b ↔ chain h a l1 x ∧ chain h x l2 b.
Proof. revert a. induction l1 as [|y l1 IH]; intros a; simpl; [done|]. rewrite IH. tauto. Qed.

Lemma chain_first h a l b : chain h a l b → nxt h a = Some (default b (head l)).
Proof. destruct l as [|x l]; simpl; unfold linked; naive_solver. Qed.

(** The links determine the list. *)
Lemma chain_unique h a l l' b : b ∉ l → b ∉ l' → chain h a l b → chain h a l' b → l = l'.
Proof.
  revert a l'. induction l as [|x l IH]; intros a [|x' l'] Hb Hb' Hc Hc'; [done|..];
    pose proof (chain_first _ _ _ _ Hc) as Hf; rewrite (chain_first _ _ _ _ Hc') in Hf; injection Hf as Hf; simpl in Hf; subst;
    [set_solver|set_solver|]. f_equal. destruct Hc as [_ Hc], Hc' as [_ Hc']. eapply IH; [set_solver|set_solver|done|done].
Qed.

Lemma dlist_unique h hd l l' : dlist h hd l → dlist h hd l' → l = l'.
Proof. intros [[H1 _]%NoDup_cons Hc] [[H2 _]%NoDup_cons Hc']. by eapply chain_unique. Qed.

Lemma chain_last h a l b : chain h a l b → prv h b = Some (default a (last l)).
Proof.
  revert a. induction l as [|x l IH]; intros a; [by intros []|].
  intros [_ Hc]. rewrite (IH x Hc). destruct l as [|y l]; [done|].
  rewrite last_cons_cons. by destruct (last (y :: l)) eqn:E; [|apply last_None in E].
Qed.

(** Redirect the last link of a chain to another node. *)
Lemma chain_relink h h' a l b b' :
  chain h a l b → NoDup (a :: l) →
  nxt h' (default a (last l)) = Some b' → prv h' b' = Some (default a (last l)) →
  (∀ x, x ∈ a :: l → x ≠ default a (last l) → nxt h' x = nxt h x) →
  (∀ x, x ∈ l → prv h' x = prv h x) →
  chain h' a l b'.
Proof.
  revert a. induction l as [|y l IH]; intros a Hc Hnd Hn Hp Hnx Hpx; [by split|].
  destruct Hc as [[Hn1 Hp1] Hc]. apply NoDup_cons in Hnd as [Ha Hnd].
  assert (default a (last (y :: l)) = default y (last l)) as E.
  { destruct l as [|z l]; [done|]. rewrite last_cons_cons.
    by destruct (last (z :: l)) eqn:E; [|apply last_None in E]. }
  rewrite E in *.
  assert (default y (last l) ∈ y :: l) as Hin.
  { destruct (last l) as [z|] eqn:El; simpl; [|set_solver]. apply last_Some_elem_of in El. set_solver. }
  split.
  - split; [rewrite Hnx; [done|set_solver|set_solver]|]. rewrite Hpx; set_solver.
  - apply IH; [done..|set_solver|set_solver].
Qed.

Lemma dlist_frame h h' hd l :
  (∀ x, x ∈ hd :: l → h' !! x = h !! x) → dlist h hd l → dlist h' hd l.
Proof.
  intros Hf [Hnd Hc]. split; [done|].
  eapply chain_frame; [| |exact Hc]; intros x Hx; unfold nxt, prv; rewrite Hf; set_solver.
Qed.

Lemma chain_is_Some h a l b : chain h a l b → ∀ x, x ∈ a :: l → is_Some (h !! x).
Proof.
  revert a. induction l as [|y l IH]; intros a Hc x Hx.
  - apply list_elem_of_singleton in Hx as ->. destruct Hc. eauto with kmk.
  - destruct Hc as [[Hn _] Hc]. apply elem_of_cons in Hx as [->|Hx]; [eauto with kmk|]. by eapply IH.
Qed.

Lemma dlist_is_Some h hd l x : dlist h hd l → x ∈ hd :: l → is_Some (h !! x).
Proof. intros [_ Hc]. by eapply chain_is_Some. Qed.
End chains.

(** ** The operations meet the specification

    Each lemma also says which nodes are left alone, so that the other lists
    of the same store are preserved ([dlist_frame]). *)
Section operations.
Implicit Types (h : nheap) (hd new node : Z) (l : list Z).

Lemma wp_init_list_head h hd (Q : unit → nheap → Prop) :
  is_Some (h !! hd) →
  (∀ h', dlist h' hd [] → (∀ b, b ≠ hd → h' !! b = h !! b) → Q tt h') →
  wp (init_list_head hd) h Q.
Proof.
  intros Hs HQ. unfold init_list_head. apply wp_bind, wp_wr_next; [done|].
  intros h1 Hn1 Hp1 Hf1. apply wp_wr_prev.
  { eapply nxt_is_Some. rewrite Hn1. by rewrite decide_True. }
  intros h2 Hn2 Hp2 Hf2. apply HQ.
  - split; [apply NoDup_singleton|]. split.
    + by rewrite Hn2, Hn1, decide_True.
    + by rewrite Hp2, decide_True.
  - intros b Hb. by rewrite Hf2, Hf1.
Qed.

Lemma wp_list_add_at h pre l new (Q : unit → nheap → Prop) (b : Z) :
  (* insert [new] right after [pre] in a chain that runs on to [b] *)
  chain h pre l b → NoDup (pre :: l) → b ∉ l → new ∉ pre :: l → new ≠ b →
  is_Some (h !! new) →
  (∀ h', chain h' pre (new :: l) b →
         (∀ x, x ≠ new → x ≠ pre → nxt h' x = nxt h x) →
         (∀ x, x ≠ new → x ≠ default b (head l) → prv h' x = prv h x) →
         (∀ x, x ≠ new → x ≠ pre → x ∉ l ++ [b] → h' !! x = h !! x) → Q tt h') →
  wp (list_add new pre) h Q.
Proof.
  intros Hc Hnd Hb Hnew Hnb Hs HQ. unfold list_add.
  pose proof (chain_first _ _ _ _ Hc) as Hfst. set (f := default b (head l)) in *.
  assert (f ∈ l ++ [b]) as Hf by (subst f; destruct l; set_solver).
  assert (f ≠ new) as Hfnew by set_solver.
  assert (is_Some (h !! f)) as Hsf.
  { subst f. destruct l as [|x l]; simpl in *; destruct Hc; [eauto with kmk|].
    destruct H; eauto with kmk. }
  apply wp_bind. eapply wp_rd_next; [exact Hfst|].
  apply wp_bind, wp_wr_next; [done|]. intros h1 Hn1 Hp1 Hf1.
  apply wp_bind, wp_wr_prev.
  { eapply nxt_is_Some. by rewrite Hn1, decide_True. }
  intros h2 Hn2 Hp2 Hf2.
  apply wp_bind. eapply (wp_rd_next _ _ f).
  { rewrite Hn2, Hn1, decide_False by set_solver. done. }
  apply wp_bind, wp_wr_prev.
  { rewrite Hf2, Hf1 by done. done. }
  intros h3 Hn3 Hp3 Hf3. apply wp_wr_next.
  { eapply nxt_is_Some. by rewrite Hn3, Hn2, Hn1, decide_False, Hfst by set_solver. }
  intros h4 Hn4 Hp4 Hf4.
  assert (∀ x, nxt h4 x = if decide (x = pre) then Some new else if decide (x = new) then Some f else nxt h x) as Hnx.
  { intros x. by rewrite Hn4, Hn3, Hn2, Hn1. }
  assert (∀ x, prv h4 x = if decide (x = f) then Some new else if decide (x = new) then Some pre else prv h x) as Hpx.
  { intros x. by rewrite Hp4, Hp3, Hp2, Hp1. }
  clear Hn1 Hn2 Hn3 Hn4 Hp1 Hp2 Hp3 Hp4.
  apply HQ.
  - split.
    + split; [by rewrite Hnx, decide_True|]. by rewrite Hpx, decide_False, decide_True.
    + destruct l as [|x l]; simpl in *; subst f.
      * split; rewrite ?Hnx, ?Hpx; [rewrite decide_False, decide_True by set_solver; done|].
        by rewrite decide_True.
      * destruct Hc as [_ Hc]. apply NoDup_cons in Hnd as [Hpre Hnd]. apply NoDup_cons in Hnd as [Hx Hnd].
        split; [split; rewrite ?Hnx, ?Hpx; [rewrite decide_False, decide_True by set_solver; done|by rewrite decide_True]|].
        eapply chain_frame; [| |exact Hc]; intros y Hy.
        -- rewrite Hnx, !decide_False by set_solver. done.
        -- rewrite Hpx, !decide_False by set_solver. done.
  - intros x Hx1 Hx2. by rewrite Hnx, !decide_False.
  - intros x Hx1 Hx2. by rewrite Hpx, !decide_False.
  - intros x Hx1 Hx2 Hx3. rewrite Hf4, Hf3, Hf2, Hf1; set_solver.
Qed.

Lemma wp_list_add h hd l new (Q : unit → nheap → Prop) :
  dlist h hd l → new ∉ hd :: l → is_Some (h !! new) →
  (∀ h', dlist h' hd (new :: l) → (∀ x, x ∉ new :: hd :: l → h' !! x = h !! x) → Q tt h') →
  wp (list_add new hd) h Q.
Proof.
  intros [Hnd Hc] Hnew Hs HQ. pose proof Hnd as Hnd'. apply NoDup_cons in Hnd' as [Hhd _].
  eapply (wp_list_add_at h hd l new _ hd); [done|done|done|done|set_solver|done|].
  intros h' Hc' _ _ Hf. apply HQ.
  - split; [|done]. apply NoDup_cons. split; [set_solver|]. apply NoDup_cons.
    split; [set_solver|]. by apply NoDup_cons in Hnd as [_ ?].
  - intros x Hx. apply Hf; set_solver.
Qed.

Lemma wp_list_append h hd l new (Q : unit → nheap → Prop) :
  dlist h hd l → new ∉ hd :: l → is_Some (h !! new) →
  (∀ h', dlist h' hd (l ++ [new]) → (∀ x, x ∉ new :: hd :: l → h' !! x = h !! x) → Q tt h') →
  wp (list_append new hd) h Q.
Proof.
  intros [Hnd Hc] Hnew Hs HQ. unfold list_append. apply wp_bind.
  eapply wp_rd_prev; [by eapply chain_last|].
  apply NoDup_cons in Hnd as [Hhd Hnd].
  destruct l as [|t l _] using rev_ind; simpl.
  - apply (wp_list_add h hd []); [by split; [apply NoDup_singleton|]|done|done|]. naive_solver.
  - rewrite last_snoc; simpl. apply chain_app in Hc as [Hc1 Hc2].
    apply NoDup_app in Hnd as (Hnd & Hdis & _).
    assert (t ∉ l) as Ht by (intros Hin; specialize (Hdis t Hin); set_solver).
    eapply (wp_list_add_at h t [] new _ hd); [done|apply NoDup_singleton|set_solver..|done|].
    intros h' Hc' Hn' Hp' Hf. apply HQ.
    + split.
      * apply NoDup_cons. split; [set_solver|]. apply NoDup_app. split; [|split; [|apply NoDup_singleton]].
        -- apply NoDup_app. split; [done|split; [set_solver|apply NoDup_singleton]].
        -- set_solver.
      * rewrite <-app_assoc. simpl. apply chain_app. split; [|done].
        eapply chain_frame; [| |exact Hc1]; intros x Hx.
        -- apply Hn'; [set_solver|]. intros ->. set_solver.
        -- apply Hp'; [set_solver|]. simpl. intros ->. set_solver.
    + intros x Hx. apply Hf; set_solver.
Qed.

(** The neighbours [p] and [n] of [node] in the cycle. *)
Lemma del_split_facts hd l1 node l2 :
  NoDup (hd :: l1 ++ node :: l2) →
  let p := default hd (last l1) in
  let n := default hd (head l2) in
  p ∈ hd :: l1 ∧ n ∈ l2 ++ [hd] ∧ p ≠ node ∧ n ≠ node ∧
  (∀ x, x ∈ l1 → x ≠ n) ∧ (∀ x, x ∈ l2 → x ≠ p) ∧ NoDup (hd :: l1) ∧ NoDup (hd :: l1 ++ l2).
Proof.
  intros Hnd p n. apply NoDup_cons in Hnd as [Hhd Hnd].
  apply NoDup_app in Hnd as (Hnd1 & Hdis & Hnd2). apply NoDup_cons in Hnd2 as [Hnode Hnd2].
  assert (p ∈ hd :: l1) as Hp.
  { subst p. destruct (last l1) as [y|] eqn:E; simpl; [|set_solver].
    apply last_Some_elem_of in E. set_solver. }
  assert (n ∈ l2 ++ [hd]) as Hn by (subst n; destruct l2; set_solver).
  clearbody p n. split_and!; [done|done|set_solver..| |].
  - apply NoDup_cons. set_solver.
  - apply NoDup_cons. split; [set_solver|]. apply NoDup_app. set_solver.
Qed.

Lemma del_chain h h2 hd l1 node l2 p n :
  chain h hd l1 node → chain h node l2 hd → NoDup (hd :: l1) → NoDup (hd :: l1 ++ l2) →
  p = default hd (last l1) → n = default hd (head l2) →
  (∀ x, x ∈ l1 → x ≠ n) → (∀ x, x ∈ l2 → x ≠ p) →
  (∀ x, nxt h2 x = if decide (x = p) then Some n else nxt h x) →
  (∀ x, prv h2 x = if decide (x = n) then Some p else prv h x) →
  chain h2 hd (l1 ++ l2) hd.
Proof.
  intros Hc1 Hc2 Hnd1 Hnd Hp Hn Hl1 Hl2 Hnx Hpx.
  assert (chain h2 hd l1 n) as Hc1'.
  { eapply chain_relink; [exact Hc1|done|..]; rewrite <- ?Hp.
    - by rewrite Hnx, decide_True.
    - by rewrite Hpx, decide_True.
    - intros x Hx Hne. by rewrite Hnx, decide_False.
    - intros x Hx. rewrite Hpx, decide_False by auto. done. }
  destruct l2 as [|y l2]; simpl in Hn; subst n; [by rewrite app_nil_r|].
  destruct Hc2 as [_ Hc2]. apply chain_app. split; [done|].
  apply NoDup_cons in Hnd as [Hhd Hnd]. apply NoDup_app in Hnd as (_ & _ & Hnd).
  apply NoDup_cons in Hnd as [Hy _].
  eapply chain_frame; [| |exact Hc2]; intros x Hx.
  - rewrite Hnx, decide_False by auto. done.
  - rewrite Hpx, decide_False; [done|]. intros ->.
    apply elem_of_app in Hx as [?| ?%list_elem_of_singleton]; set_solver.
Qed.

Lemma wp_list_del h hd l1 node l2 (Q : unit → nheap → Prop) :
  dlist h hd (l1 ++ node :: l2) →
  (∀ h', dlist h' hd (l1 ++ l2) → (∀ x, x ∉ hd :: l1 ++ node :: l2 → h' !! x = h !! x) →
         h' !! node = h !! node → Q tt h') →
  wp (list_del node) h Q.
Proof.
  intros [Hnd Hc] HQ. unfold list_del. apply chain_app in Hc as [Hc1 Hc2].
  pose proof (chain_last _ _ _ _ Hc1) as Hp. pose proof (chain_first _ _ _ _ Hc2) as Hn.
  set (p := default hd (last l1)) in *. set (n := default hd (head l2)) in *.
  destruct (del_split_facts hd l1 node l2 Hnd) as (Hpin & Hnin & Hpn & Hnn & Hl1n & Hl2p & Hnd1 & Hnd2).
  fold p n in Hpin, Hnin, Hpn, Hnn, Hl1n, Hl2p.
  apply wp_bind. eapply wp_rd_prev; [done|]. apply wp_bind. eapply wp_rd_next; [done|].
  apply wp_bind, wp_wr_next; [eapply chain_is_Some; [exact Hc1|done]|]. intros h1 Hn1 Hp1 Hf1.
  apply wp_bind. eapply (wp_rd_next _ _ n); [by rewrite Hn1, decide_False by done|].
  apply wp_bind. eapply (wp_rd_prev _ _ p); [by rewrite Hp1|].
  assert (is_Some (h1 !! n)) as Hsn.
  { destruct (decide (n = p)) as [->|Hne].
    { eapply nxt_is_Some. by rewrite Hn1, decide_True. }
    rewrite Hf1 by done. apply elem_of_app in Hnin as [?| ->%list_elem_of_singleton].
    - eapply chain_is_Some; [exact Hc2|]. by right.
    - eapply chain_is_Some; [exact Hc1|]. by left. }
  apply wp_wr_prev; [done|]. intros h2 Hn2 Hp2 Hf2.
  assert (∀ x, nxt h2 x = if decide (x = p) then Some n else nxt h x) as Hnx by (intros; by rewrite Hn2, Hn1).
  assert (∀ x, prv h2 x = if decide (x = n) then Some p else prv h x) as Hpx by (intros; by rewrite Hp2, Hp1).
  apply HQ.
  - split; [done|]. eapply del_chain; [exact Hc1|exact Hc2|done..].
  - intros x [Hx1 [Hx2 Hx3]%not_elem_of_app]%not_elem_of_cons. rewrite Hf2, Hf1; [done| |].
    + intros ->. apply elem_of_cons in Hpin as [?|?]; done.
    + intros ->. apply elem_of_app in Hnin as [?| ?%list_elem_of_singleton]; [|done].
      apply Hx3. by right.
  - by rewrite Hf2, Hf1.
Qed.

Lemma wp_list_empty h hd l (Q : bool → nheap → Prop) :
  dlist h hd l → Q (bool_decide (l = [])) h → wp (list_empty hd) h Q.
Proof.
  intros [Hnd Hc] HQ. unfold list_empty. apply wp_bind.
  eapply wp_rd_next; [by eapply chain_first|]. apply wp_ret.
  apply NoDup_cons in Hnd as [Hhd _].
  destruct l as [|x l]; simpl; [by rewrite Z.eqb_refl|].
  destruct (Z.eqb_spec x hd); [set_solver|done].
Qed.

Lemma wp_list_find_chain h a l hd target fuel (Q : bool → nheap → Prop) :
  chain h a l hd → hd ∉ l → target ≠ hd → (length l < fuel)%nat →
  Q (bool_decide (target ∈ l)) h →
  wp (n ← rd_next a; list_find fuel n hd target) h Q.
Proof.
  revert a fuel. induction l as [|x l IH]; intros a fuel Hc Hhd Ht Hf HQ.
  - destruct Hc as [Hn _]. apply wp_bind. eapply wp_rd_next; [done|].
    destruct fuel; [simpl in *; lia|]. simpl. by rewrite Z.eqb_refl.
  - destruct Hc as [[Hn _] Hc]. apply wp_bind. eapply wp_rd_next; [done|].
    destruct fuel; [simpl in *; lia|]. cbn [list_find].
    destruct (Z.eqb_spec x hd); [set_solver|].
    destruct (Z.eqb_spec x target) as [->|].
    + rewrite bool_decide_true in HQ by set_solver. done.
    + apply IH; [done|set_solver|done|simpl in *; lia|].
      by replace (bool_decide (target ∈ l)) with (bool_decide (target ∈ x :: l))
        by (apply bool_decide_ext; set_solver).
Qed.

Lemma assoc_bind_nodes fuel x hd h :
  (n ← rd_next x; l ← list_nodes fuel n hd; mret (x :: l)) h
  = (l ← (n ← rd_next x; list_nodes fuel n hd); mret (x :: l)) h.
Proof. unfold mbind, M_bind. by destruct (rd_next x h) as [[? ?]|]. Qed.

Lemma wp_list_nodes_chain h a l hd fuel (Q : list Z → nheap → Prop) :
  chain h a l hd → hd ∉ l → (length l < fuel)%nat → Q l h →
  wp (n ← rd_next a; list_nodes fuel n hd) h Q.
Proof.
  revert a fuel Q. induction l as [|x l IH]; intros a fuel Q Hc Hhd Hf HQ.
  - destruct Hc as [Hn _]. apply wp_bind. eapply wp_rd_next; [done|].
    destruct fuel; [simpl in *; lia|]. simpl. by rewrite Z.eqb_refl.
  - destruct Hc as [[Hn _] Hc]. apply wp_bind. eapply wp_rd_next; [done|].
    destruct fuel; [simpl in *; lia|]. cbn [list_nodes].
    destruct (Z.eqb_spec x hd); [set_solver|].
    unfold wp. rewrite (assoc_bind_nodes fuel x hd).
    apply wp_bind. apply IH; [done|set_solver|simpl in *; lia|]. by apply wp_ret.
Qed.
End operations.
