(* ===== verification/HList.v ===== *)
(** * Lists with a one-word head: [hlist] of [include/common/list.h]

    A head is one pointer, a node is a [next] pointer followed by [pprev], the
    address of the pointer that points to the node.  Since [pprev] may point
    into the head or into another node, memory is a map from addresses to
    64-bit words: the [next] field of the node at [n] is the word at [n], its
    [pprev] field the word at [n + 8]. *)

From S2P Require Import Prelude Macro.

Abbreviation words := (gmap Z Z).

Definition wld (a : Z) : M words Z := load (λ m : words, m !! a).
Definition wst (a v : Z) : M words unit := wld a ;; modify (λ m : words, <[a := v]> m).
Definition pprev (node : Z) : Z := node + 8.

Definition init_hlist_head (head : Z) : M words unit := wst head NULL.

Definition init_hlist_node (node : Z) : M words unit :=
  wst node NULL ;;
  wst (pprev node) NULL.

Definition hlist_add (new head : Z) : M words unit :=
  hn ← wld head;
  wst new hn ;;
  wst (pprev new) head ;;
  hn ← wld head;
  (if negb (hn =? NULL) then (hn ← wld head; wst (pprev hn) new) else mret tt) ;;
  wst head new.

Definition hlist_del (node : Z) : M words unit :=
  n ← wld node;
  (if negb (n =? NULL) then (n ← wld node; p ← wld (pprev node); wst (pprev n) p) else mret tt) ;;
  p ← wld (pprev node);
  n ← wld node;
  wst p n.

Definition hlist_empty (head : Z) : M words bool :=
  n ← wld head;
  mret (n =? NULL).

(** The nodes [for_each_in_hlist] visits from [elem] on *)
Fixpoint hlist_nodes (fuel : nat) (elem : Z) : M words (list Z) :=
  match fuel with
  | O => stop HFuel
  | S fuel' =>
      if elem =? NULL then mret []
      else (n ← wld elem; l ← hlist_nodes fuel' n; mret (elem :: l))
  end.

(** ** The list a head stands for *)

(** The pointer at [cell] leads through the nodes [l]. *)
Fixpoint hseg (m : words) (cell : Z) (l : list Z) : Prop :=
  match l with
  | [] => m !! cell = Some NULL
  | n :: l' => m !! cell = Some n ∧ n ≠ NULL ∧ m !! pprev n = Some cell ∧ hseg m n l'
  end.

(** The words the list occupies. *)
Definition node_cells (n : Z) : list Z := [n; pprev n].
Definition cells (head : Z) (l : list Z) : list Z := head :: (l ≫= node_cells).

Definition hlist (m : words) (head : Z) (l : list Z) : Prop := hseg m head l ∧ NoDup (cells head l).

Section facts.
Implicit Types (m : words) (l : list Z).

Lemma cells_cons head n l : cells head (n :: l) = head :: n :: pprev n :: (l ≫= node_cells).
Proof. done. Qed.

(** Changes elsewhere do not matter. *)
Lemma hseg_frame m m' cell l : (∀ a, a ∈ cells cell l → m' !! a = m !! a) → hseg m cell l → hseg m' cell l.
Proof.
  revert cell. induction l as [|n l IH]; intros cell Hf; cbn [hseg]; [by rewrite Hf by left|].
  rewrite cells_cons in Hf. intros (H1 & H2 & H3 & H4). rewrite !Hf by set_solver. split_and!; [done..|].
  apply IH; [|done]. intros a Ha. apply Hf. unfold cells in Ha. set_solver.
Qed.

Lemma wp_wld m a v (Q : Z → words → Prop) : m !! a = Some v → Q v m → wp (wld a) m Q.
Proof. apply wp_load. Qed.

Lemma wp_wst m a v (Q : unit → words → Prop) : is_Some (m !! a) → Q tt (<[a := v]> m) → wp (wst a v) m Q.
Proof. intros [w Hw] HQ. unfold wst. apply wp_bind. eapply wp_wld; [done|]. by apply wp_modify. Qed.

Lemma hseg_head m cell l : hseg m cell l → m !! cell = Some (default NULL (head l)).
Proof. destruct l; cbn; naive_solver. Qed.
End facts.

(** ** Adding and removing *)

(** The successor [nx], if there is one, learns that the pointer to it is at [c]. *)
Definition link_next (m : words) (nx c : Z) : words := if nx =? NULL then m else <[pprev nx := c]> m.
Definition add_mem (m : words) (new head nx : Z) : words := <[head := new]> (link_next (<[pprev new := head]> (<[new := nx]> m)) nx new).
Definition del_mem (m : words) (c nx : Z) : words := <[c := nx]> (link_next m nx c).

Section ops.
Implicit Types (m : words) (l : list Z).

Lemma lookup_link_next m nx c a : a ≠ pprev nx → link_next m nx c !! a = m !! a.
Proof. intros Ha. unfold link_next. case_cmp; [done|]. by rewrite lookup_insert_ne. Qed.

Lemma is_Some_link_next m nx c a : is_Some (m !! a) → is_Some (link_next m nx c !! a).
Proof. intros Ha. unfold link_next. case_cmp; [done|]. rewrite lookup_insert. case_decide; eauto. Qed.

Lemma hseg_next_cell m c l : hseg m c l → default NULL (head l) ≠ NULL → m !! pprev (default NULL (head l)) = Some c.
Proof. destruct l; cbn; naive_solver. Qed.

Lemma wp_hlist_add m hd l new (Q : unit → words → Prop) :
  hlist m hd l → is_Some (m !! new) → is_Some (m !! pprev new) → NoDup (cells hd (new :: l)) →
  Q tt (add_mem m new hd (default NULL (head l))) → wp (hlist_add new hd) m Q.
Proof.
  intros [Hs _] Hn Hp Hnd HQ. pose proof (hseg_head _ _ _ Hs) as Hh. pose proof (hseg_next_cell _ _ _ Hs) as Hnx.
  set (nx := default NULL (head l)) in *. rewrite cells_cons, !NoDup_cons in Hnd. destruct Hnd as (H1 & H2 & _).
  unfold hlist_add. apply wp_bind. eapply wp_wld; [done|]. apply wp_bind, wp_wst; [done|].
  apply wp_bind, wp_wst; [rewrite lookup_insert; case_decide; eauto|].
  set (m2 := <[pprev new := hd]> (<[new := nx]> m)). assert (m2 !! hd = Some nx) as Hh2 by (unfold m2; rewrite !lookup_insert_ne by set_solver; done).
  apply wp_bind. eapply wp_wld; [done|]. apply wp_bind. unfold add_mem in HQ. fold m2 in HQ. unfold link_next in HQ.
  destruct (Z.eqb_spec nx NULL) as [E|Hne]; cbn [negb].
  - apply wp_ret, wp_wst; [by rewrite Hh2|done].
  - apply wp_bind. eapply wp_wld; [done|]. apply wp_wst; [unfold m2; rewrite !lookup_insert; repeat case_decide; rewrite ?Hnx; eauto|].
    apply wp_wst; [rewrite lookup_insert; case_decide; rewrite ?Hh2; eauto|done].
Qed.

Lemma hlist_added m hd l new : hlist m hd l → new ≠ NULL → NoDup (cells hd (new :: l)) →
  hlist (add_mem m new hd (default NULL (head l))) hd (new :: l).
Proof.
  intros [Hs _] H0 Hnd. split; [|done]. rewrite cells_cons in Hnd. destruct l as [|x l]; cbn [hseg head default from_option id] in *.
  - unfold add_mem, link_next. rewrite Z.eqb_refl. rewrite !NoDup_cons, !not_elem_of_cons in Hnd. destruct_and! Hnd.
    rewrite lookup_insert_eq, !(lookup_insert_ne _ hd), lookup_insert_eq, lookup_insert_ne, lookup_insert_eq by congruence. done.
  - destruct Hs as (Hx & Hx0 & Hxp & Hs). cbn [mbind list_bind app node_cells] in Hnd. set (rest := list_bind _ _ node_cells l) in Hnd.
    rewrite !NoDup_cons, !not_elem_of_cons in Hnd. destruct_and! Hnd.
    unfold add_mem, link_next. rewrite (proj2 (Z.eqb_neq x NULL)) by done. split_and!; [by rewrite lookup_insert_eq|done| | |done| |].
    + rewrite !lookup_insert_ne, lookup_insert_eq by congruence. done.
    + rewrite !lookup_insert_ne, lookup_insert_eq by congruence. done.
    + rewrite lookup_insert_ne, lookup_insert_eq by congruence. done.
    + eapply hseg_frame; [|exact Hs]. intros a [->|Ha]%elem_of_cons; [by rewrite !lookup_insert_ne by congruence|].
      fold rest in Ha. rewrite !lookup_insert_ne by (intros <-; done). done.
Qed.
Lemma in_node_cells z l : z ∈ l → z ∈ l ≫= node_cells ∧ pprev z ∈ l ≫= node_cells.
Proof. intros Hz. split; apply list_elem_of_bind; exists z; (split; [|done]); unfold node_cells; [left|right; left]. Qed.

Lemma last_in y l : default y (last l) ∈ y :: l.
Proof. destruct (last l) as [z|] eqn:E; [|left]. right. apply last_Some in E as [l' ->]. set_solver. Qed.

Lemma lookup_del_mem m c nx a : a ≠ c → (nx ≠ NULL → a ≠ pprev nx) → del_mem m c nx !! a = m !! a.
Proof.
  intros Hc Hn. unfold del_mem. rewrite lookup_insert_ne by congruence. unfold link_next. case_cmp as Hz; [done|].
  rewrite lookup_insert_ne; [done|]. intros E. by apply (Hn Hz).
Qed.

(** The head of the list after the removed node. *)
Lemma hseg_del_head m cell n l : hseg m cell (n :: l) → NoDup (cells cell (n :: l)) → hseg (del_mem m cell (default NULL (head l))) cell l.
Proof.
  intros (H1 & H2 & H3 & Hs) Hnd. destruct l as [|x l]; cbn [hseg head default from_option id] in *; [by unfold del_mem; rewrite lookup_insert_eq|].
  destruct Hs as (Hx & Hx0 & Hxp & Hs). rewrite cells_cons in Hnd. cbn [mbind list_bind app node_cells] in Hnd. set (rest := list_bind _ _ node_cells l) in Hnd.
  rewrite !NoDup_cons, !not_elem_of_cons in Hnd. destruct_and! Hnd.
  unfold del_mem, link_next. rewrite (proj2 (Z.eqb_neq x NULL)) by done. split_and!; [by rewrite lookup_insert_eq|done| |].
  - rewrite lookup_insert_ne, lookup_insert_eq by congruence. done.
  - eapply hseg_frame; [|exact Hs]. intros a [->|Ha]%elem_of_cons; [by rewrite !lookup_insert_ne by congruence|].
    fold rest in Ha. rewrite !lookup_insert_ne by (intros <-; done). done.
Qed.

Lemma hseg_del m cell l1 n l2 : hseg m cell (l1 ++ n :: l2) → NoDup (cells cell (l1 ++ n :: l2)) →
  let c := default cell (last l1) in let nx := default NULL (head l2) in
  m !! pprev n = Some c ∧ hseg m n l2 ∧ is_Some (m !! c) ∧ hseg (del_mem m c nx) cell (l1 ++ l2).
Proof.
  cbv zeta. revert cell. induction l1 as [|y l1 IH]; intros cell Hs Hnd.
  - cbn [app last default from_option id] in *. pose proof (hseg_del_head _ _ _ _ Hs Hnd) as Hd. cbn [hseg] in Hs. destruct Hs as (H1 & _ & H3 & Hs).
    split_and!; [done|done|eauto|done].
  - cbn [app] in Hs, Hnd |- *. rewrite cells_cons in Hnd. apply NoDup_cons in Hnd as [Hcell Hnd]. pose proof Hnd as Hnd'. apply NoDup_cons in Hnd as [Hy Hnd]. apply NoDup_cons in Hnd as [Hyp Hnd].
    destruct Hs as (H1 & H0 & H3 & Hs). assert (NoDup (cells y (l1 ++ n :: l2))) as Hndy.
    { apply NoDup_cons. split; [|done]. intros Hin. apply Hy. by right. }
    destruct (IH y Hs Hndy) as (E1 & E2 & E3 & E4). rewrite last_cons. assert (∀ b : Z, default cell (match last l1 with Some z => Some z | None => Some y end) = default y (last l1)) as Hl by (intros _; by destruct (last l1)).
    rewrite (Hl 0). split_and!; [done|done|done|].
    assert (default y (last l1) = y ∨ default y (last l1) ∈ (l1 ++ n :: l2) ≫= node_cells) as Hc.
    { destruct (proj1 (elem_of_cons _ _ _) (last_in y l1)) as [|Hin]; [by left|right]. apply in_node_cells. by apply elem_of_app; left. }
    assert (default NULL (head l2) ≠ NULL → pprev (default NULL (head l2)) ∈ (l1 ++ n :: l2) ≫= node_cells) as Hx.
    { intros Hne. apply in_node_cells. destruct l2 as [|x l2]; [done|]. cbn. apply elem_of_app. right. right. left. }
    cbn [hseg]. split_and!; [|done| |done]; (rewrite lookup_del_mem; [done|..]).
    + intros ->. destruct Hc as [Hc|Hc]; apply Hcell; [rewrite Hc; left|right; right; done].
    + intros Hne ->. apply Hcell. right. right. auto.
    + intros E. rewrite <- E in Hc. destruct Hc as [Hc|Hc]; [apply Hy; rewrite Hc; left|done].
    + intros Hne E. apply Hyp. rewrite E. auto.
Qed.

Lemma cells_del hd l1 n l2 : NoDup (cells hd (l1 ++ n :: l2)) → NoDup (cells hd (l1 ++ l2)).
Proof.
  intros Hnd. eapply sublist_NoDup; [exact Hnd|]. unfold cells. apply sublist_skip. rewrite !bind_app, bind_cons. apply sublist_app; [done|].
  by apply sublist_inserts_l.
Qed.

Lemma wp_hlist_del m hd l1 n l2 (Q : unit → words → Prop) : hlist m hd (l1 ++ n :: l2) →
  Q tt (del_mem m (default hd (last l1)) (default NULL (head l2))) → wp (hlist_del n) m Q.
Proof.
  intros [Hs Hnd] HQ. destruct (hseg_del _ _ _ _ _ Hs Hnd) as (Hp & Hs2 & Hc & _). pose proof (hseg_head _ _ _ Hs2) as Hh. pose proof (hseg_next_cell _ _ _ Hs2) as Hnx.
  set (c := default hd (last l1)) in *. set (nx := default NULL (head l2)) in *.
  assert (nx ≠ NULL → n ≠ pprev nx ∧ pprev n ≠ pprev nx) as Hne.
  { intros Hz. destruct l2 as [|x l2]; [done|]. cbn in nx. subst nx. unfold cells in Hnd. rewrite bind_app in Hnd.
    apply NoDup_cons in Hnd as [_ Hnd]. apply NoDup_app in Hnd as (_ & _ & Hnd). cbn [mbind list_bind app node_cells] in Hnd.
    rewrite !NoDup_cons, !not_elem_of_cons in Hnd. destruct_and! Hnd. split; congruence. }
  unfold hlist_del. apply wp_bind. eapply wp_wld; [done|]. apply wp_bind. unfold del_mem, link_next in HQ.
  destruct (Z.eqb_spec nx NULL) as [E|Hz]; cbn [negb].
  - apply wp_ret. apply wp_bind. eapply wp_wld; [done|]. apply wp_bind. eapply wp_wld; [done|]. by apply wp_wst.
  - destruct (Hne Hz) as [Hn1 Hn2]. apply wp_bind. eapply wp_wld; [done|]. apply wp_bind. eapply wp_wld; [done|].
    apply wp_wst; [by rewrite (Hnx Hz)|]. apply wp_bind. eapply wp_wld; [by rewrite lookup_insert_ne by congruence|].
    apply wp_bind. eapply wp_wld; [by rewrite lookup_insert_ne by congruence|]. apply wp_wst; [|done]. rewrite lookup_insert. case_decide; eauto.
Qed.

Lemma wp_hlist_nodes fuel m cell l (Q : list Z → words → Prop) : hseg m cell l → (length l < fuel)%nat → Q l m →
  wp (hlist_nodes fuel (default NULL (head l))) m Q.
Proof.
  revert cell l Q. induction fuel as [|fuel IH]; intros cell l Q Hs Hf HQ; [lia|]. cbn [hlist_nodes]. destruct l as [|n l]; [by apply wp_ret|].
  destruct Hs as (_ & H0 & _ & Hs). cbn [head default from_option id]. rewrite (proj2 (Z.eqb_neq n NULL)) by done.
  apply wp_bind. eapply wp_wld; [by apply hseg_head|]. apply wp_bind. eapply IH; [done|simpl in Hf; lia|]. by apply wp_ret.
Qed.
End ops.

(** ** Property *)

(** C37. The one-word-head lists are lists: on a head that stands for [l],
    [hlist_empty] tells whether [l] is empty, [for_each_in_hlist] visits exactly
    [l], [hlist_add] puts a new node in front, and [hlist_del] removes a node
    from anywhere, first or last included, without being given the head; both
    leave a well-linked list and change no word outside it. *)
Theorem hlist_is_list m hd l : hlist m hd l →
  hlist_empty hd m = Ok (bool_decide (l = []), m) ∧
  (n ← wld hd; hlist_nodes (S (length l)) n) m = Ok (l, m) ∧
  (∀ new, new ≠ NULL → is_Some (m !! new) → is_Some (m !! pprev new) → NoDup (cells hd (new :: l)) →
     ∃ m', hlist_add new hd m = Ok (tt, m') ∧ hlist m' hd (new :: l) ∧ ∀ a, a ∉ cells hd (new :: l) → m' !! a = m !! a) ∧
  (∀ l1 n l2, l = l1 ++ n :: l2 →
     ∃ m', hlist_del n m = Ok (tt, m') ∧ hlist m' hd (l1 ++ l2) ∧ ∀ a, a ∉ cells hd l → m' !! a = m !! a).
Proof.
  intros HL. pose proof HL as [Hs Hnd]. pose proof (hseg_head _ _ _ Hs) as Hh. split_and!.
  - assert (wp (hlist_empty hd) m (λ b m', b = bool_decide (l = []) ∧ m' = m)) as Hw.
    { apply wp_bind. eapply wp_wld; [done|]. apply wp_ret. split; [|done]. destruct l as [|n l]; [done|]. cbn. destruct Hs as (_ & H0 & _). by apply Z.eqb_neq. }
    destruct (proj1 (wp_inv _ _ _) Hw) as (b & m' & E & -> & ->). done.
  - assert (wp (n ← wld hd; hlist_nodes (S (length l)) n) m (λ r m', r = l ∧ m' = m)) as Hw.
    { apply wp_bind. eapply wp_wld; [done|]. eapply wp_hlist_nodes; [done|lia|done]. }
    destruct (proj1 (wp_inv _ _ _) Hw) as (b & m' & E & -> & ->). done.
  - intros new H0 Hn Hp Hnd'. eassert (wp (hlist_add new hd) m (λ _ m', m' = _)) as Hw by (by eapply wp_hlist_add).
    destruct (proj1 (wp_inv _ _ _) Hw) as ([] & m' & E & ->). eexists. split; [done|]. split; [by apply hlist_added|].
    intros a Ha. rewrite cells_cons, !not_elem_of_cons in Ha. destruct_and! Ha. unfold add_mem. rewrite lookup_insert_ne by congruence.
    destruct l as [|x l]; [by cbn; rewrite !lookup_insert_ne by congruence|]. rewrite lookup_link_next; [by rewrite !lookup_insert_ne by congruence|].
    intros ->. match goal with Hin : _ ∉ _ |- _ => apply Hin end. cbn. right. left.
  - intros l1 n l2 ->. eassert (wp (hlist_del n) m (λ _ m', m' = _)) as Hw by (by eapply wp_hlist_del).
    destruct (proj1 (wp_inv _ _ _) Hw) as ([] & m' & E & ->). destruct (hseg_del _ _ _ _ _ Hs Hnd) as (_ & _ & _ & Hd).
    eexists. split; [done|]. split; [split; [done|by eapply cells_del]|]. intros a Ha. apply lookup_del_mem.
    + intros ->. apply Ha. destruct (proj1 (elem_of_cons _ _ _) (last_in hd l1)) as [->|Hin]; [left|right]. apply in_node_cells, elem_of_app. by left.
    + intros Hz ->. apply Ha. right. apply in_node_cells, elem_of_app. right. right. destruct l2; [done|left].
Qed.

(** A head at 8, the nodes 32 and 64 on it, and a free node at 16. *)
Definition demo_words : words := list_to_map [(8, 32); (32, 64); (40, 8); (64, NULL); (72, 32); (16, 5); (24, 5)].

Lemma demo_hlist : hlist demo_words 8 [32; 64].
Proof. split; [vm_compute; intuition congruence|]. by apply (bool_decide_unpack _). Qed.

Lemma hlist_is_list_witness :
  hlist_empty 8 demo_words = Ok (false, demo_words) ∧
  (∃ m', hlist_add 16 8 demo_words = Ok (tt, m') ∧ hlist m' 8 [16; 32; 64]) ∧
  (∃ m', hlist_del 64 demo_words = Ok (tt, m') ∧ hlist m' 8 [32]).
Proof.
  destruct (hlist_is_list demo_words 8 [32; 64] demo_hlist) as (H1 & _ & H3 & H4). split; [exact H1|]. split.
  - destruct (H3 16) as (m' & E & H & _); [discriminate|eexists; reflexivity|eexists; reflexivity|by apply (bool_decide_unpack _)|].
    exists m'. split; [exact E|exact H].
  - destruct (H4 [32] 64 [] eq_refl) as (m' & E & H & _). exists m'. split; [exact E|exact H].
Defined.
