(* ===== verification/ListMacros.v ===== *)
(** * From list nodes to the structures around them: [macro.h], [list.h]

    [container_of] and what [list.h] builds on it: [list_entry], the entry after
    an object and the loop [for_each_in_list_safe], which fetches the next
    element before the body runs.  [off] is the offset of the list node in the
    structure. *)

From S2P Require Import Prelude ListHead.

Definition container_of (ptr off : Z) : Z := u64 (ptr - off).
Definition container_of_safe (ptr off : Z) : Z := if ptr =? NULL then NULL else container_of ptr off.
Definition list_entry (ptr off : Z) : Z := container_of ptr off.
Definition list_first_entry (head off : Z) : M nheap Z := n ← rd_next head; mret (list_entry n off).

(** [&((obj)->field)] *)
Definition field_of (obj off : Z) : Z := u64 (obj + off).

Definition next_container_of_safe (obj off : Z) : M nheap Z :=
  if obj =? NULL then mret NULL else (n ← rd_next (field_of obj off); mret (container_of_safe n off)).

(** The loop from a pair [elem], [tmp] on; it returns the elements visited. *)
Fixpoint for_each_safe (fuel : nat) (off head : Z) (body : Z → M nheap unit) (elem tmp : Z) : M nheap (list Z) :=
  match fuel with
  | O => stop HFuel
  | S fuel' =>
      if field_of elem off =? head then mret []
      else
        body elem ;;
        tmp' ← next_container_of_safe tmp off;
        l ← for_each_safe fuel' off head body tmp tmp';
        mret (elem :: l)
  end.
Definition for_each_in_list_safe (fuel : nat) (off head : Z) (body : Z → M nheap unit) : M nheap (list Z) :=
  n ← rd_next head;
  tmp ← next_container_of_safe (container_of n off) off;
  for_each_safe fuel off head body (container_of n off) tmp.

(** An object is found from its node and back. *)
Lemma container_of_field obj off : 0 ≤ obj < 2 ^ 64 → container_of (field_of obj off) off = obj.
Proof. intros Ho. unfold container_of, field_of, u64. rewrite Zminus_mod_idemp_l. replace (obj + off - off) with obj by lia. by apply Z.mod_small. Qed.
Lemma field_of_container ptr off : 0 ≤ ptr < 2 ^ 64 → field_of (container_of ptr off) off = ptr.
Proof. intros Ho. unfold container_of, field_of, u64. rewrite Zplus_mod_idemp_l. replace (ptr - off + off) with ptr by lia. by apply Z.mod_small. Qed.

(** Nodes of real structures: aligned objects above address [off]. *)
Definition node_ok (off a : Z) : Prop := 0 < a < 2 ^ 64 ∧ container_of a off ≠ NULL.

Lemma wp_next_entry h a off n (Q : Z → nheap → Prop) : node_ok off a → node_ok off n → nxt h a = Some n →
  Q (container_of n off) h → wp (next_container_of_safe (container_of a off) off) h Q.
Proof.
  intros [Ha Hc] [Hn _] Hx HQ. unfold next_container_of_safe. rewrite (proj2 (Z.eqb_neq _ _)) by done.
  rewrite field_of_container by lia. apply wp_bind, (wp_rd_next _ _ _ _ Hx), wp_ret.
  unfold container_of_safe. by rewrite (proj2 (Z.eqb_neq _ _)) by lia.
Qed.

Lemma first_node h hd l : dlist h hd l → nxt h hd = Some (default hd (head l)).
Proof. intros [_ Hc]. by eapply chain_first. Qed.

(** ... and the node after it; after the head of an empty list, the head again. *)
Lemma second_node h hd l : dlist h hd l →
  nxt h (default hd (head l)) = Some (if decide (l = []) then default hd (head l) else default hd (head (tail l))).
Proof.
  intros Hd. destruct l as [|y l]; [rewrite decide_True by done; by apply (first_node h hd [])|]. rewrite decide_False by done.
  destruct Hd as [_ [_ Hc]]. by eapply chain_first.
Qed.

Section delete_all.
Context (off hd : Z) (Hhd : node_ok off hd).

(** The body of the loop takes the element off the list. *)
Definition unlink (elem : Z) : M nheap unit := list_del (field_of elem off).

Lemma default_ok l : Forall (node_ok off) l → node_ok off (default hd (head l)).
Proof. by destruct 1. Qed.

Lemma wp_for_each_safe_unlink l h fuel (Q : list Z → nheap → Prop) :
  dlist h hd l → Forall (node_ok off) l → (length l < fuel)%nat →
  (∀ h', dlist h' hd [] → (∀ x, x ∉ hd :: l → h' !! x = h !! x) → Q ((λ a, container_of a off) <$> l) h') →
  let e := default hd (head l) in let t := default hd (head (tail l)) in
  wp (for_each_safe fuel off hd unlink (container_of e off) (container_of (if decide (l = []) then default hd (head l) else t) off)) h Q.
Proof.
  revert h fuel Q. induction l as [|x l IH]; intros h fuel Q Hd Hok Hf HQ; (destruct fuel as [|fuel]; [cbn in Hf; lia|]); cbn [for_each_safe].
  - change (default hd (head [])) with hd. rewrite field_of_container, Z.eqb_refl by (destruct Hhd; lia). apply wp_ret, HQ; [done|done].
  - inversion Hok as [|? ? Hx Hl]; subst. change (default hd (head (x :: l))) with x. cbn [tail]. rewrite decide_False by done.
    rewrite field_of_container by (destruct Hx; lia).
    assert (x ≠ hd) as Hne by (destruct Hd as [Hnd _]; apply NoDup_cons in Hnd as [Hnin _]; set_solver).
    rewrite (proj2 (Z.eqb_neq _ _)) by done. apply wp_bind. unfold unlink. rewrite field_of_container by (destruct Hx; lia).
    apply (wp_list_del h hd [] x l); [done|]. cbn [app]. intros h1 Hd1 Hfr _. apply wp_bind.
    eapply wp_next_entry; [by apply default_ok| |by apply second_node|].
    + case_decide; [by apply default_ok|]. apply default_ok. destruct l; [done|]. by inversion Hl.
    + apply wp_bind. eapply IH; [done|done|cbn in Hf; lia|]. intros h2 Hd2 Hfr2. apply wp_ret, HQ; [done|].
      intros z Hz. rewrite Hfr2 by set_solver. apply Hfr. set_solver.
Qed.
End delete_all.

(** [for_each_in_list_safe] may take every element off the list while it walks
    over it: it still visits each element once, in order, and the list is empty
    afterwards; other nodes are untouched. *)
Theorem for_each_safe_deletes off hd l h :
  node_ok off hd → dlist h hd l → Forall (node_ok off) l →
  ∃ h', for_each_in_list_safe (S (length l)) off hd (unlink off) h = Ok ((λ a, container_of a off) <$> l, h') ∧
    dlist h' hd [] ∧ ∀ x, x ∉ hd :: l → h' !! x = h !! x.
Proof.
  intros Hhd Hd Hok.
  assert (wp (for_each_in_list_safe (S (length l)) off hd (unlink off)) h
    (λ r h', r = (λ a, container_of a off) <$> l ∧ dlist h' hd [] ∧ ∀ x, x ∉ hd :: l → h' !! x = h !! x)) as Hw.
  { unfold for_each_in_list_safe. apply wp_bind, (wp_rd_next _ _ _ _ (first_node _ _ _ Hd)), wp_bind.
    eapply wp_next_entry; [by apply default_ok| |by apply second_node|].
    - case_decide; [by apply default_ok|]. apply default_ok; [done|]. destruct l; [done|]. by inversion Hok.
    - apply (wp_for_each_safe_unlink off hd Hhd l h); [done|done|lia|]. done. }
  apply wp_inv in Hw as (r & h' & Hr & -> & H). by exists h'.
Qed.
