(* ===== verification/Buddy.v ===== *)
(** * The buddy page allocator: [mm/buddy.c], [include/mm/buddy.h]

    A [struct page *] is the byte address of an element of the page array;
    [NULL] is 0.  The list nodes of the free lists live in the store [nodes]
    (see [ListHead]): the head of [free_lists[o]] inside [memory_region_g], and
    the [node] field at offset 0 of every [struct page].  The other fields of
    the page array live in [pages].  Logging is not part of the model. *)

From S2P Require Import Prelude Macro ListHead.

Definition BUDDY_MAX_ORDER : Z := 11.
Definition BUDDY_CHUNK_SIZE (order : Z) : Z := Z.shiftl 1 (PAGE_SHIFT + order).
Definition BUDDY_CHUNK_SIZE_MASK (order : Z) : Z := BUDDY_CHUNK_SIZE order - 1.
Definition BUDDY_CHUNK_PAGES_COUNT (order : Z) : Z := Z.shiftl 1 order.

(** The loop of [size_to_page_order]; the order never exceeds [BUDDY_MAX_ORDER]. *)
Fixpoint page_order_loop (fuel : nat) (size order : Z) : Z :=
  match fuel with
  | O => order
  | S fuel' => if size >? BUDDY_CHUNK_SIZE order then page_order_loop fuel' size (order + 1) else order
  end.
Definition size_to_page_order (size : Z) : Z :=
  if (size <=? 0) || (size >? BUDDY_CHUNK_SIZE (BUDDY_MAX_ORDER - 1)) then -1
  else page_order_loop 11 size 0.

(** [struct page], without the list node at offset 0 *)
Record page : Type := mk_page { allocated : Z; order : Z; slab : Z }.
(** [sizeof(struct page)]: node 16, allocated 4, order 4, slab 8 *)
Definition sizeof_page : Z := 32.

(** [memory_region_g] and the page array.  [mr_addr] is the address the linker
    gave to [memory_region_g]. *)
Record bstate : Type := mk_bstate {
  mr_addr : Z;
  start_addr : Z;
  size : Z;
  page_arrry : Z;
  page_num : Z;
  free_lists_lock : Z;
  nr_free : gmap Z Z;
  nodes : nheap;
  pages : gmap Z page
}.

Definition set_lock (v : Z) (s : bstate) : bstate :=
  mk_bstate (mr_addr s) (start_addr s) (size s) (page_arrry s) (page_num s) v (nr_free s) (nodes s) (pages s).
Definition set_nr (f : gmap Z Z) (s : bstate) : bstate :=
  mk_bstate (mr_addr s) (start_addr s) (size s) (page_arrry s) (page_num s) (free_lists_lock s) f (nodes s) (pages s).
Definition set_nodes (h : nheap) (s : bstate) : bstate :=
  mk_bstate (mr_addr s) (start_addr s) (size s) (page_arrry s) (page_num s) (free_lists_lock s) (nr_free s) h (pages s).
Definition set_pages (m : gmap Z page) (s : bstate) : bstate :=
  mk_bstate (mr_addr s) (start_addr s) (size s) (page_arrry s) (page_num s) (free_lists_lock s) (nr_free s) (nodes s) m.
Definition set_region (start sz arr num : Z) (s : bstate) : bstate :=
  mk_bstate (mr_addr s) start sz arr num (free_lists_lock s) (nr_free s) (nodes s) (pages s).

Definition on_nodes {A} (m : M nheap A) : M bstate A := zoom nodes set_nodes m.

(** [&memory_region_g.free_lists[order].free_list]: [free_lists] is at offset
    40 of [struct mem_region], [struct free_list] has 24 bytes. *)
Definition fl_addr (s : bstate) (o : Z) : Z := mr_addr s + 40 + 24 * o.

(** Field accesses *)
Definition ld_page (p : Z) : M bstate page := load (λ s, pages s !! p).
Definition st_page (p : Z) (v : page) : M bstate unit := modify (λ s, set_pages (<[p := v]> (pages s)) s).
Definition set_order (p o : Z) : M bstate unit :=
  v ← ld_page p; st_page p (mk_page (allocated v) o (slab v)).
Definition set_allocated (p a : Z) : M bstate unit :=
  v ← ld_page p; st_page p (mk_page a (order v) (slab v)).
Definition set_slab (p a : Z) : M bstate unit :=
  v ← ld_page p; st_page p (mk_page (allocated v) (order v) a).
Definition get_nr_free (o : Z) : M bstate Z := load (λ s, nr_free s !! o).
Definition set_nr_free (o v : Z) : M bstate unit := modify (λ s, set_nr (<[o := v]> (nr_free s)) s).
Definition inc_nr_free (o : Z) : M bstate unit := n ← get_nr_free o; set_nr_free o (u64 (n + 1)).
Definition dec_nr_free (o : Z) : M bstate unit := n ← get_nr_free o; set_nr_free o (u64 (n - 1)).

(** [lock]/[unlock] of [free_lists_lock] on the running core: taking a lock that
    is already held spins for ever. *)
Definition lock_free_lists : M bstate unit :=
  l ← gets free_lists_lock;
  if l =? 0 then modify (set_lock 1) else stop HDeadlock.
Definition unlock_free_lists : M bstate unit := modify (set_lock 0).

(** ** Page frame conversions *)
Definition pfn_to_page (s : bstate) (pfn : Z) : Z := page_arrry s + pfn * sizeof_page.
Definition page_to_pfn (s : bstate) (p : Z) : Z := u64 ((p - page_arrry s) / sizeof_page).

Definition page_to_virt (s : bstate) (p : Z) : Z :=
  u64 (start_addr s + u64 (page_to_pfn s p * PAGE_SIZE)).

Definition virt_to_page (s : bstate) (ptr : Z) : Z :=
  if (ptr <? start_addr s) || (ptr >=? u64 (start_addr s + size s)) then NULL
  else
    let pfn := u64 (ptr - start_addr s) / PAGE_SIZE in
    if pfn >=? page_num s then NULL else pfn_to_page s pfn.

(** ** Free-list primitives *)
Definition page_in_list (page list : Z) : M bstate bool :=
  if (page =? NULL) || (list =? NULL) then mret false
  else
    e ← on_nodes (list_empty list);
    if (e : bool) then mret false
    else
      fuel ← gets (λ s, Datatypes.S (base.size (nodes s)));
      on_nodes (n ← rd_next list; list_find fuel n list page).

(** [list_del(&chunk->node); free_list->nr_free--;] *)
Definition fl_del (o chunk : Z) : M bstate unit :=
  on_nodes (list_del chunk) ;;
  dec_nr_free o.

(** [list_add(&chunk->node, &free_list->free_list); free_list->nr_free += 1;] *)
Definition fl_add (o chunk : Z) : M bstate unit :=
  h ← gets (λ s, fl_addr s o);
  on_nodes (list_add chunk h) ;;
  inc_nr_free o.

(** [chunk = list_entry(free_list->free_list.next, struct page, node);
     BUG_ON(chunk == NULL); list_del(&chunk->node); free_list->nr_free--;] *)
Definition fl_pop (o : Z) : M bstate Z :=
  h ← gets (λ s, fl_addr s o);
  chunk ← on_nodes (rd_next h);
  BUG_ON (chunk =? NULL) ;;
  fl_del o chunk ;;
  mret chunk.

(** ** Splitting and merging *)
Definition get_buddy_chunk (chunk : Z) : M bstate Z :=
  if chunk =? NULL then mret NULL
  else
    p ← ld_page chunk;
    if order p =? BUDDY_MAX_ORDER - 1 then mret NULL
    else
      s ← gets id;
      let chunk_merge :=
        virt_to_page s (ROUND_DOWN (page_to_virt s chunk) (BUDDY_CHUNK_SIZE (order p + 1))) in
      mret (if chunk_merge =? chunk
            then chunk + BUDDY_CHUNK_PAGES_COUNT (order p) * sizeof_page
            else chunk_merge).

Fixpoint split_chunk_rec (fuel : nat) (o : Z) : M bstate Z :=
  match fuel with
  | O => stop HFuel
  | S fuel' =>
      if (o <? 1) || (o >=? BUDDY_MAX_ORDER) then mret NULL
      else
        nf ← get_nr_free o;
        chunk ← (if nf =? 0 then split_chunk_rec fuel' (o + 1) else fl_pop o);
        if chunk =? NULL then mret NULL
        else
          let o' := o - 1 in
          let chunk_buddy := chunk + BUDDY_CHUNK_PAGES_COUNT o' * sizeof_page in
          set_order chunk o' ;;
          set_order chunk_buddy o' ;;
          fl_add o' chunk_buddy ;;
          mret chunk
  end.
Definition split_chunk (o : Z) : M bstate Z := split_chunk_rec 12 o.

Fixpoint merge_chunk_rec (fuel : nat) (chunk_origin : Z) : M bstate Z :=
  match fuel with
  | O => stop HFuel
  | S fuel' =>
      BUG_ON (chunk_origin =? NULL) ;;
      p ← ld_page chunk_origin;
      nf ← get_nr_free (order p);
      if (nf =? 0) || (order p =? BUDDY_MAX_ORDER - 1) then mret chunk_origin
      else
        s ← gets id;
        let chunk_merge :=
          virt_to_page s (ROUND_DOWN (page_to_virt s chunk_origin) (BUDDY_CHUNK_SIZE (order p + 1))) in
        let chunk_buddy :=
          if chunk_merge =? chunk_origin
          then chunk_origin + BUDDY_CHUNK_PAGES_COUNT (order p) * sizeof_page
          else chunk_merge in
        if chunk_buddy =? NULL then mret chunk_origin
        else
          b ← ld_page chunk_buddy;
          if (allocated b =? 1) || negb (order b =? order p) then mret chunk_origin
          else
            inl ← page_in_list chunk_buddy (fl_addr s (order p));
            BUG_ON (negb inl) ;;
            fl_del (order p) chunk_buddy ;;
            set_order chunk_merge (order p + 1) ;;
            merge_chunk_rec fuel' chunk_merge
  end.
Definition merge_chunk (chunk_origin : Z) : M bstate Z := merge_chunk_rec 12 chunk_origin.

(** ** Allocation and release *)
Definition buddy_free_pages (page : Z) : M bstate unit :=
  lock_free_lists ;;
  set_allocated page 0 ;;
  merge_page ← merge_chunk page;
  m ← ld_page merge_page;
  fl_add (order m) merge_page ;;
  unlock_free_lists.

Definition buddy_get_pages (o : Z) : M bstate Z :=
  lock_free_lists ;;
  nf ← get_nr_free o;
  page ← (if nf =? 0 then split_chunk (o + 1) else fl_pop o);
  if page =? NULL then (unlock_free_lists ;; mret NULL)
  else
    p ← ld_page page;
    if allocated p =? 1 then stop HKerror
    else
      BUG_ON (allocated p =? 1) ;;
      BUG_ON (negb (order p =? o)) ;;
      set_allocated page 1 ;;
      unlock_free_lists ;;
      mret page.

(** ** Initialisation *)

(** The body of both loops of [populate_page]. *)
Definition put_free_chunk (o page : Z) : M bstate unit :=
  ld_page page ;;
  st_page page (mk_page 0 o NULL) ;;
  inc_nr_free o ;;
  h ← gets (λ s, fl_addr s o);
  on_nodes (list_add page h).

Fixpoint fill_up (fuel : nat) (o limit page : Z) : M bstate Z :=
  match fuel with
  | O => stop HFuel
  | S fuel' =>
      let pages_count := BUDDY_CHUNK_PAGES_COUNT o in
      if page + (pages_count - 1) * sizeof_page <? limit then
        put_free_chunk o page ;;
        fill_up fuel' o limit (page + pages_count * sizeof_page)
      else mret page
  end.

Fixpoint fill_down (fuel : nat) (o first_page page : Z) : M bstate Z :=
  match fuel with
  | O => stop HFuel
  | S fuel' =>
      let pages_count := BUDDY_CHUNK_PAGES_COUNT o in
      if page - pages_count * sizeof_page >=? first_page then
        let page' := page - pages_count * sizeof_page in
        put_free_chunk o page' ;;
        fill_down fuel' o first_page page'
      else mret page
  end.

(** [for (order = top; order >= 0; order--) page = body(order, page)], [n = top + 1] *)
Fixpoint for_orders (n : nat) (body : Z → Z → M bstate Z) (page : Z) : M bstate Z :=
  match n with
  | O => mret page
  | S n' => page' ← body (Z.of_nat n') page; for_orders n' body page'
  end.

Definition populate_page (first_page npages : Z) : M bstate unit :=
  s ← gets id;
  let limit := first_page + npages * sizeof_page in
  let aligned :=
    virt_to_page s (ROUND_UP (page_to_virt s first_page) (BUDDY_CHUNK_SIZE (BUDDY_MAX_ORDER - 1))) in
  let first_aligned_page := if aligned >=? limit then first_page else aligned in
  let fuel := Datatypes.S (Z.to_nat npages) in
  for_orders 11 (λ o page, fill_up fuel o limit page) first_aligned_page ;;
  for_orders 10 (λ o page, fill_down fuel o first_page page) first_aligned_page ;;
  mret tt.

(** [memset] of the page array to zero *)
Definition zero_pages (arr : Z) (n : nat) : gmap Z page :=
  list_to_map ((λ i, (arr + i * sizeof_page, mk_page 0 0 NULL)) <$> seqZ 0 (Z.of_nat n)).
Definition zero_nodes (arr : Z) (n : nat) : nheap :=
  list_to_map ((λ i, (arr + i * sizeof_page, mk_list_head NULL NULL)) <$> seqZ 0 (Z.of_nat n)).

Definition available_phys_mem_start (img_end : Z) : Z := ROUND_UP img_end PAGE_SIZE.
Definition available_phys_mem_end : Z := ROUND_DOWN PHYS_MEM_END PAGE_SIZE.
Definition free_phys_mem_start (img_end : Z) : Z :=
  let npages := u64 (available_phys_mem_end - available_phys_mem_start img_end) / (PAGE_SIZE + sizeof_page) in
  ROUND_UP (u64 (available_phys_mem_start img_end + u64 (npages * sizeof_page))) PAGE_SIZE.
Definition region_pages (img_end : Z) : Z := u64 (available_phys_mem_end - free_phys_mem_start img_end) / PAGE_SIZE.

(** [init_buddy] up to its second message *)
Definition set_up_region (img_end : Z) : M bstate unit :=
  modify (set_region (phys_to_virt (free_phys_mem_start img_end))
                     (u64 (available_phys_mem_end - free_phys_mem_start img_end))
                     (phys_to_virt (available_phys_mem_start img_end)) (region_pages img_end)).
(** ... and from there on *)
Definition init_free_lists (npages : Z) : M bstate unit :=
  modify (set_lock 0) ;;
  for_up 11 0 (λ o, set_nr_free o 0 ;;
                    h ← gets (λ s, fl_addr s o);
                    on_nodes (init_list_head h)) ;;
  arr ← gets page_arrry;
  modify (λ s, set_pages (zero_pages arr (Z.to_nat npages) ∪ pages s)
              (set_nodes (zero_nodes arr (Z.to_nat npages) ∪ nodes s) s)) ;;
  populate_page arr npages.
(** The two [kdebug] messages need the console; [Main] puts them in. *)
Definition init_buddy (img_end : Z) : M bstate unit :=
  set_up_region img_end ;;
  init_free_lists (region_pages img_end).

(** The state before [init_buddy]: [memory_region_g] is in the cleared [.bss]. *)
Definition bss_bstate (mr : Z) : bstate :=
  mk_bstate mr 0 0 0 0 0 ∅
    (list_to_map ((λ o, (mr + 40 + 24 * o, mk_list_head NULL NULL)) <$> seqZ 0 11)) ∅.

(** ** Statistics *)
Fixpoint sum_free (n : nat) (o : Z) (unit_size : Z → Z) (total_size : Z) : M bstate Z :=
  match n with
  | O => mret total_size
  | S n' => nf ← get_nr_free o; sum_free n' (o + 1) unit_size (u64 (total_size + u64 (nf * unit_size o)))
  end.
Definition get_free_pages_nums_from_buddy : M bstate Z := sum_free 11 0 BUDDY_CHUNK_PAGES_COUNT 0.
Definition get_free_mem_size_from_buddy : M bstate Z := sum_free 11 0 BUDDY_CHUNK_SIZE 0.
Definition get_total_mem_size_from_buddy : M bstate Z := gets size.
