(* ===== verification/Chunks.v ===== *)
(** * Partitions of the page frames into chunks

    The specification level of the buddy allocator.  A chunk map [C] sends the
    first page frame of every chunk to the chunk's order and status; it is
    well formed ([cmap_ok]) when the chunks are aligned and tile the frames
    [0 .. n-1] exactly.  [B] is the page number of frame 0 in the address
    space: alignment is alignment of addresses, not of frame indices.

    The three moves of the allocator on chunk maps are a status change,
    [halve] and [join]; they preserve [cmap_ok]. *)

From S2P Require Import Prelude.

(** [CFree]: on the free list of its order.  [CUsed]: allocated.  [CHeld]:
    neither, which happens only inside an operation. *)
Inductive cstat : Type := CFree | CHeld | CUsed.

#[global] Instance cstat_eq_dec : EqDecision cstat.
Proof. solve_decision. Defined.

Abbreviation cmap := (gmap Z (Z * cstat)).

Definition MAX_CHUNK_ORDER : Z := 10.

Record cmap_ok (B n : Z) (C : cmap) : Prop := {
  ck_bound : ∀ c o t, C !! c = Some (o, t) → 0 ≤ c ∧ 0 ≤ o ≤ 10 ∧ c + 2 ^ o ≤ n;
  ck_align : ∀ c o t, C !! c = Some (o, t) → (B + c) mod 2 ^ o = 0;
  ck_disj : ∀ c o t c' o' t', C !! c = Some (o, t) → C !! c' = Some (o', t') → c ≠ c' →
            c + 2 ^ o ≤ c' ∨ c' + 2 ^ o' ≤ c;
  ck_cover : ∀ i, 0 ≤ i < n → ∃ c o t, C !! c = Some (o, t) ∧ c ≤ i < c + 2 ^ o
}.

(** [halve c]: the chunk at [c] becomes two held chunks of the next order down. *)
Definition halve (c o : Z) (C : cmap) : cmap :=
  <[c := (o - 1, CHeld)]> (<[c + 2 ^ (o - 1) := (o - 1, CHeld)]> C).

(** [join c]: the chunks at [c] and [c + 2^o] become one held chunk. *)
Definition join (c o : Z) (C : cmap) : cmap :=
  <[c := (o + 1, CHeld)]> (delete (c + 2 ^ o) C).

(** The buddy of a chunk: the other half of the aligned block of twice the size. *)
Definition buddy_of (B c o : Z) : Z :=
  if decide ((B + c) mod 2 ^ (o + 1) = 0) then c + 2 ^ o else c - 2 ^ o.

(** No two free buddies: every free block is as large as it can be. *)
Definition coalesced (B : Z) (C : cmap) : Prop :=
  ∀ c o, 0 ≤ o < 10 → C !! c = Some (o, CFree) → C !! buddy_of B c o ≠ Some (o, CFree).

(** The allocated chunks of two maps agree. *)
Definition same_used (C C' : cmap) : Prop :=
  ∀ d k, C' !! d = Some (k, CUsed) ↔ C !! d = Some (k, CUsed).

Definition held_only (P : Z → Prop) (C : cmap) : Prop :=
  ∀ d k, C !! d = Some (k, CHeld) → P d.

Lemma buddy_of_self B c o : 0 ≤ o → buddy_of B c o ≠ c.
Proof. intros. pose proof (pow2_gt0 o). unfold buddy_of. case_decide; lia. Qed.

Lemma buddy_of_aligned B c o : 0 ≤ o → (B + c) mod 2 ^ o = 0 → (B + buddy_of B c o) mod 2 ^ o = 0.
Proof.
  intros Ho Hal. unfold buddy_of. case_decide.
  - replace (B + (c + 2 ^ o)) with (B + c + 1 * 2 ^ o) by lia. by apply aligned_add.
  - replace (B + (c - 2 ^ o)) with (B + c + (-1) * 2 ^ o) by lia. by apply aligned_add.
Qed.

Lemma upper_half_unaligned a o : 0 ≤ o → a mod 2 ^ (o + 1) = 0 → (a + 2 ^ o) mod 2 ^ (o + 1) ≠ 0.
Proof.
  intros Ho Ha. pose proof (pow2_gt0 o Ho). rewrite pow2_succ in * by lia.
  rewrite <- Z.add_mod_idemp_l, Ha, Z.add_0_l, Z.mod_small by lia. lia.
Qed.

Lemma buddy_of_invol B c o : 0 ≤ o → (B + c) mod 2 ^ o = 0 → buddy_of B (buddy_of B c o) o = c.
Proof.
  intros Ho Hal. unfold buddy_of. destruct (decide ((B + c) mod 2 ^ (o + 1) = 0)) as [H|H].
  - rewrite decide_False; [lia|]. rewrite Z.add_assoc. by apply upper_half_unaligned.
  - rewrite decide_True; [lia|]. rewrite Z.add_sub_assoc. by apply parent_aligned.
Qed.

Lemma buddy_of_upper B c o : 0 ≤ o → (B + c) mod 2 ^ (o + 1) = 0 → buddy_of B (c + 2 ^ o) o = c.
Proof.
  intros Ho Hal. unfold buddy_of. rewrite decide_False; [lia|].
  rewrite Z.add_assoc. by apply upper_half_unaligned.
Qed.

Section cmap_moves.
Context (B n : Z).
Implicit Types (C : cmap) (c o : Z).

Lemma cmap_set_stat C c o t t' :
  cmap_ok B n C → C !! c = Some (o, t) → cmap_ok B n (<[c := (o, t')]> C).
Proof.
  intros [Hb Ha Hd Hc] Hl. split.
  - intros d k u. rewrite lookup_insert. case_decide; naive_solver.
  - intros d k u. rewrite lookup_insert. case_decide; naive_solver.
  - intros d k u d' k' u'. rewrite !lookup_insert. repeat case_decide; naive_solver.
  - intros i Hi. destruct (Hc i Hi) as (d & k & u & Hdl & Hdi).
    exists d. destruct (decide (c = d)) as [->|].
    + exists k, t'. rewrite lookup_insert_eq. naive_solver.
    + exists k, u. by rewrite lookup_insert_ne.
Qed.

Lemma cmap_unaligned_ne C c o t d k u :
  cmap_ok B n C → C !! c = Some (o, t) → C !! d = Some (k, u) → c ≤ d < c + 2 ^ o → c = d.
Proof.
  intros [Hb Ha Hd Hc] H1 H2 H3. destruct (decide (c = d)); [done|].
  destruct (Hd c o t d k u H1 H2); [done|lia|].
  destruct (Hb d k u H2) as (? & ? & ?). pose proof (pow2_gt0 k). lia.
Qed.

Lemma cmap_halve C c o t :
  cmap_ok B n C → C !! c = Some (o, t) → 1 ≤ o → cmap_ok B n (halve c o C).
Proof.
  intros HC Hl Ho. pose proof HC as [Hb Ha Hd Hc].
  destruct (Hb _ _ _ Hl) as (Hc0 & Ho10 & Hcn).
  pose proof (pow2_succ (o - 1)) as Hp. replace (o - 1 + 1) with o in Hp by lia. specialize (Hp ltac:(lia)).
  pose proof (pow2_gt0 (o - 1) ltac:(lia)) as Hpos. set (e := 2 ^ (o - 1)) in *.
  assert (∀ d k u, halve c o C !! d = Some (k, u) →
    (d = c ∨ d = c + e) ∧ k = o - 1 ∨ (d ≠ c ∧ d ≠ c + e ∧ C !! d = Some (k, u))) as Hinv.
  { intros d k u. unfold halve. fold e. rewrite !lookup_insert. repeat case_decide; naive_solver. }
  split.
  - intros d k u H. destruct (Hinv _ _ _ H) as [[[-> | ->] ->]|(? & ? & H')]; [fold e; lia..|].
    by apply (Hb d k u).
  - intros d k u H. pose proof (Ha _ _ _ Hl) as Hal.
    assert ((B + c) mod e = 0) by (apply (aligned_weaken _ (o - 1) o); [lia|done]).
    destruct (Hinv _ _ _ H) as [[[-> | ->] ->]|(? & ? & H')]; [done| |by apply (Ha d k u)].
    fold e. replace (B + (c + e)) with (B + c + 1 * e) by lia. apply aligned_add; [lia|done].
  - intros d k u d' k' u' H1 H2 Hne.
    destruct (Hinv _ _ _ H1) as [[Hd1 ->]|(Hn1 & Hn1' & H1')];
    destruct (Hinv _ _ _ H2) as [[Hd2 ->]|(Hn2 & Hn2' & H2')].
    + fold e. destruct Hd1 as [-> | ->], Hd2 as [-> | ->]; lia.
    + destruct (Hd _ _ _ _ _ _ Hl H2'); [done| |]; fold e; destruct Hd1 as [-> | ->]; lia.
    + destruct (Hd _ _ _ _ _ _ Hl H1'); [done| |]; fold e; destruct Hd2 as [-> | ->]; lia.
    + by eapply Hd.
  - intros i Hi. destruct (Hc i Hi) as (d & k & u & Hdl & Hdi). unfold halve. fold e.
    destruct (decide (d = c)) as [->|Hdc].
    + rewrite Hl in Hdl. simplify_eq. destruct (Z_lt_dec i (c + e)).
      * exists c, (k - 1), CHeld. rewrite lookup_insert_eq. fold e. split; [done|lia].
      * exists (c + e), (k - 1), CHeld. rewrite lookup_insert_ne, lookup_insert_eq by lia. fold e. split; [done|lia].
    + assert (d ≠ c + e) as Hde.
      { intros ->. apply Hdc. symmetry. eapply (cmap_unaligned_ne C c o); [done..|lia]. }
      exists d, k, u. by rewrite !lookup_insert_ne.
Qed.

Lemma cmap_join C c o t t' :
  cmap_ok B n C → C !! c = Some (o, t) → C !! (c + 2 ^ o) = Some (o, t') → o < 10 →
  (B + c) mod 2 ^ (o + 1) = 0 → cmap_ok B n (join c o C).
Proof.
  intros [Hb Ha Hd Hc] Hl Hl' Ho Hal.
  destruct (Hb _ _ _ Hl) as (Hc0 & Ho10 & Hcn). destruct (Hb _ _ _ Hl') as (_ & _ & Hcn').
  pose proof (pow2_succ o ltac:(lia)) as Hp. pose proof (pow2_gt0 o ltac:(lia)) as Hpos.
  set (e := 2 ^ o) in *.
  assert (∀ d k u, join c o C !! d = Some (k, u) →
    d = c ∧ k = o + 1 ∨ (d ≠ c ∧ d ≠ c + e ∧ C !! d = Some (k, u))) as Hinv.
  { intros d k u. unfold join. fold e. rewrite lookup_insert, lookup_delete. repeat case_decide; naive_solver. }
  split.
  - intros d k u H. destruct (Hinv _ _ _ H) as [[-> ->]|(? & ? & H')]; [lia|by apply (Hb d k u)].
  - intros d k u H. destruct (Hinv _ _ _ H) as [[-> ->]|(? & ? & H')]; [done|by apply (Ha d k u)].
  - intros d k u d' k' u' H1 H2 Hne.
    destruct (Hinv _ _ _ H1) as [[-> ->]|(Hn1 & Hn1' & H1')];
    destruct (Hinv _ _ _ H2) as [[-> ->]|(Hn2 & Hn2' & H2')]; [done|..].
    + destruct (Hd _ _ _ _ _ _ Hl H2'); [done| |]; destruct (Hd _ _ _ _ _ _ Hl' H2'); try done; lia.
    + destruct (Hd _ _ _ _ _ _ Hl H1'); [done| |]; destruct (Hd _ _ _ _ _ _ Hl' H1'); try done; lia.
    + by eapply Hd.
  - intros i Hi. destruct (Hc i Hi) as (d & k & u & Hdl & Hdi). unfold join. fold e.
    destruct (decide (d = c)) as [->|Hdc]; [|destruct (decide (d = c + e)) as [->|Hdc']].
    + rewrite Hl in Hdl. simplify_eq. exists c, (k + 1), CHeld. rewrite lookup_insert_eq. split; [done|lia].
    + rewrite Hl' in Hdl. simplify_eq. exists c, (k + 1), CHeld. rewrite lookup_insert_eq. split; [done|lia].
    + exists d, k, u. by rewrite lookup_insert_ne, lookup_delete_ne.
Qed.

(** The buddy of a chunk, when it is inside the region, starts a chunk, and
    that chunk is not larger. *)
Lemma buddy_is_chunk C c o t :
  cmap_ok B n C → C !! c = Some (o, t) → o < 10 → 0 ≤ buddy_of B c o < n →
  ∃ k u, C !! buddy_of B c o = Some (k, u) ∧ k ≤ o.
Proof.
  intros HC Hl Ho Hin. pose proof HC as [Hb Ha Hd Hc].
  destruct (Hb _ _ _ Hl) as (Hc0 & Ho10 & Hcn). pose proof (Ha _ _ _ Hl) as Hal.
  destruct (Hc _ Hin) as (d & k & u & Hdl & Hdi).
  destruct (Hb _ _ _ Hdl) as (Hd0 & Hk10 & Hdn). pose proof (Ha _ _ _ Hdl) as Hald.
  pose proof (pow2_succ o ltac:(lia)) as Hp. pose proof (pow2_gt0 o ltac:(lia)) as Hpos.
  pose proof (buddy_of_aligned B c o ltac:(lia) Hal) as Halb.
  destruct (Z_le_dec k o) as [Hko|Hko].
  - exists k, u. split; [|done]. replace (buddy_of B c o) with d; [done|].
    destruct (aligned_inside (B + d) (B + buddy_of B c o) k k); [lia|done| |lia|lia|lia].
    by apply (aligned_weaken _ k o); [lia|].
  - exfalso. assert (d ≤ c < d + 2 ^ k) as Hdc.
    { assert (∃ m, (B + m) mod 2 ^ (o + 1) = 0 ∧ m ≤ c < m + 2 ^ (o + 1) ∧ m ≤ buddy_of B c o < m + 2 ^ (o + 1))
        as (m & Hm & Hmc & Hmb).
      { unfold buddy_of. case_decide as Hdec.
        - exists c. split; [done|lia].
        - exists (c - 2 ^ o). split; [|lia]. rewrite Z.add_sub_assoc. by apply parent_aligned; [lia|..]. }
      destruct (aligned_inside (B + m) (B + d) (o + 1) k); [lia|done|done|lia|lia|lia]. }
    assert (d = c) as -> by (eapply cmap_unaligned_ne; [done..|lia]).
    rewrite Hl in Hdl. simplify_eq. lia.
Qed.
End cmap_moves.

(** ** Status changes and coalescing *)
Section coalescing.
Context (B n : Z).
Implicit Types (C : cmap) (c o : Z).

Lemma same_used_set C c o t t' : C !! c = Some (o, t) → t ≠ CUsed → t' ≠ CUsed →
  same_used C (<[c := (o, t')]> C).
Proof. intros Hc Ht Ht' d k. rewrite lookup_insert. case_decide; naive_solver. Qed.

Lemma same_used_trans C1 C2 C3 : same_used C1 C2 → same_used C2 C3 → same_used C1 C3.
Proof. intros H1 H2 d k. by rewrite (H2 d k), (H1 d k). Qed.

Lemma same_used_halve C c o t : cmap_ok B n C → C !! c = Some (o, t) → t ≠ CUsed → 1 ≤ o → same_used C (halve c o C).
Proof.
  intros HC Hc Ht Ho d k. unfold halve. rewrite !lookup_insert.
  destruct (decide (c = d)) as [->|]; [naive_solver|].
  destruct (decide (c + 2 ^ (o - 1) = d)) as [<-|]; [|done].
  split; [done|]. intros Hd. exfalso. pose proof (pow2_gt0 (o - 1) ltac:(lia)).
  pose proof (pow2_succ (o - 1) ltac:(lia)) as Hs. replace (o - 1 + 1) with o in Hs by lia.
  pose proof (cmap_unaligned_ne B n C c o t _ _ _ HC Hc Hd). lia.
Qed.

Lemma same_used_join C c o t t' : C !! c = Some (o, t) → C !! (c + 2 ^ o) = Some (o, t') →
  t ≠ CUsed → t' ≠ CUsed → same_used C (join c o C).
Proof.
  intros Hc Hc' Ht Ht' d k. unfold join. rewrite lookup_insert, lookup_delete.
  repeat case_decide; naive_solver.
Qed.

Lemma coalesced_unfree C c o t : coalesced B C → t ≠ CFree → coalesced B (<[c := (o, t)]> C).
Proof.
  intros HC Ht d k Hk. rewrite !lookup_insert. repeat case_decide; try naive_solver. by apply HC.
Qed.

Lemma coalesced_delete C c : coalesced B C → coalesced B (delete c C).
Proof.
  intros HC d k Hk. rewrite !lookup_delete. repeat case_decide; try naive_solver. by apply HC.
Qed.

(** Freeing a chunk whose buddy is not a free chunk of the same order. *)
Lemma coalesced_free C c o t :
  cmap_ok B n C → coalesced B C → C !! c = Some (o, t) →
  (o < 10 → C !! buddy_of B c o ≠ Some (o, CFree)) → coalesced B (<[c := (o, CFree)]> C).
Proof.
  intros HC Hco Hc Hb d k Hk. pose proof (ck_align _ _ _ HC _ _ _ Hc) as Hal. rewrite !lookup_insert.
  destruct (decide (c = d)) as [<-|Hne]; intros Hd.
  - simplify_eq. rewrite decide_False by (intros ?; by eapply buddy_of_self; [apply Hk|]). apply Hb. lia.
  - destruct (decide (c = buddy_of B d k)) as [Heq|]; [|by apply Hco].
    intros ?; simplify_eq. apply Hb; [lia|]. rewrite buddy_of_invol; [done|lia|].
    by apply (ck_align _ _ _ HC _ _ _ Hd).
Qed.

Lemma held_only_set C (P : Z → Prop) c o t :
  held_only (λ d, d = c ∨ P d) C → t ≠ CHeld → held_only P (<[c := (o, t)]> C).
Proof. intros HC Ht d k. rewrite lookup_insert. case_decide; [naive_solver|]. intros Hd. apply HC in Hd. naive_solver. Qed.

(** ** Coalesced maps are determined by their allocated chunks

    In a coalesced map without held chunks, an aligned block that holds no
    allocated frame is covered by a single free chunk. *)
Definition block_unused (C : cmap) (d k : Z) : Prop :=
  ∀ c o, C !! c = Some (o, CUsed) → c + 2 ^ o ≤ d ∨ d + 2 ^ k ≤ c.

Lemma free_block_covered C k d :
  cmap_ok B n C → coalesced B C → held_only (λ _, False) C →
  0 ≤ k ≤ 10 → 0 ≤ d → d + 2 ^ k ≤ n → (B + d) mod 2 ^ k = 0 → block_unused C d k →
  ∃ c o, C !! c = Some (o, CFree) ∧ k ≤ o ∧ c ≤ d ∧ d + 2 ^ k ≤ c + 2 ^ o.
Proof.
  intros HC Hco Hh Hk. assert (∃ m : nat, k = Z.of_nat m) as [m ->] by (exists (Z.to_nat k); lia).
  revert d. induction m as [|m IH]; intros d Hd Hn Hal Hun.
  - destruct (ck_cover _ _ _ HC d) as (c & o & t & Hc & Hr); [lia|].
    pose proof (ck_bound _ _ _ HC _ _ _ Hc). exists c, o. split; [|lia].
    destruct t; [done|by apply Hh in Hc|]. apply Hun in Hc. lia.
  - pose proof (pow2_succ (Z.of_nat m) ltac:(lia)) as Hs. pose proof (pow2_gt0 (Z.of_nat m) ltac:(lia)) as Hpos.
    replace (Z.of_nat (S m)) with (Z.of_nat m + 1) in * by lia.
    assert ((B + d) mod 2 ^ Z.of_nat m = 0) as Hal' by (apply (aligned_weaken _ _ (Z.of_nat m + 1)); [lia|done]).
    destruct (IH ltac:(lia) d) as (c1 & o1 & Hc1 & Ho1 & Hr1); [lia|lia|done|intros c o Hc; apply Hun in Hc; lia|].
    destruct (IH ltac:(lia) (d + 2 ^ Z.of_nat m)) as (c2 & o2 & Hc2 & Ho2 & Hr2); [lia|lia| | |].
    { rewrite Z.add_assoc. replace (2 ^ Z.of_nat m) with (1 * 2 ^ Z.of_nat m) at 1 by lia. apply aligned_add; [lia|done]. }
    { intros c o Hc; apply Hun in Hc; lia. }
    pose proof (ck_align _ _ _ HC _ _ _ Hc1) as Ha1. pose proof (ck_align _ _ _ HC _ _ _ Hc2) as Ha2.
    destruct (decide (o1 = Z.of_nat m)) as [->|]; [|exists c1, o1; destruct (aligned_inside (B + d) (B + c1) (Z.of_nat m + 1) o1); [lia|done|done|lia|lia|split; [done|lia]]].
    destruct (decide (o2 = Z.of_nat m)) as [->|]; [|exists c2, o2; destruct (aligned_inside (B + d) (B + c2) (Z.of_nat m + 1) o2); [lia|done|done|lia|lia|split; [done|lia]]].
    assert (c1 = d) as -> by lia. assert (c2 = d + 2 ^ Z.of_nat m) as -> by lia.
    exfalso. eapply (Hco (d + 2 ^ Z.of_nat m)); [|exact Hc2|]; [lia|]. rewrite buddy_of_upper; [done|lia|done].
Qed.

Lemma coalesced_subset C C' c o :
  cmap_ok B n C → coalesced B C → held_only (λ _, False) C →
  cmap_ok B n C' → coalesced B C' → held_only (λ _, False) C' → same_used C C' →
  C !! c = Some (o, CFree) → C' !! c = Some (o, CFree).
Proof.
  intros HC Hco Hh HC' Hco' Hh' Hu Hc.
  assert (∀ D D' e k, cmap_ok B n D → cmap_ok B n D' → same_used D' D → D !! e = Some (k, CFree) → block_unused D' e k) as Hun.
  { intros D D' e k HD HD' Hs He f j Hf. apply Hs in Hf. destruct (decide (e = f)) as [->|Hne]; [congruence|].
    destruct (ck_disj _ _ _ HD _ _ _ _ _ _ He Hf Hne); lia. }
  assert (same_used C' C) as Hu' by (intros d k; by rewrite (Hu d k)).
  destruct (ck_bound _ _ _ HC _ _ _ Hc) as (H0 & Ho & Hn).
  destruct (free_block_covered C' o c) as (c' & o' & Hc' & Ho' & Hr'); [done|done|done|done|done|done| | |].
  { by apply (ck_align _ _ _ HC _ _ _ Hc). } { by apply (Hun C). }
  destruct (ck_bound _ _ _ HC' _ _ _ Hc') as (H0' & Hoo' & Hn').
  destruct (free_block_covered C o' c') as (c'' & o'' & Hc'' & Ho'' & Hr''); [done|done|done|lia|done|done| | |].
  { by apply (ck_align _ _ _ HC' _ _ _ Hc'). } { by apply (Hun C'). }
  pose proof (pow2_gt0 o ltac:(lia)).
  assert (c'' = c) as -> by (eapply (cmap_unaligned_ne B n C); [done..|lia]).
  rewrite Hc in Hc''. simplify_eq. assert (o' = o'') as -> by lia. assert (c' = c) as -> by lia. done.
Qed.

(** Two coalesced maps with the same allocated chunks are equal. *)
Lemma coalesced_unique C C' :
  cmap_ok B n C → coalesced B C → held_only (λ _, False) C →
  cmap_ok B n C' → coalesced B C' → held_only (λ _, False) C' → same_used C C' → C = C'.
Proof.
  intros HC Hco Hh HC' Hco' Hh' Hu. assert (same_used C' C) as Hu' by (intros d k; by rewrite (Hu d k)).
  apply map_eq. intros c. apply option_eq. intros [o t]. destruct t.
  - split; intros; [by apply (coalesced_subset C C')|by apply (coalesced_subset C' C)].
  - split; intros H; exfalso; [by apply Hh in H|by apply Hh' in H].
  - apply Hu'.
Qed.
End coalescing.
