(* ===== verification/BuddyInv.v ===== *)
(** * The buddy allocator keeps its invariant

    [rep s C L] ties a concrete allocator state [s] to a chunk map [C] (see
    [Chunks]) and to the contents [L o] of the free lists: the geometry of the
    region, the [order]/[allocated] fields of the page array, the links of the
    free lists and the counters.  The lemmas of this file follow the code: one
    lemma per free-list primitive, then [split_chunk], [merge_chunk],
    [buddy_get_pages] and [buddy_free_pages]. *)

From S2P Require Import Prelude Macro ListHead Buddy Chunks.

Definition orders : list Z := seqZ 0 11.

(** The geometry does not depend on the counters, the links and the pages. *)
Ltac geom :=
  cbn [mr_addr start_addr size page_arrry page_num free_lists_lock nr_free nodes pages
       set_lock set_nr set_nodes set_pages];
  repeat match goal with
  | |- context [?f (set_nr ?x ?s)] => progress change (f (set_nr x s)) with (f s)
  | |- context [?f (set_nodes ?x ?s)] => progress change (f (set_nodes x s)) with (f s)
  | |- context [?f (set_pages ?x ?s)] => progress change (f (set_pages x s)) with (f s)
  | |- context [?f (set_lock ?x ?s)] => progress change (f (set_lock x s)) with (f s)
  end.

Definition upd {A} (L : Z → A) (o : Z) (v : A) : Z → A := λ x, if decide (x = o) then v else L x.

(** Pages on the free lists. *)
Definition fsum (L : Z → list Z) : Z :=
  foldr (λ o acc, Z.of_nat (length (L o)) * 2 ^ o + acc) 0 orders.

Record region_ok (s : bstate) : Prop := {
  rg_mr : 0 < mr_addr s;
  rg_heads : mr_addr s + 40 + 24 * 11 ≤ page_arrry s;
  rg_num : 0 ≤ page_num s;
  rg_arr : page_arrry s + sizeof_page * page_num s < 2 ^ 64;
  rg_start : 0 < start_addr s;
  rg_page : start_addr s mod 2 ^ 12 = 0;
  rg_size : size s = page_num s * 2 ^ 12;
  rg_end : (start_addr s + size s) mod 2 ^ 22 = 0;
  rg_bound : start_addr s + size s + 2 ^ 22 < 2 ^ 64
}.

(** Page number of frame 0. *)
Definition base_vpn (s : bstate) : Z := start_addr s / 2 ^ 12.

Definition stat_flag (t : cstat) : Z := match t with CUsed => 1 | _ => 0 end.

Definition page_meta (e : option (Z * cstat)) (p : page) : Prop :=
  match e with
  | Some (o, t) => order p = o ∧ allocated p = stat_flag t
  | None => allocated p = 0
  end.

Record rep (s : bstate) (C : cmap) (L : Z → list Z) : Prop := {
  rp_region : region_ok s;
  rp_cmap : cmap_ok (base_vpn s) (page_num s) C;
  rp_pages : ∀ i, 0 ≤ i < page_num s →
             ∃ p, pages s !! pfn_to_page s i = Some p ∧ page_meta (C !! i) p;
  rp_nodes : ∀ i, 0 ≤ i < page_num s → is_Some (nodes s !! pfn_to_page s i);
  rp_list : ∀ o, 0 ≤ o ≤ 10 → dlist (nodes s) (fl_addr s o) (pfn_to_page s <$> L o);
  rp_mem : ∀ o c, 0 ≤ o ≤ 10 → c ∈ L o ↔ C !! c = Some (o, CFree);
  rp_nr : ∀ o, 0 ≤ o ≤ 10 → nr_free s !! o = Some (Z.of_nat (length (L o)))
}.

(** What the allocator's operations never change. *)
Record frame (s s' : bstate) : Prop := {
  fr_mr : mr_addr s' = mr_addr s;
  fr_start : start_addr s' = start_addr s;
  fr_size : size s' = size s;
  fr_arr : page_arrry s' = page_arrry s;
  fr_num : page_num s' = page_num s;
  fr_lock : free_lists_lock s' = free_lists_lock s;
  fr_slab : ∀ a, slab <$> pages s' !! a = slab <$> pages s !! a
}.

#[global] Instance frame_preorder : PreOrder frame.
Proof.
  split; [by intros s; split|].
  intros s1 s2 s3 [] []. split; intros; etrans; eauto.
Qed.

Lemma frame_pfn s s' c : frame s s' → pfn_to_page s' c = pfn_to_page s c.
Proof. intros [_ _ _ Ha _ _ _]. unfold pfn_to_page. by rewrite Ha. Qed.

Lemma frame_fl s s' o : frame s s' → fl_addr s' o = fl_addr s o.
Proof. intros [Ha _ _ _ _ _ _]. unfold fl_addr. by rewrite Ha. Qed.

Lemma frame_base s s' : frame s s' → base_vpn s' = base_vpn s.
Proof. intros [_ Ha _ _ _ _ _]. unfold base_vpn. by rewrite Ha. Qed.

#[global] Instance pfn_to_page_inj s : Inj (=) (=) (pfn_to_page s).
Proof. intros a b. unfold pfn_to_page, sizeof_page. lia. Qed.

Lemma upd_eq {A} (L : Z → A) o v : upd L o v o = v.
Proof. unfold upd. by rewrite decide_True. Qed.
Lemma upd_ne {A} (L : Z → A) o v x : x ≠ o → upd L o v x = L x.
Proof. intros. unfold upd. by rewrite decide_False. Qed.

Lemma fsum_upd L o l :
  0 ≤ o ≤ 10 →
  fsum (upd L o l) = fsum L - Z.of_nat (length (L o)) * 2 ^ o + Z.of_nat (length l) * 2 ^ o.
Proof.
  intros Ho. unfold fsum, orders.
  assert (o ∈ seqZ 0 11) as Hin by (apply elem_of_seqZ; lia).
  assert (NoDup (seqZ 0 11)) as Hnd by apply NoDup_seqZ.
  revert Hin Hnd. generalize (seqZ 0 11). intros ks. induction ks as [|k ks IH]; intros Hin Hnd; [set_solver|].
  apply NoDup_cons in Hnd as [Hk Hnd]. cbn [foldr].
  destruct (decide (k = o)) as [->|Hne].
  - rewrite upd_eq. assert (foldr (λ o0 acc, Z.of_nat (length (upd L o l o0)) * 2 ^ o0 + acc) 0 ks
      = foldr (λ o0 acc, Z.of_nat (length (L o0)) * 2 ^ o0 + acc) 0 ks) as ->; [|lia].
    clear -Hk. induction ks as [|j ks IH]; [done|]. cbn [foldr]. rewrite upd_ne by set_solver. rewrite IH by set_solver. done.
  - rewrite upd_ne by done. rewrite IH; [lia|set_solver|done].
Qed.

(** ** Addresses of the list nodes *)
Section addresses.
Context {s : bstate} {C : cmap} {L : Z → list Z} (HR : rep s C L).

Lemma fl_not_page o i : 0 ≤ o ≤ 10 → 0 ≤ i → fl_addr s o ≠ pfn_to_page s i.
Proof.
  intros. destruct (rp_region _ _ _ HR). unfold fl_addr, pfn_to_page, sizeof_page in *. lia.
Qed.

Lemma chunk_frames c o t : C !! c = Some (o, t) → 0 ≤ c ∧ 0 ≤ o ≤ 10 ∧ c + 2 ^ o ≤ page_num s ∧ 0 ≤ c < page_num s.
Proof.
  intros Hl. destruct (ck_bound _ _ _ (rp_cmap _ _ _ HR) _ _ _ Hl) as (? & ? & ?).
  pose proof (pow2_gt0 o). lia.
Qed.

Lemma free_chunk_frames o c : 0 ≤ o ≤ 10 → c ∈ L o → 0 ≤ c < page_num s.
Proof. intros Ho Hc. apply (rp_mem _ _ _ HR) in Hc; [|done]. apply chunk_frames in Hc. tauto. Qed.

Lemma pfn_ne_null c : 0 ≤ c → pfn_to_page s c ≠ NULL.
Proof. intros. destruct (rp_region _ _ _ HR). unfold pfn_to_page, sizeof_page. lia. Qed.

(** A page that is on no free list of order [o]. *)
Lemma not_in_list o c : 0 ≤ o ≤ 10 → 0 ≤ c → C !! c ≠ Some (o, CFree) →
  pfn_to_page s c ∉ fl_addr s o :: (pfn_to_page s <$> L o).
Proof.
  intros Ho Hc Hne [Hin|Hin]%elem_of_cons.
  - symmetry in Hin. by apply fl_not_page in Hin.
  - apply list_elem_of_fmap in Hin as (d & Heq & Hd). apply pfn_to_page_inj in Heq as ->.
    by apply (rp_mem _ _ _ HR) in Hd.
Qed.

Lemma lists_disjoint o o' x : 0 ≤ o ≤ 10 → 0 ≤ o' ≤ 10 → o ≠ o' →
  x ∈ fl_addr s o :: (pfn_to_page s <$> L o) → x ∉ fl_addr s o' :: (pfn_to_page s <$> L o').
Proof.
  intros Ho Ho' Hne [->|Hin]%elem_of_cons.
  - intros [Hin|Hin]%elem_of_cons; [unfold fl_addr in Hin; lia|].
    apply list_elem_of_fmap in Hin as (d & Heq & Hd). apply free_chunk_frames in Hd; [|done].
    by apply fl_not_page in Heq; [|done|lia].
  - apply list_elem_of_fmap in Hin as (d & -> & Hd). pose proof (free_chunk_frames _ _ Ho Hd).
    apply (rp_mem _ _ _ HR) in Hd; [|done]. apply not_in_list; [done|lia|]. congruence.
Qed.

Lemma free_list_NoDup o : 0 ≤ o ≤ 10 → NoDup (L o).
Proof.
  intros Ho. destruct (rp_list _ _ _ HR o Ho) as [Hnd _]. apply NoDup_cons in Hnd as [_ Hnd].
  by apply NoDup_fmap_1 in Hnd.
Qed.

Lemma free_list_length o : 0 ≤ o ≤ 10 → Z.of_nat (length (L o)) ≤ page_num s.
Proof.
  intros Ho. assert (L o ⊆+ seqZ 0 (page_num s)) as Hsub.
  { apply NoDup_submseteq; [by apply free_list_NoDup|]. intros x Hx.
    apply (free_chunk_frames o) in Hx; [|done]. apply elem_of_seqZ. lia. }
  apply submseteq_length in Hsub. rewrite length_seqZ in Hsub.
  pose proof (rg_num _ (rp_region _ _ _ HR)). lia.
Qed.

(** Far from overflowing [nr_free]. *)
Lemma free_list_short o : 0 ≤ o ≤ 10 → Z.of_nat (length (L o)) + 1 < 2 ^ 64.
Proof.
  intros Ho. pose proof (free_list_length o Ho).
  destruct (rp_region _ _ _ HR). unfold sizeof_page in *. lia.
Qed.
End addresses.

(** ** Free-list primitives *)
Section primitives.
Implicit Types (s : bstate) (C : cmap) (L : Z → list Z) (c o : Z).

Lemma wp_get_nr_free s C L o Q :
  rep s C L → 0 ≤ o ≤ 10 → Q (Z.of_nat (length (L o))) s → wp (get_nr_free o) s Q.
Proof. intros HR Ho HQ. eapply wp_load; [by apply (rp_nr _ _ _ HR)|done]. Qed.

(** Changing the status of one chunk together with its list: everything but
    the list of its order is untouched. *)
Lemma rep_relist s C L o c t t' l h nf :
  rep s C L → 0 ≤ o ≤ 10 → C !! c = Some (o, t) → stat_flag t = stat_flag t' →
  dlist h (fl_addr s o) (pfn_to_page s <$> l) →
  (∀ x, x ∉ fl_addr s o :: (pfn_to_page s <$> L o) → x ≠ pfn_to_page s c → h !! x = nodes s !! x) →
  (∀ x, is_Some (nodes s !! x) → is_Some (h !! x)) →
  (t = CFree ∨ t' = CFree) →
  (∀ d, d ∈ l ↔ <[c := (o, t')]> C !! d = Some (o, CFree)) →
  nf = Z.of_nat (length l) →
  rep (set_nr (<[o := nf]> (nr_free s)) (set_nodes h s)) (<[c := (o, t')]> C) (upd L o l).
Proof.
  intros HR Ho Hc Hst Hl Hf Hs Htt Hm ->. pose proof HR as [HG HC HP HN HL HM HNR].
  destruct (chunk_frames HR _ _ _ Hc) as (Hc0 & _ & _ & _).
  split; geom; [by destruct HG|by eapply cmap_set_stat|..].
  - intros i Hi. destruct (HP i Hi) as (p & Hp & Hmeta). exists p. split; [done|].
    rewrite lookup_insert. case_decide as Hci; [subst i|done].
    rewrite Hc in Hmeta. destruct Hmeta as [? Ha]. by rewrite Hst in Ha.
  - intros i Hi. by apply Hs, HN.
  - intros k Hk. destruct (decide (k = o)) as [->|Hne]; [by rewrite upd_eq|]. rewrite upd_ne by done.
    eapply dlist_frame; [|by apply HL]. intros x Hx. apply Hf.
    + by eapply lists_disjoint.
    + intros ->. revert Hx. apply (not_in_list HR); [done|done|]. congruence.
  - intros k d Hk. destruct (decide (k = o)) as [->|Hne]; [by rewrite upd_eq|]. rewrite upd_ne by done.
    rewrite HM, lookup_insert by done. case_decide; [subst d; rewrite Hc|done]. naive_solver.
  - intros k Hk. destruct (decide (k = o)) as [->|Hne].
    + by rewrite upd_eq, lookup_insert_eq.
    + by rewrite upd_ne, lookup_insert_ne by done; apply HNR.
Qed.

Lemma wp_fl_del s C L o c l1 l2 (Q : unit → bstate → Prop) :
  rep s C L → 0 ≤ o ≤ 10 → L o = l1 ++ c :: l2 →
  (∀ s', rep s' (<[c := (o, CHeld)]> C) (upd L o (l1 ++ l2)) → frame s s' → Q tt s') →
  wp (fl_del o (pfn_to_page s c)) s Q.
Proof.
  intros HR Ho HL HQ. pose proof (free_list_short HR o Ho) as Hlen. unfold fl_del. apply wp_bind, wp_zoom.
  pose proof (rp_list _ _ _ HR o Ho) as Hd. rewrite HL, fmap_app, fmap_cons in Hd.
  assert (C !! c = Some (o, CFree)) as Hc by (apply (rp_mem _ _ _ HR); [done|rewrite HL; set_solver]).
  apply (wp_list_del _ _ _ _ _ _ Hd). intros h Hd' Hf Hnode.
  unfold dec_nr_free. apply wp_bind.
  eapply wp_load; [exact (rp_nr _ _ _ HR o Ho)|]. apply wp_modify.
  rewrite HL, length_app in Hlen |- *. simpl length in *.
  apply HQ; [|by split]. rewrite u64_small by lia.
  pose proof (free_list_NoDup HR o Ho) as Hnd.
  apply (rep_relist s C L o c CFree CHeld); [done|done|done|done| | | |by left| |].
  - by rewrite fmap_app.
  - intros x Hx _. apply Hf. by rewrite HL, fmap_app, fmap_cons in Hx.
  - intros x [n Hx]. destruct (decide (x ∈ fl_addr s o :: (pfn_to_page s <$> l1) ++ pfn_to_page s c :: (pfn_to_page s <$> l2))) as [Hin|Hni].
    + destruct (decide (x = pfn_to_page s c)) as [->|]; [by rewrite Hnode|].
      eapply dlist_is_Some; [exact Hd'|]. set_solver.
    + by rewrite Hf.
  - intros d. rewrite lookup_insert. rewrite HL in Hnd.
    pose proof (rp_mem _ _ _ HR o d Ho) as Hm. rewrite HL in Hm.
    apply NoDup_app in Hnd as (Hn1 & Hn2 & [Hn3 _]%NoDup_cons).
    case_decide; [subst d|]; set_solver.
  - rewrite length_app. lia.
Qed.

(** The state once [c] is linked in front of the list of its order and counted. *)
Lemma rep_push s C L o c h :
  rep s C L → C !! c = Some (o, CHeld) →
  dlist h (fl_addr s o) (pfn_to_page s c :: (pfn_to_page s <$> L o)) →
  (∀ x, x ∉ pfn_to_page s c :: fl_addr s o :: (pfn_to_page s <$> L o) → h !! x = nodes s !! x) →
  rep (set_nr (<[o := u64 (Z.of_nat (length (L o)) + 1)]> (nr_free s)) (set_nodes h s))
      (<[c := (o, CFree)]> C) (upd L o (c :: L o)).
Proof.
  intros HR Hc Hd' Hf. destruct (chunk_frames HR _ _ _ Hc) as (Hc0 & Ho & Hcn & Hcr).
  pose proof (free_list_short HR o Ho) as Hlen. rewrite u64_small by lia.
  apply (rep_relist s C L o c CHeld CFree); [done|done|done|done|done| | |by right| |simpl length; lia].
  - intros x Hx Hne. apply Hf. set_solver.
  - intros x Hx. destruct (decide (x ∈ pfn_to_page s c :: fl_addr s o :: (pfn_to_page s <$> L o))) as [Hin|Hni].
    + eapply dlist_is_Some; [exact Hd'|]. simpl. set_solver.
    + by rewrite Hf.
  - intros d. rewrite lookup_insert. pose proof (rp_mem _ _ _ HR o d Ho). case_decide; [subst d|]; set_solver.
Qed.

Lemma wp_link_chunk s C L o c (Q : unit → nheap → Prop) :
  rep s C L → C !! c = Some (o, CHeld) →
  (∀ h, dlist h (fl_addr s o) (pfn_to_page s c :: (pfn_to_page s <$> L o)) →
        (∀ x, x ∉ pfn_to_page s c :: fl_addr s o :: (pfn_to_page s <$> L o) → h !! x = nodes s !! x) → Q tt h) →
  wp (list_add (pfn_to_page s c) (fl_addr s o)) (nodes s) Q.
Proof.
  intros HR Hc HQ. destruct (chunk_frames HR _ _ _ Hc) as (Hc0 & Ho & Hcn & Hcr).
  eapply wp_list_add; [exact (rp_list _ _ _ HR o Ho)| |by apply (rp_nodes _ _ _ HR)|done].
  apply (not_in_list HR); [done|done|congruence].
Qed.

Lemma wp_fl_add s C L o c (Q : unit → bstate → Prop) :
  rep s C L → C !! c = Some (o, CHeld) →
  (∀ s', rep s' (<[c := (o, CFree)]> C) (upd L o (c :: L o)) → frame s s' → Q tt s') →
  wp (fl_add o (pfn_to_page s c)) s Q.
Proof.
  intros HR Hc HQ. destruct (chunk_frames HR _ _ _ Hc) as (Hc0 & Ho & _).
  unfold fl_add. apply wp_bind, wp_gets, wp_bind, wp_zoom.
  apply (wp_link_chunk _ _ _ _ _ _ HR Hc). intros h Hd' Hf. unfold inc_nr_free. apply wp_bind.
  eapply wp_load; [exact (rp_nr _ _ _ HR o Ho)|]. apply wp_modify.
  apply HQ; [|by split]. exact (rep_push _ _ _ _ _ _ HR Hc Hd' Hf).
Qed.

(** ** Page metadata *)
Lemma wp_set_order s p v o (Q : unit → bstate → Prop) :
  pages s !! p = Some v →
  Q tt (set_pages (<[p := mk_page (allocated v) o (slab v)]> (pages s)) s) → wp (set_order p o) s Q.
Proof. intros Hv HQ. unfold set_order, st_page. apply wp_bind. eapply wp_load; [done|]. by apply wp_modify. Qed.

Lemma wp_set_allocated s p v a (Q : unit → bstate → Prop) :
  pages s !! p = Some v →
  Q tt (set_pages (<[p := mk_page a (order v) (slab v)]> (pages s)) s) → wp (set_allocated p a) s Q.
Proof. intros Hv HQ. unfold set_allocated, st_page. apply wp_bind. eapply wp_load; [done|]. by apply wp_modify. Qed.

Lemma rep_set_pages s C C' L m :
  rep s C L → cmap_ok (base_vpn s) (page_num s) C' →
  (∀ i, 0 ≤ i < page_num s → ∃ p, m !! pfn_to_page s i = Some p ∧ page_meta (C' !! i) p) →
  (∀ o c, C' !! c = Some (o, CFree) ↔ C !! c = Some (o, CFree)) →
  rep (set_pages m s) C' L.
Proof.
  intros [HG HC HP HN HL HM HNR] HC' HP' HM'. split; geom; [by destruct HG|done|done|done|done| |done].
  intros o c Ho. by rewrite HM, HM'.
Qed.

Lemma frame_set_page s p v a o :
  pages s !! p = Some v → frame s (set_pages (<[p := mk_page a o (slab v)]> (pages s)) s).
Proof.
  intros Hv. split; try done. intros x. simpl. rewrite lookup_insert. case_decide; [subst x; by rewrite Hv|done].
Qed.

Lemma rep_page s C L i : rep s C L → 0 ≤ i < page_num s →
  ∃ p, pages s !! pfn_to_page s i = Some p ∧ page_meta (C !! i) p.
Proof. intros HR. apply (rp_pages _ _ _ HR). Qed.

Lemma rep_chunk_page s C L c o t : rep s C L → C !! c = Some (o, t) →
  ∃ p, pages s !! pfn_to_page s c = Some p ∧ order p = o ∧ allocated p = stat_flag t.
Proof.
  intros HR Hc. destruct (chunk_frames HR _ _ _ Hc) as (_ & _ & _ & Hr).
  destruct (rep_page _ _ _ _ HR Hr) as (p & Hp & Hm). rewrite Hc in Hm. eauto.
Qed.

(** Allocating or releasing the held chunk [c]: one flag changes. *)
Lemma wp_set_stat s C L c o t t' (Q : unit → bstate → Prop) :
  rep s C L → C !! c = Some (o, t) → t ≠ CFree → t' ≠ CFree →
  (∀ s', rep s' (<[c := (o, t')]> C) L → frame s s' → Q tt s') →
  wp (set_allocated (pfn_to_page s c) (stat_flag t')) s Q.
Proof.
  intros HR Hc Ht Ht' HQ. destruct (rep_chunk_page _ _ _ _ _ _ HR Hc) as (p & Hp & Ho & Ha).
  eapply wp_set_allocated; [exact Hp|]. apply HQ; [|by apply frame_set_page].
  apply (rep_set_pages _ C); [done| | |].
  - eapply cmap_set_stat; [apply (rp_cmap _ _ _ HR)|done].
  - intros i Hi. rewrite !lookup_insert. destruct (decide (c = i)) as [->|Hne].
    + rewrite !decide_True by done. eexists. by split.
    + rewrite decide_False; [by apply (rep_page s C L)|]. by intros ?%pfn_to_page_inj.
  - intros k d. rewrite lookup_insert. case_decide; naive_solver.
Qed.

(** The two stores of [split_chunk] turn a held chunk into two. *)
Lemma wp_halve s C L c o (Q : unit → bstate → Prop) :
  rep s C L → C !! c = Some (o, CHeld) → 1 ≤ o →
  (∀ s', rep s' (halve c o C) L → frame s s' → Q tt s') →
  wp (set_order (pfn_to_page s c) (o - 1) ;; set_order (pfn_to_page s (c + 2 ^ (o - 1))) (o - 1)) s Q.
Proof.
  intros HR Hc Ho HQ. destruct (chunk_frames HR _ _ _ Hc) as (Hc0 & Ho10 & Hcn & Hcr).
  pose proof (pow2_succ (o - 1) ltac:(lia)) as Hp2. replace (o - 1 + 1) with o in Hp2 by lia.
  pose proof (pow2_gt0 (o - 1) ltac:(lia)) as Hpos. set (e := 2 ^ (o - 1)) in *.
  assert (C !! (c + e) = None) as Hnone.
  { destruct (C !! (c + e)) as [[k u]|] eqn:E; [|done]. exfalso.
    assert (c = c + e); [|lia]. eapply cmap_unaligned_ne; [apply (rp_cmap _ _ _ HR)|done|done|lia]. }
  destruct (rep_chunk_page _ _ _ _ _ _ HR Hc) as (p & Hp & _ & Ha).
  destruct (rep_page _ _ _ (c + e) HR) as (q & Hq & Hqa); [lia|]. rewrite Hnone in Hqa. simpl in Ha, Hqa.
  apply wp_bind. eapply wp_set_order; [exact Hp|].
  assert (pfn_to_page s c ≠ pfn_to_page s (c + e)) as Hne by (intros ?%pfn_to_page_inj; lia).
  set (s1 := set_pages _ s).
  assert (pages s1 !! pfn_to_page s (c + e) = Some q) as Hq1 by (subst s1; simpl; by rewrite lookup_insert_ne).
  eapply wp_set_order; [exact Hq1|]. apply HQ; [|etrans; by apply frame_set_page].
  change (rep (set_pages (<[pfn_to_page s (c + e) := mk_page (allocated q) (o - 1) (slab q)]> (pages s1)) s) (halve c o C) L).
  apply (rep_set_pages _ C); [done| | |].
  - eapply cmap_halve; [apply (rp_cmap _ _ _ HR)|done|done].
  - intros i Hi. unfold halve. fold e. subst s1. simpl. rewrite !lookup_insert.
    destruct (decide (c = i)) as [<-|Hci].
    + rewrite decide_False, decide_True by done. naive_solver.
    + rewrite (decide_False (P := pfn_to_page s c = _)) by (by intros ?%pfn_to_page_inj).
      destruct (decide (c + e = i)) as [<-|Hci'].
      * rewrite decide_True by done. naive_solver.
      * rewrite decide_False; [by apply (rep_page s C L)|]. by intros ?%pfn_to_page_inj.
  - intros k d. unfold halve. fold e. rewrite !lookup_insert. repeat case_decide; naive_solver.
Qed.

(** The store of [merge_chunk] turns two held buddies into one chunk. *)
Lemma wp_join s C L c o (Q : unit → bstate → Prop) :
  rep s C L → C !! c = Some (o, CHeld) → C !! (c + 2 ^ o) = Some (o, CHeld) → o < 10 →
  (base_vpn s + c) mod 2 ^ (o + 1) = 0 →
  (∀ s', rep s' (join c o C) L → frame s s' → Q tt s') →
  wp (set_order (pfn_to_page s c) (o + 1)) s Q.
Proof.
  intros HR Hc Hc' Ho Hal HQ. destruct (rep_chunk_page _ _ _ _ _ _ HR Hc) as (p & Hp & _ & Ha).
  eapply wp_set_order; [exact Hp|]. apply HQ; [|by apply frame_set_page].
  apply (rep_set_pages _ C); [done| | |].
  - eapply cmap_join; [apply (rp_cmap _ _ _ HR)|done..].
  - intros i Hi. unfold join. rewrite !lookup_insert. destruct (decide (c = i)) as [<-|Hci].
    + rewrite decide_True by done. naive_solver.
    + rewrite decide_False by (by intros ?%pfn_to_page_inj). rewrite lookup_delete.
      destruct (rep_page _ _ _ _ HR Hi) as (q & Hq & Hm). exists q. split; [done|].
      case_decide; [subst i|done]. rewrite Hc' in Hm. by destruct Hm.
  - intros k d. unfold join. rewrite lookup_insert, lookup_delete. repeat case_decide; naive_solver.
Qed.
End primitives.
