(* ===== verification/BuddyOps.v ===== *)
(** * The operations of the buddy allocator

    Total correctness of [split_chunk], [merge_chunk], [buddy_get_pages] and
    [buddy_free_pages]: on a state that satisfies [rep] they return (no
    [BUG_ON], no wild access, no deadlock, enough fuel) and preserve [rep]. *)

From S2P Require Import Prelude Macro ListHead Buddy Chunks BuddyInv.

(** ** Addresses of chunks *)
Section chunk_addresses.
Context {s : bstate} (HG : region_ok s).

Lemma chunk_size_pow2 o : 0 ≤ o → BUDDY_CHUNK_SIZE o = 2 ^ (12 + o).
Proof. intros. unfold BUDDY_CHUNK_SIZE, PAGE_SHIFT. rewrite Z.shiftl_mul_pow2 by lia. lia. Qed.

Lemma chunk_pages_pow2 o : 0 ≤ o → BUDDY_CHUNK_PAGES_COUNT o = 2 ^ o.
Proof. intros. unfold BUDDY_CHUNK_PAGES_COUNT. rewrite Z.shiftl_mul_pow2 by lia. lia. Qed.

Lemma start_vpn : start_addr s = base_vpn s * 2 ^ 12.
Proof. unfold base_vpn. symmetry. apply div_mul_aligned; [lia|]. apply (rg_page _ HG). Qed.

Lemma end_vpn : (base_vpn s + page_num s) mod 2 ^ 10 = 0.
Proof.
  pose proof (rg_end _ HG) as He. rewrite (rg_size _ HG), start_vpn in He.
  rewrite <- Z.mul_add_distr_r in He. change (2 ^ 22) with (2 ^ 10 * 2 ^ 12) in He.
  rewrite Z.mul_mod_distr_r in He by lia. lia.
Qed.

Lemma page_to_virt_frame c : 0 ≤ c ≤ page_num s →
  page_to_virt s (pfn_to_page s c) = (base_vpn s + c) * 2 ^ 12.
Proof.
  intros Hc. pose proof start_vpn. destruct HG. unfold page_to_virt, page_to_pfn, pfn_to_page.
  replace (page_arrry s + c * sizeof_page - page_arrry s) with (c * sizeof_page) by lia.
  rewrite Z.div_mul by done. unfold sizeof_page in *. change PAGE_SIZE with (2 ^ 12).
  rewrite (u64_small c), (u64_small (c * _)), u64_small by lia. lia.
Qed.

Lemma virt_to_page_frame c r : 0 ≤ c < page_num s → 0 ≤ r < 2 ^ 12 →
  virt_to_page s ((base_vpn s + c) * 2 ^ 12 + r) = pfn_to_page s c.
Proof.
  intros Hc Hr. pose proof start_vpn as Hs. destruct HG. unfold virt_to_page.
  rewrite !u64_small by lia. change PAGE_SIZE with (2 ^ 12).
  replace ((base_vpn s + c) * 2 ^ 12 + r - start_addr s) with (r + c * 2 ^ 12) by lia.
  rewrite Z.div_add, Z.div_small by lia. simpl.
  repeat case_cmp; simpl; try lia. done.
Qed.

Lemma virt_to_page_below v : v < start_addr s → virt_to_page s v = NULL.
Proof. intros. unfold virt_to_page. case_cmp; [done|lia]. Qed.

Lemma round_down_vpn v k : 0 ≤ v → v * 2 ^ 12 < 2 ^ 64 → 0 ≤ k ≤ 12 →
  ROUND_DOWN (v * 2 ^ 12) (BUDDY_CHUNK_SIZE k) = (v - v mod 2 ^ k) * 2 ^ 12.
Proof.
  intros Hv Hb Hk. rewrite chunk_size_pow2, ROUND_DOWN_pow2 by lia.
  rewrite (Z.add_comm 12), Z.pow_add_r, Z.mul_mod_distr_r by lia. lia.
Qed.

(** A chunk that is the lower half of its parent block has its buddy inside the region. *)
Lemma upper_buddy_inside c o :
  0 ≤ c → 0 ≤ o < 10 → c + 2 ^ o ≤ page_num s → (base_vpn s + c) mod 2 ^ (o + 1) = 0 →
  c + 2 ^ (o + 1) ≤ page_num s.
Proof.
  intros Hc Ho Hn Hal. pose proof end_vpn as He. pose proof (pow2_succ o ltac:(lia)). pose proof (pow2_gt0 o ltac:(lia)).
  destruct (Z_le_dec (c + 2 ^ (o + 1)) (page_num s)); [done|]. exfalso.
  assert ((base_vpn s + page_num s) mod 2 ^ (o + 1) = 0) as He' by (apply (aligned_weaken _ _ 10); [lia|done]).
  destruct (aligned_inside (base_vpn s + page_num s) (base_vpn s + c) (o + 1) (o + 1)); [lia|done|done|lia|lia|lia].
Qed.

(** What [merge_chunk] computes for a chunk of order [o]: the first frame of
    the parent block and the buddy. *)
Lemma merge_addresses c o :
  0 ≤ c → 0 ≤ o < 10 → c + 2 ^ o ≤ page_num s → (base_vpn s + c) mod 2 ^ o = 0 →
  let m := virt_to_page s (ROUND_DOWN (page_to_virt s (pfn_to_page s c)) (BUDDY_CHUNK_SIZE (o + 1))) in
  let b := if m =? pfn_to_page s c then pfn_to_page s c + BUDDY_CHUNK_PAGES_COUNT o * sizeof_page else m in
  (b = NULL ∧ buddy_of (base_vpn s) c o < 0) ∨
  (0 ≤ buddy_of (base_vpn s) c o ∧ buddy_of (base_vpn s) c o + 2 ^ o ≤ page_num s ∧
   b = pfn_to_page s (buddy_of (base_vpn s) c o) ∧
   m = pfn_to_page s (Z.min c (buddy_of (base_vpn s) c o)) ∧
   (base_vpn s + Z.min c (buddy_of (base_vpn s) c o)) mod 2 ^ (o + 1) = 0).
Proof.
  intros Hc Ho Hn Hal m b. subst b. pose proof start_vpn as Hs. pose proof HG as [].
  pose proof (pow2_gt0 o ltac:(lia)) as Hpos. pose proof (pow2_succ o ltac:(lia)) as Hsucc.
  unfold m. clear m.
  rewrite page_to_virt_frame by lia. rewrite round_down_vpn by lia. unfold buddy_of.
  case_decide as Hdec.
  - rewrite Hdec, Z.sub_0_r. pose proof (upper_buddy_inside c o Hc Ho Hn Hdec) as Hup.
    replace ((base_vpn s + c) * 2 ^ 12) with ((base_vpn s + c) * 2 ^ 12 + 0) by lia.
    rewrite virt_to_page_frame by lia. rewrite Z.eqb_refl. right.
    rewrite chunk_pages_pow2 by lia. rewrite !Z.min_l by lia.
    split_and!; [lia|lia|unfold pfn_to_page; lia|done|done].
  - pose proof (parent_aligned (base_vpn s + c) o ltac:(lia) Hal Hdec) as Hpa.
    assert ((base_vpn s + c) mod 2 ^ (o + 1) = 2 ^ o) as Hmod.
    { symmetry. apply (Z.mod_unique_pos _ _ ((base_vpn s + c - 2 ^ o) / 2 ^ (o + 1))); [lia|].
      pose proof (Z.div_mod (base_vpn s + c - 2 ^ o) (2 ^ (o + 1))). lia. }
    rewrite Hmod. destruct (Z_le_dec 0 (c - 2 ^ o)) as [H0|H0].
    + replace ((base_vpn s + c - 2 ^ o) * 2 ^ 12) with ((base_vpn s + (c - 2 ^ o)) * 2 ^ 12 + 0) by lia.
      rewrite virt_to_page_frame by lia. right. rewrite !Z.min_r by lia.
      destruct (Z.eqb_spec (pfn_to_page s (c - 2 ^ o)) (pfn_to_page s c)) as [Heq|_].
      { apply pfn_to_page_inj in Heq. lia. }
      split_and!; [lia|lia|done|done|]. by rewrite Z.add_sub_assoc.
    + left. rewrite virt_to_page_below by lia.
      destruct (Z.eqb_spec NULL (pfn_to_page s c)) as [Heq|_]; [|lia].
      unfold pfn_to_page, sizeof_page in *. lia.
Qed.
End chunk_addresses.

(** ** Splitting *)
Section splitting.
Implicit Types (s : bstate) (C : cmap) (L : Z → list Z) (c o : Z).

Lemma wp_fl_pop s C L o c l (Q : Z → bstate → Prop) :
  rep s C L → 0 ≤ o ≤ 10 → L o = c :: l →
  (∀ s', rep s' (<[c := (o, CHeld)]> C) (upd L o l) → frame s s' → Q (pfn_to_page s c) s') →
  wp (fl_pop o) s Q.
Proof.
  intros HR Ho HL HQ. unfold fl_pop. apply wp_bind, wp_gets, wp_bind, wp_zoom.
  destruct (rp_list _ _ _ HR o Ho) as [_ Hch]. rewrite HL in Hch.
  eapply wp_rd_next; [by eapply chain_first|]. simpl.
  assert (0 ≤ c) by (pose proof (free_chunk_frames HR o c Ho); rewrite HL in *; set_solver).
  apply wp_bind, wp_BUG_ON; [by apply Z.eqb_neq, (pfn_ne_null HR)|].
  replace (set_nodes (nodes s) s) with s by by destruct s. apply wp_bind.
  eapply (wp_fl_del _ _ _ _ _ [] l); [exact HR|done|done|].
  intros s' HR' Hf. apply wp_ret. by apply HQ.
Qed.


(** The free lists after a chunk of order [k] was taken off its list and split
    down to order [o]: one upper half is added to each list in between. *)
Record split_lists (L : Z → list Z) (o c : Z) (L' : Z → list Z) (k : Z) : Prop := {
  sp_order : o ≤ k ≤ 10;
  sp_first : L k = c :: L' k;
  sp_none : ∀ j, o < j < k → L j = [];
  sp_half : ∀ j, o ≤ j < k → L' j = (c + 2 ^ j) :: L j;
  sp_rest : ∀ j, 0 ≤ j ≤ 10 → j < o ∨ k < j → L' j = L j
}.

(** The outcome of taking a chunk of order [o] out of the free lists. *)
Record took (s : bstate) (C : cmap) (L : Z → list Z) (o c : Z) (s' : bstate) (C' : cmap) (L' : Z → list Z) : Prop := {
  tk_rep : rep s' C' L';
  tk_frame : frame s s';
  tk_held : C' !! c = Some (o, CHeld);
  tk_only : held_only (λ d, d = c) C';
  tk_used : same_used C C';
  tk_coal : coalesced (base_vpn s) C';
  tk_sum : fsum L' = fsum L - 2 ^ o;
  tk_lists : ∃ k, split_lists L o c L' k
}.

Lemma split_pop L o c l : 0 ≤ o ≤ 10 → L o = c :: l → split_lists L o c (upd L o l) o.
Proof. intros Ho HL. split; [lia|by rewrite upd_eq|lia|lia|]. intros j _ Hj. rewrite upd_ne by lia. done. Qed.

Lemma split_down L o c L1 k : 1 ≤ o → split_lists L o c L1 k → (o < k → L o = []) →
  split_lists L (o - 1) c (upd L1 (o - 1) ((c + 2 ^ (o - 1)) :: L1 (o - 1))) k.
Proof.
  intros H1 [Hk Hc Hn Hh Hr] Ho. split; [lia|rewrite upd_ne by lia; done|..].
  - intros j Hj. destruct (decide (j = o)) as [->|]; [apply Ho; lia|apply Hn; lia].
  - intros j Hj. destruct (decide (j = o - 1)) as [->|]; [rewrite upd_eq, Hr by lia; done|rewrite upd_ne by done; apply Hh; lia].
  - intros j Hj0 Hj. rewrite upd_ne by lia. apply Hr; lia.
Qed.

Lemma took_pop s C L o c l s' :
  rep s C L → held_only (λ _, False) C → coalesced (base_vpn s) C → 0 ≤ o ≤ 10 → L o = c :: l →
  rep s' (<[c := (o, CHeld)]> C) (upd L o l) → frame s s' →
  took s C L o c s' (<[c := (o, CHeld)]> C) (upd L o l).
Proof.
  intros HR Hh Hco Ho HL HR' Hf.
  assert (C !! c = Some (o, CFree)) as Hc by (apply (rp_mem _ _ _ HR); [done|rewrite HL; set_solver]).
  split; [done|done|by rewrite lookup_insert_eq| | | | |].
  - intros d k. rewrite lookup_insert. case_decide; [done|]. by intros ?%Hh.
  - by eapply same_used_set.
  - by apply coalesced_unfree.
  - rewrite fsum_upd by done. rewrite HL. simpl length. lia.
  - exists o. by apply split_pop.
Qed.

(** One level of [split_chunk]: halve the held chunk and free its upper half. *)
Lemma wp_split_level s C L o c s1 C1 L1 (Q : Z → bstate → Prop) :
  took s C L o c s1 C1 L1 → 1 ≤ o → L o = [] ∨ split_lists L o c L1 o →
  (∀ s' C' L', took s C L (o - 1) c s' C' L' → Q (pfn_to_page s c) s') →
  wp (set_order (pfn_to_page s c) (o - 1) ;;
      set_order (pfn_to_page s c + BUDDY_CHUNK_PAGES_COUNT (o - 1) * sizeof_page) (o - 1) ;;
      fl_add (o - 1) (pfn_to_page s c + BUDDY_CHUNK_PAGES_COUNT (o - 1) * sizeof_page) ;;
      mret (pfn_to_page s c)) s1 Q.
Proof.
  intros [HR Hf Hc Honly Hu Hco Hsum [kk Hls]] Ho Hemp HQ.
  pose proof (pow2_gt0 (o - 1) ltac:(lia)) as Hpos.
  pose proof (pow2_succ (o - 1) ltac:(lia)) as Hs2. replace (o - 1 + 1) with o in Hs2 by lia.
  rewrite chunk_pages_pow2 by lia. rewrite <- (frame_pfn s s1 c Hf).
  replace (pfn_to_page s1 c + 2 ^ (o - 1) * sizeof_page) with (pfn_to_page s1 (c + 2 ^ (o - 1))) by (unfold pfn_to_page; lia).
  pose proof (rp_cmap _ _ _ HR) as HC1. pose proof (ck_align _ _ _ HC1 _ _ _ Hc) as Hal.
  pose proof (chunk_frames HR _ _ _ Hc) as (_ & Ho10 & _).
  apply wp_bind2, (wp_halve _ _ _ _ _ _ HR Hc Ho). intros s2 HR2 Hf2.
  assert (halve c o C1 !! (c + 2 ^ (o - 1)) = Some (o - 1, CHeld)) as Hup.
  { unfold halve. by rewrite lookup_insert_ne, lookup_insert_eq by lia. }
  rewrite <- (frame_pfn _ _ (c + 2 ^ (o - 1)) Hf2). apply wp_bind, (wp_fl_add _ _ _ _ _ _ HR2 Hup). intros s3 HR3 Hf3.
  apply wp_ret. rewrite (frame_pfn _ _ _ Hf). eapply HQ. split; [exact HR3| | | | | | |].
  - etrans; [exact Hf|]. by etrans.
  - unfold halve. by rewrite lookup_insert_ne, lookup_insert_eq by lia.
  - intros d k. unfold halve. rewrite !lookup_insert. repeat case_decide; try done. intros Hd. by apply Honly in Hd.
  - eapply same_used_trans; [exact Hu|]. eapply same_used_trans; [by eapply same_used_halve|].
    by eapply same_used_set.
  - apply (coalesced_free _ (page_num s2) _ _ _ CHeld); [|..|done|].
    + rewrite <- (frame_base _ _ Hf), <- (frame_base _ _ Hf2). apply (rp_cmap _ _ _ HR2).
    + unfold halve. apply coalesced_unfree; [|done]. by apply coalesced_unfree.
    + intros _. rewrite buddy_of_upper; [unfold halve; by rewrite lookup_insert_eq|lia|].
      replace (o - 1 + 1) with o by lia. by rewrite <- (frame_base _ _ Hf).
  - rewrite fsum_upd by lia. simpl length. lia.
  - destruct Hemp as [Hemp|Hpop]; [exists kk; by apply split_down|exists o; apply split_down; [done|done|lia]].
Qed.

Lemma wp_split_chunk_rec fuel s C L o (Q : Z → bstate → Prop) :
  rep s C L → held_only (λ _, False) C → coalesced (base_vpn s) C → 1 ≤ o ≤ 11 → 11 - o < Z.of_nat fuel →
  ((∀ k, o ≤ k ≤ 10 → L k = []) → Q NULL s) →
  (∀ c s' C' L', o ≤ 10 → took s C L (o - 1) c s' C' L' → Q (pfn_to_page s c) s') →
  wp (split_chunk_rec fuel o) s Q.
Proof.
  intros HR Hh Hco. revert o Q. induction fuel as [|fuel IH]; intros o Q Ho Hfuel HQ0 HQ1; [lia|].
  cbn [split_chunk_rec]. unfold BUDDY_MAX_ORDER.
  destruct (Z.ltb_spec o 1); [lia|]. rewrite Z.geb_leb. destruct (Z.leb_spec 11 o).
  { apply wp_ret, HQ0. intros. lia. }
  simpl orb. apply wp_bind, (wp_get_nr_free _ _ _ _ _ HR); [lia|].
  assert (∀ c s1 C1 L1, took s C L o c s1 C1 L1 → L o = [] ∨ split_lists L o c L1 o →
    wp (if pfn_to_page s c =? NULL then mret NULL
        else set_order (pfn_to_page s c) (o - 1) ;;
             set_order (pfn_to_page s c + BUDDY_CHUNK_PAGES_COUNT (o - 1) * sizeof_page) (o - 1) ;;
             fl_add (o - 1) (pfn_to_page s c + BUDDY_CHUNK_PAGES_COUNT (o - 1) * sizeof_page) ;;
             mret (pfn_to_page s c)) s1 Q) as Hlevel.
  { intros c s1 C1 L1 Ht Hls. pose proof (chunk_frames (tk_rep _ _ _ _ _ _ _ _ Ht) _ _ _ (tk_held _ _ _ _ _ _ _ _ Ht)).
    rewrite (proj2 (Z.eqb_neq _ _)) by (apply (pfn_ne_null HR); lia).
    eapply wp_split_level; [exact Ht|done|done|]. intros. apply (HQ1 c s' C' L'); [lia|done]. }
  apply wp_bind. destruct (L o) as [|c l] eqn:EL; simpl length.
  - rewrite Z.eqb_refl. apply IH; [lia|lia| |].
    + intros Hk. simpl. apply HQ0. intros k Hk'. destruct (decide (k = o)) as [->|]; [done|]. apply Hk. lia.
    + intros c s1 C1 L1 _ Ht. replace (o + 1 - 1) with o in Ht by lia. eapply Hlevel; [exact Ht|by left].
  - destruct (Z.eqb_spec (Z.of_nat (S (length l))) 0); [lia|].
    eapply wp_fl_pop; [exact HR|lia|exact EL|]. intros s1 HR1 Hf1.
    eapply Hlevel; [apply took_pop; [done|done|done|lia|done|done|done]|]. right. apply split_pop; [lia|done].
Qed.
End splitting.

(** ** Merging *)
Section merging.
Implicit Types (s : bstate) (C : cmap) (L : Z → list Z) (c o : Z).

Lemma dlist_length_le h hd l : dlist h hd l → (length l < base.size h)%nat.
Proof.
  intros Hd. destruct Hd as [Hnd Hc] eqn:E. clear E.
  assert (list_to_set (hd :: l) ⊆ dom h) as Hsub.
  { intros x Hx. apply elem_of_list_to_set in Hx. apply elem_of_dom. by eapply chain_is_Some. }
  apply subseteq_size in Hsub. rewrite size_dom, size_list_to_set in Hsub by done. simpl in Hsub. lia.
Qed.

(** The expensive check of [merge_chunk] succeeds on a free chunk. *)
Lemma wp_page_in_list s C L c o (Q : bool → bstate → Prop) :
  rep s C L → C !! c = Some (o, CFree) → Q true s →
  wp (page_in_list (pfn_to_page s c) (fl_addr s o)) s Q.
Proof.
  intros HR Hc HQ. destruct (chunk_frames HR _ _ _ Hc) as (Hc0 & Ho & _ & _).
  pose proof (rp_list _ _ _ HR o Ho) as Hd. pose proof (rp_region _ _ _ HR) as HG.
  assert (c ∈ L o) as Hin by by apply (rp_mem _ _ _ HR).
  unfold page_in_list. rewrite (proj2 (Z.eqb_neq _ _)) by by apply (pfn_ne_null HR).
  rewrite (proj2 (Z.eqb_neq _ _)) by (destruct HG; unfold fl_addr; lia). simpl orb.
  apply wp_bind, wp_zoom. eapply wp_list_empty; [exact Hd|].
  rewrite bool_decide_false by (intros Hnil; apply fmap_nil_inv in Hnil; rewrite Hnil in Hin; set_solver).
  replace (set_nodes (nodes s) s) with s by by destruct s.
  apply wp_bind, wp_gets, wp_zoom. pose proof (dlist_length_le _ _ _ Hd) as Hlen.
  destruct Hd as [Hnd Hch]. apply NoDup_cons in Hnd as [Hhd _].
  eapply wp_list_find_chain; [exact Hch|done| |lia|].
  - intros Heq. by apply (fl_not_page HR o c).
  - rewrite bool_decide_true by by apply list_elem_of_fmap_2. by replace (set_nodes (nodes s) s) with s by by destruct s.
Qed.

(** The outcome of [merge_chunk] on a held chunk [c] of order [o]. *)
Record merged (s : bstate) (C : cmap) (L : Z → list Z) (o : Z) (c' o' : Z) (s' : bstate) (C' : cmap) (L' : Z → list Z) : Prop := {
  mg_rep : rep s' C' L';
  mg_frame : frame s s';
  mg_held : C' !! c' = Some (o', CHeld);
  mg_only : held_only (λ d, d = c') C';
  mg_used : same_used C C';
  mg_coal : coalesced (base_vpn s) C';
  mg_buddy : o' < 10 → C' !! buddy_of (base_vpn s) c' o' ≠ Some (o', CFree);
  mg_sum : fsum L' + 2 ^ o' = fsum L + 2 ^ o;
  mg_top : L' 10 = L 10
}.

Lemma min_buddy B c o : 0 ≤ o →
  Z.min c (buddy_of B c o) + 2 ^ o = Z.max c (buddy_of B c o).
Proof. intros. pose proof (pow2_gt0 o). unfold buddy_of. case_decide; lia. Qed.

(** The join step of [merge_chunk], on the chunk map. *)
Lemma join_step s C L c o s1 l1 l2 (b := buddy_of (base_vpn s) c o) (m := Z.min c b) :
  rep s C L → C !! c = Some (o, CHeld) → held_only (λ d, d = c) C → coalesced (base_vpn s) C → o < 10 →
  C !! b = Some (o, CFree) → L o = l1 ++ b :: l2 → rep s1 (<[b := (o, CHeld)]> C) (upd L o (l1 ++ l2)) →
  let C1 := <[b := (o, CHeld)]> C in
  C1 !! m = Some (o, CHeld) ∧ C1 !! (m + 2 ^ o) = Some (o, CHeld) ∧
  held_only (λ d, d = m) (join m o C1) ∧ same_used C (join m o C1) ∧ coalesced (base_vpn s) (join m o C1) ∧
  fsum (upd L o (l1 ++ l2)) + 2 ^ (o + 1) = fsum L + 2 ^ o.
Proof.
  intros HR Hc Honly Hco Ho Hb HL HR1 C1. destruct (chunk_frames HR _ _ _ Hc) as (Hc0 & Ho' & _ & _).
  pose proof (buddy_of_self (base_vpn s) c o ltac:(lia)) as Hne. fold b in Hne.
  pose proof (min_buddy (base_vpn s) c o ltac:(lia)) as Hmax. fold b m in Hmax. rewrite Hmax.
  assert (C1 !! c = Some (o, CHeld)) as H1c by (subst C1; by rewrite lookup_insert_ne).
  assert (C1 !! b = Some (o, CHeld)) as H1b by (subst C1; by rewrite lookup_insert_eq).
  assert (C1 !! m = Some (o, CHeld)) as Hm by (subst m; destruct (Z.min_spec c b) as [[_ ->]|[_ ->]]; done).
  assert (C1 !! Z.max c b = Some (o, CHeld)) as Hx by (destruct (Z.max_spec c b) as [[_ ->]|[_ ->]]; done).
  assert (same_used C C1) as Hu1 by (subst C1; by eapply same_used_set).
  split_and!; [done|done| | | |].
  - intros d k. unfold join. rewrite lookup_insert, lookup_delete. destruct (decide (m = d)) as [->|Hmd]; [done|].
    destruct (decide (m + 2 ^ o = d)) as [<-|Hxd]; [done|]. subst C1. rewrite lookup_insert.
    case_decide as Hbd; [|by intros ->%Honly; subst m; lia]. intros _. subst d m. lia.
  - eapply same_used_trans; [exact Hu1|]. eapply same_used_join; [exact Hm|by rewrite Hmax|done|done].
  - unfold join. apply coalesced_unfree; [|done]. apply coalesced_delete. by apply coalesced_unfree.
  - rewrite fsum_upd, HL, !length_app, pow2_succ by lia. simpl length. lia.
Qed.

Lemma wp_merge_chunk_rec fuel s C L c o (Q : Z → bstate → Prop) :
  rep s C L → C !! c = Some (o, CHeld) → held_only (λ d, d = c) C → coalesced (base_vpn s) C →
  10 - o < Z.of_nat fuel →
  (∀ c' o' s' C' L', merged s C L o c' o' s' C' L' → Q (pfn_to_page s c') s') →
  wp (merge_chunk_rec fuel (pfn_to_page s c)) s Q.
Proof.
  revert s C L c o Q. induction fuel as [|fuel IH]; intros s C L c o Q HR Hc Honly Hco Hfuel HQ.
  { destruct (chunk_frames HR _ _ _ Hc). lia. }
  destruct (chunk_frames HR _ _ _ Hc) as (Hc0 & Ho & Hcn & Hcr).
  assert ((o < 10 → C !! buddy_of (base_vpn s) c o ≠ Some (o, CFree)) → Q (pfn_to_page s c) s) as Hdone.
  { intros Hb. apply (HQ c o s C L). split; done || (intros ??; reflexivity). }
  cbn [merge_chunk_rec]. apply wp_bind, wp_BUG_ON; [by apply Z.eqb_neq, (pfn_ne_null HR)|].
  destruct (rep_chunk_page _ _ _ _ _ _ HR Hc) as (p & Hp & Hpo & _).
  apply wp_bind. eapply wp_load; [exact Hp|]. rewrite Hpo.
  apply wp_bind, (wp_get_nr_free _ _ _ _ _ HR Ho). unfold BUDDY_MAX_ORDER.
  destruct (Z.eqb_spec (Z.of_nat (length (L o))) 0) as [Hnil|Hnil].
  { apply wp_ret, Hdone. intros _ Hb. apply (rp_mem _ _ _ HR) in Hb; [|done].
    destruct (L o); [set_solver|simpl in Hnil; lia]. }
  simpl orb. destruct (Z.eqb_spec o (11 - 1)); [apply wp_ret, Hdone; lia|].
  apply wp_bind, wp_gets. pose proof (rp_region _ _ _ HR) as HG.
  pose proof (ck_align _ _ _ (rp_cmap _ _ _ HR) _ _ _ Hc) as Hal.
  destruct (merge_addresses HG c o Hc0 ltac:(lia) Hcn Hal) as [[Hb Hneg]|(Hb0 & Hbn & Hb & Hm & Hmal)];
    cbv zeta in Hb |- *; unfold id; rewrite Hb.
  { simpl. apply wp_ret, Hdone. intros _ Hbf. destruct (chunk_frames HR _ _ _ Hbf). lia. }
  rewrite (proj2 (Z.eqb_neq _ _)) by by apply (pfn_ne_null HR).
  set (b := buddy_of (base_vpn s) c o) in *. pose proof (pow2_gt0 o ltac:(lia)).
  destruct (buddy_is_chunk _ _ C c o CHeld (rp_cmap _ _ _ HR) Hc) as (k & u & Hbc & Hk); [lia|fold b; lia|]. fold b in Hbc.
  destruct (rep_chunk_page _ _ _ _ _ _ HR Hbc) as (q & Hq & Hqo & Hqa).
  apply wp_bind. eapply wp_load; [exact Hq|]. rewrite Hqo, Hqa.
  destruct (decide (u = CFree ∧ k = o)) as [[-> ->]|Hnf].
  - simpl stat_flag. rewrite Z.eqb_refl. simpl orb.
    apply wp_bind, (wp_page_in_list _ _ _ _ _ _ HR Hbc), wp_bind, wp_BUG_ON; [done|].
    assert (b ∈ L o) as Hin by by apply (rp_mem _ _ _ HR).
    apply list_elem_of_split in Hin as (l1 & l2 & HL).
    apply wp_bind, (wp_fl_del _ _ _ _ _ _ _ _ HR Ho HL). intros s1 HR1 Hf1.
    destruct (join_step s C L c o s1 l1 l2 HR Hc Honly Hco ltac:(lia) Hbc HL HR1) as (Hjm & Hjx & Hjo & Hju & Hjc & Hjs).
    fold b in Hjm, Hjx, Hjo, Hju, Hjc, Hjs. rewrite Hm, <- (frame_pfn s s1 _ Hf1).
    apply wp_bind, (wp_join _ _ _ _ _ _ HR1 Hjm Hjx); [lia|by rewrite (frame_base _ _ Hf1)|].
    intros s2 HR2 Hf2. assert (frame s s2) as Hf by by etrans.
    rewrite <- (frame_pfn s1 s2 _ Hf2).
    eapply IH; [exact HR2|by unfold join; rewrite lookup_insert_eq|done|by rewrite (frame_base _ _ Hf)|lia|].
    intros c' o' s' C' L' [Mr Mf Mh Mo Mu Mc Mb Ms Mt]. rewrite (frame_pfn _ _ _ Hf). eapply HQ.
    rewrite (frame_base _ _ Hf) in Mc, Mb. split; [exact Mr|by etrans|exact Mh|done| |done|done|lia|].
    + by eapply same_used_trans.
    + rewrite Mt, upd_ne by lia. done.
  - assert ((stat_flag u =? 1) || negb (k =? o) = true) as ->.
    { destruct u; simpl; [|by apply Honly in Hbc; exfalso; apply (buddy_of_self (base_vpn s) c o); [lia|]|done].
      destruct (Z.eqb_spec k o); [naive_solver|done]. }
    apply wp_ret, Hdone. intros _. fold b. rewrite Hbc. naive_solver.
Qed.
End merging.
