(* ===== verification/BuddySpec.v ===== *)
(** * What the buddy allocator promises

    The abstract state of the allocator is the finite map [U] from the first
    frame of each allocated block to its order.  [buddy_ok s U] says that the
    concrete state [s] (page array, free lists, counters, lock) represents
    [U]; the free chunks are not part of the abstract state because the
    allocator keeps them maximal, which determines them ([coalesced_unique]).
    [buddy_get_pages] adds one block to [U] or fails because no aligned block
    of that order is unused; [buddy_free_pages] removes it again. *)

From S2P Require Import Prelude Macro ListHead Buddy Chunks BuddyInv BuddyOps.

Definition buddy_ok (s : bstate) (U : gmap Z Z) : Prop := ∃ C L,
  rep s C L ∧ held_only (λ _, False) C ∧ coalesced (base_vpn s) C ∧ free_lists_lock s = 0 ∧
  ∀ c o, U !! c = Some o ↔ C !! c = Some (o, CUsed).

(** ** The free lists as lists of frames

    [buddy_ok] leaves open in which order the chunks are on their lists; the
    order decides which chunk an allocation gets. *)
Definition lists (s : bstate) (L : Z → list Z) : Prop :=
  ∀ o, 0 ≤ o ≤ 10 → dlist (nodes s) (fl_addr s o) (pfn_to_page s <$> L o).

(** Taking a chunk of order [o]: the first one of the first list that has one. *)
Definition takes (L : Z → list Z) (o c : Z) (L' : Z → list Z) : Prop :=
  ∃ k, split_lists L o c L' k ∧ (o < k → L o = []).

Definition took_lists (s s' : bstate) (o c : Z) : Prop := ∃ L L', lists s L ∧ takes L o c L' ∧ lists s' L'.
(** Giving a chunk back changes the list of the largest chunks at most by a new first element. *)
Definition gave_lists (s s' : bstate) : Prop := ∃ L L', lists s L ∧ lists s' L' ∧ (L' 10 = L 10 ∨ ∃ c, L' 10 = c :: L 10).

Lemma rep_lists s C L : rep s C L → lists s L.
Proof. intros HR o Ho. by apply (rp_list _ _ _ HR). Qed.

Lemma lists_unique s L L' o : lists s L → lists s L' → 0 ≤ o ≤ 10 → L o = L' o.
Proof.
  intros H H' Ho. eapply (list_fmap_eq_inj (pfn_to_page s)); [intros ??; apply pfn_to_page_inj|].
  eapply dlist_unique; [by apply H|by apply H'].
Qed.

(** The block of [2^o] frames from frame [c] on: inside the region, aligned to
    its size, and apart from every allocated block. *)
Record block_avail (s : bstate) (U : gmap Z Z) (c o : Z) : Prop := {
  ba_low : 0 ≤ c;
  ba_high : c + 2 ^ o ≤ page_num s;
  ba_align : (base_vpn s + c) mod 2 ^ o = 0;
  ba_apart : ∀ d k, U !! d = Some k → d + 2 ^ k ≤ c ∨ c + 2 ^ o ≤ d
}.

(** ** The lock around an operation *)
Lemma rep_set_lock v s C L : rep s C L → rep (set_lock v s) C L.
Proof. intros [[] HC HP HN HL HM HNR]. by split. Qed.

Lemma frame_locked v s s' : frame (set_lock v s) s' → frame s (set_lock (free_lists_lock s) s').
Proof. intros [Hm Hst Hsz Ha Hn Hl Hs]. by split. Qed.

Lemma wp_locked {A} (m : M bstate A) s (Q : A → bstate → Prop) :
  free_lists_lock s = 0 → wp m (set_lock 1 s) Q → wp (lock_free_lists ;; m) s Q.
Proof.
  intros Hl Hm. unfold lock_free_lists. apply wp_bind, wp_bind, wp_gets. rewrite Hl. simpl. by apply wp_modify.
Qed.

Lemma relock s : free_lists_lock s = 0 → set_lock 0 (set_lock 1 s) = s.
Proof. intros Hl. destruct s. simpl in *. by subst. Qed.

(** ** Taking a chunk out of the lists *)
Section get_pages.
Implicit Types (s : bstate) (C : cmap) (L : Z → list Z) (U : gmap Z Z).

(** A free chunk of order at least [o] is what an available block needs. *)
Lemma avail_free_chunk s C L U c o :
  rep s C L → held_only (λ _, False) C → coalesced (base_vpn s) C →
  (∀ c o, U !! c = Some o ↔ C !! c = Some (o, CUsed)) → 0 ≤ o ≤ 10 →
  block_avail s U c o → ∃ k d, o ≤ k ≤ 10 ∧ d ∈ L k.
Proof.
  intros HR Hh Hco HU Ho [Hl Hhi Hal Hap].
  destruct (free_block_covered _ _ C o c (rp_cmap _ _ _ HR) Hco Hh Ho Hl Hhi Hal) as (d & k & Hd & Hk & _).
  { intros d k Hd. apply HU in Hd. auto. }
  destruct (chunk_frames HR _ _ _ Hd) as (_ & Hk10 & _). exists k, d. split; [lia|]. by apply (rp_mem _ _ _ HR).
Qed.

Lemma wp_take s C L o (Q : Z → bstate → Prop) :
  rep s C L → held_only (λ _, False) C → coalesced (base_vpn s) C → 0 ≤ o ≤ 10 →
  ((∀ k, o ≤ k ≤ 10 → L k = []) → Q NULL s) →
  (∀ c s' C' L', took s C L o c s' C' L' → takes L o c L' → Q (pfn_to_page s c) s') →
  wp (nf ← get_nr_free o; if nf =? 0 then split_chunk (o + 1) else fl_pop o) s Q.
Proof.
  intros HR Hh Hco Ho HQ0 HQ1. apply wp_bind, (wp_get_nr_free _ _ _ _ _ HR Ho).
  destruct (L o) as [|c l] eqn:EL; simpl length.
  - rewrite Z.eqb_refl. apply (wp_split_chunk_rec 12 s C L); [done|done|done|lia|lia| |].
    + intros Hk. apply HQ0. intros k ?. destruct (decide (k = o)) as [->|]; [done|]. apply Hk. lia.
    + intros c s' C' L' _ Ht. replace (o + 1 - 1) with o in Ht by lia.
      eapply HQ1; [exact Ht|]. destruct (tk_lists _ _ _ _ _ _ _ _ Ht) as [k Hk]. by exists k.
  - destruct (Z.eqb_spec (Z.of_nat (S (length l))) 0); [lia|].
    eapply wp_fl_pop; [exact HR|done|exact EL|]. intros s1 HR1 Hf1. eapply HQ1; [by apply took_pop|].
    exists o. split; [by apply split_pop|lia].
Qed.

(** The chunk taken was available. *)
Lemma took_avail s C L U o c s' C' L' :
  (∀ c o, U !! c = Some o ↔ C !! c = Some (o, CUsed)) → took s C L o c s' C' L' → block_avail s U c o.
Proof.
  intros HU [HR Hf Hc _ Hu _ _ _]. destruct (chunk_frames HR _ _ _ Hc) as (Hc0 & Ho & Hcn & _).
  rewrite (fr_num _ _ Hf) in Hcn. split; [done|done| |].
  - rewrite <- (frame_base _ _ Hf). by apply (ck_align _ _ _ (rp_cmap _ _ _ HR) _ _ _ Hc).
  - intros d k Hd. apply HU, (Hu d k) in Hd. apply (ck_disj _ _ _ (rp_cmap _ _ _ HR) _ _ _ _ _ _ Hd Hc). congruence.
Qed.

Lemma wp_buddy_get_pages_lists s U o (Q : Z → bstate → Prop) :
  buddy_ok s U → 0 ≤ o ≤ 10 →
  ((∀ c, ¬ block_avail s U c o) → Q NULL s) →
  (∀ c s', block_avail s U c o → frame s s' → buddy_ok s' (<[c := o]> U) → took_lists s s' o c → Q (pfn_to_page s c) s') →
  wp (buddy_get_pages o) s Q.
Proof.
  intros (C & L & HR & Hh & Hco & Hlk & HU) Ho HQ0 HQ1. unfold buddy_get_pages. apply wp_locked; [done|].
  apply wp_bind_assoc. pose proof (rep_set_lock 1 _ _ _ HR) as HRl. eapply wp_take; [exact HRl|done|done|done|..].
  { intros Hnil. simpl. apply wp_bind, wp_modify, wp_ret. rewrite relock by done. apply HQ0. intros c Hc.
    destruct (avail_free_chunk _ _ _ _ _ _ HR Hh Hco HU Ho Hc) as (k & d & Hk & Hd).
    rewrite Hnil in Hd by done. set_solver. }
  intros c s1 C1 L1 Ht Htk. pose proof (took_avail _ _ _ _ _ _ _ _ _ HU Ht) as Hav.
  destruct Ht as [HR1 Hf1 Hc1 Honly Hu Hco1 _ _].
  destruct (chunk_frames HR1 _ _ _ Hc1) as (Hc0 & _).
  rewrite (proj2 (Z.eqb_neq _ _)) by (by apply (pfn_ne_null HRl)). rewrite <- (frame_pfn _ _ _ Hf1).
  destruct (rep_chunk_page _ _ _ _ _ _ HR1 Hc1) as (p & Hp & Hpo & Hpa). simpl in Hpa.
  apply wp_bind. eapply wp_load; [exact Hp|]. rewrite Hpa, Hpo, Z.eqb_refl. simpl.
  apply wp_bind, wp_ret, wp_bind, wp_ret.
  apply wp_bind, (wp_set_stat _ _ _ _ _ CHeld CUsed _ HR1 Hc1); [done|done|]. intros s2 HR2 Hf2.
  apply wp_bind, wp_modify, wp_ret. assert (frame (set_lock 1 s) s2) as Hf by by etrans.
  rewrite (frame_pfn _ _ _ Hf1). change (pfn_to_page (set_lock 1 s) c) with (pfn_to_page s c).
  apply HQ1; [by destruct Hav|rewrite <- Hlk; by eapply frame_locked| |].
  2: { exists L, L1. split; [by eapply rep_lists|]. split; [done|]. eapply (rep_lists _ _ _ (rep_set_lock 0 _ _ _ HR2)). }
  exists (<[c := (o, CUsed)]> C1), L1. split_and!; [by apply rep_set_lock| | |done|].
  - apply held_only_set; [|done]. intros d k Hd. left. by eapply Honly.
  - change (base_vpn (set_lock 0 s2)) with (base_vpn s2). rewrite (frame_base _ _ Hf). by apply coalesced_unfree.
  - intros d k. rewrite !lookup_insert. case_decide; [naive_solver|]. by rewrite (Hu d k).
Qed.

Lemma wp_buddy_get_pages s U o (Q : Z → bstate → Prop) :
  buddy_ok s U → 0 ≤ o ≤ 10 →
  ((∀ c, ¬ block_avail s U c o) → Q NULL s) →
  (∀ c s', block_avail s U c o → frame s s' → buddy_ok s' (<[c := o]> U) → Q (pfn_to_page s c) s') →
  wp (buddy_get_pages o) s Q.
Proof. intros Hok Ho HQ0 HQ1. eapply wp_buddy_get_pages_lists; eauto. Qed.
End get_pages.

(** ** Giving a block back *)
Section free_pages.
Implicit Types (s : bstate) (C : cmap) (L : Z → list Z) (U : gmap Z Z).

Lemma wp_buddy_free_pages_lists s U c o (Q : unit → bstate → Prop) :
  buddy_ok s U → U !! c = Some o →
  (∀ s', frame s s' → buddy_ok s' (delete c U) → gave_lists s s' → Q tt s') →
  wp (buddy_free_pages (pfn_to_page s c)) s Q.
Proof.
  intros (C & L & HR & Hh & Hco & Hlk & HU) Hc HQ. apply HU in Hc as HcC. unfold buddy_free_pages.
  apply wp_locked; [done|]. pose proof (rep_set_lock 1 _ _ _ HR) as HRl.
  change (pfn_to_page s c) with (pfn_to_page (set_lock 1 s) c).
  apply wp_bind, (wp_set_stat _ _ _ _ _ CUsed CHeld _ HRl HcC); [done|done|]. intros s1 HR1 Hf1.
  rewrite <- (frame_pfn _ _ _ Hf1). apply wp_bind. eapply wp_merge_chunk_rec; [exact HR1|by rewrite lookup_insert_eq|..].
  - intros d k. rewrite lookup_insert. case_decide; [done|]. by intros ?%Hh.
  - rewrite (frame_base _ _ Hf1). by apply coalesced_unfree.
  - destruct (chunk_frames HR _ _ _ HcC). lia.
  - intros c' o' s2 C2 L2 [HR2 Hf2 Hc2 Honly Hu Hco2 Hb _ Htop].
    destruct (rep_chunk_page _ _ _ _ _ _ HR2 Hc2) as (p & Hp & Hpo & _). rewrite <- (frame_pfn _ _ _ Hf2).
    apply wp_bind. eapply wp_load; [exact Hp|]. rewrite Hpo.
    apply wp_bind, (wp_fl_add _ _ _ _ _ _ HR2 Hc2). intros s3 HR3 Hf3. apply wp_modify.
    assert (frame (set_lock 1 s) s3) as Hf by (etrans; [exact Hf1|]; by etrans).
    apply HQ; [rewrite <- Hlk; by eapply frame_locked| |].
    2: { exists L, (upd L2 o' (c' :: L2 o')). split; [by eapply rep_lists|]. split; [eapply (rep_lists _ _ _ (rep_set_lock 0 _ _ _ HR3))|].
         destruct (decide (o' = 10)) as [->|]; [right; exists c'; by rewrite upd_eq, Htop|left; by rewrite upd_ne]. }
    exists (<[c' := (o', CFree)]> C2), (upd L2 o' (c' :: L2 o')).
    change (base_vpn (set_lock 0 s3)) with (base_vpn s3). split_and!; [by apply rep_set_lock| | |done|].
    + apply held_only_set; [|done]. intros d k Hd. left. by eapply Honly.
    + rewrite (frame_base _ _ Hf3), (frame_base _ _ Hf2).
      eapply coalesced_free; [|exact Hco2|exact Hc2|exact Hb].
      rewrite <- (frame_base _ _ Hf2). apply (rp_cmap _ _ _ HR2).
    + intros d k. assert (C2 !! c' ≠ Some (k, CUsed)) by (rewrite Hc2; naive_solver).
      rewrite lookup_delete, lookup_insert. pose proof (Hu d k) as Hdk. rewrite lookup_insert in Hdk.
      repeat case_decide; naive_solver.
Qed.

Lemma wp_buddy_free_pages s U c o (Q : unit → bstate → Prop) :
  buddy_ok s U → U !! c = Some o →
  (∀ s', frame s s' → buddy_ok s' (delete c U) → Q tt s') →
  wp (buddy_free_pages (pfn_to_page s c)) s Q.
Proof. intros Hok Hc HQ. eapply wp_buddy_free_pages_lists; eauto. Qed.
End free_pages.
