(* ===== verification/BuddyCount.v ===== *)
(** * Page accounting of the buddy allocator

    The chunks partition the region, so the pages on the free lists and the
    pages of the allocated blocks add up to the size of the region; the
    statistics functions of [mm/buddy.c] report exactly these numbers, without
    overflow. *)

From S2P Require Import Prelude Macro ListHead Buddy Chunks BuddyInv BuddyOps BuddySpec.

(** Sum of [2^o] over a list of (first frame, order) pairs. *)
Definition block_pages (l : list (Z * Z)) : Z := foldr (λ b acc, 2 ^ b.2 + acc) 0 l.

(** Pages of the allocated blocks. *)
Definition used_pages (U : gmap Z Z) : Z := block_pages (map_to_list U).

Definition block_frames (b : Z * Z) : list Z := seqZ b.1 (2 ^ b.2).

Lemma block_pages_app l l' : block_pages (l ++ l') = block_pages l + block_pages l'.
Proof. unfold block_pages. induction l; simpl in *; lia. Qed.

#[global] Instance block_pages_perm : Proper ((≡ₚ) ==> (=)) block_pages.
Proof. induction 1; simpl in *; lia. Qed.

Lemma block_frames_length l :
  Forall (λ b, 0 ≤ b.2) l → Z.of_nat (length (l ≫= block_frames)) = block_pages l.
Proof.
  induction 1 as [|[c o] l Ho _ IH]; [done|]. cbn [mbind list_bind block_pages foldr].
  rewrite length_app, Nat2Z.inj_add. fold (block_pages l). rewrite <- IH. unfold block_frames at 1. simpl in *. rewrite length_seqZ. pose proof (pow2_gt0 o Ho). lia.
Qed.

(** Disjoint blocks that cover [0, n) have [n] pages. *)
Lemma block_pages_partition n l :
  0 ≤ n → NoDup l → Forall (λ b, 0 ≤ b.2) l →
  (∀ b b' i, b ∈ l → b' ∈ l → i ∈ block_frames b → i ∈ block_frames b' → b = b') →
  (∀ i, 0 ≤ i < n ↔ ∃ b, b ∈ l ∧ i ∈ block_frames b) →
  block_pages l = n.
Proof.
  intros Hn Hnd Hpos Hdisj Hcov. rewrite <- block_frames_length by done.
  assert (l ≫= block_frames ≡ₚ seqZ 0 n) as ->; [|rewrite length_seqZ; lia].
  apply NoDup_Permutation; [|apply NoDup_seqZ|].
  - apply NoDup_bind; [exact Hdisj| |done]. intros b _. apply NoDup_seqZ.
  - intros i. rewrite elem_of_seqZ, list_elem_of_bind. rewrite <- (Z.add_0_l n) in Hcov. rewrite (Hcov i). naive_solver.
Qed.

Section counting.
Context {s : bstate} {C : cmap} {L : Z → list Z} {U : gmap Z Z}.
Context (HR : rep s C L) (Hh : held_only (λ _, False) C).
Context (HU : ∀ c o, U !! c = Some o ↔ C !! c = Some (o, CUsed)).

(** The free chunks, list by list. *)
Definition free_blocks : list (Z * Z) := orders ≫= λ o, (λ c, (c, o)) <$> L o.

Lemma elem_of_free_blocks c o : (c, o) ∈ free_blocks ↔ C !! c = Some (o, CFree).
Proof.
  unfold free_blocks. rewrite list_elem_of_bind. split.
  - intros (k & (d & [= -> ->] & Hd)%list_elem_of_fmap & Hk). apply elem_of_seqZ in Hk. apply (rp_mem _ _ _ HR); [lia|done].
  - intros Hc. destruct (chunk_frames HR _ _ _ Hc) as (_ & Ho & _). exists o. split; [|apply elem_of_seqZ; lia].
    apply list_elem_of_fmap. exists c. split; [done|]. by apply (rp_mem _ _ _ HR).
Qed.

Lemma free_blocks_NoDup : NoDup free_blocks.
Proof.
  unfold free_blocks. apply NoDup_bind; [| |apply NoDup_seqZ].
  - intros o o' [c k] _ _. rewrite !list_elem_of_fmap. naive_solver.
  - intros o Ho%elem_of_seqZ. apply NoDup_fmap_2; [intros ?? [=]; done|]. apply (free_list_NoDup HR). lia.
Qed.

Lemma free_blocks_pages : block_pages free_blocks = fsum L.
Proof.
  unfold free_blocks, fsum. induction orders as [|o ks IH]; [done|]. cbn [mbind list_bind foldr].
  rewrite block_pages_app, IH. f_equal. clear. induction (L o) as [|c l IH]; [done|].
  cbn [fmap list_fmap length]. change (block_pages ((c, o) :: ((λ c, (c, o)) <$> l))) with (2 ^ o + block_pages ((λ c, (c, o)) <$> l)). lia.
Qed.

Lemma elem_of_used c o : (c, o) ∈ map_to_list U ↔ C !! c = Some (o, CUsed).
Proof. by rewrite elem_of_map_to_list, HU. Qed.

Lemma pages_conserved : fsum L + used_pages U = page_num s.
Proof.
  unfold used_pages. rewrite <- free_blocks_pages, <- block_pages_app.
  pose proof (rp_cmap _ _ _ HR) as HC.
  assert (∀ b, b ∈ free_blocks ++ map_to_list U ↔ ∃ t, C !! b.1 = Some (b.2, t)) as Hin.
  { intros [c o]. rewrite elem_of_app, elem_of_free_blocks, elem_of_used. simpl. split; [naive_solver|].
    intros [[] Ht]; [by left|by apply Hh in Ht|by right]. }
  apply block_pages_partition.
  - by destruct (rp_region _ _ _ HR).
  - apply NoDup_app. split_and!; [apply free_blocks_NoDup| |apply NoDup_map_to_list].
    intros [c o]. rewrite elem_of_free_blocks, elem_of_used. congruence.
  - apply Forall_forall. intros [c o] Hb. apply Hin in Hb as [t Hb]. simpl in *. apply (ck_bound _ _ _ HC) in Hb. lia.
  - intros [c o] [c' o'] i Hb Hb' Hi Hi'. apply Hin in Hb as [t Hb]. apply Hin in Hb' as [t' Hb']. simpl in *.
    apply elem_of_seqZ in Hi. apply elem_of_seqZ in Hi'. simpl in *.
    destruct (decide (c = c')) as [->|Hne]; [naive_solver|].
    destruct (ck_disj _ _ _ HC _ _ _ _ _ _ Hb Hb' Hne); lia.
  - intros i. split.
    + intros Hi. destruct (ck_cover _ _ _ HC _ Hi) as (c & o & t & Hc & Hci). exists (c, o).
      split; [apply Hin; eauto|]. apply elem_of_seqZ. simpl. lia.
    + intros ([c o] & Hb & Hi). apply Hin in Hb as [t Hb]. apply elem_of_seqZ in Hi. simpl in *.
      apply (ck_bound _ _ _ HC) in Hb. lia.
Qed.

Lemma used_pages_nonneg : 0 ≤ used_pages U.
Proof.
  unfold used_pages. assert (Forall (λ b : Z * Z, 0 ≤ b.2) (map_to_list U)) as Hf.
  { apply Forall_forall. intros [c o] Hb. apply elem_of_used, (chunk_frames HR) in Hb. simpl. lia. }
  rewrite <- block_frames_length by done. lia.
Qed.

Lemma fsum_bound : 0 ≤ fsum L ≤ page_num s.
Proof.
  pose proof pages_conserved. pose proof used_pages_nonneg. split; [|lia].
  rewrite <- free_blocks_pages, <- block_frames_length; [lia|]. apply Forall_forall.
  intros [c o] Hb. apply elem_of_free_blocks, (chunk_frames HR) in Hb. simpl. lia.
Qed.
End counting.

(** ** The statistics functions *)
Section statistics.
Implicit Types (s : bstate) (C : cmap) (L : Z → list Z).

Definition fsum_from (L : Z → list Z) (n o : Z) : Z :=
  foldr (λ o acc, Z.of_nat (length (L o)) * 2 ^ o + acc) 0 (seqZ o n).

Lemma fsum_from_nonneg L n o : 0 ≤ o → 0 ≤ fsum_from L n o.
Proof.
  intros Ho. unfold fsum_from. assert (Forall (λ k, 0 ≤ k) (seqZ o n)) as Hf.
  { apply Forall_forall. intros k Hk%elem_of_seqZ. lia. }
  induction Hf as [|k ks Hk _ IH]; [done|]. simpl. pose proof (pow2_gt0 k Hk). nia.
Qed.

Lemma wp_sum_free s C L (f : Z → Z) k n o t (Q : Z → bstate → Prop) :
  rep s C L → 0 ≤ k → (∀ o, 0 ≤ o → f o = k * 2 ^ o) → 0 ≤ o → o + Z.of_nat n ≤ 11 → 0 ≤ t →
  t + k * fsum_from L (Z.of_nat n) o < 2 ^ 64 →
  Q (t + k * fsum_from L (Z.of_nat n) o) s → wp (sum_free n o f t) s Q.
Proof.
  intros HR Hk Hf. revert o t. induction n as [|n IH]; intros o t Ho Hn Ht Hb HQ.
  { apply wp_ret. replace (t + k * fsum_from L (Z.of_nat 0) o) with t in HQ; [done|]. unfold fsum_from. simpl. lia. }
  assert (fsum_from L (Z.of_nat (S n)) o = Z.of_nat (length (L o)) * 2 ^ o + fsum_from L (Z.of_nat n) (o + 1)) as Hs.
  { unfold fsum_from. rewrite seqZ_cons by lia. cbn [foldr].
    by replace (Z.succ o) with (o + 1) by lia; replace (Z.pred (Z.of_nat (S n))) with (Z.of_nat n) by lia. }
  rewrite Hs in Hb, HQ. pose proof (fsum_from_nonneg L (Z.of_nat n) (o + 1) ltac:(lia)) as Hpos.
  cbn [sum_free]. apply wp_bind, (wp_get_nr_free _ _ _ _ _ HR); [lia|]. rewrite Hf by lia.
  pose proof (pow2_gt0 o Ho). set (a := Z.of_nat (length (L o)) * 2 ^ o) in *.
  replace (Z.of_nat (length (L o)) * (k * 2 ^ o)) with (k * a) by (unfold a; lia).
  assert (0 ≤ a) by (unfold a; nia). assert (0 ≤ k * a) by nia. assert (0 ≤ k * fsum_from L (Z.of_nat n) (o + 1)) by nia.
  rewrite (u64_small (k * a)), u64_small by lia.
  apply IH; [lia|lia|lia|lia|]. by replace (t + k * a + k * fsum_from L (Z.of_nat n) (o + 1)) with (t + k * (a + fsum_from L (Z.of_nat n) (o + 1))) by lia.
Qed.

Lemma wp_get_free_pages_nums s U :
  buddy_ok s U → wp get_free_pages_nums_from_buddy s (λ n s', s' = s ∧ n = page_num s - used_pages U).
Proof.
  intros (C & L & HR & Hh & Hco & Hlk & HU).
  pose proof (pages_conserved HR Hh HU) as Hc. pose proof (fsum_bound HR Hh HU). destruct (rp_region _ _ _ HR).
  unfold get_free_pages_nums_from_buddy. change (fsum L) with (fsum_from L (Z.of_nat 11) 0) in *.
  eapply (wp_sum_free s C L _ 1); [done|lia| |lia|lia|lia|lia|split; [done|lia]].
  intros o Ho. rewrite chunk_pages_pow2; lia.
Qed.

Lemma wp_get_free_mem_size s U :
  buddy_ok s U → wp get_free_mem_size_from_buddy s (λ n s', s' = s ∧ n = size s - used_pages U * 2 ^ 12).
Proof.
  intros (C & L & HR & Hh & Hco & Hlk & HU).
  pose proof (pages_conserved HR Hh HU) as Hc. pose proof (fsum_bound HR Hh HU). destruct (rp_region _ _ _ HR).
  unfold get_free_mem_size_from_buddy. change (fsum L) with (fsum_from L (Z.of_nat 11) 0) in *.
  eapply (wp_sum_free s C L _ (2 ^ 12)); [done|lia| |lia|lia|lia|lia|split; [done|lia]].
  intros o Ho. rewrite chunk_size_pow2, Z.pow_add_r by lia. lia.
Qed.
End statistics.
