(* ===== verification/BuddyInit.v ===== *)
(** * [init_buddy] establishes the allocator's invariant

    The zeroed page array represents the chunk map in which every frame is a
    held chunk of order 0; [populate_page] turns runs of such frames into free
    chunks, upwards from the first 4 MB boundary and then downwards from it. *)

From S2P Require Import Prelude Macro ListHead Buddy Chunks BuddyInv BuddyOps BuddySpec.

(** [absorb c o C]: the [2^o] held frames from [c] on become one held chunk. *)
Definition absorb (c o : Z) (C : cmap) : cmap :=
  <[c := (o, CHeld)]> (filter (λ e, ¬ (c < e.1 < c + 2 ^ o)) C).

Lemma lookup_absorb c o C d :
  absorb c o C !! d = if decide (d = c) then Some (o, CHeld)
                      else if decide (c < d < c + 2 ^ o) then None else C !! d.
Proof.
  unfold absorb. rewrite lookup_insert. case_decide as H1; [by rewrite decide_True|]. rewrite decide_False by done.
  rewrite map_lookup_filter. destruct (C !! d) as [e|]; simpl; [|by case_decide]. case_guard as Hg; simpl in *; case_decide; tauto.
Qed.

Section absorb.
Context (B n c o : Z) (C : cmap).
Context (HC : cmap_ok B n C) (Hc : 0 ≤ c) (Ho : 0 ≤ o ≤ 10) (Hn : c + 2 ^ o ≤ n) (Hal : (B + c) mod 2 ^ o = 0).
Context (Hrun : ∀ i, c ≤ i < c + 2 ^ o → C !! i = Some (0, CHeld)).

(** A chunk outside the run does not meet it. *)
Lemma absorb_apart d k t : C !! d = Some (k, t) → ¬ (c ≤ d < c + 2 ^ o) → d + 2 ^ k ≤ c ∨ c + 2 ^ o ≤ d.
Proof.
  intros Hd Hni. destruct (Z_le_dec (c + 2 ^ o) d); [by right|]. left.
  pose proof (pow2_gt0 o ltac:(lia)). assert (d < c) by lia.
  destruct (ck_disj _ _ _ HC _ _ _ _ _ _ Hd (Hrun c ltac:(lia))); [lia|done|]. lia.
Qed.

Lemma cmap_absorb : cmap_ok B n (absorb c o C).
Proof.
  pose proof HC as [Hb Ha Hd Hcov]. pose proof absorb_apart as Hap. pose proof (pow2_gt0 o ltac:(lia)). split.
  - intros d k t. rewrite lookup_absorb. repeat case_decide; [intros [= <- <-]; lia|done|apply Hb].
  - intros d k t. rewrite lookup_absorb. repeat case_decide; [intros [= <- <-]; by subst|done|apply Ha].
  - intros d k t d' k' t'. rewrite !lookup_absorb.
    destruct (decide (d = c)) as [->|]; destruct (decide (d' = c)) as [->|];
      repeat case_decide; try done; intros E1 E2 Hne; simplify_eq.
    + destruct (Hap _ _ _ E2); [lia|by right|by left].
    + destruct (Hap _ _ _ E1); [lia|by left|by right].
    + by eapply Hd.
  - intros i Hi. destruct (decide (c ≤ i < c + 2 ^ o)) as [Hin|Hni].
    + exists c, o, CHeld. rewrite lookup_absorb, decide_True by done. done.
    + destruct (Hcov i Hi) as (d & k & t & Hdk & Hid). exists d, k, t. split; [|done].
      assert (¬ (c ≤ d < c + 2 ^ o)).
      { intros Hdi. rewrite Hrun in Hdk by done. simplify_eq. assert (i = d) by lia. lia. }
      rewrite lookup_absorb, !decide_False by lia. done.
Qed.
End absorb.

(** No page belongs to a slab. *)
Definition fresh (s : bstate) : Prop := ∀ a p, pages s !! a = Some p → slab p = NULL.

Lemma frame_fresh s s' : frame s s' → fresh s → fresh s'.
Proof.
  intros Hf Hs a p Hp. pose proof (fr_slab _ _ Hf a) as Ha. rewrite Hp in Ha.
  destruct (pages s !! a) as [q|] eqn:Eq; [|done]. simpl in Ha. simplify_eq. rewrite Ha. by eapply Hs.
Qed.

(** The body of the two loops of [populate_page]. *)
Lemma wp_put_free_chunk s C L c o (Q : unit → bstate → Prop) :
  rep s C L → fresh s → 0 ≤ c → 0 ≤ o ≤ 10 → c + 2 ^ o ≤ page_num s → (base_vpn s + c) mod 2 ^ o = 0 →
  (∀ i, c ≤ i < c + 2 ^ o → C !! i = Some (0, CHeld)) →
  (∀ s', rep s' (<[c := (o, CFree)]> (absorb c o C)) (upd L o (c :: L o)) → frame s s' → Q tt s') →
  wp (put_free_chunk o (pfn_to_page s c)) s Q.
Proof.
  intros HR Hfr Hc Ho Hn Hal Hrun HQ. pose proof (pow2_gt0 o ltac:(lia)) as Hpos.
  assert (C !! c = Some (0, CHeld)) as HcC by (apply Hrun; lia).
  destruct (rep_chunk_page _ _ _ _ _ _ HR HcC) as (p & Hp & _). pose proof (Hfr _ _ Hp) as Hsl.
  unfold put_free_chunk. apply wp_bind. eapply wp_load; [exact Hp|]. unfold st_page. apply wp_bind, wp_modify.
  rewrite <- Hsl. set (s1 := set_pages _ s).
  assert (frame s s1) as Hf1 by by apply frame_set_page.
  assert (rep s1 (absorb c o C) L) as HR1.
  { apply (rep_set_pages _ C); [done|by apply cmap_absorb; [apply (rp_cmap _ _ _ HR)|..]| |].
    - intros i Hi. rewrite lookup_absorb, lookup_insert. destruct (decide (i = c)) as [->|Hne].
      + rewrite decide_True by done. eexists. by split.
      + rewrite decide_False by (by intros ?%pfn_to_page_inj). destruct (rep_page _ _ _ _ HR Hi) as (q & Hq & Hm).
        exists q. split; [done|]. case_decide; [|done]. rewrite Hrun in Hm by lia. by destruct Hm.
    - intros k d. rewrite lookup_absorb. repeat case_decide; [subst; naive_solver| |done].
      rewrite Hrun by lia. naive_solver. }
  assert (absorb c o C !! c = Some (o, CHeld)) as Hc1 by by rewrite lookup_absorb, decide_True.
  unfold inc_nr_free. apply wp_bind, wp_bind. eapply wp_load; [exact (rp_nr _ _ _ HR1 o Ho)|].
  apply wp_modify, wp_bind, wp_gets, wp_zoom. geom.
  apply (wp_link_chunk _ _ _ _ _ _ HR1 Hc1). intros h Hd Hh.
  apply HQ; [exact (rep_push _ _ _ _ _ _ HR1 Hc1 Hd Hh)|]. etrans; [exact Hf1|]. by split.
Qed.

(** ** Filling the region *)

(** Frames [lo, hi) are in free chunks, every other frame is still untouched;
    below order 10 there is at most one free chunk of each order, and none
    below order [m]. *)
Record filling (s0 s : bstate) (C : cmap) (L : Z → list Z) (lo hi m : Z) : Prop := {
  fi_rep : rep s C L;
  fi_frame : frame s0 s;
  fi_out : ∀ i, 0 ≤ i < page_num s0 → i < lo ∨ hi ≤ i → C !! i = Some (0, CHeld);
  fi_held : held_only (λ d, d < lo ∨ hi ≤ d) C;
  fi_one : ∀ c c' o, o < 10 → C !! c = Some (o, CFree) → C !! c' = Some (o, CFree) → c = c';
  fi_min : ∀ c o, C !! c = Some (o, CFree) → m ≤ o;
  fi_none : ∀ c o, C !! c ≠ Some (o, CUsed)
}.

Section filling.
Context (s0 : bstate) (Hfresh : fresh s0).

Lemma filling_add s C L lo hi m c o s' lo' hi' :
  filling s0 s C L lo hi m → 0 ≤ o ≤ 10 →
  (lo' = lo ∧ c = hi ∧ hi' = c + 2 ^ o) ∨ (hi' = hi ∧ c = lo' ∧ lo = c + 2 ^ o) → lo ≤ hi →
  (o = 10 ∨ o < m) → frame s s' →
  rep s' (<[c := (o, CFree)]> (absorb c o C)) (upd L o (c :: L o)) →
  filling s0 s' (<[c := (o, CFree)]> (absorb c o C)) (upd L o (c :: L o)) lo' hi' (Z.min o m).
Proof.
  intros [HR Hf Hout Hheld Hone Hmin Hnone] Ho Hext Hle Hom Hf' HR'. pose proof (pow2_gt0 o ltac:(lia)).
  assert (∀ d k t, <[c := (o, CFree)]> (absorb c o C) !! d = Some (k, t) →
          (d = c ∧ k = o ∧ t = CFree) ∨ (d ≠ c ∧ ¬ (c < d < c + 2 ^ o) ∧ C !! d = Some (k, t))) as Hinv.
  { intros d k t. rewrite lookup_insert, lookup_absorb. case_decide as H1; [subst d; naive_solver|].
    rewrite decide_False by done. case_decide; [done|]. naive_solver. }
  split; [done|by etrans| | | | |].
  - intros i Hi Hio. rewrite lookup_insert_ne, lookup_absorb, !decide_False by lia. apply Hout; lia.
  - intros d k Hd. apply Hinv in Hd as [(_ & _ & [=])|(Hne & Hni & Hd)]. apply Hheld in Hd. lia.
  - intros d d' k Hk Hd Hd'. apply Hinv in Hd as [(-> & E & _)|(_ & _ & Hd)]; apply Hinv in Hd' as [(-> & E' & _)|(_ & _ & Hd')].
    + done.
    + apply Hmin in Hd'. lia.
    + apply Hmin in Hd. lia.
    + by eapply Hone.
  - intros d k Hd. apply Hinv in Hd as [(-> & -> & _)|(_ & _ & Hd)]; [lia|]. apply Hmin in Hd. lia.
  - intros d k Hd. apply Hinv in Hd as [(_ & _ & [=])|(_ & _ & Hd)]. by eapply Hnone.
Qed.

(** One store of a chunk next to the filled interval. *)
Lemma wp_fill_one s C L lo hi m c o lo' hi' (Q : unit → bstate → Prop) :
  filling s0 s C L lo hi m → 0 ≤ o ≤ 10 → 0 ≤ lo' → hi' ≤ page_num s0 → lo ≤ hi →
  (lo' = lo ∧ c = hi ∧ hi' = c + 2 ^ o) ∨ (hi' = hi ∧ c = lo' ∧ lo = c + 2 ^ o) →
  (base_vpn s0 + c) mod 2 ^ o = 0 → (o = 10 ∨ o < m) →
  (∀ s' C' L', filling s0 s' C' L' lo' hi' (Z.min o m) → Q tt s') →
  wp (put_free_chunk o (pfn_to_page s0 c)) s Q.
Proof.
  intros HF Ho Hlo Hhi Hle Hext Hal Hom HQ. pose proof HF as [HR Hf Hout _ _ _ _].
  pose proof (pow2_gt0 o ltac:(lia)). rewrite <- (frame_pfn _ _ _ Hf).
  eapply wp_put_free_chunk; [exact HR|by eapply frame_fresh|lia|done| | | |].
  - rewrite (fr_num _ _ Hf). lia.
  - by rewrite (frame_base _ _ Hf).
  - intros i Hi. apply Hout; lia.
  - intros s' HR' Hf'. eapply HQ. by eapply filling_add.
Qed.

(** The upward loop at order 10 reaches the end of the region. *)
Lemma wp_fill_up_10 fuel s C L lo hi (Q : Z → bstate → Prop) :
  filling s0 s C L lo hi 10 → 0 ≤ lo ≤ hi → hi ≤ page_num s0 →
  (base_vpn s0 + hi) mod 2 ^ 10 = 0 → (page_num s0 - hi) mod 2 ^ 10 = 0 → page_num s0 - hi < Z.of_nat fuel →
  (∀ s' C' L', filling s0 s' C' L' lo (page_num s0) 10 → Q (pfn_to_page s0 (page_num s0)) s') →
  wp (fill_up fuel 10 (pfn_to_page s0 (page_num s0)) (pfn_to_page s0 hi)) s Q.
Proof.
  revert s C L hi. induction fuel as [|fuel IH]; intros s C L hi HF Hlo Hhi Hal Hdiv Hfuel HQ; [lia|].
  cbn [fill_up]. rewrite chunk_pages_pow2 by lia. case_cmp as Hc; unfold pfn_to_page, sizeof_page in Hc.
  - apply wp_bind. eapply (wp_fill_one _ _ _ _ _ _ _ _ lo (hi + 2 ^ 10)); [exact HF|lia|lia|lia|lia|by left|done|by left|].
    intros s' C' L' HF'. replace (pfn_to_page s0 hi + 2 ^ 10 * sizeof_page) with (pfn_to_page s0 (hi + 2 ^ 10)) by (unfold pfn_to_page; lia).
    eapply IH; [exact HF'|lia|lia| | |lia|done].
    + rewrite Z.add_assoc. rewrite <- (Z.mul_1_l (2 ^ 10)) at 1. by apply aligned_add.
    + replace (page_num s0 - (hi + 2 ^ 10)) with (page_num s0 - hi + (-1) * 2 ^ 10) by lia. by apply aligned_add.
  - apply Z.mod_divide in Hdiv as [q Hq]; [|lia]. assert (hi = page_num s0) as -> by lia. apply wp_ret. by eapply HQ.
Qed.

(** ... and the smaller orders have nothing left to fill. *)
Lemma wp_fill_up_done fuel n s (Q : Z → bstate → Prop) :
  (n ≤ 10)%nat → Q (pfn_to_page s0 (page_num s0)) s →
  wp (for_orders n (λ o page, fill_up (S fuel) o (pfn_to_page s0 (page_num s0)) page) (pfn_to_page s0 (page_num s0))) s Q.
Proof.
  intros Hn HQ. induction n as [|n IH]; [by apply wp_ret|]. cbn [for_orders]. apply wp_bind.
  cbn [fill_up]. rewrite chunk_pages_pow2 by lia. pose proof (pow2_gt0 (Z.of_nat n) ltac:(lia)).
  unfold sizeof_page at 1. case_cmp; [lia|]. apply wp_ret, IH. lia.
Qed.

(** The downward loop fills at most one chunk of each order. *)
Lemma wp_fill_down_one fuel s C L lo hi o (Q : Z → bstate → Prop) :
  filling s0 s C L lo hi (o + 1) → 0 ≤ lo ≤ hi → hi ≤ page_num s0 → 0 ≤ o < 10 → lo < 2 ^ (o + 1) →
  (base_vpn s0 + lo) mod 2 ^ (o + 1) = 0 →
  (∀ s' C' L' lo', filling s0 s' C' L' lo' hi o → 0 ≤ lo' ≤ hi → lo' < 2 ^ o → (base_vpn s0 + lo') mod 2 ^ o = 0 →
     Q (pfn_to_page s0 lo') s') →
  wp (fill_down (S (S fuel)) o (pfn_to_page s0 0) (pfn_to_page s0 lo)) s Q.
Proof.
  intros HF Hlo Hhi Ho Hlt Hal HQ. pose proof (pow2_gt0 o ltac:(lia)). rewrite pow2_succ in Hlt by lia.
  assert ((base_vpn s0 + lo) mod 2 ^ o = 0) as Hal' by (apply (aligned_weaken _ _ (o + 1)); [lia|done]).
  cbn [fill_down]. rewrite chunk_pages_pow2 by lia. case_cmp as Hc; unfold pfn_to_page, sizeof_page in Hc.
  - replace (pfn_to_page s0 lo - 2 ^ o * sizeof_page) with (pfn_to_page s0 (lo - 2 ^ o)) by (unfold pfn_to_page; lia).
    assert ((base_vpn s0 + (lo - 2 ^ o)) mod 2 ^ o = 0) as Hal2.
    { replace (base_vpn s0 + (lo - 2 ^ o)) with (base_vpn s0 + lo + (-1) * 2 ^ o) by lia. apply aligned_add; [lia|done]. }
    apply wp_bind. eapply (wp_fill_one _ _ _ _ _ _ _ _ (lo - 2 ^ o) hi); [exact HF|lia|lia|lia|lia|right; lia|done|lia|].
    intros s' C' L' HF'. rewrite Z.min_l in HF' by lia. case_cmp as Hc2; unfold pfn_to_page, sizeof_page in Hc2; [lia|].
    apply wp_ret. eapply HQ; [exact HF'|lia|lia|done].
  - apply wp_ret. eapply HQ; [|lia|lia|done]. destruct HF as [? ? ? ? ? Hm ?]. split; try done.
    intros c k Hck. apply Hm in Hck. lia.
Qed.

Lemma wp_fill_down fuel n s C L lo hi (Q : Z → bstate → Prop) :
  filling s0 s C L lo hi (Z.of_nat n) → 0 ≤ lo ≤ hi → hi ≤ page_num s0 → (n ≤ 10)%nat → lo < 2 ^ Z.of_nat n →
  (base_vpn s0 + lo) mod 2 ^ Z.of_nat n = 0 →
  (∀ s' C' L', filling s0 s' C' L' 0 hi 0 → Q (pfn_to_page s0 0) s') →
  wp (for_orders n (λ o page, fill_down (S (S fuel)) o (pfn_to_page s0 0) page) (pfn_to_page s0 lo)) s Q.
Proof.
  revert s C L lo. induction n as [|n IH]; intros s C L lo HF Hlo Hhi Hn Hlt Hal HQ; cbn [for_orders].
  { change (2 ^ Z.of_nat 0) with 1 in Hlt. assert (lo = 0) as -> by lia. apply wp_ret. by eapply HQ. }
  replace (Z.of_nat (S n)) with (Z.of_nat n + 1) in * by lia.
  apply wp_bind. eapply wp_fill_down_one; [exact HF|done|done|lia|done|done|].
  intros s' C' L' lo' HF' Hlo' Hlt' Hal'. eapply IH; [exact HF'|lia|lia|lia|done|done|done].
Qed.
End filling.

(** ** [populate_page] *)

(** The first frame on a 4 MB boundary. *)
Definition first_aligned (s : bstate) : Z := (- base_vpn s) mod 2 ^ 10.

Lemma first_aligned_ok s : 0 ≤ first_aligned s < 2 ^ 10 ∧ (base_vpn s + first_aligned s) mod 2 ^ 10 = 0.
Proof.
  unfold first_aligned. split; [apply Z.mod_pos_bound; lia|].
  rewrite Z.add_mod_idemp_r, Z.add_opp_diag_r by lia. done.
Qed.

Lemma populate_round s : region_ok s →
  ROUND_UP (page_to_virt s (pfn_to_page s 0)) (BUDDY_CHUNK_SIZE (BUDDY_MAX_ORDER - 1))
  = (base_vpn s + first_aligned s) * 2 ^ 12.
Proof.
  intros HG. pose proof (start_vpn HG). destruct (first_aligned_ok s) as [Hr Hal].
  rewrite (page_to_virt_frame HG) by (pose proof (rg_num _ HG); lia). rewrite chunk_size_pow2 by done.
  destruct HG. unfold BUDDY_MAX_ORDER. change (12 + (11 - 1)) with 22. apply ROUND_UP_unique; [lia|lia|lia| |lia].
  change (2 ^ 22) with (2 ^ 10 * 2 ^ 12). rewrite Z.mul_mod_distr_r by lia. lia.
Qed.

Lemma for_orders_S n body p :
  for_orders (S n) body p = (p' ← body (Z.of_nat n) p; for_orders n body p').
Proof. done. Qed.

Lemma wp_populate_page s C (Q : unit → bstate → Prop) :
  rep s C (λ _, []) → fresh s → free_lists_lock s = 0 → first_aligned s < page_num s →
  (∀ i, 0 ≤ i < page_num s → C !! i = Some (0, CHeld)) →
  (∀ s', buddy_ok s' ∅ → frame s s' → Q tt s') →
  wp (populate_page (page_arrry s) (page_num s)) s Q.
Proof.
  intros HR Hfr Hlk Hfa Hz HQ. pose proof (rp_region _ _ _ HR) as HG. destruct (first_aligned_ok s) as [Hr Hal].
  unfold populate_page. apply wp_bind, wp_gets. unfold id.
  replace (page_arrry s + page_num s * sizeof_page) with (pfn_to_page s (page_num s)) by done.
  replace (page_arrry s) with (pfn_to_page s 0) by (unfold pfn_to_page; lia).
  rewrite populate_round by done. set (f := first_aligned s) in *.
  replace ((base_vpn s + f) * 2 ^ 12) with ((base_vpn s + f) * 2 ^ 12 + 0) by lia.
  rewrite (virt_to_page_frame HG) by lia. case_cmp as Hc; unfold pfn_to_page, sizeof_page in Hc; [lia|]. clear Hc.
  assert (filling s s C (λ _, []) f f 10) as HF.
  { pose proof (rp_mem _ _ _ HR) as HM.
    assert (∀ d k t, C !! d = Some (k, t) → t = CHeld) as Hheld.
    { intros d k t Hd. rewrite Hz in Hd; [naive_solver|]. by apply (chunk_frames HR) in Hd as (_ & _ & _ & ?). }
    split; [done|done|auto|intros d k _; lia|..]; intros; naive_solver. }
  assert (∃ fuel, Z.to_nat (page_num s) = S fuel) as [fuel Efuel] by (exists (Nat.pred (Z.to_nat (page_num s))); lia).
  rewrite Efuel. rewrite (for_orders_S 10). apply wp_bind, wp_bind.
  change (Z.of_nat 10) with 10. eapply (wp_fill_up_10 s Hfr); [exact HF|lia|lia|done| |lia|].
  { replace (page_num s - f) with (base_vpn s + page_num s - (base_vpn s + f)) by lia.
    rewrite Zminus_mod, Hal, (end_vpn HG). done. }
  intros s1 C1 L1 HF1. apply wp_fill_up_done; [lia|]. apply wp_bind.
  eapply (wp_fill_down s Hfr fuel 10); [exact HF1|lia|lia|lia|lia|done|].
  intros s2 C2 L2 [HR2 Hf2 _ Hh2 Ho2 _ Hn2]. apply wp_ret, HQ; [|done].
  exists C2, L2. split_and!; [done| | |by rewrite (fr_lock _ _ Hf2)|].
  - intros d k Hd. pose proof (Hh2 _ _ Hd) as Hx. cbn beta in Hx. apply (chunk_frames HR2) in Hd. rewrite (fr_num _ _ Hf2) in Hd. lia.
  - intros c o Ho Hco Hb. pose proof (Ho2 c (buddy_of (base_vpn s2) c o) o ltac:(lia) Hco Hb). assert (0 ≤ o) as Ho0 by lia. by apply (buddy_of_self (base_vpn s2) c o Ho0).
  - intros c o. split; [by rewrite lookup_empty|]. intros Hu. by apply Hn2 in Hu.
Qed.

(** Without a frame on a 4 MB boundary the search for one returns [NULL], the
    check of [populate_page] does not catch it, and the first store goes through
    the null pointer. *)
Lemma populate_page_null s :
  region_ok s → page_num s ≤ first_aligned s → 2 ^ 16 ≤ page_arrry s → pages s !! NULL = None →
  populate_page (page_arrry s) (page_num s) s = Halt HFault.
Proof.
  intros HG Hfa Harr Hnull. pose proof (start_vpn HG) as Hst. pose proof HG as [].
  unfold populate_page, mbind, M_bind, gets, id.
  replace (page_to_virt s (page_arrry s)) with (page_to_virt s (pfn_to_page s 0)) by (f_equal; unfold pfn_to_page; lia).
  rewrite populate_round by done.
  assert (virt_to_page s ((base_vpn s + first_aligned s) * 2 ^ 12) = NULL) as ->.
  { unfold virt_to_page. rewrite (u64_small (start_addr s + size s)) by lia.
    rewrite (proj2 (Z.ltb_ge _ _)), Z.geb_leb, (proj2 (Z.leb_le _ _)) by lia. done. }
  unfold sizeof_page in *. rewrite Z.geb_leb, (proj2 (Z.leb_gt _ _)) by lia.
  cbn [for_orders fill_up]. change (Z.of_nat 10) with 10. rewrite (chunk_pages_pow2 10) by lia. unfold mbind, M_bind, sizeof_page.
  rewrite (proj2 (Z.ltb_lt _ _)) by lia. unfold put_free_chunk, mbind, M_bind, ld_page, load. by rewrite Hnull.
Qed.

(** ** [init_buddy] *)

(** The layout [init_buddy] computes from the end of the kernel image. *)
Definition phys_start (img_end : Z) : Z := ROUND_UP img_end PAGE_SIZE.
Definition npages_est (img_end : Z) : Z := (PHYS_MEM_END - phys_start img_end) / (PAGE_SIZE + sizeof_page).
Definition free_start (img_end : Z) : Z := ROUND_UP (phys_start img_end + npages_est img_end * sizeof_page) PAGE_SIZE.
Definition npages_of (img_end : Z) : Z := (PHYS_MEM_END - free_start img_end) / PAGE_SIZE.

Lemma layout_ok e : 0 < e ≤ PHYS_MEM_END - 2 ^ 12 →
  e ≤ phys_start e < e + 2 ^ 12 ∧ phys_start e mod 2 ^ 12 = 0 ∧ 0 ≤ npages_est e ∧
  npages_est e * 4128 ≤ PHYS_MEM_END - phys_start e < npages_est e * 4128 + 4128 ∧
  phys_start e + npages_est e * 32 ≤ free_start e < phys_start e + npages_est e * 32 + 2 ^ 12 ∧
  free_start e mod 2 ^ 12 = 0 ∧ npages_of e * 2 ^ 12 = PHYS_MEM_END - free_start e.
Proof.
  intros He. unfold PHYS_MEM_END in *.
  destruct (ROUND_UP_pow2 e 12) as [Ha Hr]; [lia..|].
  change (ROUND_UP e (2 ^ 12)) with (phys_start e) in *.
  assert (phys_start e ≤ 0x3F000000).
  { destruct (Z_le_dec (phys_start e) 0x3F000000); [done|].
    apply Z.mod_divide in Ha as [q Hq]; [|lia]. lia. }
  pose proof (Z.div_mod (0x3F000000 - phys_start e) 4128 ltac:(lia)) as Hd.
  pose proof (Z.mod_pos_bound (0x3F000000 - phys_start e) 4128 ltac:(lia)) as Hm.
  pose proof (Z.div_pos (0x3F000000 - phys_start e) 4128 ltac:(lia)) as Hp.
  change ((0x3F000000 - phys_start e) / 4128) with (npages_est e) in *.
  destruct (ROUND_UP_pow2 (phys_start e + npages_est e * 32) 12) as [Hb Hr2]; [lia..|].
  change (ROUND_UP (phys_start e + npages_est e * 32) (2 ^ 12)) with (free_start e) in *.
  split_and!; try lia. unfold npages_of, PHYS_MEM_END. change PAGE_SIZE with (2 ^ 12). apply div_mul_aligned; [lia|].
  rewrite Zminus_mod, Hb. done.
Qed.

(** The code computes this layout: nothing wraps around. *)
Lemma region_code e : 0 < e ≤ PHYS_MEM_END - 2 ^ 12 →
  available_phys_mem_start e = phys_start e ∧ available_phys_mem_end = PHYS_MEM_END ∧ free_phys_mem_start e = free_start e ∧ region_pages e = npages_of e.
Proof.
  intros He. destruct (layout_ok e He) as (Hps & Hpa & Hn0 & Hest & Hfs & Hfa & Hn). assert (available_phys_mem_end = PHYS_MEM_END) as E by reflexivity.
  assert (free_phys_mem_start e = free_start e) as Ef.
  { unfold free_phys_mem_start. rewrite E. change (available_phys_mem_start e) with (phys_start e). cbv zeta. unfold PHYS_MEM_END, sizeof_page in *.
    rewrite (u64_small (_ - phys_start e)) by lia. change ((0x3F000000 - phys_start e) / (PAGE_SIZE + 32)) with (npages_est e).
    rewrite (u64_small (npages_est e * 32)), (u64_small (phys_start e + _)) by lia. done. }
  split_and!; [done|done|done|]. unfold region_pages. rewrite E, Ef. unfold PHYS_MEM_END in *. by rewrite (u64_small (_ - free_start e)) by lia.
Qed.

(** The page array ends where the first page starts, or earlier, except when
    the number of available pages is 1 modulo 129: then the last entry of the
    page array lies in the first page. *)
Lemma array_end e : 0 < e ≤ PHYS_MEM_END - 2 ^ 12 →
  let over := phys_start e + npages_of e * sizeof_page - free_start e in
  let pages_avail := (PHYS_MEM_END - phys_start e) / PAGE_SIZE in
  (over ≤ 0 ∧ pages_avail mod 129 ≠ 1) ∨ (over = sizeof_page ∧ pages_avail mod 129 = 1).
Proof.
  intros He over avail. destruct (layout_ok e He) as (Hps & Hpa & Hn0 & Hest & Hfs & Hfa & Hn).
  assert (avail * 2 ^ 12 = PHYS_MEM_END - phys_start e) as Hav.
  { subst avail. apply div_mul_aligned; [done|]. change PAGE_SIZE with (2 ^ 12). rewrite Zminus_mod, Hpa. done. }
  apply Z.mod_divide in Hpa as [p Hp]; [|lia]. apply Z.mod_divide in Hfa as [f Hf]; [|lia].
  pose proof (Z.div_mod avail 129 ltac:(lia)) as Hd. pose proof (Z.mod_pos_bound avail 129 ltac:(lia)) as Hm.
  unfold over, sizeof_page. set (q := avail / 129) in *. set (r := avail mod 129) in *. unfold PHYS_MEM_END in *.
  destruct (decide (r = 1)) as [Hr|Hr]; [right|left]; lia.
Qed.

Lemma lookup_seq_map {A} (f : Z → Z) (v : A) (n : nat) i :
  0 ≤ i < Z.of_nat n →
  (list_to_map ((λ i, (f i, v)) <$> seqZ 0 (Z.of_nat n)) : gmap Z A) !! f i = Some v.
Proof.
  intros Hi. assert (i ∈ seqZ 0 (Z.of_nat n)) as Hin by (apply elem_of_seqZ; lia).
  induction (seqZ 0 (Z.of_nat n)) as [|j l IH]; [set_solver|]. rewrite fmap_cons, list_to_map_cons, lookup_insert. case_decide as Hj; [done|]. apply IH. apply elem_of_cons in Hin as [->|]; done.
Qed.

Lemma lookup_seq_map_None {A} (f : Z → Z) (v : A) (n : nat) a :
  (∀ i, 0 ≤ i < Z.of_nat n → f i ≠ a) →
  (list_to_map ((λ i, (f i, v)) <$> seqZ 0 (Z.of_nat n)) : gmap Z A) !! a = None.
Proof.
  intros Hi. apply not_elem_of_list_to_map. rewrite <- list_fmap_compose.
  intros (i & -> & Hin)%list_elem_of_fmap. apply elem_of_seqZ in Hin. apply (Hi i); [lia|done].
Qed.

Definition zero_cmap (n : nat) : cmap := list_to_map ((λ i, (i, (0, CHeld))) <$> seqZ 0 (Z.of_nat n)).

Lemma lookup_zero_cmap n i e : zero_cmap n !! i = Some e ↔ 0 ≤ i < Z.of_nat n ∧ e = (0, CHeld).
Proof.
  unfold zero_cmap. destruct (decide (0 ≤ i < Z.of_nat n)) as [Hi|Hi].
  - rewrite (lookup_seq_map (λ i, i)) by done. naive_solver.
  - rewrite (lookup_seq_map_None (λ i, i)) by naive_solver. naive_solver.
Qed.

Lemma zero_cmap_ok B n : cmap_ok B (Z.of_nat n) (zero_cmap n).
Proof.
  split.
  - intros c o t [Hc [= -> ->]]%lookup_zero_cmap. lia.
  - intros c o t [Hc [= -> ->]]%lookup_zero_cmap. by rewrite Z.mod_1_r.
  - intros c o t c' o' t' [Hc [= -> ->]]%lookup_zero_cmap [Hc' [= -> ->]]%lookup_zero_cmap Hne. lia.
  - intros i Hi. exists i, 0, CHeld. split; [by apply lookup_zero_cmap|]. lia.
Qed.

(** The loop that initialises the free lists. *)
Definition heads_ready (s1 : bstate) (j : Z) (s : bstate) : Prop := ∃ f h,
  s = set_nr f (set_nodes h s1) ∧
  (∀ o, 0 ≤ o ≤ 10 → is_Some (h !! fl_addr s1 o)) ∧
  (∀ o, 0 ≤ o < j → dlist h (fl_addr s1 o) [] ∧ f !! o = Some 0).

Lemma wp_init_heads s1 (Q : unit → bstate → Prop) :
  (∀ o, 0 ≤ o ≤ 10 → is_Some (nodes s1 !! fl_addr s1 o)) →
  (∀ s', heads_ready s1 11 s' → Q tt s') →
  wp (for_up 11 0 (λ o, set_nr_free o 0 ;; h ← gets (λ s, fl_addr s o); on_nodes (init_list_head h))) s1 Q.
Proof.
  intros Hs HQ. apply (wp_for_up (heads_ready s1)); [| |done].
  - exists (nr_free s1), (nodes s1). split_and!; [by destruct s1|done|lia].
  - intros j s' Hj (f & h & -> & Hh & Hd). apply wp_bind, wp_modify, wp_bind, wp_gets, wp_zoom.
    change (fl_addr (set_nr _ _) j) with (fl_addr s1 j). apply wp_init_list_head; [apply Hh; lia|].
    intros h' Hd' Hf'. exists (<[j := 0]> f), h'. split_and!; [done| |].
    + intros o Ho. destruct (decide (fl_addr s1 o = fl_addr s1 j)) as [->|Hne]; [|rewrite Hf' by done; auto].
      eapply dlist_is_Some; [exact Hd'|]. set_solver.
    + intros o Ho. destruct (decide (o = j)) as [->|Hne]; [by rewrite lookup_insert_eq|].
      rewrite lookup_insert_ne by done. destruct (Hd o ltac:(lia)) as [Hdo Hfo]. split; [|done].
      eapply dlist_frame; [|exact Hdo]. intros b Hb. apply Hf'. intros ->.
      assert (fl_addr s1 j = fl_addr s1 o) as He by set_solver. unfold fl_addr in He. lia.
Qed.

(** The zeroed page array represents [zero_cmap]. *)
Lemma zeroed_rep s n f h :
  region_ok s → page_num s = Z.of_nat n → pages s = ∅ →
  (∀ o, 0 ≤ o ≤ 10 → dlist h (fl_addr s o) [] ∧ f !! o = Some 0) →
  let s' := set_pages (zero_pages (page_arrry s) n ∪ pages s)
              (set_nodes (zero_nodes (page_arrry s) n ∪ h) (set_nr f s)) in
  rep s' (zero_cmap n) (λ _, []) ∧ fresh s'.
Proof.
  intros HG Hn Hp Hd s'. subst s'.
  assert (∀ i, 0 ≤ i < page_num s → zero_pages (page_arrry s) n !! pfn_to_page s i = Some (mk_page 0 0 NULL)) as Hzp.
  { intros i Hi. unfold zero_pages, pfn_to_page. apply (lookup_seq_map (λ i, page_arrry s + i * sizeof_page)). lia. }
  split; [split; geom|].
  - by destruct HG.
  - rewrite Hn. apply zero_cmap_ok.
  - intros i Hi. exists (mk_page 0 0 NULL). split; [by apply lookup_union_Some_l, Hzp|].
    rewrite (proj2 (lookup_zero_cmap n i (0, CHeld))); [done|]. split; [lia|done].
  - intros i Hi. exists (mk_list_head NULL NULL). apply lookup_union_Some_l. unfold zero_nodes, pfn_to_page.
    apply (lookup_seq_map (λ i, page_arrry s + i * sizeof_page)). lia.
  - intros o Ho. destruct (Hd o Ho) as [Hdo _]. eapply dlist_frame; [|exact Hdo]. intros b Hb.
    apply lookup_union_r. unfold zero_nodes. apply (lookup_seq_map_None (λ i, page_arrry s + i * sizeof_page)).
    intros i Hi. assert (b = fl_addr s o) as -> by set_solver. destruct HG. unfold fl_addr, sizeof_page. lia.
  - intros o c Ho. split; [set_solver|]. by intros [_ [=]]%lookup_zero_cmap.
  - intros o Ho. by destruct (Hd o Ho).
  - intros a p. simpl. rewrite Hp, map_union_empty. unfold zero_pages. intros Ha%elem_of_list_to_map_2.
    apply list_elem_of_fmap in Ha as (i & [= -> ->] & _). done.
Qed.

Section init.
Context (mr e : Z) (He : 0 < e ≤ PHYS_MEM_END - 2 ^ 12) (Hmr : 0 < mr) (Hbelow : mr + 304 ≤ phys_to_virt e).

(** The state after [init_buddy] has filled in the region. *)
Definition init_state : bstate :=
  set_lock 0 (set_region (phys_to_virt (free_start e)) (PHYS_MEM_END - free_start e)
                         (phys_to_virt (phys_start e)) (npages_of e) (bss_bstate mr)).

Lemma init_region : region_ok init_state.
Proof.
  destruct (layout_ok e He) as (Hps & Hpa & Hn0 & Hest & Hfs & Hfa & Hn). unfold PHYS_MEM_END in *.
  rewrite phys_to_virt_eq in Hbelow by lia. unfold init_state.
  split; simpl; unfold sizeof_page; rewrite ?phys_to_virt_eq by (unfold KBASE; lia); unfold PHYS_MEM_END, KBASE in *; try lia.
  - rewrite <- Z.add_mod_idemp_l, Hfa by lia. done.
  - replace (free_start e + 0xFFFFFF0000000000 + (0x3F000000 - free_start e)) with (0xFFFFFF003F000000) by lia. done.
Qed.

(** The allocator ends up with the region computed by [init_buddy]. *)
Definition init_layout (s : bstate) : Prop :=
  start_addr s = phys_to_virt (free_start e) ∧ size s = PHYS_MEM_END - free_start e ∧
  page_arrry s = phys_to_virt (phys_start e) ∧ page_num s = npages_of e ∧ free_lists_lock s = 0.

Lemma init_heads_run : ∃ f h,
  for_up 11 0 (λ o, set_nr_free o 0 ;; h ← gets (λ s, fl_addr s o); on_nodes (init_list_head h)) init_state
    = Ok (tt, set_nr f (set_nodes h init_state)) ∧
  ∀ o, 0 ≤ o ≤ 10 → dlist h (fl_addr init_state o) [] ∧ f !! o = Some 0.
Proof.
  assert (wp (for_up 11 0 (λ o, set_nr_free o 0 ;; h ← gets (λ s, fl_addr s o); on_nodes (init_list_head h)))
    init_state (λ _ s, heads_ready init_state 11 s)) as Hw.
  { apply wp_init_heads; [|done]. intros o Ho. exists (mk_list_head NULL NULL).
    exact (lookup_seq_map (λ o, mr + 40 + 24 * o) (mk_list_head NULL NULL) 11 o ltac:(lia)). }
  apply wp_inv in Hw as ([] & s & Hs & f & h & -> & _ & Hd). exists f, h. split; [done|]. intros. apply Hd. lia.
Qed.

Lemma init_prefix : ∃ s,
  rep s (zero_cmap (Z.to_nat (npages_of e))) (λ _, []) ∧ fresh s ∧ init_layout s ∧ pages s !! NULL = None ∧
  init_buddy e (bss_bstate mr) = populate_page (page_arrry s) (page_num s) s.
Proof.
  pose proof init_region as HG. destruct (layout_ok e He) as (Hps & Hpa & Hn0 & Hest & Hfs & Hfa & Hn).
  destruct init_heads_run as (f & h & Erun & Hd).
  destruct (zeroed_rep init_state (Z.to_nat (npages_of e)) f h HG) as [HR Hfr];
    [simpl; unfold PHYS_MEM_END in *; lia|done|done|].
  eexists. split; [exact HR|]. split; [exact Hfr|]. split; [done|]. split.
  { simpl. rewrite map_union_empty. apply (lookup_seq_map_None (λ i, phys_to_virt (phys_start e) + i * sizeof_page)).
    intros i Hi. unfold PHYS_MEM_END in *. rewrite phys_to_virt_eq by lia. unfold KBASE, sizeof_page. lia. }
  destruct (region_code e He) as (E1 & E2 & E3 & E4).
  unfold init_buddy, set_up_region, init_free_lists. rewrite E1, E2, E3, E4. unfold PHYS_MEM_END in *. rewrite (u64_small (_ - free_start e)) by lia.
  unfold mbind at 1 2 3. unfold M_bind at 1 2 3. unfold modify at 1 2.
  change (set_lock 0 _) with init_state. unfold mbind, M_bind in Erun |- *. by rewrite Erun.
Qed.

Lemma wp_init_buddy Q : 2 ^ 10 ≤ npages_of e →
  (∀ s, buddy_ok s ∅ → fresh s → init_layout s → Q tt s) → wp (init_buddy e) (bss_bstate mr) Q.
Proof.
  intros Hn HQ. destruct init_prefix as (s & HR & Hfr & Hlay & Hnull & Erun).
  unfold wp. rewrite Erun. pose proof Hlay as (Hst & Hsz & Harr & Hnum & Hlk).
  apply (wp_populate_page _ _ _ HR Hfr); [done| | |].
  - destruct (first_aligned_ok s). lia.
  - intros i Hi. apply lookup_zero_cmap. split; [lia|done].
  - intros s' Hok Hf. apply HQ; [done|by eapply frame_fresh|]. destruct Hf. unfold init_layout. by split_and!; congruence.
Qed.

Lemma init_buddy_fault : npages_of e < 2 ^ 10 → init_buddy e (bss_bstate mr) = Halt HFault.
Proof.
  intros Hn. destruct init_prefix as (s & HR & Hfr & (Hst & Hsz & Harr & Hnum & Hlk) & Hnull & Erun).
  rewrite Erun. pose proof (rp_region _ _ _ HR) as HG. apply populate_page_null; [done| | |done].
  - pose proof (end_vpn HG) as Hend. destruct (first_aligned_ok s) as [Hf Hal]. pose proof (rg_num _ HG).
    apply Z.mod_divide in Hend as [q Hq]; [|lia]. apply Z.mod_divide in Hal as [q' Hq']; [|lia]. lia.
  - rewrite Harr. destruct (layout_ok e He) as (Hps & _). unfold PHYS_MEM_END in *. rewrite phys_to_virt_eq by lia. unfold KBASE. lia.
Qed.
End init.
