(* ===== verification/BuddyTheorems.v ===== *)
(** * The theorems about the buddy allocator

    The properties of [mm/buddy.c] that the rest of the kernel relies on, each
    with an instance on the state that [init_buddy] builds for a kernel image
    that ends at 2 MB. *)

From S2P Require Import Prelude Macro ListHead Buddy Chunks BuddyInv BuddyOps BuddySpec BuddyCount BuddyInit.

(** ** States with the same allocated blocks *)

(** The free lists are determined by the allocated blocks. *)
Lemma same_blocks_same_counts s s' U :
  buddy_ok s U → buddy_ok s' U → frame s s' → ∀ o, 0 ≤ o ≤ 10 → nr_free s' !! o = nr_free s !! o.
Proof.
  intros (C & L & HR & Hh & Hco & _ & HU) (C' & L' & HR' & Hh' & Hco' & _ & HU') Hf o Ho.
  assert (C = C') as <-.
  { pose proof (rp_cmap _ _ _ HR') as HC'. rewrite (frame_base _ _ Hf) in *. rewrite (fr_num _ _ Hf) in HC'.
    eapply coalesced_unique; [exact (rp_cmap _ _ _ HR)|done|done|exact HC'|done|done|].
    intros d k. by rewrite <- HU, <- HU'. }
  rewrite (rp_nr _ _ _ HR o Ho), (rp_nr _ _ _ HR' o Ho). do 2 f_equal. apply Permutation_length, NoDup_Permutation.
  - by apply (free_list_NoDup HR').
  - by apply (free_list_NoDup HR).
  - intros c. by rewrite (rp_mem _ _ _ HR' o c Ho), (rp_mem _ _ _ HR o c Ho).
Qed.

(** ** Client steps *)

(** A client of the allocator: [U] records the blocks it was given and has not
    returned.  It asks for orders in range and returns only its own blocks. *)
Inductive client_step : bstate * gmap Z Z → bstate * gmap Z Z → Prop :=
| client_get s U o c s' :
    0 ≤ o ≤ 10 → 0 ≤ c → buddy_get_pages o s = Ok (pfn_to_page s c, s') →
    client_step (s, U) (s', <[c := o]> U)
| client_get_fails s U o s' :
    0 ≤ o ≤ 10 → buddy_get_pages o s = Ok (NULL, s') → client_step (s, U) (s', U)
| client_free s U c o s' :
    U !! c = Some o → buddy_free_pages (pfn_to_page s c) s = Ok (tt, s') →
    client_step (s, U) (s', delete c U).

Definition client_reachable (s0 : bstate) (s : bstate) (U : gmap Z Z) : Prop :=
  rtc client_step (s0, ∅) (s, U).

Lemma buddy_ok_region s U : buddy_ok s U → region_ok s.
Proof. intros (C & L & HR & _). apply (rp_region _ _ _ HR). Qed.

Lemma ok_pfn_ne_null s U c : buddy_ok s U → 0 ≤ c → pfn_to_page s c ≠ NULL.
Proof. intros (C & L & HR & _). apply (pfn_ne_null HR). Qed.

Lemma client_step_ok s U s' U' : client_step (s, U) (s', U') → buddy_ok s U → buddy_ok s' U' ∧ frame s s'.
Proof.
  intros Hs Hok. inversion Hs as [? ? o c ? Ho Hc Hg|? ? o ? Ho Hg|? ? c o ? Hc Hg]; subst.
  - assert (wp (buddy_get_pages o) s (λ p s', p = pfn_to_page s c → buddy_ok s' (<[c := o]> U) ∧ frame s s')) as Hw.
    { apply (wp_buddy_get_pages _ _ _ _ Hok Ho).
      - intros _ Hp. by destruct (ok_pfn_ne_null _ _ c Hok Hc).
      - intros d s1 _ Hf Hok1 Hp%pfn_to_page_inj. by subst. }
    unfold wp in Hw. rewrite Hg in Hw. auto.
  - assert (wp (buddy_get_pages o) s (λ p s', p = NULL → buddy_ok s' U' ∧ frame s s')) as Hw.
    { apply (wp_buddy_get_pages _ _ _ _ Hok Ho).
      - intros _ _. done.
      - intros d s1 [Hd _ _ _] _ _ Hp. by destruct (ok_pfn_ne_null _ _ d Hok Hd). }
    unfold wp in Hw. rewrite Hg in Hw. auto.
  - assert (wp (buddy_free_pages (pfn_to_page s c)) s (λ _ s', buddy_ok s' (delete c U) ∧ frame s s')) as Hw.
    { by apply (wp_buddy_free_pages _ _ _ _ _ Hok Hc). }
    unfold wp in Hw. by rewrite Hg in Hw.
Qed.

Lemma client_reachable_ok s0 s U : buddy_ok s0 ∅ → client_reachable s0 s U → buddy_ok s U ∧ frame s0 s.
Proof.
  unfold client_reachable. intros H0 Hr.
  apply (rtc_ind_r (λ x, buddy_ok x.1 x.2 ∧ frame s0 x.1) (s0, ∅)) in Hr; [done|done|].
  intros [s1 U1] [s2 U2] _ Hst [Hok Hf]. destruct (client_step_ok _ _ _ _ Hst Hok). simpl in *. split; [done|by etrans].
Qed.

(** The virtual addresses of the block of order [o] at frame [c]. *)
Definition in_block (s : bstate) (c o a : Z) : Prop :=
  let v := page_to_virt s (pfn_to_page s c) in v ≤ a < v + BUDDY_CHUNK_SIZE o.

Lemma used_block s U c o : buddy_ok s U → U !! c = Some o →
  0 ≤ c ∧ 0 ≤ o ≤ 10 ∧ c + 2 ^ o ≤ page_num s ∧ (base_vpn s + c) mod 2 ^ o = 0.
Proof.
  intros (C & L & HR & _ & _ & _ & HU) Hc%HU. destruct (chunk_frames HR _ _ _ Hc) as (? & ? & ? & _).
  split_and!; [done|lia|lia|done|]. by apply (ck_align _ _ _ (rp_cmap _ _ _ HR) _ _ _ Hc).
Qed.

Lemma used_blocks_apart s U c o c' o' : buddy_ok s U → U !! c = Some o → U !! c' = Some o' → c ≠ c' →
  c + 2 ^ o ≤ c' ∨ c' + 2 ^ o' ≤ c.
Proof.
  intros (C & L & HR & _ & _ & _ & HU) Hc%HU Hc'%HU Hne. by apply (ck_disj _ _ _ (rp_cmap _ _ _ HR) _ _ _ _ _ _ Hc Hc').
Qed.

Lemma block_range s U c o : buddy_ok s U → U !! c = Some o →
  page_to_virt s (pfn_to_page s c) = (base_vpn s + c) * 2 ^ 12 ∧ BUDDY_CHUNK_SIZE o = 2 ^ o * 2 ^ 12.
Proof.
  intros Hok Hc. destruct (used_block _ _ _ _ Hok Hc) as (Hc0 & Ho & Hn & _). pose proof (pow2_gt0 o ltac:(lia)).
  split; [apply (page_to_virt_frame (buddy_ok_region _ _ Hok)); lia|].
  rewrite chunk_size_pow2, (Z.add_comm 12), Z.pow_add_r by lia. done.
Qed.

(** ** The state after [init_buddy] *)
Section booted.
Context (mr e : Z) (He : 0 < e) (Hroom : e + 2 ^ 23 ≤ PHYS_MEM_END) (Hmr : 0 < mr) (Hbelow : mr + 304 ≤ phys_to_virt e).

Lemma enough_pages : 2 ^ 10 ≤ npages_of e.
Proof.
  unfold PHYS_MEM_END in *. destruct (layout_ok e) as (Hps & Hpa & Hn0 & Hest & Hfs & Hfa & Hn); unfold PHYS_MEM_END in *; lia.
Qed.

Lemma booted_ok : ∃ s, init_buddy e (bss_bstate mr) = Ok (tt, s) ∧ buddy_ok s ∅ ∧ fresh s ∧ init_layout e s.
Proof.
  assert (wp (init_buddy e) (bss_bstate mr) (λ _ s, buddy_ok s ∅ ∧ fresh s ∧ init_layout e s)) as Hw.
  { apply wp_init_buddy; [unfold PHYS_MEM_END in *; lia|done|done|apply enough_pages|done]. }
  apply wp_inv in Hw as ([] & s & Hs & H). eauto.
Qed.
End booted.

(** The instance used by the witnesses: [memory_region_g] at 1 MB of the
    kernel's direct map, the image ends at 2 MB. *)
Definition demo_mr : Z := phys_to_virt (2 ^ 20).
Definition demo_end : Z := 2 ^ 21.

Lemma demo_boot : ∃ s, init_buddy demo_end (bss_bstate demo_mr) = Ok (tt, s) ∧ buddy_ok s ∅ ∧ fresh s ∧ init_layout demo_end s.
Proof. apply booted_ok; unfold demo_end, demo_mr; [lia|vm_compute; congruence|vm_compute; congruence|vm_compute; congruence]. Qed.

(** ** Properties *)

(** C9. [buddy_get_pages] meets the abstract allocator.  From every state that
    represents the allocated blocks [U] and for every order in range, the call
    returns (it never runs into [BUG_ON], [kerror], a wild access or a
    deadlock).  Either it returns [NULL], changes nothing, and there really is
    no aligned unused block of [2^o] pages left; or it returns the page of a
    block that was available (inside the region, aligned to its size, apart
    from every allocated block) and the new state represents [U] with that
    block added, the lock released and the region and slab marks unchanged. *)
Theorem buddy_get_pages_refines s U o :
  buddy_ok s U → 0 ≤ o ≤ 10 →
  ∃ p s', buddy_get_pages o s = Ok (p, s') ∧
    ((p = NULL ∧ s' = s ∧ ∀ c, ¬ block_avail s U c o) ∨
     ∃ c, p = pfn_to_page s c ∧ p ≠ NULL ∧ block_avail s U c o ∧ buddy_ok s' (<[c := o]> U) ∧ frame s s').
Proof.
  intros Hok Ho. apply wp_inv. apply (wp_buddy_get_pages _ _ _ _ Hok Ho).
  - intros Hno. by left.
  - intros c s' Hav Hf Hok'. right. exists c. split_and!; [done| |done|done|done].
    eapply ok_pfn_ne_null; [exact Hok|]. by destruct Hav.
Qed.

Lemma buddy_get_pages_refines_witness :
  ∃ s p s', buddy_ok s ∅ ∧ buddy_get_pages 3 s = Ok (p, s') ∧
    ((p = NULL ∧ s' = s ∧ ∀ c, ¬ block_avail s ∅ c 3) ∨
     ∃ c, p = pfn_to_page s c ∧ p ≠ NULL ∧ block_avail s ∅ c 3 ∧ buddy_ok s' (<[c := 3]> ∅) ∧ frame s s').
Proof.
  destruct demo_boot as (s & _ & Hok & _).
  destruct (buddy_get_pages_refines s ∅ 3 Hok ltac:(lia)) as (p & s' & H). exists s, p, s'. split; [exact Hok|exact H].
Defined.

(** C10. [buddy_free_pages] gives back any allocated block: it returns, and the
    new state represents the allocated blocks without that one (merging the
    chunk with its free buddies as far as possible), the lock released and the
    region and slab marks unchanged. *)
Theorem buddy_free_pages_refines s U c o :
  buddy_ok s U → U !! c = Some o →
  ∃ s', buddy_free_pages (pfn_to_page s c) s = Ok (tt, s') ∧ buddy_ok s' (delete c U) ∧ frame s s'.
Proof.
  intros Hok Hc. assert (wp (buddy_free_pages (pfn_to_page s c)) s (λ _ s', buddy_ok s' (delete c U) ∧ frame s s')) as Hw.
  { by apply (wp_buddy_free_pages _ _ _ _ _ Hok Hc). }
  apply wp_inv in Hw as ([] & s' & H). eauto.
Qed.

(** Four pages can be had after boot. *)
Lemma demo_some : ∃ s p s', buddy_ok s ∅ ∧ buddy_get_pages 2 s = Ok (p, s') ∧ p ≠ NULL.
Proof.
  destruct demo_boot as (s & _ & Hok & _ & _ & Hsz & _ & Hn & _).
  assert (wp (buddy_get_pages 2) s (λ p _, p ≠ NULL)) as Hw.
  { apply (wp_buddy_get_pages _ _ _ _ Hok); [lia| |].
    - intros Hno. exfalso. destruct (first_aligned_ok s) as [Hf Hal].
      apply (Hno (first_aligned s)). split; [lia| |by apply (aligned_weaken _ _ 10)|done].
      rewrite Hn. assert (2 ^ 11 ≤ npages_of demo_end) by (vm_compute; congruence). lia.
    - intros c s' [Hc _ _ _] _ _. by eapply ok_pfn_ne_null. }
  apply wp_inv in Hw as (p & s' & H). exists s, p, s'. by split.
Qed.

(** ... and a client that took them. *)
Lemma demo_client : ∃ s0 s c, buddy_ok s0 ∅ ∧ client_reachable s0 s {[c := 2]} ∧
  in_block s c 2 (page_to_virt s (pfn_to_page s c)).
Proof.
  destruct demo_some as (s0 & p & s & Hok & Hget & Hp).
  assert (wp (buddy_get_pages 2) s0 (λ p _, p ≠ NULL → ∃ c, p = pfn_to_page s0 c ∧ 0 ≤ c)) as Hw.
  { apply (wp_buddy_get_pages _ _ _ _ Hok); [lia|done|]. intros c s' [Hc _ _ _] _ _. eauto. }
  unfold wp in Hw. rewrite Hget in Hw. destruct (Hw Hp) as (c & -> & Hc).
  exists s0, s, c. split_and!; [done| |].
  - apply rtc_once. rewrite <- insert_empty. by eapply client_get; [|done|].
  - unfold in_block. rewrite chunk_size_pow2 by lia. lia.
Qed.

Lemma demo_alloc : ∃ s c, buddy_ok s {[c := 2]} ∧ 0 ≤ c.
Proof.
  destruct demo_client as (s0 & s & c & H0 & Hr & _). destruct (client_reachable_ok _ _ _ H0 Hr) as [Hok _].
  exists s, c. split; [done|]. by apply (used_block s {[c := 2]} c 2); [|apply lookup_singleton_eq].
Qed.

Lemma buddy_free_pages_refines_witness :
  ∃ s c s', buddy_ok s {[c := 2]} ∧ buddy_free_pages (pfn_to_page s c) s = Ok (tt, s') ∧
            buddy_ok s' (delete c {[c := 2]}) ∧ frame s s'.
Proof.
  destruct demo_alloc as (s & c & Hok & _).
  destruct (buddy_free_pages_refines s {[c := 2]} c 2 Hok (lookup_singleton_eq c 2)) as (s' & H).
  exists s, c, s'. split; [exact Hok|exact H].
Defined.

(** C25. Allocating and releasing is a round trip: after a successful
    [buddy_get_pages o], [buddy_free_pages] of the returned page succeeds and
    restores the allocated blocks and every free-list counter. *)
Theorem buddy_get_free_roundtrip s U o p s1 :
  buddy_ok s U → 0 ≤ o ≤ 10 → buddy_get_pages o s = Ok (p, s1) → p ≠ NULL →
  ∃ s2, buddy_free_pages p s1 = Ok (tt, s2) ∧ buddy_ok s2 U ∧
        ∀ i, 0 ≤ i ≤ 10 → nr_free s2 !! i = nr_free s !! i.
Proof.
  intros Hok Ho Hget Hp.
  assert (wp (buddy_get_pages o) s (λ p s1, p ≠ NULL →
    wp (buddy_free_pages p) s1 (λ _ s2, buddy_ok s2 U ∧ frame s s2))) as Hw.
  { apply (wp_buddy_get_pages _ _ _ _ Hok Ho); [done|]. intros c s' Hav Hf Hok' _.
    rewrite <- (frame_pfn _ _ _ Hf). eapply wp_buddy_free_pages; [exact Hok'|by rewrite lookup_insert_eq|].
    intros s2 Hf2 Hok2. split; [|by etrans]. rewrite delete_insert_id in Hok2; [done|].
    destruct (U !! c) as [k|] eqn:Ek; [|done]. exfalso. destruct (ba_apart _ _ _ _ Hav c k Ek).
    - pose proof (used_block _ _ _ _ Hok Ek). pose proof (pow2_gt0 k). lia.
    - pose proof (pow2_gt0 o). lia. }
  unfold wp at 1 in Hw. rewrite Hget in Hw. apply Hw in Hp as ([] & s2 & Hfree & Hok2 & Hf2)%wp_inv.
  exists s2. split_and!; [done|done|]. intros i Hi. by eapply same_blocks_same_counts.
Qed.

Lemma buddy_get_free_roundtrip_witness :
  ∃ s p s1 s2, buddy_get_pages 2 s = Ok (p, s1) ∧ buddy_free_pages p s1 = Ok (tt, s2) ∧ buddy_ok s2 ∅ ∧
        ∀ i, 0 ≤ i ≤ 10 → nr_free s2 !! i = nr_free s !! i.
Proof.
  destruct demo_some as (s & p & s1 & Hok & Hget & Hp).
  destruct (buddy_get_free_roundtrip s ∅ 2 p s1 Hok ltac:(lia) Hget Hp) as (s2 & H).
  exists s, p, s1, s2. split; [exact Hget|exact H].
Defined.

(** C11. [init_buddy] establishes the invariant: for every image that leaves
    8 MB of memory it returns, with nothing allocated, the lock free, no page
    marked as slab memory, and the region that ends at the top of memory. *)
Theorem init_buddy_establishes mr e :
  0 < e → e + 2 ^ 23 ≤ PHYS_MEM_END → 0 < mr → mr + 304 ≤ phys_to_virt e →
  ∃ s, init_buddy e (bss_bstate mr) = Ok (tt, s) ∧ buddy_ok s ∅ ∧ fresh s ∧
       phys_to_virt e ≤ page_arrry s ∧ start_addr s + size s = phys_to_virt PHYS_MEM_END.
Proof.
  intros He Hroom Hmr Hb. destruct (booted_ok mr e He Hroom Hmr Hb) as (s & Hs & Hok & Hfr & Hst & Hsz & Harr & Hn & Hlk).
  exists s. split_and!; [done|done|done|..]; rewrite ?Hst, ?Hsz, ?Harr.
  all: destruct (layout_ok e) as (Hps & Hpa & Hn0 & Hest & Hfs & Hfa & _); [unfold PHYS_MEM_END in *; lia|].
  all: unfold PHYS_MEM_END in *; rewrite !phys_to_virt_eq by lia; lia.
Qed.

Lemma init_buddy_establishes_witness :
  ∃ s, init_buddy demo_end (bss_bstate demo_mr) = Ok (tt, s) ∧ buddy_ok s ∅ ∧ fresh s ∧
       phys_to_virt demo_end ≤ page_arrry s ∧ start_addr s + size s = phys_to_virt PHYS_MEM_END.
Proof.
  apply (init_buddy_establishes demo_mr demo_end);
    unfold demo_end, demo_mr; [lia|vm_compute; congruence|vm_compute; congruence|vm_compute; congruence].
Defined.

(** Every state reachable from [init_buddy] by a client that returns only
    its own blocks keeps the invariant, and the blocks in the client's hands
    are blocks of pages inside the region, aligned to their size, no two of
    which share an address. *)
Theorem client_blocks_disjoint s0 s U c o c' o' a :
  buddy_ok s0 ∅ → client_reachable s0 s U →
  U !! c = Some o → U !! c' = Some o' → in_block s c o a →
  (start_addr s ≤ a < start_addr s + size s ∧ page_to_virt s (pfn_to_page s c) mod BUDDY_CHUNK_SIZE o = 0) ∧
  (in_block s c' o' a → c' = c).
Proof.
  intros H0 Hr Hc Hc' Ha. destruct (client_reachable_ok _ _ _ H0 Hr) as [Hok _].
  pose proof (used_block _ _ _ _ Hok Hc) as (Hc0 & Ho & Hn & Hal). pose proof (buddy_ok_region _ _ Hok) as HG.
  destruct (block_range _ _ _ _ Hok Hc) as [Hv Hsz]. destruct (block_range _ _ _ _ Hok Hc') as [Hv' Hsz'].
  pose proof (start_vpn HG). pose proof (rg_size _ HG). unfold in_block in *. rewrite Hv, Hsz, ?Hv', ?Hsz' in *.
  split; [split; [lia|]|].
  - rewrite Z.mul_mod_distr_r, Hal by (pose proof (pow2_gt0 o); lia). lia.
  - intros Ha'. destruct (decide (c' = c)) as [|Hne]; [done|].
    destruct (used_blocks_apart _ _ _ _ _ _ Hok Hc' Hc Hne); lia.
Qed.

Lemma client_blocks_disjoint_witness :
  ∃ s0 s c a, client_reachable s0 s {[c := 2]} ∧
    (start_addr s ≤ a < start_addr s + size s ∧ page_to_virt s (pfn_to_page s c) mod BUDDY_CHUNK_SIZE 2 = 0) ∧
    (in_block s c 2 a → c = c).
Proof.
  destruct demo_client as (s0 & s & c & H0 & Hr & Ha). exists s0, s, c, (page_to_virt s (pfn_to_page s c)). split; [exact Hr|].
  exact (client_blocks_disjoint s0 s {[c := 2]} c 2 c 2 _ H0 Hr (lookup_singleton_eq c 2) (lookup_singleton_eq c 2) Ha).
Defined.

(** C38. The statistics are exact: [get_free_pages_nums_from_buddy] and
    [get_free_mem_size_from_buddy] return, without overflow, the pages (bytes)
    of the region that are in no allocated block. *)
Theorem buddy_statistics_exact s U :
  buddy_ok s U →
  get_free_pages_nums_from_buddy s = Ok (page_num s - used_pages U, s) ∧
  get_free_mem_size_from_buddy s = Ok (size s - used_pages U * 2 ^ 12, s) ∧ 0 ≤ used_pages U ≤ page_num s.
Proof.
  intros Hok. pose proof (wp_get_free_pages_nums _ _ Hok) as Hp. pose proof (wp_get_free_mem_size _ _ Hok) as Hm.
  apply wp_inv in Hp as (n & s1 & E1 & -> & ->). apply wp_inv in Hm as (m & s2 & E2 & -> & ->).
  destruct Hok as (C & L & HR & Hh & _ & _ & HU). split_and!; [done|done|by eapply used_pages_nonneg|].
  pose proof (pages_conserved HR Hh HU). pose proof (fsum_bound HR Hh HU). lia.
Qed.

Lemma buddy_statistics_exact_witness :
  ∃ s c, get_free_pages_nums_from_buddy s = Ok (page_num s - used_pages {[c := 2]}, s) ∧
  get_free_mem_size_from_buddy s = Ok (size s - used_pages {[c := 2]} * 2 ^ 12, s) ∧ 0 ≤ used_pages {[c := 2]} ≤ page_num s.
Proof.
  destruct demo_alloc as (s & c & Hok & _). exists s, c. exact (buddy_statistics_exact s {[c := 2]} Hok).
Defined.

(** Page structures and addresses correspond: every address inside page
    [i] of the region is mapped back to the page structure of frame [i], and
    addresses outside the region are mapped to [NULL]. *)
Theorem virt_to_page_inverts s U i r v :
  buddy_ok s U → 0 ≤ i < page_num s → 0 ≤ r < 2 ^ 12 → ¬ (start_addr s ≤ v < start_addr s + size s) →
  virt_to_page s (page_to_virt s (pfn_to_page s i) + r) = pfn_to_page s i ∧ virt_to_page s v = NULL.
Proof.
  intros Hok Hi Hr Hv. pose proof (buddy_ok_region _ _ Hok) as HG. split.
  - rewrite (page_to_virt_frame HG) by lia. by apply virt_to_page_frame.
  - unfold virt_to_page. rewrite (u64_small (start_addr s + size s)) by (destruct HG; lia). repeat case_cmp; try done; lia.
Qed.

Lemma virt_to_page_inverts_witness :
  ∃ s, virt_to_page s (page_to_virt s (pfn_to_page s 5) + 17) = pfn_to_page s 5 ∧ virt_to_page s 0 = NULL.
Proof.
  destruct demo_boot as (s & _ & Hok & _ & Hst & _ & _ & Hn & _). exists s.
  apply (virt_to_page_inverts s ∅ 5 17 0 Hok); [|lia|].
  - rewrite Hn. split; [lia|]. vm_compute. reflexivity.
  - rewrite Hst. intros [H _]. revert H. vm_compute. congruence.
Defined.

(** ** Orders *)
Lemma page_order_loop_ok fuel size o :
  0 ≤ o → size ≤ 2 ^ (12 + o + Z.of_nat fuel) → (o = 0 ∨ 2 ^ (12 + o - 1) < size) →
  let r := page_order_loop fuel size o in
  o ≤ r ≤ o + Z.of_nat fuel ∧ size ≤ 2 ^ (12 + r) ∧ (r = 0 ∨ 2 ^ (12 + r - 1) < size).
Proof.
  revert o. induction fuel as [|fuel IH]; intros o Ho Hsz Hmin; cbn [page_order_loop].
  { replace (12 + o + Z.of_nat 0) with (12 + o) in Hsz by lia. simpl. split_and!; [lia|lia|done|done]. }
  rewrite chunk_size_pow2 by lia. case_cmp as Hc.
  - destruct (IH (o + 1)) as (Hr & Hs & Hm); [lia| |right; by replace (12 + (o + 1) - 1) with (12 + o) by lia|].
    + by replace (12 + (o + 1) + Z.of_nat fuel) with (12 + o + Z.of_nat (S fuel)) by lia.
    + split_and!; [lia|lia|done|done].
  - split_and!; [lia|lia|done|done].
Qed.

Lemma size_to_page_order_spec size :
  (size_to_page_order size = -1 ∧ (size ≤ 0 ∨ BUDDY_CHUNK_SIZE 10 < size)) ∨
  (0 ≤ size_to_page_order size ≤ 10 ∧ 0 < size ≤ BUDDY_CHUNK_SIZE (size_to_page_order size) ∧
   ∀ k, 0 ≤ k < size_to_page_order size → BUDDY_CHUNK_SIZE k < size).
Proof.
  unfold size_to_page_order, BUDDY_MAX_ORDER. rewrite !(chunk_size_pow2 10) by lia. change (11 - 1) with 10.
  rewrite (chunk_size_pow2 10) by lia. case_cmp as H1; cbn [orb]; [left; lia|]. case_cmp as H2; cbn [orb]; [left; lia|].
  right. destruct (page_order_loop_ok 11 size 0) as (Hr & Hs & Hm); [lia| |by left|].
  { change (2 ^ (12 + 0 + Z.of_nat 11)) with (2 ^ 23). lia. }
  set (r := page_order_loop 11 size 0) in *. assert (r ≤ 10).
  { destruct (Z_le_dec r 10); [done|]. destruct Hm; [lia|]. pose proof (pow2_le (12 + 10) (12 + r - 1)). lia. }
  rewrite chunk_size_pow2 by lia. split_and!; [lia|lia|lia|done|].
  intros k Hk. rewrite chunk_size_pow2 by lia. destruct Hm as [?|Hm]; [lia|]. pose proof (pow2_le (12 + k) (12 + r - 1)). lia.
Qed.

(** [size_to_page_order] is the least order whose chunk holds [size]
    bytes, and -1 exactly for the sizes no chunk can hold. *)
Theorem size_to_page_order_least size :
  (size_to_page_order size = -1 ∧ (size ≤ 0 ∨ BUDDY_CHUNK_SIZE 10 < size)) ∨
  (0 ≤ size_to_page_order size ≤ 10 ∧ 0 < size ≤ BUDDY_CHUNK_SIZE (size_to_page_order size) ∧
   ∀ k, 0 ≤ k < size_to_page_order size → BUDDY_CHUNK_SIZE k < size).
Proof. apply size_to_page_order_spec. Qed.

(** ** Where [init_buddy] goes wrong *)

(** C40. When less than 4 MB of pages is left above the kernel image,
    [init_buddy] stores through the null pointer: the region then has no page
    on a 4 MB boundary, [virt_to_page] answers [NULL], and the guard of
    [populate_page] that was meant for this case does not hold for [NULL]. *)
Theorem init_buddy_small_memory_faults mr e :
  0 < mr → mr + 304 ≤ phys_to_virt e → PHYS_MEM_END - 2 ^ 22 < e ≤ PHYS_MEM_END - 2 ^ 12 →
  init_buddy e (bss_bstate mr) = Halt HFault.
Proof.
  intros Hmr Hb He. unfold PHYS_MEM_END in *. apply init_buddy_fault; unfold PHYS_MEM_END; [lia|done|done|].
  destruct (layout_ok e) as (Hps & Hpa & Hn0 & Hest & Hfs & Hfa & Hn); unfold PHYS_MEM_END in *; lia.
Qed.

Lemma init_buddy_small_memory_faults_witness :
  init_buddy (PHYS_MEM_END - 2 ^ 21) (bss_bstate demo_mr) = Halt HFault.
Proof.
  apply (init_buddy_small_memory_faults demo_mr (PHYS_MEM_END - 2 ^ 21)); [vm_compute; reflexivity|vm_compute; congruence|].
  unfold PHYS_MEM_END. lia.
Defined.

(** The page array stays below the first page it describes, except when
    the number of available pages is 1 modulo 129: then its last entry, the
    [struct page] of the last page of memory, occupies the first 32 bytes of
    the first page handed out. *)
Theorem page_array_overlap mr e :
  0 < e → e + 2 ^ 23 ≤ PHYS_MEM_END → 0 < mr → mr + 304 ≤ phys_to_virt e →
  ∃ s, init_buddy e (bss_bstate mr) = Ok (tt, s) ∧
    let pages_avail := (PHYS_MEM_END - ROUND_UP e PAGE_SIZE) / PAGE_SIZE in
    let array_end := page_arrry s + page_num s * sizeof_page in
    (array_end ≤ start_addr s ∧ pages_avail mod 129 ≠ 1) ∨
    (array_end = start_addr s + sizeof_page ∧ pages_avail mod 129 = 1).
Proof.
  intros He Hroom Hmr Hb. destruct (booted_ok mr e He Hroom Hmr Hb) as (s & Hs & _ & _ & Hst & _ & Harr & Hn & _).
  exists s. split; [done|]. cbv zeta. rewrite Hst, Harr, Hn. change (ROUND_UP e PAGE_SIZE) with (phys_start e).
  assert (0 < e ≤ PHYS_MEM_END - 2 ^ 12) as He' by (unfold PHYS_MEM_END in *; lia).
  destruct (layout_ok e He') as (Hps & _ & Hn0 & Hest & Hfs & _). unfold PHYS_MEM_END in *.
  rewrite !phys_to_virt_eq by lia. pose proof (array_end e He') as Ha. cbv zeta in Ha. unfold PHYS_MEM_END in Ha. lia.
Qed.

Lemma page_array_overlap_witness :
  ∃ s, init_buddy (176 * 2 ^ 12) (bss_bstate (phys_to_virt (2 ^ 19))) = Ok (tt, s) ∧
    let pages_avail := (PHYS_MEM_END - ROUND_UP (176 * 2 ^ 12) PAGE_SIZE) / PAGE_SIZE in
    let array_end := page_arrry s + page_num s * sizeof_page in
    (array_end ≤ start_addr s ∧ pages_avail mod 129 ≠ 1) ∨
    (array_end = start_addr s + sizeof_page ∧ pages_avail mod 129 = 1).
Proof.
  apply (page_array_overlap (phys_to_virt (2 ^ 19)) (176 * 2 ^ 12)); [lia|vm_compute; congruence|vm_compute; reflexivity|vm_compute; congruence].
Defined.
