(* ===== verification/PageTable.v ===== *)
(** * Page tables: [arch/aarch64/mm/page_table.c], [arch/mm/page_table.h]

    A page table page is 512 64-bit entries in the store [mem] (address of the
    entry to its value).  The bit fields of [pte_t] are [get_field] and
    [set_field] at their offsets.  Page table pages come from [get_pages(0)],
    the operation of the interface [PageSource]; [Kmalloc] provides the
    instance on the buddy allocator. *)

From S2P Require Import Prelude Macro.

(** ** Bit fields *)
Definition get_field (lo w e : Z) : Z := Z.land (Z.shiftr e lo) (Z.ones w).
Definition set_field (lo w v e : Z) : Z :=
  Z.lor (Z.ldiff e (Z.shiftl (Z.ones w) lo)) (Z.shiftl (Z.land v (Z.ones w)) lo).

(** ** Constants of page_table.h and memory.h *)
Definition INNER_SHAREABLE : Z := 3.
Definition NORMAL_MEMORY : Z := 4.
Definition NORMAL_MEMORY_NOCACHE : Z := 3.
Definition DEVICE_MEMORY : Z := 0.
Definition AARCH64_MMU_ATTR_PAGE_AP_HIGH_RW_EL0_RW : Z := 1.
Definition AARCH64_MMU_ATTR_PAGE_AP_HIGH_RO_EL0_RO : Z := 3.
Definition AARCH64_MMU_ATTR_PAGE_UXN : Z := 1.
Definition AARCH64_MMU_ATTR_PAGE_PXN : Z := 1.
Definition AARCH64_MMU_ATTR_PAGE_AF_ACCESSED : Z := 1.
Definition AARCH64_MMU_PTE_INVALID_MASK : Z := Z.shiftl 1 0.
Definition AARCH64_MMU_PTE_TABLE_MASK : Z := Z.shiftl 1 1.
Definition IS_PTE_INVALID (pte : Z) : bool := Z.land pte AARCH64_MMU_PTE_INVALID_MASK =? 0.
Definition IS_PTE_TABLE (pte : Z) : bool := negb (Z.land pte AARCH64_MMU_PTE_TABLE_MASK =? 0).
Definition PAGE_ORDER : Z := 9.
Definition PTP_INDEX_MASK : Z := Z.shiftl 1 PAGE_ORDER - 1.
Definition L0_INDEX_SHIFT : Z := 3 * PAGE_ORDER + PAGE_SHIFT.
Definition L1_INDEX_SHIFT : Z := 2 * PAGE_ORDER + PAGE_SHIFT.
Definition L2_INDEX_SHIFT : Z := 1 * PAGE_ORDER + PAGE_SHIFT.
Definition L3_INDEX_SHIFT : Z := 0 * PAGE_ORDER + PAGE_SHIFT.
Definition GET_L0_INDEX (addr : Z) : Z := Z.land (Z.shiftr addr L0_INDEX_SHIFT) PTP_INDEX_MASK.
Definition GET_L1_INDEX (addr : Z) : Z := Z.land (Z.shiftr addr L1_INDEX_SHIFT) PTP_INDEX_MASK.
Definition GET_L2_INDEX (addr : Z) : Z := Z.land (Z.shiftr addr L2_INDEX_SHIFT) PTP_INDEX_MASK.
Definition GET_L3_INDEX (addr : Z) : Z := Z.land (Z.shiftr addr L3_INDEX_SHIFT) PTP_INDEX_MASK.
Definition PTP_ENTRIES : Z := Z.shiftl 1 PAGE_ORDER.
Definition L3_PER_ENTRY_PAGES : Z := 1.
Definition L2_PER_ENTRY_PAGES : Z := PTP_ENTRIES * L3_PER_ENTRY_PAGES.
Definition L1_PER_ENTRY_PAGES : Z := PTP_ENTRIES * L2_PER_ENTRY_PAGES.
Definition L1_BLOCK_MASK : Z := Z.shiftl L1_PER_ENTRY_PAGES PAGE_SHIFT - 1.
Definition L2_BLOCK_MASK : Z := Z.shiftl L2_PER_ENTRY_PAGES PAGE_SHIFT - 1.
Definition L3_PAGE_MASK : Z := Z.shiftl L3_PER_ENTRY_PAGES PAGE_SHIFT - 1.
Definition GET_VA_OFFSET_L1 (va : Z) : Z := Z.land va L1_BLOCK_MASK.
Definition GET_VA_OFFSET_L2 (va : Z) : Z := Z.land va L2_BLOCK_MASK.
Definition GET_VA_OFFSET_L3 (va : Z) : Z := Z.land va L3_PAGE_MASK.

Definition VMR_READ : Z := Z.shiftl 1 0.
Definition VMR_WRITE : Z := Z.shiftl 1 1.
Definition VMR_EXEC : Z := Z.shiftl 1 2.
Definition VMR_DEVICE : Z := Z.shiftl 1 3.
Definition VMR_NOCACHE : Z := Z.shiftl 1 4.
Definition VMR_COW : Z := Z.shiftl 1 5.
(** [flags & bit], as a condition *)
Definition has_flag (flags bit : Z) : bool := negb (Z.land flags bit =? 0).

(** The fields of [pte_t] that the code reads or writes: bit offset and width. *)
Module pte.
Definition table_is_valid := set_field 0 1.
Definition table_is_table := set_field 1 1.
Definition table_next_table_addr := set_field 12 36.
Definition l3_is_valid := set_field 0 1.
Definition l3_is_page := set_field 1 1.
Definition l3_attr_index := set_field 2 3.
Definition l3_AP := set_field 6 2.
Definition l3_SH := set_field 8 2.
Definition l3_AF := set_field 10 1.
Definition l3_nG := set_field 11 1.
Definition l3_pfn := set_field 12 36.
Definition l3_PXN := set_field 53 1.
Definition l3_UXN := set_field 54 1.
End pte.

Definition vmr_prot_to_ap (prot : Z) : Z :=
  if has_flag prot VMR_READ && negb (has_flag prot VMR_WRITE) then AARCH64_MMU_ATTR_PAGE_AP_HIGH_RO_EL0_RO
  else if has_flag prot VMR_WRITE then AARCH64_MMU_ATTR_PAGE_AP_HIGH_RW_EL0_RW
  else 0.

Definition ap_to_vmr_prot (ap : Z) : Z :=
  if ap =? AARCH64_MMU_ATTR_PAGE_AP_HIGH_RO_EL0_RO then VMR_READ
  else if ap =? AARCH64_MMU_ATTR_PAGE_AP_HIGH_RW_EL0_RW then Z.lor VMR_READ VMR_WRITE
  else 0.

(** [USER_PTE] and [KERNEL_PTE]; [set_pte_flags] stops on any other kind. *)
Definition USER_PTE : Z := 0.
Definition KERNEL_PTE : Z := 1.

(** The assignments of [set_pte_flags], in order. *)
Definition pte_flags (entry flags kind : Z) : Z :=
  let entry := pte.l3_AP (vmr_prot_to_ap flags) entry in
  let entry :=
    if kind =? KERNEL_PTE then
      let entry := if negb (has_flag flags VMR_EXEC) then pte.l3_PXN AARCH64_MMU_ATTR_PAGE_PXN entry else entry in
      pte.l3_UXN AARCH64_MMU_ATTR_PAGE_UXN entry
    else
      let entry := if negb (has_flag flags VMR_EXEC) then pte.l3_UXN AARCH64_MMU_ATTR_PAGE_UXN entry else entry in
      pte.l3_PXN AARCH64_MMU_ATTR_PAGE_PXN entry in
  let entry := pte.l3_AF AARCH64_MMU_ATTR_PAGE_AF_ACCESSED entry in
  let entry := pte.l3_nG 1 entry in
  let entry := pte.l3_SH INNER_SHAREABLE entry in
  if has_flag flags VMR_DEVICE then pte.l3_SH 0 (pte.l3_attr_index DEVICE_MEMORY entry)
  else if has_flag flags VMR_NOCACHE then pte.l3_attr_index NORMAL_MEMORY_NOCACHE entry
  else pte.l3_attr_index NORMAL_MEMORY entry.

Definition set_pte_flags {S} (entry flags kind : Z) : M S Z :=
  BUG_ON (negb (kind =? USER_PTE) && negb (kind =? KERNEL_PTE)) ;;
  mret (pte_flags entry flags kind).

(** ** Where page table pages come from *)

(** A page the kernel can reach through the direct map. *)
Definition direct_page (p : Z) : Prop := p mod 2 ^ 12 = 0 ∧ KBASE ≤ p < KBASE + 2 ^ 40.

(** [get_pages] on a state [S]: [ps_ok s H n] says that the pages [H] are in use
    and that at least [n] more pages can be had; a call returns a page of the
    direct map that is not in use, or [NULL] when no page is guaranteed. *)
Class PageSource (S : Type) := {
  ps_get_pages : Z → M S Z;
  ps_ok : S → gset Z → nat → Prop;
  ps_get_page_spec : ∀ s H n, ps_ok s H n →
    wp (ps_get_pages 0) s (λ p s',
      (p = NULL ∧ n = O ∧ ps_ok s' H O) ∨ (p ∉ H ∧ direct_page p ∧ ps_ok s' ({[p]} ∪ H) (Nat.pred n)));
  ps_weaken : ∀ s H n n', ps_ok s H n → (n' ≤ n)%nat → ps_ok s H n'
}.

(** ** The page table code *)
Section code.
Context {A : Type} `{!PageSource A}.

(** [rss] is the value behind the [long *rss] argument, [None] for [NULL]. *)
Record ptstate : Type := mk_pt { src : A; mem : gmap Z Z; rss : option Z }.

Definition set_src (a : A) (s : ptstate) : ptstate := mk_pt a (mem s) (rss s).
Definition set_mem (m : gmap Z Z) (s : ptstate) : ptstate := mk_pt (src s) m (rss s).
Definition set_rss (r : option Z) (s : ptstate) : ptstate := mk_pt (src s) (mem s) r.

Definition ld_ent (a : Z) : M ptstate Z := load (λ s, mem s !! a).
Definition st_ent (a v : Z) : M ptstate unit := ld_ent a ;; modify (λ s, set_mem (<[a := v]> (mem s)) s).
Definition pt_get_pages (order : Z) : M ptstate Z := zoom src set_src (ps_get_pages order).

(** [memset(p, 0, PAGE_SIZE)], entry by entry *)
Definition zero_page (p : Z) : gmap Z Z := list_to_map ((λ i, (p + 8 * i, 0)) <$> seqZ 0 512).
Definition memset_page (p : Z) : M ptstate unit := modify (λ s, set_mem (zero_page p ∪ mem s) s).

(** [if (rss) *rss += PAGE_SIZE;] *)
Definition add_rss : M ptstate unit := modify (λ s, set_rss ((λ r, s64 (r + PAGE_SIZE)) <$> rss s) s).

Definition GET_PADDR_IN_PTE (entry : Z) : Z := u64 (Z.shiftl (get_field 12 36 entry) PAGE_SHIFT).
Definition GET_NEXT_PTP (entry : Z) : Z := phys_to_virt (GET_PADDR_IN_PTE entry).

Definition NORMAL_PTP : Z := 0.
Definition BLOCK_PTP : Z := 1.

Definition table_pte (ptp_paddr : Z) : Z :=
  pte.table_next_table_addr (Z.shiftr ptp_paddr PAGE_SHIFT) (pte.table_is_table 1 (pte.table_is_valid 1 0)).

(** A negative return value is [inl]; otherwise the kind of the entry, [*next_ptp] and [*pte]. *)
Definition get_next_ptp (cur_ptp level va : Z) (alloc : bool) : M ptstate (Z + Z * Z * Z) :=
  if cur_ptp =? NULL then mret (inl (- ENOMEM))
  else
    index ← (if level =? 0 then mret (GET_L0_INDEX va)
             else if level =? 1 then mret (GET_L1_INDEX va)
             else if level =? 2 then mret (GET_L2_INDEX va)
             else if level =? 3 then mret (GET_L3_INDEX va)
             else stop HBug);
    let entry := cur_ptp + 8 * index in
    e ← ld_ent entry;
    r ← (if IS_PTE_INVALID e then
           if negb alloc then mret false
           else
             new_ptp ← pt_get_pages 0;
             if new_ptp =? NULL then mret false
             else
               memset_page new_ptp ;;
               add_rss ;;
               st_ent entry (table_pte (virt_to_phys new_ptp)) ;;
               mret true
         else mret true);
    if negb r then mret (inl (- ENOMEM))
    else
      e ← ld_ent entry;
      mret (inr (if IS_PTE_TABLE e then NORMAL_PTP else BLOCK_PTP, GET_NEXT_PTP e, entry)).

(** [query_in_pgtbl]: [inl] is the negative return value, [inr (pa, entry)] success. *)
Definition query_in_pgtbl (pgtbl va : Z) : M ptstate (Z + Z * Z) :=
  r0 ← get_next_ptp pgtbl 0 va false;
  match r0 with
  | inl e => mret (inl e)
  | inr (_, l1_ptp, _) =>
    r1 ← get_next_ptp l1_ptp 1 va false;
    match r1 with
    | inl e => mret (inl e)
    | inr (ret, l2_ptp, pte) =>
      if ret =? BLOCK_PTP then mret (inr (u64 (virt_to_phys l2_ptp + GET_VA_OFFSET_L1 va), pte))
      else
        r2 ← get_next_ptp l2_ptp 2 va false;
        match r2 with
        | inl e => mret (inl e)
        | inr (ret, l3_ptp, pte) =>
          if ret =? BLOCK_PTP then mret (inr (u64 (virt_to_phys l3_ptp + GET_VA_OFFSET_L2 va), pte))
          else
            r3 ← get_next_ptp l3_ptp 3 va false;
            match r3 with
            | inl e => mret (inl e)
            | inr (_, phys_page, pte) => mret (inr (u64 (virt_to_phys phys_page + GET_VA_OFFSET_L3 va), pte))
            end
        end
    end
  end.

(** [BUG_ON(ret != 0)] after a step of the walk; the next table otherwise. *)
Definition must_table (r : Z + Z * Z * Z) : M ptstate Z :=
  match r with
  | inl _ => stop HBug
  | inr (ret, next, _) => BUG_ON (negb (ret =? 0)) ;; mret next
  end.

(** The entry before its flags are set. *)
Definition l3_base (pa : Z) : Z :=
  pte.l3_pfn (Z.shiftr pa PAGE_SHIFT) (pte.l3_is_page 1 (pte.l3_is_valid 1 0)).

(** The loop over one L3 table: from entry [i] until the table or the range ends. *)
Fixpoint map_l3 (fuel : nat) (l3_ptp i va pa cnt flags kind : Z) : M ptstate (Z * Z * Z) :=
  match fuel with
  | O => mret (va, pa, cnt)
  | S fuel' =>
      v ← set_pte_flags (l3_base pa) flags kind;
      st_ent (l3_ptp + 8 * i) v ;;
      add_rss ;;
      let va := u64 (va + PAGE_SIZE) in
      let pa := u64 (pa + PAGE_SIZE) in
      let cnt := cnt - 1 in
      if cnt =? 0 then mret (va, pa, cnt)
      else map_l3 fuel' l3_ptp (i + 1) va pa cnt flags kind
  end.

(** The [while (total_page_cnt > 0)] loop: one L3 table per round. *)
Fixpoint map_tables (fuel : nat) (l0_ptp va pa cnt flags kind : Z) : M ptstate unit :=
  match fuel with
  | O => stop HFuel
  | S fuel' =>
      if cnt >? 0 then
        r ← get_next_ptp l0_ptp 0 va true; l1_ptp ← must_table r;
        r ← get_next_ptp l1_ptp 1 va true; l2_ptp ← must_table r;
        r ← get_next_ptp l2_ptp 2 va true; l3_ptp ← must_table r;
        let pte_index := GET_L3_INDEX va in
        x ← map_l3 (Z.to_nat (PTP_ENTRIES - pte_index)) l3_ptp pte_index va pa cnt flags kind;
        let '(va, pa, cnt) := x in
        map_tables fuel' l0_ptp va pa cnt flags kind
      else mret tt
  end.

Definition map_range_in_pgtbl_common (pgtbl va pa len flags kind : Z) : M ptstate Z :=
  BUG_ON (pgtbl =? NULL) ;;
  BUG_ON (negb (va mod PAGE_SIZE =? 0)) ;;
  let total_page_cnt := len / PAGE_SIZE + (if len mod PAGE_SIZE >? 0 then 1 else 0) in
  map_tables (Datatypes.S (Z.to_nat total_page_cnt)) pgtbl va pa total_page_cnt flags kind ;;
  mret 0.

Definition map_range_in_pgtbl_kernel (pgtbl va pa len flags : Z) : M ptstate Z :=
  saved ← gets rss;
  modify (set_rss None) ;;
  r ← map_range_in_pgtbl_common pgtbl va pa len flags KERNEL_PTE;
  modify (set_rss saved) ;;
  mret r.

Definition map_range_in_pgtbl_user (pgtbl va pa len flags : Z) : M ptstate Z :=
  map_range_in_pgtbl_common pgtbl va pa len flags USER_PTE.
End code.
Arguments ptstate A : clear implicits.
