(* ===== verification/PageTableInv.v ===== *)
(** * Page tables form a tree

    [pt_ok] is the invariant of a page table in memory: a ghost map [T] gives
    every table page its level and the prefix of the page numbers it serves.
    [walk] is the translation that [query_in_pgtbl] performs ([Mmu] relates it to
    that of the hardware).  The lemmas
    show what the two stores of the mapping code (a link to a fresh table, an L3
    entry) do to all walks at once. *)

From S2P Require Import Prelude Macro PageTable.

(** ** Bit fields *)
Section fields.
Implicit Types (lo w v e i : Z).

Lemma testbit_set_field lo w v e i : 0 ≤ lo → 0 ≤ w → 0 ≤ i →
  Z.testbit (set_field lo w v e) i =
  if decide (lo ≤ i < lo + w) then Z.testbit v (i - lo) else Z.testbit e i.
Proof.
  intros Hlo Hw Hi. unfold set_field. rewrite Z.lor_spec, Z.ldiff_spec, !Z.shiftl_spec by done.
  destruct (Z_lt_dec (i - lo) 0) as [Hneg|Hpos].
  - rewrite !(Z.testbit_neg_r _ (i - lo)) by done. rewrite decide_False by lia.
    by rewrite orb_false_r, andb_true_r.
  - rewrite Z.land_spec, !Z.testbit_ones_nonneg by lia. case_decide.
    + rewrite (proj2 (Z.ltb_lt (i - lo) w)) by lia. by rewrite andb_true_r, andb_false_r.
    + rewrite (proj2 (Z.ltb_ge (i - lo) w)) by lia. by rewrite andb_false_r, orb_false_r, andb_true_r.
Qed.

Lemma testbit_get_field lo w e i : 0 ≤ lo → 0 ≤ w → 0 ≤ i →
  Z.testbit (get_field lo w e) i = (i <? w) && Z.testbit e (i + lo).
Proof.
  intros. unfold get_field. rewrite Z.land_spec, Z.shiftr_spec, Z.testbit_ones_nonneg by lia. apply andb_comm.
Qed.

Lemma get_set_same lo w v e : 0 ≤ lo → 0 ≤ w → get_field lo w (set_field lo w v e) = v mod 2 ^ w.
Proof.
  intros Hlo Hw. apply Z.bits_inj'. intros i Hi. rewrite testbit_get_field, testbit_set_field by lia.
  case_cmp as Hiw.
  - rewrite decide_True by lia. rewrite Z.mod_pow2_bits_low by lia. simpl. f_equal. lia.
  - rewrite Z.mod_pow2_bits_high by lia. done.
Qed.

Lemma get_set_other lo w lo' w' v e : 0 ≤ lo → 0 ≤ w → 0 ≤ lo' → 0 ≤ w' →
  lo + w ≤ lo' ∨ lo' + w' ≤ lo → get_field lo w (set_field lo' w' v e) = get_field lo w e.
Proof.
  intros Hlo Hw Hlo' Hw' Hd. apply Z.bits_inj'. intros i Hi. rewrite !testbit_get_field by done.
  case_cmp as Hiw; [|done]. rewrite testbit_set_field by lia. by rewrite decide_False by lia.
Qed.

Lemma land_pow2 e k : 0 ≤ k → Z.land e (Z.shiftl 1 k) =? 0 = negb (Z.testbit e k).
Proof.
  intros Hk. rewrite Z.shiftl_1_l. destruct (Z.testbit e k) eqn:Et; simpl.
  - apply Z.eqb_neq. intros H0. assert (Z.testbit (Z.land e (2 ^ k)) k = true) as Ht.
    { by rewrite Z.land_spec, Et, Z.pow2_bits_true. }
    by rewrite H0, Z.bits_0 in Ht.
  - apply Z.eqb_eq. apply Z.bits_inj'. intros i Hi. rewrite Z.land_spec, Z.pow2_bits_eqb, Z.bits_0 by done.
    case_cmp as Hik; [subst; by rewrite Et|by rewrite andb_false_r].
Qed.

Lemma IS_PTE_INVALID_bit e : IS_PTE_INVALID e = negb (Z.testbit e 0).
Proof. by apply land_pow2. Qed.

Lemma IS_PTE_TABLE_bit e : IS_PTE_TABLE e = Z.testbit e 1.
Proof. unfold IS_PTE_TABLE. unfold AARCH64_MMU_PTE_TABLE_MASK. rewrite land_pow2 by done. apply negb_involutive. Qed.
End fields.

(** ** Indices *)
Definition idx (l vpn : Z) : Z := (vpn / 2 ^ (9 * (3 - l))) mod 2 ^ 9.
(** The part of a page number above level [l]. *)
Definition prefix (l vpn : Z) : Z := (vpn / 2 ^ (9 * (4 - l))).

Lemma idx_range l vpn : 0 ≤ idx l vpn < 512.
Proof. unfold idx. apply (Z.mod_pos_bound _ (2 ^ 9)). lia. Qed.

Lemma prefix_succ l vpn : 0 ≤ l ≤ 3 → prefix (l + 1) vpn = prefix l vpn * 2 ^ 9 + idx l vpn.
Proof.
  intros Hl. unfold prefix, idx. replace (4 - (l + 1)) with (3 - l) by lia.
  replace (9 * (4 - l)) with (9 * (3 - l) + 9) by lia. rewrite Z.pow_add_r, <- Z.div_div by (pose proof (pow2_gt0 (9 * (3 - l))); lia).
  pose proof (Z.div_mod (vpn / 2 ^ (9 * (3 - l))) (2 ^ 9)). lia.
Qed.

Lemma same_page vpn vpn' : prefix 3 vpn = prefix 3 vpn' → idx 3 vpn = idx 3 vpn' → vpn = vpn'.
Proof.
  intros Hp Hi. pose proof (prefix_succ 3 vpn ltac:(lia)) as H1. pose proof (prefix_succ 3 vpn' ltac:(lia)) as H2.
  assert (∀ v, prefix (3 + 1) v = v) as H4 by (intros v; unfold prefix; apply Z.div_1_r). rewrite H4 in H1, H2. congruence.
Qed.

(** The page number a 48-bit table walk sees. *)
Definition vpn_of (va : Z) : Z := (va / 2 ^ 12) mod 2 ^ 36.

Lemma vpn_range va : 0 ≤ vpn_of va < 2 ^ 36.
Proof. apply Z.mod_pos_bound. lia. Qed.

Lemma vpn_u64 va : vpn_of (u64 va) = vpn_of va.
Proof.
  unfold vpn_of, u64. pose proof (Z.div_mod va (2 ^ 64) ltac:(lia)) as Hd.
  rewrite Hd at 2. replace (2 ^ 64 * (va / 2 ^ 64) + va mod 2 ^ 64) with (va mod 2 ^ 64 + (va / 2 ^ 64 * 2 ^ 52) * 2 ^ 12) by lia.
  rewrite Z.div_add by lia. replace (va / 2 ^ 64 * 2 ^ 52) with (va / 2 ^ 64 * 2 ^ 16 * 2 ^ 36) by lia. by rewrite Z.mod_add by lia.
Qed.

Lemma vpn_next va : vpn_of va + 1 < 2 ^ 36 → vpn_of (va + 2 ^ 12) = vpn_of va + 1.
Proof.
  unfold vpn_of. intros Hlt. replace (va + 2 ^ 12) with (va + 1 * 2 ^ 12) by lia. rewrite Z.div_add by lia.
  pose proof (Z.mod_pos_bound (va / 2 ^ 12) (2 ^ 36)). rewrite <- Z.add_mod_idemp_l by lia. apply Z.mod_small. lia.
Qed.

Lemma get_index va k : 0 ≤ k ≤ 3 →
  Z.land (Z.shiftr va ((3 - k) * PAGE_ORDER + PAGE_SHIFT)) PTP_INDEX_MASK = idx k (vpn_of va).
Proof.
  intros Hk. change PTP_INDEX_MASK with (2 ^ 9 - 1). unfold PAGE_ORDER, PAGE_SHIFT. rewrite land_ones_mod by lia.
  rewrite Z.shiftr_div_pow2 by lia. unfold idx, vpn_of.
  replace ((3 - k) * 9 + 12) with (12 + 9 * (3 - k)) by lia. rewrite Z.pow_add_r, <- Z.div_div by (pose proof (pow2_gt0 (9 * (3 - k))); lia).
  set (v := va / 2 ^ 12). set (a := 9 * (3 - k)). pose proof (pow2_gt0 a ltac:(lia)) as Ha.
  rewrite (Z.div_mod v (2 ^ 36)) at 1 by lia. replace (2 ^ 36) with (2 ^ (36 - a - 9) * 2 ^ 9 * 2 ^ a) at 1.
  2: { rewrite <- !Z.pow_add_r by lia. f_equal. lia. }
  replace (2 ^ (36 - a - 9) * 2 ^ 9 * 2 ^ a * (v / 2 ^ 36)) with (2 ^ (36 - a - 9) * (v / 2 ^ 36) * 2 ^ 9 * 2 ^ a) by lia.
  rewrite Z.div_add_l, Z.add_comm, Z.mod_add by lia. done.
Qed.

Lemma va_offset va k : 0 ≤ k → Z.land va (Z.shiftl (2 ^ k) PAGE_SHIFT - 1) = va mod 2 ^ (12 + k).
Proof.
  intros Hk. unfold PAGE_SHIFT. rewrite Z.shiftl_mul_pow2, <- Z.pow_add_r by lia. rewrite Z.add_comm. apply land_ones_mod. lia.
Qed.

(** ** Entries that point to a page of the direct map *)
Lemma next_ptp_table q : direct_page q →
  GET_NEXT_PTP (table_pte (virt_to_phys q)) = q ∧
  Z.testbit (table_pte (virt_to_phys q)) 0 = true ∧ Z.testbit (table_pte (virt_to_phys q)) 1 = true.
Proof.
  intros [Hal Hr]. unfold table_pte, pte.table_next_table_addr, pte.table_is_table, pte.table_is_valid.
  split; [|split; rewrite testbit_set_field, decide_False by lia; by vm_compute].
  unfold GET_NEXT_PTP, GET_PADDR_IN_PTE, PAGE_SHIFT. rewrite get_set_same by lia.
  unfold KBASE in *. rewrite virt_to_phys_eq by (unfold KBASE; lia). unfold KBASE.
  rewrite Z.shiftr_div_pow2, Z.shiftl_mul_pow2 by lia.
  assert ((q - 0xFFFFFF0000000000) mod 2 ^ 12 = 0) as Hal' by (rewrite Zminus_mod, Hal; done).
  set (x := q - 0xFFFFFF0000000000) in *. assert (0 ≤ x < 2 ^ 40) by lia.
  rewrite (Z.mod_small (x / 2 ^ 12)).
  2: { split; [apply Z.div_pos; lia|]. apply Z.div_lt_upper_bound; lia. }
  rewrite div_mul_aligned by (done || lia). rewrite u64_small by lia. rewrite phys_to_virt_eq by done. unfold KBASE. lia.
Qed.

(** ** Walks *)
Fixpoint walk (n : nat) (m : gmap Z Z) (p l vpn : Z) : option (Z * Z * Z) :=
  let a := p + 8 * idx l vpn in
  match m !! a with
  | None => None
  | Some e =>
      if IS_PTE_INVALID e then None
      else match n with
           | O => Some (l, a, e)
           | S n' => if IS_PTE_TABLE e then walk n' m (GET_NEXT_PTP e) (l + 1) vpn else Some (l, a, e)
           end
  end.

(** The page table at [root], its table pages [T] (page to level and prefix),
    all of them among the pages [H] in use. *)
Record pt_ok (m : gmap Z Z) (root : Z) (T : gmap Z (Z * Z)) (H : gset Z) : Prop := {
  po_root : T !! root = Some (0, 0);
  po_page : ∀ p l pre, T !! p = Some (l, pre) → direct_page p ∧ p ∈ H ∧ 0 ≤ l ≤ 3;
  po_mem : ∀ p l pre i, T !! p = Some (l, pre) → 0 ≤ i < 512 → is_Some (m !! (p + 8 * i));
  po_next : ∀ p l pre i e, T !! p = Some (l, pre) → l < 3 → 0 ≤ i < 512 → m !! (p + 8 * i) = Some e →
            IS_PTE_INVALID e = false → IS_PTE_TABLE e = true → T !! GET_NEXT_PTP e = Some (l + 1, pre * 2 ^ 9 + i);
  po_l0 : ∀ p pre i e, T !! p = Some (0, pre) → 0 ≤ i < 512 → m !! (p + 8 * i) = Some e →
          IS_PTE_INVALID e = false → IS_PTE_TABLE e = true
}.

(** Entries of different table pages are at different addresses. *)
Lemma entry_inj p q i j : direct_page p → direct_page q → 0 ≤ i < 512 → 0 ≤ j < 512 →
  p + 8 * i = q + 8 * j → p = q ∧ i = j.
Proof.
  intros [Hp _] [Hq _] Hi Hj Heq. apply Z.mod_divide in Hp as [a Ha]; [|lia]. apply Z.mod_divide in Hq as [b Hb]; [|lia]. lia.
Qed.

(** The page at [q] with entry [i] holding [f i]. *)
Definition page_mem (q : Z) (f : Z → Z) : gmap Z Z := list_to_map ((λ i, (q + 8 * i, f i)) <$> seqZ 0 512).

Lemma lookup_page_mem q f i : 0 ≤ i < 512 → page_mem q f !! (q + 8 * i) = Some (f i).
Proof.
  intros Hi. unfold page_mem. apply elem_of_list_to_map_1'.
  - intros y Hy. apply list_elem_of_fmap in Hy as (j & [= Ej ->] & _). f_equal. lia.
  - apply list_elem_of_fmap. exists i. split; [done|]. apply elem_of_seqZ. lia.
Qed.

Lemma lookup_page_mem_other q f p i : direct_page p → direct_page q → p ≠ q → 0 ≤ i < 512 → page_mem q f !! (p + 8 * i) = None.
Proof.
  intros Hp Hq Hne Hi. apply not_elem_of_list_to_map. rewrite <- list_fmap_compose.
  intros (j & Ej & Hj)%list_elem_of_fmap. apply elem_of_seqZ in Hj. simpl in Ej.
  by destruct (entry_inj p q i j Hp Hq Hi) as [? _]; [lia|lia|].
Qed.

Lemma lookup_zero_page q i : 0 ≤ i < 512 → zero_page q !! (q + 8 * i) = Some 0.
Proof. apply (lookup_page_mem q (λ _, 0)). Qed.

Lemma lookup_zero_page_other q p i : direct_page p → direct_page q → p ≠ q → 0 ≤ i < 512 → zero_page q !! (p + 8 * i) = None.
Proof. apply (lookup_page_mem_other q (λ _, 0)). Qed.

(** The table page reached after [k] steps from the root. *)
Fixpoint desc (k : nat) (m : gmap Z Z) (root vpn : Z) : option Z :=
  match k with
  | O => Some root
  | S k' =>
      p ← desc k' m root vpn;
      e ← m !! (p + 8 * idx (Z.of_nat k') vpn);
      if negb (IS_PTE_INVALID e) && IS_PTE_TABLE e then Some (GET_NEXT_PTP e) else None
  end.

Lemma desc_inv k m root vpn r : desc (S k) m root vpn = Some r → ∃ p e,
  desc k m root vpn = Some p ∧ m !! (p + 8 * idx (Z.of_nat k) vpn) = Some e ∧
  IS_PTE_INVALID e = false ∧ IS_PTE_TABLE e = true ∧ r = GET_NEXT_PTP e.
Proof.
  cbn [desc]. destruct (desc k m root vpn) as [p|]; [|done]. simpl.
  destruct (m !! (p + 8 * idx (Z.of_nat k) vpn)) as [e|] eqn:Ee; [|done]. simpl.
  destruct (IS_PTE_INVALID e) eqn:Ei, (IS_PTE_TABLE e) eqn:Et; simpl; intros [=]. eauto 10.
Qed.

Lemma desc_step k m root vpn p e : desc k m root vpn = Some p → m !! (p + 8 * idx (Z.of_nat k) vpn) = Some e →
  IS_PTE_INVALID e = false → IS_PTE_TABLE e = true → desc (S k) m root vpn = Some (GET_NEXT_PTP e).
Proof. intros Hd He Hi Ht. cbn [desc]. rewrite Hd. simpl. rewrite He. simpl. by rewrite Hi, Ht. Qed.

Section tree.
Context {m : gmap Z Z} {root : Z} {T : gmap Z (Z * Z)} {H : gset Z} (Hok : pt_ok m root T H).

Lemma desc_level k vpn p : (k ≤ 3)%nat → 0 ≤ vpn < 2 ^ 36 → desc k m root vpn = Some p →
  T !! p = Some (Z.of_nat k, prefix (Z.of_nat k) vpn).
Proof.
  intros Hk Hv. revert p. induction k as [|k IH]; intros p Hd.
  - injection Hd as <-. rewrite (po_root _ _ _ _ Hok). unfold prefix. simpl. by rewrite Z.div_small by lia.
  - apply desc_inv in Hd as (q & e & Hq & He & Hi & Ht & ->). apply IH in Hq; [|lia].
    rewrite (po_next _ _ _ _ Hok _ _ _ _ _ Hq ltac:(lia) (idx_range _ _) He Hi Ht).
    replace (Z.of_nat (S k)) with (Z.of_nat k + 1) by lia. by rewrite prefix_succ by lia.
Qed.

Lemma desc_walk k vpn p : (k ≤ 3)%nat → desc k m root vpn = Some p →
  walk 3 m root 0 vpn = walk (3 - k) m p (Z.of_nat k) vpn.
Proof.
  revert p. induction k as [|k IH]; intros p Hk Hd; [by injection Hd as <-|].
  apply desc_inv in Hd as (q & e & Hq & He & Hi & Ht & ->). rewrite (IH q ltac:(lia) Hq).
  replace (3 - k)%nat with (S (3 - S k)) by lia. cbn [walk]. rewrite He, Hi, Ht.
  by replace (Z.of_nat (S k)) with (Z.of_nat k + 1) by lia.
Qed.

(** *** Linking a fresh table *)
Section link.
Context (p l0 pre0 i0 e0 q : Z).
Context (Hp : T !! p = Some (l0, pre0)) (Hl0 : l0 < 3) (Hi0 : 0 ≤ i0 < 512).
Context (He0 : m !! (p + 8 * i0) = Some e0) (Hinv : IS_PTE_INVALID e0 = true) (Hq : q ∉ H) (Hqd : direct_page q).

Definition link_mem : gmap Z Z := <[p + 8 * i0 := table_pte (virt_to_phys q)]> (zero_page q ∪ m).

Lemma table_not_fresh r l pre : T !! r = Some (l, pre) → r ≠ q.
Proof. intros Hr ->. by apply (po_page _ _ _ _ Hok) in Hr as (_ & ? & _). Qed.

Lemma lookup_link r l pre i : T !! r = Some (l, pre) → 0 ≤ i < 512 →
  link_mem !! (r + 8 * i) = if decide (r = p ∧ i = i0) then Some (table_pte (virt_to_phys q)) else m !! (r + 8 * i).
Proof.
  intros Hr Hi. destruct (po_page _ _ _ _ Hok _ _ _ Hr) as (Hrd & _ & _). destruct (po_page _ _ _ _ Hok _ _ _ Hp) as (Hpd & _ & _).
  unfold link_mem. case_decide as Hc; [destruct Hc as [-> ->]; by rewrite lookup_insert_eq|].
  rewrite lookup_insert_ne by (intros Heq; apply Hc; by destruct (entry_inj p r i0 i) as [-> ->]).
  apply lookup_union_r, lookup_zero_page_other; [done|done|by eapply table_not_fresh|done].
Qed.

Lemma lookup_link_fresh i : 0 ≤ i < 512 → link_mem !! (q + 8 * i) = Some 0.
Proof.
  intros Hi. unfold link_mem. destruct (po_page _ _ _ _ Hok _ _ _ Hp) as (Hpd & _ & _).
  rewrite lookup_insert_ne; [by apply lookup_union_Some_l, lookup_zero_page|].
  intros Heq. destruct (entry_inj p q i0 i) as [-> _]; [done..|]. by eapply table_not_fresh.
Qed.

Lemma link_ok : pt_ok link_mem root (<[q := (l0 + 1, pre0 * 2 ^ 9 + i0)]> T) ({[q]} ∪ H).
Proof.
  destruct (po_page _ _ _ _ Hok _ _ _ Hp) as (_ & _ & Hl).
  destruct (next_ptp_table q Hqd) as (Hnext & Hb0 & Hb1).
  assert (∀ r l pre, <[q := (l0 + 1, pre0 * 2 ^ 9 + i0)]> T !! r = Some (l, pre) →
    (r = q ∧ l = l0 + 1) ∨ (r ≠ q ∧ T !! r = Some (l, pre))) as Hcase.
  { intros r l pre. rewrite lookup_insert. case_decide as Hd; [intros [= <- _]; by left|by right]. }
  split.
  - rewrite lookup_insert_ne; [apply (po_root _ _ _ _ Hok)|]. intros Heq. by apply (table_not_fresh root 0 0); [apply (po_root _ _ _ _ Hok)|].
  - intros r l pre [[-> ->]|[Hne Hr]]%Hcase; [split_and!; [done|apply elem_of_union_l, elem_of_singleton; done|lia|lia]|].
    destruct (po_page _ _ _ _ Hok _ _ _ Hr) as (? & ? & ?). split_and!; [done|by apply elem_of_union_r|lia|lia].
  - intros r l pre i [[-> ->]|[Hne Hr]]%Hcase Hi; [rewrite lookup_link_fresh by done; eauto|].
    rewrite (lookup_link _ _ _ _ Hr Hi). case_decide; [eauto|]. by eapply (po_mem _ _ _ _ Hok).
  - intros r l pre i e [[-> ->]|[Hne Hr]]%Hcase Hl3 Hi He Hv Ht.
    + rewrite lookup_link_fresh in He by done. by simplify_eq.
    + rewrite (lookup_link _ _ _ _ Hr Hi) in He. case_decide as Hc.
      * destruct Hc as [-> ->]. simplify_eq. rewrite Hnext, lookup_insert_eq. done.
      * rewrite lookup_insert_ne; [by eapply (po_next _ _ _ _ Hok)|]. intros Hqe.
        assert (T !! q = Some (l + 1, pre * 2 ^ 9 + i)) as Hbad by (rewrite Hqe; by eapply (po_next _ _ _ _ Hok)).
        by eapply table_not_fresh.
  - intros r pre i e [[-> Hl1]|[Hne Hr]]%Hcase Hi He Hv; [lia|].
    rewrite (lookup_link _ _ _ _ Hr Hi) in He. case_decide; [simplify_eq; by rewrite IS_PTE_TABLE_bit|by eapply (po_l0 _ _ _ _ Hok)].
Qed.

Lemma link_walk n r l vpn : T !! r = Some (l, prefix l vpn) → l + Z.of_nat n = 3 →
  walk n link_mem r l vpn = walk n m r l vpn.
Proof.
  destruct (next_ptp_table q Hqd) as (Hnext & Hb0 & Hb1).
  revert r l. induction n as [|n IH]; intros r l Hr Hl; cbn [walk];
    rewrite (lookup_link _ _ _ _ Hr (idx_range _ _)); case_decide as Hc.
  - destruct Hc as [-> _]. rewrite Hp in Hr. simplify_eq. lia.
  - done.
  - destruct Hc as [-> Hidx]. rewrite Hidx, He0, Hinv, IS_PTE_INVALID_bit, IS_PTE_TABLE_bit, Hb0, Hb1. cbn [negb]. rewrite Hnext.
    destruct n; cbn [walk]; by rewrite lookup_link_fresh by apply idx_range.
  - destruct (m !! (r + 8 * idx l vpn)) as [e|] eqn:Ee; [|done]. destruct (IS_PTE_INVALID e) eqn:Ei; [done|].
    destruct (IS_PTE_TABLE e) eqn:Et; [|done]. apply IH; [|lia].
    rewrite prefix_succ by (destruct (po_page _ _ _ _ Hok _ _ _ Hr) as (_ & _ & ?); lia).
    eapply (po_next _ _ _ _ Hok); [exact Hr|lia|apply idx_range|done..].
Qed.

Lemma link_desc k vpn r : (k ≤ 3)%nat → 0 ≤ vpn < 2 ^ 36 → desc k m root vpn = Some r → desc k link_mem root vpn = Some r.
Proof.
  intros Hk Hv. revert r. induction k as [|k IH]; intros r Hd; [done|].
  apply desc_inv in Hd as (r' & e & Hr' & He & Hi & Ht & ->).
  pose proof (desc_level k vpn r' ltac:(lia) Hv Hr') as Hlev. apply IH in Hr'; [|lia].
  eapply desc_step; [exact Hr'| |done|done]. rewrite (lookup_link _ _ _ _ Hlev (idx_range _ _)).
  case_decide as Hc; [|done]. destruct Hc as [Hr1 Hi1]. rewrite Hr1, Hi1 in He. congruence.
Qed.
End link.

(** *** Storing an L3 entry *)
Section store.
Context (p vpn0 v : Z) (Hp : T !! p = Some (3, prefix 3 vpn0)) (Hv : IS_PTE_INVALID v = false).

Definition store_mem : gmap Z Z := <[p + 8 * idx 3 vpn0 := v]> m.

Lemma lookup_store r l pre i : T !! r = Some (l, pre) → 0 ≤ i < 512 →
  store_mem !! (r + 8 * i) = if decide (r = p ∧ i = idx 3 vpn0) then Some v else m !! (r + 8 * i).
Proof.
  intros Hr Hi. destruct (po_page _ _ _ _ Hok _ _ _ Hr) as (Hrd & _ & _). destruct (po_page _ _ _ _ Hok _ _ _ Hp) as (Hpd & _ & _).
  unfold store_mem. case_decide as Hc; [destruct Hc as [-> ->]; by rewrite lookup_insert_eq|].
  apply lookup_insert_ne. intros Heq. apply Hc. destruct (entry_inj p r (idx 3 vpn0) i) as [-> ->]; auto using idx_range.
Qed.

Lemma lookup_store_upper r l pre i : T !! r = Some (l, pre) → l < 3 → 0 ≤ i < 512 → store_mem !! (r + 8 * i) = m !! (r + 8 * i).
Proof.
  intros Hr Hl Hi. rewrite (lookup_store _ _ _ _ Hr Hi). case_decide as Hc; [|done].
  destruct Hc as [-> _]. rewrite Hp in Hr. simplify_eq. lia.
Qed.

Lemma store_ok : pt_ok store_mem root T H.
Proof.
  pose proof Hok as [Hr Hpg Hm Hn Hl0]. split; [done|done| | |].
  - intros r l pre i Hrl Hi. rewrite (lookup_store _ _ _ _ Hrl Hi). case_decide; eauto.
  - intros r l pre i e Hrl Hl Hi. rewrite (lookup_store_upper _ _ _ _ Hrl Hl Hi). by apply Hn.
  - intros r pre i e Hrl Hi. rewrite (lookup_store_upper _ _ _ _ Hrl ltac:(lia) Hi). by apply (Hl0 r pre).
Qed.

Lemma store_desc k vpn : (k ≤ 3)%nat → 0 ≤ vpn < 2 ^ 36 → desc k store_mem root vpn = desc k m root vpn.
Proof.
  intros Hk Hvp. induction k as [|k IH]; [done|]. cbn [desc]. rewrite IH by lia.
  destruct (desc k m root vpn) as [r|] eqn:Er; [|done]. cbn [mbind option_bind].
  by rewrite (lookup_store_upper _ _ _ _ (desc_level k vpn r ltac:(lia) Hvp Er) ltac:(lia) (idx_range _ _)).
Qed.

Lemma store_walk_other n r l vpn : T !! r = Some (l, prefix l vpn) → l + Z.of_nat n = 3 → vpn ≠ vpn0 →
  walk n store_mem r l vpn = walk n m r l vpn.
Proof.
  intros Hr Hl Hne. revert r l Hr Hl. induction n as [|n IH]; intros r l Hr Hl; cbn [walk].
  - rewrite (lookup_store _ _ _ _ Hr (idx_range _ _)). case_decide as Hc; [|done]. exfalso.
    destruct Hc as [-> Hidx]. assert (l = 3) as -> by lia. rewrite Hp in Hr. injection Hr as Hpre. by apply Hne, same_page.
  - rewrite (lookup_store_upper _ _ _ _ Hr ltac:(lia) (idx_range _ _)).
    destruct (m !! (r + 8 * idx l vpn)) as [e|] eqn:Ee; [|done]. destruct (IS_PTE_INVALID e) eqn:Ei; [done|].
    destruct (IS_PTE_TABLE e) eqn:Et; [|done]. apply IH; [|lia].
    rewrite prefix_succ by (destruct (po_page _ _ _ _ Hok _ _ _ Hr) as (_ & _ & ?); lia).
    eapply (po_next _ _ _ _ Hok); [exact Hr|lia|apply idx_range|done..].
Qed.
End store.
End tree.

(** ** Neighbouring pages *)
Lemma idx_prefix l vpn : 0 ≤ l < 3 → idx l vpn = (prefix 3 vpn / 2 ^ (9 * (2 - l))) mod 2 ^ 9.
Proof.
  intros Hl. unfold idx, prefix. rewrite Z.div_div by (pose proof (pow2_gt0 (9 * (2 - l))); lia).
  rewrite <- Z.pow_add_r by lia. do 3 f_equal. lia.
Qed.

Lemma desc_same k m root vpn vpn' : (k ≤ 3)%nat → prefix 3 vpn = prefix 3 vpn' → desc k m root vpn = desc k m root vpn'.
Proof.
  intros Hk Hp. induction k as [|k IH]; [done|]. cbn [desc]. rewrite IH by lia.
  by rewrite (idx_prefix _ vpn), (idx_prefix _ vpn'), Hp by lia.
Qed.

Lemma idx3_next vpn : idx 3 vpn < 511 → prefix 3 (vpn + 1) = prefix 3 vpn ∧ idx 3 (vpn + 1) = idx 3 vpn + 1.
Proof.
  intros Hi. pose proof (prefix_succ 3 vpn ltac:(lia)) as H1. pose proof (idx_range 3 vpn) as Hr.
  assert (∀ v, prefix (3 + 1) v = v) as H4 by (intros v; unfold prefix; apply Z.div_1_r). rewrite H4 in H1.
  assert (idx 3 (vpn + 1) = idx 3 vpn + 1) as Hidx.
  { unfold idx at 1. rewrite Z.div_1_r. rewrite H1 at 1. symmetry. apply (Z.mod_unique_pos _ _ (prefix 3 vpn)); lia. }
  split; [|done]. pose proof (prefix_succ 3 (vpn + 1) ltac:(lia)) as H2. rewrite H4 in H2. lia.
Qed.
