(* ===== verification/Mmu.v ===== *)
(** * The translation that the MMU makes

    The table walk of the architecture (4 KB granule, 48-bit addresses), on
    physical memory and from the bits of the descriptors alone: bit 0 is
    valid, bit 1 tells a table (levels 0 to 2) or a page (level 3) from a block,
    the output address is bits 47 to 12 of a table or page descriptor, 47 to 21
    of a 2 MB block and 47 to 30 of a 1 GB block; a level-3 descriptor with bit 1
    clear is reserved and faults, as does a block at level 0.  The access flag
    and the permissions are checked on the result and are not part of the
    translation.  The walk of the code, [walk], agrees with it on tables
    that keep to the architecture ([arch_ok]). *)

From S2P Require Import Prelude Macro PageTable PageTableInv.

(** Bits [hi] to [lo] *)
Definition bits (hi lo e : Z) : Z := (e / 2 ^ lo) mod 2 ^ (hi + 1 - lo).

(** With [n] levels below this one, the entry serves the address bits from
    [12 + 9 n] on.  The result: the physical address and that of the last
    descriptor read; [None] is a translation fault. *)
Fixpoint mmu_walk (n : nat) (pm : Z → option Z) (tbl va : Z) : option (Z * Z) :=
  let k := 12 + 9 * Z.of_nat n in
  let a := tbl + 8 * bits (k + 8) k va in
  match pm a with
  | None => None
  | Some e =>
      if negb (Z.testbit e 0) then None
      else if Z.testbit e 1 then
        match n with
        | O => Some (bits 47 12 e * 2 ^ 12 + va mod 2 ^ 12, a)
        | S n' => mmu_walk n' pm (bits 47 12 e * 2 ^ 12) va
        end
      else if ((n =? 1)%nat || (n =? 2)%nat) then Some (bits 47 k e * 2 ^ k + va mod 2 ^ k, a)
      else None
  end.

(** Physical memory, which the kernel sees at [KBASE]. *)
Definition phys (m : gmap Z Z) (a : Z) : option Z := m !! (a + KBASE).

(** The entries of the tables [T] are ones that the architecture defines: a valid
    level-3 entry is a page, and a block of level [l] is aligned. *)
Definition arch_entry (l e : Z) : Prop :=
  Z.testbit e 0 = true → Z.testbit e 1 = false → l ≠ 3 ∧ bits (11 + 9 * (3 - l)) 12 e = 0.
Definition arch_ok (m : gmap Z Z) (T : gmap Z (Z * Z)) : Prop :=
  ∀ p l pre i e, T !! p = Some (l, pre) → 0 ≤ i < 512 → m !! (p + 8 * i) = Some e → arch_entry l e.

(** ** Agreement *)
Lemma bits_idx n va : (n ≤ 3)%nat → let k := 12 + 9 * Z.of_nat n in bits (k + 8) k va = idx (3 - Z.of_nat n) (vpn_of va).
Proof.
  intros Hn k. rewrite <- get_index by lia. change PTP_INDEX_MASK with (2 ^ 9 - 1). rewrite land_ones_mod by lia.
  unfold bits, PAGE_ORDER, PAGE_SHIFT. rewrite Z.shiftr_div_pow2 by lia. subst k. f_equal; [|f_equal; lia]. f_equal. f_equal. lia.
Qed.

Lemma bits_paddr e : 0 ≤ bits 47 12 e * 2 ^ 12 < 2 ^ 48.
Proof. unfold bits. change (47 + 1 - 12) with 36. pose proof (Z.mod_pos_bound (e / 2 ^ 12) (2 ^ 36) ltac:(lia)). lia. Qed.

Lemma paddr_bits e : GET_PADDR_IN_PTE e = bits 47 12 e * 2 ^ 12.
Proof.
  pose proof (bits_paddr e). unfold GET_PADDR_IN_PTE, get_field, PAGE_SHIFT. rewrite Z.land_ones, Z.shiftr_div_pow2, Z.shiftl_mul_pow2 by lia.
  apply u64_small. unfold bits in *. change (47 + 1 - 12) with 36 in *. lia.
Qed.

Lemma next_ptp_bits e : direct_page (GET_NEXT_PTP e) → GET_NEXT_PTP e = bits 47 12 e * 2 ^ 12 + KBASE.
Proof.
  unfold GET_NEXT_PTP. rewrite paddr_bits. pose proof (bits_paddr e). set (x := bits 47 12 e * 2 ^ 12) in *. intros [_ Hr]. unfold phys_to_virt, u64, KBASE in *.
  destruct (Z_lt_dec x (2 ^ 40)); [apply Z.mod_small; lia|].
  rewrite <- (Z.mod_unique_pos (x + 0xFFFFFF0000000000) (2 ^ 64) 1 (x + 0xFFFFFF0000000000 - 2 ^ 64)) in Hr by lia. lia.
Qed.

(** An aligned block: its address bits are all above the offset. *)
Lemma block_bits k e : 12 ≤ k ≤ 47 → bits (k - 1) 12 e = 0 → bits 47 12 e * 2 ^ 12 = bits 47 k e * 2 ^ k.
Proof.
  unfold bits. intros Hk H0. replace (47 + 1 - k) with (48 - k) by lia. replace (k - 1 + 1 - 12) with (k - 12) in H0 by lia. change (47 + 1 - 12) with 36.
  set (q := e / 2 ^ 12) in *. assert (e / 2 ^ k = q / 2 ^ (k - 12)) as ->.
  { unfold q. rewrite Z.div_div, <- Z.pow_add_r by (try (pose proof (pow2_gt0 (k - 12))); lia). do 2 f_equal. lia. }
  pose proof (pow2_gt0 (k - 12)) as Hp. apply Z.mod_divide in H0 as [c Hc]; [|lia]. rewrite Hc, Z.div_mul by lia.
  replace (2 ^ 36) with (2 ^ (48 - k) * 2 ^ (k - 12)) by (rewrite <- Z.pow_add_r by lia; f_equal; lia).
  rewrite Zmult_mod_distr_r. replace (2 ^ k) with (2 ^ (k - 12) * 2 ^ 12) by (rewrite <- Z.pow_add_r by lia; f_equal; lia). lia.
Qed.

Lemma block_paddr k e va : 12 ≤ k ≤ 47 → bits 47 12 e * 2 ^ 12 = bits 47 k e * 2 ^ k →
  u64 (virt_to_phys (GET_NEXT_PTP e) + va mod 2 ^ k) = bits 47 k e * 2 ^ k + va mod 2 ^ k.
Proof.
  intros Hk E. pose proof (bits_paddr e) as Hb. unfold GET_NEXT_PTP. rewrite paddr_bits, virt_phys_virt, E by lia. apply u64_small.
  unfold bits in *. pose proof (pow2_gt0 k ltac:(lia)). pose proof (Z.mod_pos_bound va (2 ^ k) ltac:(lia)).
  set (c := 2 ^ (47 + 1 - k)) in *. assert (0 < c) by (apply pow2_gt0; lia). pose proof (Z.mod_pos_bound (e / 2 ^ k) c ltac:(lia)).
  assert (c * 2 ^ k = 2 ^ 48) by (unfold c; rewrite <- Z.pow_add_r by lia; f_equal; lia). split; [nia|]. assert ((e / 2 ^ k) mod c * 2 ^ k + 2 ^ k ≤ 2 ^ 48) by nia. lia.
Qed.

Section agree.
Context {m : gmap Z Z} {root : Z} {T : gmap Z (Z * Z)} {H : gset Z} (Hok : pt_ok m root T H) (Harch : arch_ok m T).

Lemma mmu_walk_eq n p va : (n ≤ 3)%nat → T !! p = Some (3 - Z.of_nat n, prefix (3 - Z.of_nat n) (vpn_of va)) →
  mmu_walk n (phys m) (p - KBASE) va =
  (λ w : Z * Z * Z, (u64 (virt_to_phys (GET_NEXT_PTP w.2) + va mod 2 ^ (12 + 9 * (3 - w.1.1))), w.1.2 - KBASE)) <$> walk n m p (3 - Z.of_nat n) (vpn_of va).
Proof.
  revert p. induction n as [|n IH]; intros p Hn Hp; cbn [mmu_walk walk]; rewrite (bits_idx _ va) by lia; unfold phys at 1;
    match goal with |- context [p - KBASE + ?x + KBASE] => replace (p - KBASE + x + KBASE) with (p + x) by lia end;
    destruct (m !! _) as [e|] eqn:Ee; [|done| |done]; pose proof (Harch _ _ _ _ _ Hp (idx_range _ _) Ee) as Hae;
    rewrite IS_PTE_INVALID_bit; (destruct (Z.testbit e 0) eqn:Eb; cbn [negb]; [|done]).
  - destruct (Z.testbit e 1) eqn:E1; [|by destruct (Hae Eb E1) as [[] _]]. cbn [fmap option_fmap option_map fst snd].
    rewrite (block_paddr 12) by (done || lia). f_equal. f_equal. lia.
  - rewrite IS_PTE_TABLE_bit. destruct (Z.testbit e 1) eqn:E1.
    + assert (T !! GET_NEXT_PTP e = Some (3 - Z.of_nat n, prefix (3 - Z.of_nat n) (vpn_of va))) as Hnext.
      { replace (3 - Z.of_nat n) with (3 - Z.of_nat (S n) + 1) by lia. rewrite prefix_succ by lia.
        eapply (po_next _ _ _ _ Hok); [exact Hp|lia|apply idx_range|exact Ee|by rewrite IS_PTE_INVALID_bit, Eb|by rewrite IS_PTE_TABLE_bit]. }
      destruct (po_page _ _ _ _ Hok _ _ _ Hnext) as (Hd & _ & _). pose proof (next_ptp_bits e Hd) as En.
      replace (bits 47 12 e * 2 ^ 12) with (GET_NEXT_PTP e - KBASE) by lia. rewrite IH by (lia || done).
      by replace (3 - Z.of_nat (S n) + 1) with (3 - Z.of_nat n) by lia.
    + destruct (Hae Eb E1) as [_ H0]. assert (n ≠ 2%nat) as Hn2.
      { intros ->. assert (IS_PTE_TABLE e = true) as Ht by (eapply (po_l0 _ _ _ _ Hok); [exact Hp|apply idx_range|exact Ee|by rewrite IS_PTE_INVALID_bit, Eb]).
        rewrite IS_PTE_TABLE_bit in Ht. congruence. }
      assert (((S n =? 1) || (S n =? 2))%nat = true) as -> by (apply orb_true_iff; rewrite !Nat.eqb_eq; lia).
      cbn [fmap option_fmap option_map fst snd]. replace (3 - (3 - Z.of_nat (S n))) with (Z.of_nat (S n)) in * by lia.
      rewrite block_paddr; [f_equal; f_equal; lia|lia|]. apply block_bits; [lia|].
      by replace (12 + 9 * Z.of_nat (S n) - 1) with (11 + 9 * Z.of_nat (S n)) by lia.
Qed.

(** What the two stores of the mapping code do to [arch_ok]. *)
Lemma arch_link p l0 pre0 i0 e0 q : T !! p = Some (l0, pre0) → 0 ≤ i0 < 512 → m !! (p + 8 * i0) = Some e0 → q ∉ H → direct_page q →
  arch_ok (link_mem (m := m) p i0 q) (<[q := (l0 + 1, pre0 * 2 ^ 9 + i0)]> T).
Proof.
  intros Hp Hi0 He0 Hq Hqd r l pre i e Hr Hi He. destruct (next_ptp_table q Hqd) as (_ & Hb0 & Hb1).
  rewrite lookup_insert in Hr. case_decide as Hqr.
  - subst r. rewrite (lookup_link_fresh Hok p l0 pre0 i0 e0 q) in He by done. injection He as <-. intros Hv. discriminate Hv.
  - rewrite (lookup_link Hok p l0 pre0 i0 e0 q Hp Hi0 He0 Hq Hqd r l pre i Hr Hi) in He. case_decide; [|by eapply Harch].
    injection He as <-. intros _ Hv. congruence.
Qed.

Lemma arch_store p vpn0 v : T !! p = Some (3, prefix 3 vpn0) → Z.testbit v 1 = true → arch_ok (store_mem (m := m) p vpn0 v) T.
Proof.
  intros Hp Hv r l pre i e Hr Hi He. rewrite (lookup_store Hok p vpn0 v Hp r l pre i Hr Hi) in He.
  case_decide; [|by eapply Harch]. injection He as <-. intros _ Hf. congruence.
Qed.
End agree.
