(* ===== verification/PageTableOps.v ===== *)
(** * The page table operations

    Total correctness of [get_next_ptp], [query_in_pgtbl] and the mapping loops
    on page tables that satisfy [pt_ok], over any [PageSource]. *)

From S2P Require Import Prelude Macro PageTable PageTableInv Mmu.

Lemma va_offset_L1 va : GET_VA_OFFSET_L1 va = va mod 2 ^ (12 + 9 * (3 - 1)).
Proof. exact (va_offset va 18 ltac:(lia)). Qed.
Lemma va_offset_L2 va : GET_VA_OFFSET_L2 va = va mod 2 ^ (12 + 9 * (3 - 2)).
Proof. exact (va_offset va 9 ltac:(lia)). Qed.
Lemma va_offset_L3 va : GET_VA_OFFSET_L3 va = va mod 2 ^ (12 + 9 * (3 - 3)).
Proof. exact (va_offset va 0 ltac:(lia)). Qed.

Section ops.
Context {A : Type} `{!PageSource A}.
Implicit Types (s : ptstate A) (T : gmap Z (Z * Z)) (H : gset Z) (m : gmap Z Z).

Lemma index_cases {S} level va : 0 ≤ level ≤ 3 →
  ((if level =? 0 then mret (GET_L0_INDEX va)
    else if level =? 1 then mret (GET_L1_INDEX va)
    else if level =? 2 then mret (GET_L2_INDEX va)
    else if level =? 3 then mret (GET_L3_INDEX va)
    else stop HBug) : M S Z) = mret (idx level (vpn_of va)).
Proof.
  intros Hl. assert (level = 0 ∨ level = 1 ∨ level = 2 ∨ level = 3) as [-> | [-> | [-> | -> ]]] by lia;
    simpl; f_equal; symmetry; [rewrite <- (get_index va 0)|rewrite <- (get_index va 1)|rewrite <- (get_index va 2)|rewrite <- (get_index va 3)]; done || lia.
Qed.

Lemma direct_ne_null p : direct_page p → (p =? NULL) = false.
Proof. intros [_ Hr]. apply Z.eqb_neq. unfold KBASE in Hr. lia. Qed.

(** A lookup without allocation. *)
Lemma get_next_ptp_lookup s root T H p l pre va :
  pt_ok (mem s) root T H → T !! p = Some (l, pre) →
  let a := p + 8 * idx l (vpn_of va) in
  ∃ e, mem s !! a = Some e ∧
  get_next_ptp p l va false s =
    Ok (if IS_PTE_INVALID e then inl (- ENOMEM)
        else inr (if IS_PTE_TABLE e then NORMAL_PTP else BLOCK_PTP, GET_NEXT_PTP e, a), s).
Proof.
  intros Hok Hp a. destruct (po_page _ _ _ _ Hok _ _ _ Hp) as (Hd & _ & Hl).
  destruct (po_mem _ _ _ _ Hok p l pre (idx l (vpn_of va)) Hp (idx_range _ _)) as [e He]. fold a in He.
  exists e. split; [done|]. unfold get_next_ptp. rewrite (direct_ne_null _ Hd), index_cases by done.
  unfold mbind, M_bind, mret, M_ret. fold a. unfold ld_ent, load. rewrite He.
  destruct (IS_PTE_INVALID e); simpl; [done|]. by rewrite He.
Qed.

(** [query_in_pgtbl] computes [walk]: the physical address is the frame of the
    leaf entry plus the offset inside the area that entry maps. *)
Definition leaf_pa (va : Z) (w : Z * Z * Z) : Z :=
  u64 (virt_to_phys (GET_NEXT_PTP w.2) + va mod 2 ^ (12 + 9 * (3 - w.1.1))).

Lemma query_walk s root T H va :
  pt_ok (mem s) root T H →
  query_in_pgtbl root va s =
    Ok (match walk 3 (mem s) root 0 (vpn_of va) with
        | None => inl (- ENOMEM)
        | Some w => inr (leaf_pa va w, w.1.2)
        end, s).
Proof.
  intros Hok. pose proof (vpn_range va) as Hva. set (vpn := vpn_of va) in *.
  assert (T !! root = Some (0, prefix 0 vpn)) as Hp.
  { rewrite (po_root _ _ _ _ Hok). unfold prefix. simpl. by rewrite Z.div_small by lia. }
  assert (∀ p l e, T !! p = Some (l, prefix l vpn) → l < 3 → mem s !! (p + 8 * idx l vpn) = Some e →
    IS_PTE_INVALID e = false → IS_PTE_TABLE e = true → T !! GET_NEXT_PTP e = Some (l + 1, prefix (l + 1) vpn)) as Hnext.
  { intros p l e Hpl Hl He Hi Ht. destruct (po_page _ _ _ _ Hok _ _ _ Hpl) as (_ & _ & ?). rewrite prefix_succ by lia.
    eapply (po_next _ _ _ _ Hok); [exact Hpl|lia|apply idx_range|done..]. }
  unfold query_in_pgtbl. cbn [walk]. change (0 + 1) with 1. change (1 + 1) with 2. change (2 + 1) with 3.
  unfold mbind at 1, M_bind at 1.
  destruct (get_next_ptp_lookup s root T H root 0 _ va Hok Hp) as (e0 & He0 & ->). fold vpn in He0 |- *. rewrite He0.
  destruct (IS_PTE_INVALID e0) eqn:Ei0; [done|]. rewrite (po_l0 _ _ _ _ Hok _ _ _ _ Hp (idx_range _ _) He0 Ei0).
  pose proof (Hnext _ _ _ Hp ltac:(lia) He0 Ei0 (po_l0 _ _ _ _ Hok _ _ _ _ Hp (idx_range _ _) He0 Ei0)) as Hp1.
  unfold mbind at 1, M_bind at 1.
  destruct (get_next_ptp_lookup s root T H _ 1 _ va Hok Hp1) as (e1 & He1 & ->). fold vpn in He1 |- *. rewrite He1.
  destruct (IS_PTE_INVALID e1) eqn:Ei1; [done|]. destruct (IS_PTE_TABLE e1) eqn:Et1; cbn [Z.eqb NORMAL_PTP BLOCK_PTP].
  2: { by rewrite va_offset_L1. }
  pose proof (Hnext _ _ _ Hp1 ltac:(lia) He1 Ei1 Et1) as Hp2. unfold mbind at 1, M_bind at 1.
  destruct (get_next_ptp_lookup s root T H _ 2 _ va Hok Hp2) as (e2 & He2 & ->). fold vpn in He2 |- *. rewrite He2.
  destruct (IS_PTE_INVALID e2) eqn:Ei2; [done|]. destruct (IS_PTE_TABLE e2) eqn:Et2; cbn [Z.eqb NORMAL_PTP BLOCK_PTP].
  2: { by rewrite va_offset_L2. }
  pose proof (Hnext _ _ _ Hp2 ltac:(lia) He2 Ei2 Et2) as Hp3. unfold mbind at 1, M_bind at 1.
  destruct (get_next_ptp_lookup s root T H _ 3 _ va Hok Hp3) as (e3 & He3 & ->). fold vpn in He3 |- *. rewrite He3.
  destruct (IS_PTE_INVALID e3) eqn:Ei3; [done|]. by rewrite va_offset_L3.
Qed.

(** ** Allocating walks *)

(** The counter after [k] more pages. *)
Definition rss_after (k : Z) (r : option Z) : option Z := (λ x, s64 (x + 2 ^ 12 * k)) <$> r.

Definition rss_ok (r : option Z) : Prop := rss_after 0 r = r.

Lemma s64_add_idemp x y : s64 (s64 x + y) = s64 (x + y).
Proof.
  unfold s64. f_equal. replace ((x + 2 ^ 63) mod 2 ^ 64 - 2 ^ 63 + y + 2 ^ 63) with ((x + 2 ^ 63) mod 2 ^ 64 + y) by lia.
  rewrite Z.add_mod_idemp_l by lia. f_equal. lia.
Qed.

Lemma rss_after_after j k r : rss_after j (rss_after k r) = rss_after (k + j) r.
Proof. destruct r as [x|]; [|done]. unfold rss_after. simpl. rewrite s64_add_idemp. do 2 f_equal. lia. Qed.

Lemma rss_ok_after k r : rss_ok (rss_after k r).
Proof. unfold rss_ok. rewrite rss_after_after. f_equal. lia. Qed.

(** Everything a caller knows between two steps: the tree, the pages in use, and
    at least [n] pages to be had. *)
Record pts (s : ptstate A) (root : Z) (T : gmap Z (Z * Z)) (H : gset Z) (n : nat) : Prop := {
  pts_tree : pt_ok (mem s) root T H;
  pts_src : ps_ok (src s) H n;
  pts_rss : rss_ok (rss s)
}.

(** Tables were added, and no translation changed. *)
Record grew (root : Z) (s : ptstate A) (T : gmap Z (Z * Z)) (s' : ptstate A) (T' : gmap Z (Z * Z)) : Prop := {
  gr_desc : ∀ k vpn r, (k ≤ 3)%nat → 0 ≤ vpn < 2 ^ 36 → desc k (mem s) root vpn = Some r → desc k (mem s') root vpn = Some r;
  gr_walk : ∀ vpn, 0 ≤ vpn < 2 ^ 36 → walk 3 (mem s') root 0 vpn = walk 3 (mem s) root 0 vpn;
  gr_size : (size T ≤ size T')%nat;
  gr_rss : rss s' = rss_after (Z.of_nat (size T') - Z.of_nat (size T)) (rss s);
  gr_arch : arch_ok (mem s) T → arch_ok (mem s') T'
}.

Lemma grew_refl root s T : rss_ok (rss s) → grew root s T s T.
Proof. intros Hr. split; [done|done|done| |done]. by rewrite Z.sub_diag. Qed.

Lemma grew_trans root s1 T1 s2 T2 s3 T3 : grew root s1 T1 s2 T2 → grew root s2 T2 s3 T3 → grew root s1 T1 s3 T3.
Proof.
  intros [D1 W1 S1 R1 A1] [D2 W2 S2 R2 A2]. split.
  - intros. apply D2; [done|done|]. by apply D1.
  - intros. by rewrite W2, W1.
  - lia.
  - rewrite R2, R1, rss_after_after. f_equal. lia.
  - auto.
Qed.

Definition no_block (m : gmap Z Z) (root vpn : Z) : Prop := ∀ w, walk 3 m root 0 vpn = Some w → w.1.1 = 3.

Lemma prefix_zero vpn : 0 ≤ vpn < 2 ^ 36 → prefix 0 vpn = 0.
Proof. intros. unfold prefix. simpl. by rewrite Z.div_small by lia. Qed.

(** The state once a fresh table [q] hangs off entry [i0] of [p]. *)
Lemma grew_link s root T H n p l pre i0 e0 q (a1 : A) :
  pts s root T H n → T !! p = Some (l, pre) → l < 3 → 0 ≤ i0 < 512 → mem s !! (p + 8 * i0) = Some e0 →
  IS_PTE_INVALID e0 = true → q ∉ H → direct_page q → ps_ok a1 ({[q]} ∪ H) (Nat.pred n) →
  let s' := mk_pt a1 (link_mem (m := mem s) p i0 q) (rss_after 1 (rss s)) in
  let T' := <[q := (l + 1, pre * 2 ^ 9 + i0)]> T in
  pts s' root T' ({[q]} ∪ H) (Nat.pred n) ∧ grew root s T s' T'.
Proof.
  intros [Hok Hsrc Hr] Hp Hl Hi He Hinv Hq Hqd Hs1 s' T'.
  assert (T !! q = None) as Hfresh.
  { destruct (T !! q) as [[l' pre']|] eqn:E; [|done]. by apply (po_page _ _ _ _ Hok) in E as (_ & ? & _). }
  assert (size T' = S (size T)) as Hsz by (subst T'; rewrite map_size_insert, Hfresh; done).
  split; [split|split].
  - subst s' T'. cbn [mem rss]. eapply link_ok; eauto.
  - done.
  - apply rss_ok_after.
  - intros k vpn r Hk Hv Hd. subst s'. cbn [mem]. eapply link_desc; eauto.
  - intros vpn Hv. subst s'. cbn [mem]. eapply link_walk; eauto. by rewrite prefix_zero, (po_root _ _ _ _ Hok).
  - lia.
  - subst s'. cbn [rss]. f_equal. lia.
  - intros Ha. by eapply arch_link.
Qed.

(** One step of the mapping walk: the next table exists or is allocated. *)
Lemma wp_step_table s root T H n k vpn va p (Q : Z → ptstate A → Prop) :
  pts s root T H (S n) → vpn_of va = vpn → 0 ≤ vpn < 2 ^ 36 → (k < 3)%nat →
  desc k (mem s) root vpn = Some p → no_block (mem s) root vpn →
  (∀ s' T' H' r, pts s' root T' H' n → grew root s T s' T' → desc (S k) (mem s') root vpn = Some r → Q r s') →
  wp (x ← get_next_ptp p (Z.of_nat k) va true; must_table x) s Q.
Proof.
  intros HP Hva Hv Hk Hd Hnb HQ. pose proof HP as [Hok Hsrc Hr].
  pose proof (desc_level Hok k vpn p ltac:(lia) Hv Hd) as Hp. destruct (po_page _ _ _ _ Hok _ _ _ Hp) as (Hpd & _ & _).
  destruct (po_mem _ _ _ _ Hok p _ _ (idx (Z.of_nat k) vpn) Hp (idx_range _ _)) as [e He].
  unfold get_next_ptp. rewrite (direct_ne_null _ Hpd), index_cases, Hva by lia. cbv zeta.
  apply wp_bind, wp_bind, wp_ret, wp_bind. eapply wp_load; [exact He|].
  destruct (IS_PTE_INVALID e) eqn:Ei; cbn [negb]; apply wp_bind.
  - apply wp_bind, wp_zoom. eapply wp_mono; [|by apply ps_get_page_spec].
    intros q a1 [(_ & [=] & _)|(Hq & Hqd & Ha1)]. rewrite (direct_ne_null _ Hqd).
    destruct (grew_link _ _ _ _ _ _ _ _ _ _ q a1 HP Hp ltac:(lia) (idx_range _ _) He Ei Hq Hqd Ha1) as [HP' HG].
    apply wp_bind, wp_modify, wp_bind, wp_modify. unfold st_ent. cbn [src mem rss set_src set_mem set_rss].
    set (a := p + 8 * idx (Z.of_nat k) vpn) in *.
    assert (is_Some ((zero_page q ∪ mem s) !! a)) as [e' He'].
    { apply lookup_union_is_Some. right. eauto. }
    apply wp_bind, wp_bind. eapply wp_load; [exact He'|]. apply wp_modify, wp_ret. cbn [negb src mem rss set_src set_mem set_rss].
    destruct (next_ptp_table q Hqd) as (Hnext & Hb0 & Hb1). apply wp_bind.
    eapply wp_load; [simpl; apply lookup_insert_eq|]. rewrite IS_PTE_TABLE_bit, Hb1, Hnext. apply wp_ret, wp_bind, wp_BUG_ON; [done|].
    apply wp_ret. eapply HQ; [exact HP'|exact HG|]. etransitivity; [|exact (f_equal Some Hnext)].
    eapply desc_step; [by apply (gr_desc _ _ _ _ _ HG); [lia|..]|simpl; apply lookup_insert_eq|by rewrite IS_PTE_INVALID_bit, Hb0|by rewrite IS_PTE_TABLE_bit].
  - apply wp_ret. cbn [negb]. apply wp_bind. eapply wp_load; [exact He|].
    destruct (IS_PTE_TABLE e) eqn:Et; apply wp_ret.
    + apply wp_bind, wp_BUG_ON; [done|]. apply wp_ret.
      eapply (HQ s T H); [|by apply grew_refl|by eapply desc_step].
      split; [done| |done]. apply (ps_weaken _ _ _ n) in Hsrc; [done|lia].
    + exfalso. assert (walk 3 (mem s) root 0 vpn = Some (Z.of_nat k, p + 8 * idx (Z.of_nat k) vpn, e)) as Hw.
      { rewrite (desc_walk k vpn p) by (lia || done). replace (3 - k)%nat with (S (2 - k)) by lia. cbn [walk]. by rewrite He, Ei, Et. }
      apply Hnb in Hw. simpl in Hw. lia.
Qed.

(** ** Mapping *)

(** The entry stored for frame [pa / 2^12]. *)
Definition l3_val (pa flags kind : Z) : Z := pte_flags (l3_base pa) flags kind.

Definition kind_ok (kind : Z) : Prop := kind = USER_PTE ∨ kind = KERNEL_PTE.

Lemma pte_flags_low e flags kind i : 0 ≤ i < 2 ∨ 12 ≤ i < 53 → Z.testbit (pte_flags e flags kind) i = Z.testbit e i.
Proof.
  intros Hi. unfold pte_flags, pte.l3_AP, pte.l3_PXN, pte.l3_UXN, pte.l3_AF, pte.l3_nG, pte.l3_SH, pte.l3_attr_index.
  repeat match goal with |- context [if ?b then _ else _] => destruct b end;
    rewrite ?testbit_set_field by lia; repeat case_decide; (done || lia).
Qed.

Lemma l3_val_bits pa flags kind : Z.testbit (l3_val pa flags kind) 0 = true ∧ Z.testbit (l3_val pa flags kind) 1 = true.
Proof.
  unfold l3_val. rewrite !pte_flags_low by lia. unfold l3_base, pte.l3_pfn, pte.l3_is_page, pte.l3_is_valid.
  split; rewrite !testbit_set_field by lia; repeat case_decide; (done || lia).
Qed.

Lemma l3_val_frame pa flags kind : 0 ≤ pa < 2 ^ 48 → get_field 12 36 (l3_val pa flags kind) = pa / 2 ^ 12.
Proof.
  intros Hpa. assert (0 ≤ pa / 2 ^ 12 < 2 ^ 36) as Hr by (split; [apply Z.div_pos; lia|apply Z.div_lt_upper_bound; lia]).
  apply Z.bits_inj'. intros i Hi. rewrite testbit_get_field by lia. unfold l3_val. case_cmp as Hiw.
  - rewrite pte_flags_low by lia. unfold l3_base, pte.l3_pfn, PAGE_SHIFT. rewrite testbit_set_field, decide_True by lia.
    rewrite Z.shiftr_div_pow2 by lia. simpl. f_equal. lia.
  - simpl. symmetry. destruct (decide (pa / 2 ^ 12 = 0)) as [->|]; [by rewrite Z.bits_0|]. apply Z.bits_above_log2; [lia|].
    assert (Z.log2 (pa / 2 ^ 12) < 36) by (apply Z.log2_lt_pow2; lia). lia.
Qed.

(** Pages [vpn, vpn + j) are mapped to the frames from [pa] on, nothing else changed. *)
Record mapped (root vpn pa j flags kind : Z) (s : ptstate A) (T : gmap Z (Z * Z)) (s' : ptstate A) (T' : gmap Z (Z * Z)) : Prop := {
  mp_desc : ∀ k v r, (k ≤ 3)%nat → 0 ≤ v < 2 ^ 36 → desc k (mem s) root v = Some r → desc k (mem s') root v = Some r;
  mp_in : ∀ i, 0 ≤ i < j → ∃ a, walk 3 (mem s') root 0 (vpn + i) = Some (3, a, l3_val (pa + i * 2 ^ 12) flags kind);
  mp_out : ∀ v, 0 ≤ v < 2 ^ 36 → ¬ (vpn ≤ v < vpn + j) → walk 3 (mem s') root 0 v = walk 3 (mem s) root 0 v;
  mp_size : (size T ≤ size T')%nat;
  mp_rss : rss s' = rss_after (j + Z.of_nat (size T') - Z.of_nat (size T)) (rss s);
  mp_arch : arch_ok (mem s) T → arch_ok (mem s') T'
}.

Lemma mapped_trans root vpn pa j j' flags kind s T s1 T1 s2 T2 :
  0 ≤ j → 0 ≤ j' → 0 ≤ vpn → vpn + j + j' ≤ 2 ^ 36 → mapped root vpn pa j flags kind s T s1 T1 →
  mapped root (vpn + j) (pa + j * 2 ^ 12) j' flags kind s1 T1 s2 T2 →
  mapped root vpn pa (j + j') flags kind s T s2 T2.
Proof.
  intros Hj Hj' Hv0 Hv [D1 I1 O1 S1 R1 A1] [D2 I2 O2 S2 R2 A2]. split.
  - intros k v r Hk Hvr Hd. apply D2; auto.
  - intros i Hi. destruct (Z_lt_dec i j) as [Hlt|Hge].
    + destruct (I1 i) as [a Ha]; [lia|]. exists a. rewrite O2 by lia. done.
    + destruct (I2 (i - j)) as [a Ha]; [lia|]. exists a. replace (vpn + j + (i - j)) with (vpn + i) in Ha by lia.
      by replace (pa + j * 2 ^ 12 + (i - j) * 2 ^ 12) with (pa + i * 2 ^ 12) in Ha by lia.
  - intros v Hvr Hni. rewrite O2, O1 by lia. done.
  - lia.
  - rewrite R2, R1, rss_after_after. f_equal. lia.
  - auto.
Qed.

Lemma grew_mapped root vpn pa flags kind s T s' T' : grew root s T s' T' → mapped root vpn pa 0 flags kind s T s' T'.
Proof. intros [D W S R Ha]. split; [done|lia|auto|done| |done]. rewrite R. f_equal. Qed.

(** Storing the entry of one page. *)
Lemma wp_store_l3 s root T H n vpn p pa flags kind (Q : unit → ptstate A → Prop) :
  pts s root T H n → 0 ≤ vpn < 2 ^ 36 → desc 3 (mem s) root vpn = Some p →
  (∀ s', pts s' root T H n → mapped root vpn pa 1 flags kind s T s' T → Q tt s') →
  wp (st_ent (p + 8 * idx 3 vpn) (l3_val pa flags kind) ;; add_rss) s Q.
Proof.
  intros [Hok Hsrc Hr] Hv Hd HQ. pose proof (desc_level Hok 3 vpn p ltac:(lia) Hv Hd) as Hp.
  change (Z.of_nat 3) with 3 in Hp. destruct (l3_val_bits pa flags kind) as [Hb0 Hb1].
  assert (IS_PTE_INVALID (l3_val pa flags kind) = false) as Hval by by rewrite IS_PTE_INVALID_bit, Hb0.
  destruct (po_mem _ _ _ _ Hok p _ _ (idx 3 vpn) Hp (idx_range _ _)) as [e He].
  apply wp_bind, wp_bind. eapply wp_load; [exact He|]. apply wp_modify, wp_modify.
  set (s' := set_rss _ _). pose proof (store_ok Hok p vpn (l3_val pa flags kind) Hp) as Hok'.
  pose proof (store_desc Hok p vpn (l3_val pa flags kind) Hp) as Hdesc.
  assert (rss s' = rss_after 1 (rss s)) as Hrss by done.
  apply HQ; [split; [done|done|rewrite Hrss; apply rss_ok_after]|]. split.
  - intros k v r Hk Hvr Hdr. rewrite <- Hdr. by apply Hdesc.
  - intros i Hi. assert (i = 0) as -> by lia. exists (p + 8 * idx 3 vpn). rewrite Z.add_0_r, Z.mul_0_l, Z.add_0_r.
    change (mem s') with (store_mem (m := mem s) p vpn (l3_val pa flags kind)).
    rewrite (desc_walk 3 vpn p) by (lia || by rewrite Hdesc). cbn [walk Nat.sub]. change (Z.of_nat 3) with 3.
    unfold store_mem. rewrite lookup_insert_eq, Hval. done.
  - intros v Hvr Hni. change (mem s') with (store_mem (m := mem s) p vpn (l3_val pa flags kind)).
    eapply store_walk_other; [exact Hok|exact Hp| |lia|lia]. by rewrite prefix_zero, (po_root _ _ _ _ Hok).
  - done.
  - rewrite Hrss. f_equal. lia.
  - intros Ha. by apply (arch_store Hok Ha p vpn (l3_val pa flags kind)).
Qed.

Lemma wp_map_l3 fuel s root T H n va p i pa cnt flags kind (Q : Z * Z * Z → ptstate A → Prop) :
  pts s root T H n → kind_ok kind → 1 ≤ cnt → vpn_of va + cnt ≤ 2 ^ 36 → 0 ≤ pa → pa + cnt * 2 ^ 12 ≤ 2 ^ 48 →
  i + Z.of_nat fuel = 512 → (i < 512 → i = idx 3 (vpn_of va) ∧ desc 3 (mem s) root (vpn_of va) = Some p) →
  (∀ s' va' j, pts s' root T H n → j = Z.min (Z.of_nat fuel) cnt → mapped root (vpn_of va) pa j flags kind s T s' T →
     (j < cnt → vpn_of va' = vpn_of va + j) → Q (va', pa + j * 2 ^ 12, cnt - j) s') →
  wp (map_l3 fuel p i va pa cnt flags kind) s Q.
Proof.
  intros HP Hkind. revert s va i pa cnt HP Q. induction fuel as [|fuel IH]; intros s va i pa cnt HP Q Hcnt Hv Hpa Hpa' Hi Hd HQ; cbn [map_l3].
  { apply wp_ret. pose proof (pts_rss _ _ _ _ _ HP). replace pa with (pa + 0 * 2 ^ 12) by lia. replace cnt with (cnt - 0) by lia.
    apply (HQ s va 0); [done|lia|by apply grew_mapped, grew_refl|lia]. }
  destruct Hd as [-> Hd]; [lia|]. pose proof (vpn_range va) as Hvr.
  apply wp_bind. unfold set_pte_flags. apply wp_bind, wp_BUG_ON; [by destruct Hkind as [-> | -> ]|]. apply wp_ret.
  apply wp_bind2. eapply wp_store_l3; [exact HP|done|exact Hd|]. intros s1 HP1 HM1. cbv zeta.
  change PAGE_SIZE with (2 ^ 12). rewrite (u64_small (pa + 2 ^ 12)) by lia. case_cmp as Hc.
  { apply wp_ret. replace (cnt - 1) with (cnt - 1) by lia. replace (pa + 2 ^ 12) with (pa + 1 * 2 ^ 12) by lia.
    apply (HQ s1 _ 1); [done|lia|done|lia]. }
  assert (vpn_of (u64 (va + 2 ^ 12)) = vpn_of va + 1) as Hnext by (rewrite vpn_u64; apply vpn_next; lia).
  apply IH; [done|lia|lia|lia|lia|lia| |].
  - intros Hlt. destruct (idx3_next (vpn_of va)) as [Hpre Hidx]; [lia|]. rewrite Hnext. split; [done|].
    rewrite (desc_same 3 _ _ _ (vpn_of va)) by (lia || done). by apply (mp_desc _ _ _ _ _ _ _ _ _ _ HM1).
  - intros s2 va' j HP2 Hj HM2 Hva'. replace (cnt - 1 - j) with (cnt - (1 + j)) by lia.
    replace (pa + 2 ^ 12 + j * 2 ^ 12) with (pa + (1 + j) * 2 ^ 12) by lia.
    apply (HQ s2 va' (1 + j)); [done|lia| |lia]. rewrite Hnext in HM2.
    eapply mapped_trans; [lia|lia|lia|lia|exact HM1|]. by replace (pa + 1 * 2 ^ 12) with (pa + 2 ^ 12) by lia.
Qed.

(** The tables of one round exist or are allocated. *)
Lemma wp_tables {B} s root T H n va (k : Z → M (ptstate A) B) (Q : B → ptstate A → Prop) :
  pts s root T H (3 + n) → no_block (mem s) root (vpn_of va) →
  (∀ s' T' H' r, pts s' root T' H' n → grew root s T s' T' → desc 3 (mem s') root (vpn_of va) = Some r → wp (k r) s' Q) →
  wp (r ← get_next_ptp root 0 va true; l1 ← must_table r;
      r ← get_next_ptp l1 1 va true; l2 ← must_table r;
      r ← get_next_ptp l2 2 va true; l3 ← must_table r; k l3) s Q.
Proof.
  intros HP Hnb HQ. pose proof (vpn_range va) as Hv.
  assert (∀ s1 T1, grew root s T s1 T1 → no_block (mem s1) root (vpn_of va)) as Hnb1.
  { intros s1 T1 HG w. rewrite (gr_walk _ _ _ _ _ HG) by done. apply Hnb. }
  apply wp_bind_assoc. change 0 with (Z.of_nat 0). eapply wp_step_table; [exact HP|done|done|lia|done|done|].
  intros s1 T1 H1 r1 HP1 HG1 Hd1.
  apply wp_bind_assoc. change 1 with (Z.of_nat 1). eapply wp_step_table; [exact HP1|done|done|lia|done|by eapply Hnb1|].
  intros s2 T2 H2 r2 HP2 HG2 Hd2. assert (grew root s T s2 T2) as HG12 by by eapply grew_trans.
  apply wp_bind_assoc. change 2 with (Z.of_nat 2). eapply wp_step_table; [exact HP2|done|done|lia|done|by eapply Hnb1|].
  intros s3 T3 H3 r3 HP3 HG3 Hd3. eapply HQ; [exact HP3|by eapply grew_trans|done].
Qed.

Lemma wp_map_tables fuel s root T H n va pa cnt flags kind (Q : unit → ptstate A → Prop) :
  pts s root T H n → (3 * Z.to_nat cnt ≤ n)%nat → kind_ok kind → 0 ≤ cnt < Z.of_nat fuel → (0 < cnt → vpn_of va + cnt ≤ 2 ^ 36) →
  0 ≤ pa → pa + cnt * 2 ^ 12 ≤ 2 ^ 48 → (∀ i, 0 ≤ i < cnt → no_block (mem s) root (vpn_of va + i)) →
  (∀ s' T' H' n', pts s' root T' H' n' → mapped root (vpn_of va) pa cnt flags kind s T s' T' → Q tt s') →
  wp (map_tables fuel root va pa cnt flags kind) s Q.
Proof.
  intros HP Hn Hkind. revert s T H n va pa cnt HP Hn Q.
  induction fuel as [|fuel IH]; intros s T H n va pa cnt HP Hn Q Hcnt Hv Hpa Hpa' Hnb HQ; [lia|]. cbn [map_tables].
  case_cmp as Hc.
  2: { assert (cnt = 0) as -> by lia. apply wp_ret. eapply HQ; [exact HP|]. apply grew_mapped, grew_refl, (pts_rss _ _ _ _ _ HP). }
  assert (∃ n1, n = (3 + n1)%nat) as [n1 ->] by (exists (n - 3)%nat; lia).
  pose proof (vpn_range va) as Hvr. pose proof (idx_range 3 (vpn_of va)) as Hir.
  eapply wp_tables; [exact HP|rewrite <- (Z.add_0_r (vpn_of va)); apply Hnb; lia|].
  intros s1 T1 H1 l3 HP1 HG1 Hd1. cbv zeta. change (GET_L3_INDEX va) with (Z.land (Z.shiftr va ((3 - 3) * PAGE_ORDER + PAGE_SHIFT)) PTP_INDEX_MASK).
  rewrite get_index by lia. change PTP_ENTRIES with 512.
  apply wp_bind. eapply wp_map_l3; [exact HP1|done|lia|lia|lia|lia|lia|done|].
  intros s2 va2 j HP2 Hj HM2 Hva2. assert (1 ≤ j ≤ cnt) as Hjr by lia.
  assert (mapped root (vpn_of va) pa j flags kind s T s2 T1) as HM.
  { replace j with (0 + j) by lia. eapply mapped_trans; [lia|lia|lia|lia|by apply grew_mapped|].
    by rewrite Z.add_0_r, Z.mul_0_l, Z.add_0_r. }
  eapply IH; [exact HP2|lia|lia| |lia|lia| |].
  - intros Hlt. rewrite Hva2 by lia. lia.
  - intros i Hi. rewrite Hva2 by lia. intros w. rewrite (mp_out _ _ _ _ _ _ _ _ _ _ HM) by lia.
    rewrite <- Z.add_assoc. apply Hnb. lia.
  - intros s3 T3 H3 n3 HP3 HM3. eapply HQ; [exact HP3|].
    replace cnt with (j + (cnt - j)) by lia. eapply mapped_trans; [lia|lia|lia|lia|exact HM|].
    destruct (decide (cnt = j)) as [->|Hne]; [|by rewrite <- Hva2 by lia].
    rewrite Z.sub_diag in *. destruct HM3 as [D I O S R Ha]. split; [done|lia| |done|done|done]. intros v Hv3 _. apply O; lia.
Qed.
End ops.
