(* ===== verification/Pages.v ===== *)
(** * [get_pages] and [free_pages] of [mm/kmalloc.c]

    Whole pages by virtual address, on top of the buddy allocator; the instance
    of [PageSource] that the page table code runs on. *)

From S2P Require Import Prelude Macro ListHead Buddy Chunks BuddyInv BuddyOps BuddySpec BuddyCount BuddyInit BuddyTheorems PageTable.

Definition get_pages (order : Z) : M bstate Z :=
  page ← buddy_get_pages order;
  if page =? NULL then mret NULL
  else gets (λ s, page_to_virt s page).

Definition free_pages (addr : Z) : M bstate unit :=
  page ← gets (λ s, virt_to_page s addr);
  if page =? NULL then mret tt
  else buddy_free_pages page.

(** The address of the block at frame [c]. *)
Definition frame_addr (s : bstate) (c : Z) : Z := page_to_virt s (pfn_to_page s c).

Lemma frame_frame_addr s s' c : frame s s' → frame_addr s' c = frame_addr s c.
Proof.
  intros Hf. unfold frame_addr, page_to_virt, page_to_pfn. by rewrite (frame_pfn _ _ _ Hf), (fr_arr _ _ Hf), (fr_start _ _ Hf).
Qed.

Lemma used_pages_insert U c o : U !! c = None → used_pages (<[c := o]> U) = used_pages U + 2 ^ o.
Proof. intros Hc. unfold used_pages. rewrite map_to_list_insert by done. unfold block_pages. simpl. lia. Qed.

Lemma avail_unused s U c o : block_avail s U c o → 0 ≤ o → (∀ d k, U !! d = Some k → 0 ≤ k) → U !! c = None.
Proof.
  intros [_ _ _ Hap] Ho Hk. destruct (U !! c) as [k|] eqn:E; [|done]. exfalso.
  pose proof (pow2_gt0 k (Hk _ _ E)). pose proof (pow2_gt0 o Ho). destruct (Hap c k E); lia.
Qed.

(** As long as a page is unused, a single page can be had. *)
Lemma page_avail s U : buddy_ok s U → used_pages U < page_num s → ∃ c, block_avail s U c 0.
Proof.
  intros (C & L & HR & Hh & Hco & _ & HU) Hlt. pose proof (pages_conserved HR Hh HU) as Hc.
  pose proof (free_blocks_pages (L := L)) as Hfb.
  destruct (free_blocks (L := L)) as [|[c o] l] eqn:E; [unfold block_pages in Hfb; simpl in Hfb; lia|].
  assert ((c, o) ∈ free_blocks (L := L)) as Hin by (rewrite E; set_solver).
  apply (elem_of_free_blocks HR) in Hin as HcC. destruct (chunk_frames HR _ _ _ HcC) as (Hc0 & Ho & Hcn & Hcr).
  exists c. split; [done|lia|by rewrite Z.mod_1_r|]. intros d k Hd. apply HU in Hd.
  pose proof (pow2_gt0 o ltac:(lia)).
  destruct (ck_disj _ _ _ (rp_cmap _ _ _ HR) _ _ _ _ _ _ Hd HcC); [congruence|by left|lia].
Qed.

(** The region lies in the direct map. *)
Definition region_direct (s : bstate) : Prop := KBASE ≤ start_addr s ∧ start_addr s + size s ≤ KBASE + 2 ^ 40.

(** The pages [H] are in use: each is outside the region or in an allocated block. *)
Definition pages_in_use (s : bstate) (U : gmap Z Z) (H : gset Z) : Prop :=
  ∀ p, p ∈ H → start_addr s ≤ p < start_addr s + size s → ∃ c o, U !! c = Some o ∧ in_block s c o p.

Definition pages_ok (s : bstate) (H : gset Z) (n : nat) : Prop :=
  ∃ U, buddy_ok s U ∧ region_direct s ∧ used_pages U + Z.of_nat n ≤ page_num s ∧ pages_in_use s U H.

Lemma wp_get_pages s U o (Q : Z → bstate → Prop) :
  buddy_ok s U → 0 ≤ o ≤ 10 →
  ((∀ c, ¬ block_avail s U c o) → Q NULL s) →
  (∀ c s', block_avail s U c o → frame s s' → buddy_ok s' (<[c := o]> U) → Q (frame_addr s c) s') →
  wp (get_pages o) s Q.
Proof.
  intros Hok Ho HQ0 HQ1. unfold get_pages. apply wp_bind, (wp_buddy_get_pages _ _ _ _ Hok Ho).
  - intros Hno. simpl. by apply wp_ret, HQ0.
  - intros c s' Hav Hf Hok'. rewrite (proj2 (Z.eqb_neq _ _)) by (eapply ok_pfn_ne_null; [exact Hok|by destruct Hav]).
    apply wp_gets. fold (frame_addr s c). rewrite <- (frame_pfn _ _ c Hf). fold (frame_addr s' c).
    rewrite (frame_frame_addr _ _ _ Hf). by apply HQ1.
Qed.

Lemma frame_addr_eq s U c : buddy_ok s U → 0 ≤ c ≤ page_num s → frame_addr s c = start_addr s + c * 2 ^ 12.
Proof.
  intros Hok Hc. pose proof (buddy_ok_region _ _ Hok) as HG. unfold frame_addr.
  rewrite (page_to_virt_frame HG) by done. rewrite (start_vpn HG). lia.
Qed.

Lemma in_block_frame s s' c o p : frame s s' → in_block s c o p → in_block s' c o p.
Proof.
  intros Hf. unfold in_block. fold (frame_addr s c) (frame_addr s' c). by rewrite (frame_frame_addr _ _ _ Hf).
Qed.

(** The page returned is new, in the direct map, and from now on in use. *)
Lemma get_page_fresh s U H c s' : buddy_ok s U → region_direct s → pages_in_use s U H → block_avail s U c 0 →
  frame s s' → frame_addr s c ∉ H ∧ direct_page (frame_addr s c) ∧ pages_in_use s' (<[c := 0]> U) ({[frame_addr s c]} ∪ H).
Proof.
  intros Hok [Hd1 Hd2] Hin [Hc0 Hcn _ Hap] Hf. pose proof (buddy_ok_region _ _ Hok) as HG. change (2 ^ 0) with 1 in *.
  pose proof (frame_addr_eq s U c Hok ltac:(lia)) as Ha. pose proof (rg_size _ HG) as Hsz.
  assert (∀ d k, U !! d = Some k → in_block s d k (frame_addr s c) → False) as Hnot.
  { intros d k Hd Hb. destruct (used_block _ _ _ _ Hok Hd) as (Hd0 & Hk & Hdn & _). pose proof (pow2_gt0 k ltac:(lia)).
    unfold in_block in Hb. fold (frame_addr s d) in Hb. rewrite (frame_addr_eq s U d Hok) in Hb by lia.
    rewrite chunk_size_pow2, Z.pow_add_r in Hb by lia. destruct (Hap d k Hd); lia. }
  split_and!.
  - intros HinH. destruct (Hin _ HinH) as (d & k & Hd & Hb); [lia|]. by eapply Hnot.
  - split; [|lia]. rewrite Ha, Z.mod_add by lia. apply (rg_page _ HG).
  - intros p Hp Hpr. rewrite (fr_start _ _ Hf), (fr_size _ _ Hf) in Hpr. apply elem_of_union in Hp as [->%elem_of_singleton|Hp].
    + exists c, 0. rewrite lookup_insert_eq. split; [done|]. unfold in_block. fold (frame_addr s' c).
      rewrite (frame_frame_addr _ _ _ Hf), chunk_size_pow2 by lia. lia.
    + destruct (Hin p Hp Hpr) as (d & k & Hd & Hb). exists d, k. split; [|by eapply in_block_frame].
      rewrite lookup_insert_ne; [done|]. intros ->. apply (Hnot d k Hd). unfold in_block. fold (frame_addr s d).
      destruct (used_block _ _ _ _ Hok Hd) as (_ & Hk & _). rewrite chunk_size_pow2 by lia. pose proof (pow2_gt0 (12 + k)). lia.
Qed.

Lemma used_pages_le s U : buddy_ok s U → used_pages U ≤ page_num s.
Proof.
  intros (C & L & HR & Hh & _ & _ & HU). pose proof (pages_conserved HR Hh HU). pose proof (fsum_bound HR Hh HU). lia.
Qed.

Lemma get_page_ok s H n : pages_ok s H n →
  wp (get_pages 0) s (λ p s', (p = NULL ∧ n = O ∧ pages_ok s' H O) ∨
                              (p ∉ H ∧ direct_page p ∧ pages_ok s' ({[p]} ∪ H) (Nat.pred n))).
Proof.
  intros (U & Hok & Hd & Hn & Hin). apply (wp_get_pages _ _ _ _ Hok); [lia| |].
  - intros Hno. left. destruct (decide (used_pages U < page_num s)) as [Hlt|Hge].
    + destruct (page_avail _ _ Hok Hlt) as [c Hc]. by destruct (Hno c).
    + split; [done|]. split; [lia|]. exists U. split; [done|]. split; [done|]. split; [lia|done].
  - intros c s' Hav Hf Hok'. right. destruct (get_page_fresh _ _ _ _ _ Hok Hd Hin Hav Hf) as (H1 & H2 & H3).
    split; [done|]. split; [done|]. exists (<[c := 0]> U). split; [done|]. split; [|split; [|done]].
    + unfold region_direct. by rewrite (fr_start _ _ Hf), (fr_size _ _ Hf).
    + pose proof (used_pages_le _ _ Hok') as Hle. destruct n as [|n]; [simpl; lia|].
      rewrite used_pages_insert; [rewrite (fr_num _ _ Hf); change (2 ^ 0) with 1; simpl; lia|].
      eapply avail_unused; [done|lia|]. intros d k Hdk. destruct (used_block _ _ _ _ Hok Hdk) as (_ & ? & _). lia.
Qed.

Lemma pages_ok_weaken s H n n' : pages_ok s H n → (n' ≤ n)%nat → pages_ok s H n'.
Proof.
  intros (U & Hok & Hd & Hn & Hin) Hle. exists U. split; [done|]. split; [done|]. split; [lia|done].
Qed.

#[global] Instance buddy_page_source : PageSource bstate := {
  ps_get_pages := get_pages;
  ps_ok := pages_ok;
  ps_get_page_spec := get_page_ok;
  ps_weaken := pages_ok_weaken
}.

(** ** Releasing pages by address *)
Lemma wp_free_pages s U c o (Q : unit → bstate → Prop) :
  buddy_ok s U → U !! c = Some o → (∀ s', frame s s' → buddy_ok s' (delete c U) → Q tt s') →
  wp (free_pages (frame_addr s c)) s Q.
Proof.
  intros Hok Hc HQ. destruct (used_block _ _ _ _ Hok Hc) as (Hc0 & Ho & Hcn & _). pose proof (pow2_gt0 o ltac:(lia)).
  pose proof (buddy_ok_region _ _ Hok) as HG. unfold free_pages. apply wp_bind, wp_gets.
  assert (virt_to_page s (frame_addr s c) = pfn_to_page s c) as ->.
  { unfold frame_addr. rewrite (page_to_virt_frame HG) by lia. rewrite <- (Z.add_0_r (_ * _)). apply virt_to_page_frame; [done|lia|lia]. }
  rewrite (proj2 (Z.eqb_neq _ _)) by (by eapply ok_pfn_ne_null). by eapply wp_buddy_free_pages.
Qed.
