(* ===== verification/PageTableTheorems.v ===== *)
(** * The theorems about page tables

    What [map_range_in_pgtbl_*] and [query_in_pgtbl] promise, over any page
    source; the instances run on the buddy allocator as [init_buddy] leaves it. *)

From S2P Require Import Prelude Macro ListHead Buddy BuddyInv BuddySpec BuddyCount BuddyInit BuddyTheorems.
From S2P Require Import PageTable PageTableInv Mmu PageTableOps Pages.

(** Pages covered by [len] bytes. *)
Definition page_count (len : Z) : Z := len / PAGE_SIZE + (if len mod PAGE_SIZE >? 0 then 1 else 0).

Lemma page_count_bound len : 0 ≤ len → 0 ≤ page_count len ∧ len ≤ page_count len * 2 ^ 12 < len + 2 ^ 12.
Proof.
  intros Hl. unfold page_count. change PAGE_SIZE with (2 ^ 12).
  pose proof (Z.div_mod len (2 ^ 12) ltac:(lia)). pose proof (Z.mod_pos_bound len (2 ^ 12) ltac:(lia)).
  pose proof (Z.div_pos len (2 ^ 12) ltac:(lia) ltac:(lia)). case_cmp; lia.
Qed.

Lemma walk_entry n m p l vpn l' a e : walk n m p l vpn = Some (l', a, e) → m !! a = Some e ∧ IS_PTE_INVALID e = false.
Proof.
  revert p l. induction n as [|n IH]; intros p l; cbn [walk]; destruct (m !! (p + 8 * idx l vpn)) as [e'|] eqn:E; try done;
    destruct (IS_PTE_INVALID e') eqn:Ei; try done.
  - intros [= <- <- <-]. done.
  - destruct (IS_PTE_TABLE e'); [apply IH|]. by intros [= <- <- <-].
Qed.

Lemma leaf_pa_l3 x a p flags kind : 0 ≤ p < 2 ^ 48 →
  leaf_pa x (3, a, l3_val p flags kind) = p / 2 ^ 12 * 2 ^ 12 + x mod 2 ^ 12.
Proof.
  intros Hp. unfold leaf_pa, GET_NEXT_PTP, GET_PADDR_IN_PTE. cbn [fst snd]. rewrite l3_val_frame by done.
  change (12 + 9 * (3 - 3)) with 12. unfold PAGE_SHIFT. rewrite Z.shiftl_mul_pow2 by lia.
  pose proof (Z.div_mod p (2 ^ 12) ltac:(lia)). pose proof (Z.mod_pos_bound p (2 ^ 12) ltac:(lia)).
  pose proof (Z.mod_pos_bound x (2 ^ 12) ltac:(lia)).
  rewrite (u64_small (p / 2 ^ 12 * 2 ^ 12)) by lia. rewrite virt_phys_virt by lia. apply u64_small. lia.
Qed.

(** What a caller of [map_range_in_pgtbl_*] has to provide. *)
Record map_pre {A} `{!PageSource A} (s : ptstate A) (root va pa len : Z) (T : gmap Z (Z * Z)) (H : gset Z) (n : nat) : Prop := {
  mr_pts : pts s root T H n;
  mr_len : 0 ≤ len;
  mr_va : va mod 2 ^ 12 = 0;
  mr_range : vpn_of va + page_count len ≤ 2 ^ 36;
  mr_pa : 0 ≤ pa;
  mr_pa_end : pa + page_count len * 2 ^ 12 ≤ 2 ^ 48;
  mr_room : (3 * Z.to_nat (page_count len) ≤ n)%nat;
  mr_block : ∀ i, 0 ≤ i < page_count len → no_block (mem s) root (vpn_of va + i)
}.

Section theorems.
Context {A : Type} `{!PageSource A}.
Implicit Types s : ptstate A.

Lemma root_ne_null s root T H n : pts s root T H n → (root =? NULL) = false.
Proof. intros [Hok _ _]. eapply direct_ne_null. by destruct (po_page _ _ _ _ Hok _ _ _ (po_root _ _ _ _ Hok)). Qed.

Lemma wp_map_range s root va pa len flags kind T H n :
  map_pre s root va pa len T H n → kind_ok kind →
  wp (map_range_in_pgtbl_common root va pa len flags kind) s (λ r s', r = 0 ∧ ∃ T' H' n',
    pts s' root T' H' n' ∧ mapped root (vpn_of va) pa (page_count len) flags kind s T s' T').
Proof.
  intros [HP Hlen Hva Hr Hpa Hpe Hn Hnb] Hk. unfold map_range_in_pgtbl_common. cbv zeta. fold (page_count len).
  pose proof (page_count_bound len Hlen) as [Hc _].
  apply wp_bind, wp_BUG_ON; [by eapply root_ne_null|].
  apply wp_bind, wp_BUG_ON; [change PAGE_SIZE with (2 ^ 12); by rewrite Hva|].
  apply wp_bind. eapply wp_map_tables; [exact HP|done|done|lia|done|done|done|done|].
  intros s' T' H' n' HP' HM. apply wp_ret. split; [done|]. eauto.
Qed.

(** An address of the range that was mapped. *)
Lemma query_mapped s root va pa len flags kind T H n s' T' H' n' x :
  map_pre s root va pa len T H n → pts s' root T' H' n' → mapped root (vpn_of va) pa (page_count len) flags kind s T s' T' →
  vpn_of va ≤ vpn_of x < vpn_of va + page_count len → let p := pa + (vpn_of x - vpn_of va) * 2 ^ 12 in
  ∃ a, query_in_pgtbl root x s' = Ok (inr (p / 2 ^ 12 * 2 ^ 12 + x mod 2 ^ 12, a), s') ∧ mem s' !! a = Some (l3_val p flags kind).
Proof.
  intros Hpre HP' HM Hx p. destruct Hpre. destruct (mp_in _ _ _ _ _ _ _ _ _ _ HM (vpn_of x - vpn_of va)) as [a Ha]; [lia|].
  replace (vpn_of va + (vpn_of x - vpn_of va)) with (vpn_of x) in Ha by lia. fold p in Ha. exists a.
  rewrite (query_walk _ _ _ _ _ (pts_tree _ _ _ _ _ HP')), Ha. split; [|by apply walk_entry in Ha as [? _]].
  rewrite leaf_pa_l3; [done|]. unfold p. lia.
Qed.

(** What the MMU makes of an address, in the form of [query_in_pgtbl]. *)
Definition mmu_says (s : ptstate A) (root va : Z) : Z + Z * Z :=
  match mmu_walk 3 (phys (mem s)) (root - KBASE) va with
  | None => inl (- ENOMEM)
  | Some (pa, a) => inr (pa, a + KBASE)
  end.

Lemma query_mmu s root T H va : pt_ok (mem s) root T H → arch_ok (mem s) T → query_in_pgtbl root va s = Ok (mmu_says s root va, s).
Proof.
  intros Hok Ha. rewrite (query_walk _ _ _ _ _ Hok). unfold mmu_says.
  rewrite (mmu_walk_eq Hok Ha 3 root va) by (done || by rewrite prefix_zero by apply vpn_range; apply Hok).
  change (3 - Z.of_nat 3) with 0. destruct (walk 3 (mem s) root 0 (vpn_of va)) as [[[l a] e]|]; [|done].
  cbn [fmap option_fmap option_map fst snd]. unfold leaf_pa. cbn [fst snd]. do 4 f_equal. lia.
Qed.

(** C18. [map_range_in_pgtbl_common] maps: given enough free pages for new
    tables and no block mapping in the way, it returns 0, and afterwards
    [query_in_pgtbl] translates every address of the range to the requested
    frame (page [i] of the range to frame [i] of the physical range, the byte
    offset kept), through an L3 entry that carries exactly the requested flags;
    the table is again a well-formed tree. *)
Theorem map_range_maps s root va pa len flags kind T H n :
  map_pre s root va pa len T H n → kind = USER_PTE ∨ kind = KERNEL_PTE →
  ∃ s' T' H' n', map_range_in_pgtbl_common root va pa len flags kind s = Ok (0, s') ∧ pts s' root T' H' n' ∧
    ∀ x, vpn_of va ≤ vpn_of x < vpn_of va + page_count len →
      let p := pa + (vpn_of x - vpn_of va) * 2 ^ 12 in
      ∃ a, query_in_pgtbl root x s' = Ok (inr (p / 2 ^ 12 * 2 ^ 12 + x mod 2 ^ 12, a), s') ∧
           mem s' !! a = Some (pte_flags (l3_base p) flags kind).
Proof.
  intros Hpre Hk. pose proof (wp_map_range _ _ _ _ _ flags kind _ _ _ Hpre Hk) as Hw.
  apply wp_inv in Hw as (r & s' & E & -> & T' & H' & n' & HP' & HM). exists s', T', H', n'. split; [done|]. split; [done|].
  intros x Hx p. by eapply query_mapped.
Qed.

(** C19. [map_range_in_pgtbl_common] touches nothing else: every address outside
    the range translates as before (to the same address through the same entry,
    or not at all), and [rss], when given, has grown by one page for every page
    mapped and every table page allocated. *)
Theorem map_range_frame s root va pa len flags kind T H n s' r :
  map_pre s root va pa len T H n → kind = USER_PTE ∨ kind = KERNEL_PTE →
  map_range_in_pgtbl_common root va pa len flags kind s = Ok (r, s') →
  (∀ x, ¬ (vpn_of va ≤ vpn_of x < vpn_of va + page_count len) →
     ∃ t, query_in_pgtbl root x s = Ok (t, s) ∧ query_in_pgtbl root x s' = Ok (t, s')) ∧
  ∃ T' H' n', pts s' root T' H' n' ∧ (base.size T ≤ base.size T')%nat ∧
    rss s' = (λ v, s64 (v + 2 ^ 12 * (page_count len + Z.of_nat (base.size T') - Z.of_nat (base.size T)))) <$> rss s.
Proof.
  intros Hpre Hk E. pose proof (wp_map_range _ _ _ _ _ flags kind _ _ _ Hpre Hk) as Hw. unfold wp in Hw. rewrite E in Hw.
  destruct Hw as (-> & T' & H' & n' & HP' & HM). split.
  - intros x Hx. eexists. rewrite (query_walk _ _ _ _ _ (pts_tree _ _ _ _ _ HP')).
    rewrite (mp_out _ _ _ _ _ _ _ _ _ _ HM) by (apply vpn_range || done).
    rewrite (query_walk _ _ _ _ _ (pts_tree _ _ _ _ _ (mr_pts _ _ _ _ _ _ _ _ Hpre))). done.
  - exists T', H', n'. split; [done|]. split; [apply (mp_size _ _ _ _ _ _ _ _ _ _ HM)|apply (mp_rss _ _ _ _ _ _ _ _ _ _ HM)].
Qed.
End theorems.

(** ** An empty table *)
Section empty.
Context {A : Type} `{!PageSource A} (root : Z) (Hroot : direct_page root).

Lemma empty_entry i : 0 ≤ i < 512 → zero_page root !! (root + 8 * i) = Some 0.
Proof. apply lookup_zero_page. Qed.

Lemma empty_table_ok : pt_ok (zero_page root) root {[root := (0, 0)]} {[root]}.
Proof.
  split.
  - apply lookup_singleton_eq.
  - intros p l pre [<- [= <- <-]]%lookup_singleton_Some. split; [done|]. split; [set_solver|lia].
  - intros p l pre i [<- _]%lookup_singleton_Some Hi. rewrite empty_entry by done. eauto.
  - intros p l pre i e [<- _]%lookup_singleton_Some _ Hi. rewrite empty_entry by done. by intros [= <-].
  - intros p pre i e [<- _]%lookup_singleton_Some Hi. rewrite empty_entry by done. by intros [= <-].
Qed.

Lemma empty_table_no_block vpn : no_block (zero_page root) root vpn.
Proof. intros w. cbn [walk]. rewrite empty_entry by apply idx_range. done. Qed.

Lemma empty_table_pre (a : A) va pa len n :
  ps_ok a {[root]} n → 0 ≤ len → va mod 2 ^ 12 = 0 → vpn_of va + page_count len ≤ 2 ^ 36 → 0 ≤ pa →
  pa + page_count len * 2 ^ 12 ≤ 2 ^ 48 → (3 * Z.to_nat (page_count len) ≤ n)%nat →
  map_pre (mk_pt a (zero_page root) None) root va pa len {[root := (0, 0)]} {[root]} n.
Proof. intros. split; try done; [split; [apply empty_table_ok|done|done]|intros; apply empty_table_no_block]. Qed.
End empty.

(** The kernel stack of core 0 (3 pages) mapped by a table in the kernel image. *)
Definition demo_root : Z := phys_to_virt 0x180000.
Definition demo_va : Z := KSTACKx_ADDR 0.

Lemma demo_map_pre : ∃ a : bstate,
  map_pre (mk_pt a (zero_page demo_root) None) demo_root demo_va 0x80000 0x3000 {[demo_root := (0, 0)]} {[demo_root]} 9.
Proof.
  destruct demo_boot as (a & _ & Hok & _ & Hst & Hsz & _ & Hn & _). exists a.
  apply empty_table_pre; [split; vm_compute; intuition congruence| |vm_compute; congruence|done|vm_compute; congruence|lia|vm_compute; congruence|vm_compute; lia].
  exists ∅. split; [done|]. unfold region_direct, pages_in_use. rewrite Hst, Hsz, Hn. split; [split; vm_compute; congruence|].
  split; [vm_compute; congruence|]. intros p ->%elem_of_singleton [Hlow _]. exfalso. revert Hlow. vm_compute. congruence.
Qed.

Lemma map_range_maps_witness :
  ∃ (a : bstate) s' T' H' n', map_range_in_pgtbl_common demo_root demo_va 0x80000 0x3000 3 KERNEL_PTE (mk_pt a (zero_page demo_root) None) = Ok (0, s') ∧
    pts s' demo_root T' H' n' ∧
    ∀ x, vpn_of demo_va ≤ vpn_of x < vpn_of demo_va + page_count 0x3000 →
      let p := 0x80000 + (vpn_of x - vpn_of demo_va) * 2 ^ 12 in
      ∃ e, query_in_pgtbl demo_root x s' = Ok (inr (p / 2 ^ 12 * 2 ^ 12 + x mod 2 ^ 12, e), s') ∧
           mem s' !! e = Some (pte_flags (l3_base p) 3 KERNEL_PTE).
Proof.
  destruct demo_map_pre as [a Hpre]. exists a.
  exact (map_range_maps _ _ _ _ _ 3 KERNEL_PTE _ _ _ Hpre (or_intror eq_refl)).
Defined.

Lemma demo_map_run : ∃ (a : bstate) s',
  map_pre (mk_pt a (zero_page demo_root) None) demo_root demo_va 0x80000 0x3000 {[demo_root := (0, 0)]} {[demo_root]} 9 ∧
  map_range_in_pgtbl_common demo_root demo_va 0x80000 0x3000 3 KERNEL_PTE (mk_pt a (zero_page demo_root) None) = Ok (0, s').
Proof.
  destruct demo_map_pre as [a Hpre]. pose proof (wp_map_range _ _ _ _ _ 3 KERNEL_PTE _ _ _ Hpre (or_intror eq_refl)) as Hw.
  destruct (proj1 (wp_inv _ _ _) Hw) as (r & s' & E & Hr & _). rewrite Hr in E. exists a, s'. split; [exact Hpre|exact E].
Qed.

Lemma map_range_frame_witness :
  ∃ (a : bstate) s', map_range_in_pgtbl_common demo_root demo_va 0x80000 0x3000 3 KERNEL_PTE (mk_pt a (zero_page demo_root) None) = Ok (0, s') ∧
  ∀ x, ¬ (vpn_of demo_va ≤ vpn_of x < vpn_of demo_va + page_count 0x3000) →
     ∃ t, query_in_pgtbl demo_root x (mk_pt a (zero_page demo_root) None) = Ok (t, mk_pt a (zero_page demo_root) None) ∧
          query_in_pgtbl demo_root x s' = Ok (t, s').
Proof.
  destruct demo_map_run as (a & s' & Hpre & E). exists a, s'. split; [exact E|].
  exact (proj1 (map_range_frame _ _ _ _ _ 3 KERNEL_PTE _ _ _ s' 0 Hpre (or_intror eq_refl) E)).
Defined.

Lemma empty_arch_ok root : arch_ok (zero_page root) {[root := (0, 0)]}.
Proof. intros p l pre i e [<- _]%lookup_singleton_Some Hi. rewrite lookup_zero_page by done. intros [= <-] Hv. discriminate Hv. Qed.

(** C29. [query_in_pgtbl] gives the answer of the MMU.  On a well-formed tree
    whose entries are ones that the architecture defines (a valid level-3 entry
    has bit 1 set, a block has no address bits below its size: [arch_ok]), and
    for every address, it returns the physical address that the table walk of
    [Mmu] computes from the descriptor bits alone (a 4 KB page, a 2 MB block or
    a 1 GB block, with the offset inside it), together with the address of the
    last descriptor, and [-ENOMEM] exactly when the walk faults; memory is
    unchanged.  The mapping code keeps to such entries: after any mapping that
    meets its conditions the same holds of the new tables. *)
Theorem query_is_walk {A} `{!PageSource A} (s : ptstate A) root T H :
  pt_ok (mem s) root T H → arch_ok (mem s) T →
  (∀ va, query_in_pgtbl root va s = Ok (mmu_says s root va, s)) ∧
  (∀ va pa len flags kind n r s', map_pre s root va pa len T H n → kind = USER_PTE ∨ kind = KERNEL_PTE →
     map_range_in_pgtbl_common root va pa len flags kind s = Ok (r, s') →
     ∀ x, query_in_pgtbl root x s' = Ok (mmu_says s' root x, s')).
Proof.
  intros Hok Ha. split; [intros va; by eapply query_mmu|]. intros va pa len flags kind n r s' Hpre Hk E x.
  pose proof (wp_map_range _ _ _ _ _ flags kind _ _ _ Hpre Hk) as Hw. unfold wp in Hw. rewrite E in Hw. destruct Hw as (_ & T' & H' & n' & HP & HM).
  eapply query_mmu; [apply HP|]. by apply (mp_arch _ _ _ _ _ _ _ _ _ _ HM).
Qed.

(** The stack of the first CPU: unmapped in the empty table, translated to its
    frame, by the code and by the MMU, once it is mapped. *)
Lemma query_is_walk_witness : ∃ (a : bstate) s' e,
  query_in_pgtbl demo_root (demo_va + 0x1234) (mk_pt a (zero_page demo_root) None) = Ok (mmu_says (mk_pt a (zero_page demo_root) None) demo_root (demo_va + 0x1234), mk_pt a (zero_page demo_root) None) ∧
  map_range_in_pgtbl_common demo_root demo_va 0x80000 0x3000 3 KERNEL_PTE (mk_pt a (zero_page demo_root) None) = Ok (0, s') ∧
  query_in_pgtbl demo_root (demo_va + 0x1234) s' = Ok (mmu_says s' demo_root (demo_va + 0x1234), s') ∧
  mmu_walk 3 (phys (mem s')) 0x180000 (demo_va + 0x1234) = Some (0x81234, e).
Proof.
  destruct demo_map_pre as [a Hpre]. pose proof (mr_pts _ _ _ _ _ _ _ _ Hpre) as [Hok _ _].
  pose proof (wp_map_range _ _ _ _ _ 3 KERNEL_PTE _ _ _ Hpre (or_intror eq_refl)) as Hw.
  destruct (proj1 (wp_inv _ _ _) Hw) as (r & s' & E & Hr & T' & H' & n' & HP & HM). rewrite Hr in E. clear Hw Hr.
  destruct (query_is_walk _ _ _ _ Hok (empty_arch_ok demo_root)) as [Q1 Q2].
  specialize (Q2 _ _ _ 3 KERNEL_PTE _ _ _ Hpre (or_intror eq_refl) E (demo_va + 0x1234)).
  destruct (query_mapped _ _ _ _ _ 3 KERNEL_PTE _ _ _ s' T' H' n' (demo_va + 0x1234) Hpre HP HM) as (b & Hq & _); [split; vm_compute; congruence|].
  exists a, s', (b - KBASE). split; [exact (Q1 (demo_va + 0x1234))|]. split; [exact E|]. split; [exact Q2|].
  rewrite Q2 in Hq. assert (mmu_says s' demo_root (demo_va + 0x1234) = inr (0x81234, b)) as Hm by (injection Hq as Hq; rewrite Hq; reflexivity). unfold mmu_says in Hm.
  change (demo_root - KBASE) with 0x180000 in Hm. destruct (mmu_walk 3 (phys (mem s')) 0x180000 (demo_va + 0x1234)) as [[pa w]|]; [|discriminate Hm].
  injection Hm as Hpa Hb. rewrite Hpa. f_equal. f_equal. lia.
Defined.

(** ** Flags *)
(** Read a field back through the assignments of [set_pte_flags]. *)
Ltac pte_fields flags :=
  unfold pte_flags, l3_base, pte.l3_AP, pte.l3_PXN, pte.l3_UXN, pte.l3_AF, pte.l3_nG, pte.l3_SH, pte.l3_attr_index,
    pte.l3_pfn, pte.l3_is_page, pte.l3_is_valid;
  change (USER_PTE =? KERNEL_PTE) with false; change (KERNEL_PTE =? KERNEL_PTE) with true;
  destruct (Z.testbit flags 2), (Z.testbit flags 3), (Z.testbit flags 4); cbn [negb];
  repeat first [rewrite get_set_same by lia | rewrite get_set_other by lia].

Lemma has_flag_bit flags k : 0 ≤ k → has_flag flags (Z.shiftl 1 k) = Z.testbit flags k.
Proof. intros Hk. unfold has_flag. by rewrite land_pow2, negb_involutive. Qed.

Lemma bits_field hi lo e : 0 ≤ lo → lo ≤ hi + 1 → bits hi lo e = get_field lo (hi + 1 - lo) e.
Proof. intros Hl Hh. unfold bits, get_field. by rewrite Z.land_ones, Z.shiftr_div_pow2 by lia. Qed.

(** [READ], [WRITE], [EXEC], [DEVICE] and [NOCACHE] are bits 0 to 4. *)
Lemma pte_flags_bits e flags kind : pte_flags e flags kind =
  let e := pte.l3_AP (if Z.testbit flags 0 && negb (Z.testbit flags 1) then 3 else if Z.testbit flags 1 then 1 else 0) e in
  let e :=
    if kind =? KERNEL_PTE then pte.l3_UXN 1 (if negb (Z.testbit flags 2) then pte.l3_PXN 1 e else e)
    else pte.l3_PXN 1 (if negb (Z.testbit flags 2) then pte.l3_UXN 1 e else e) in
  let e := pte.l3_SH 3 (pte.l3_nG 1 (pte.l3_AF 1 e)) in
  if Z.testbit flags 3 then pte.l3_SH 0 (pte.l3_attr_index 0 e)
  else if Z.testbit flags 4 then pte.l3_attr_index 3 e else pte.l3_attr_index 4 e.
Proof.
  unfold pte_flags, vmr_prot_to_ap, VMR_READ, VMR_WRITE, VMR_EXEC, VMR_DEVICE, VMR_NOCACHE. rewrite !has_flag_bit by lia. done.
Qed.

(** C30. The entry that [set_pte_flags] builds for a page, bit by bit, from the
    flags ([READ] is bit 0, [WRITE] 1, [EXEC] 2, [DEVICE] 3, [NOCACHE] 4): it is
    valid, a page, accessed, non-global, and holds the frame number.  The
    access permission is 1 (EL1 and EL0 read and write) with [WRITE], 3 (both
    read only) with [READ] alone, 0 (EL1 only) with neither.  Device memory has
    attribute index 0 and is not shareable, uncached memory index 3, other memory
    index 4, both inner shareable.  Privileged code never runs user pages,
    unprivileged code never runs kernel pages, and a page without [EXEC]
    is executable for nobody.  All other bits are 0. *)
Theorem set_pte_flags_fields S (s : S) pa flags kind :
  kind = USER_PTE ∨ kind = KERNEL_PTE →
  let '(rd, wr, ex, device, nocache) := (Z.testbit flags 0, Z.testbit flags 1, Z.testbit flags 2, Z.testbit flags 3, Z.testbit flags 4) in
  ∃ e, set_pte_flags (l3_base pa) flags kind s = Ok (e, s) ∧
    bits 0 0 e = 1 ∧ bits 1 1 e = 1 ∧ bits 47 12 e = (pa / 2 ^ 12) mod 2 ^ 36 ∧ bits 10 10 e = 1 ∧ bits 11 11 e = 1 ∧
    bits 7 6 e = (if wr then 1 else if rd then 3 else 0) ∧
    bits 9 8 e = (if device then 0 else 3) ∧
    bits 4 2 e = (if device then 0 else if nocache then 3 else 4) ∧
    bits 53 53 e = (if (kind =? KERNEL_PTE) && ex then 0 else 1) ∧
    bits 54 54 e = (if (kind =? USER_PTE) && ex then 0 else 1) ∧
    (∀ i, i = 5 ∨ 48 ≤ i ≤ 52 ∨ 55 ≤ i → Z.testbit e i = false).
Proof.
  intros Hk. exists (pte_flags (l3_base pa) flags kind). split; [by destruct Hk as [-> | -> ]|]. rewrite pte_flags_bits. cbv zeta.
  rewrite !bits_field by lia. split_and!.
  11: { intros i Hi. unfold l3_base, pte.l3_AP, pte.l3_PXN, pte.l3_UXN, pte.l3_AF, pte.l3_nG, pte.l3_SH, pte.l3_attr_index, pte.l3_pfn, pte.l3_is_page, pte.l3_is_valid.
    repeat match goal with |- context [if ?b then _ else _] => destruct b end; rewrite !testbit_set_field, !decide_False by lia; apply Z.bits_0. }
  all: destruct Hk as [-> | -> ]; pte_fields flags; try reflexivity.
  all: try (rewrite Z.shiftr_div_pow2 by (unfold PAGE_SHIFT; lia); reflexivity).
  all: by destruct (Z.testbit flags 0), (Z.testbit flags 1).
Qed.

(** A kernel page for reading and writing. *)
Lemma set_pte_flags_fields_witness :
  ∃ e, set_pte_flags (l3_base 0x80000) 3 KERNEL_PTE tt = Ok (e, tt) ∧ bits 47 12 e = 0x80 ∧ bits 7 6 e = 1 ∧ bits 4 2 e = 4 ∧ bits 53 53 e = 1 ∧ bits 54 54 e = 1.
Proof.
  destruct (set_pte_flags_fields unit tt 0x80000 3 KERNEL_PTE (or_intror eq_refl)) as (e & E & _ & _ & H1 & _ & _ & H2 & _ & H3 & H4 & H5 & _).
  exists e. split; [exact E|]. split; [exact H1|]. split; [exact H2|]. split; [exact H3|]. split; [exact H4|exact H5].
Defined.

(** ** Out of memory *)

(** C39. A mapping that needs a table page panics when there is none: if
    [get_pages(0)] answers [NULL] and the L0 entry of the first page is invalid,
    [map_range_in_pgtbl_common] ends in [BUG_ON] instead of returning an error. *)
Theorem map_range_oom_panics {A} `{!PageSource A} (s : ptstate A) root va pa len flags kind T H a :
  pt_ok (mem s) root T H → va mod 2 ^ 12 = 0 → 0 < len →
  ps_get_pages 0 (src s) = Ok (NULL, a) → desc 1 (mem s) root (vpn_of va) = None →
  map_range_in_pgtbl_common root va pa len flags kind s = Halt HBug.
Proof.
  intros Hok Hva Hlen Hget Hd. unfold map_range_in_pgtbl_common. cbv zeta. fold (page_count len).
  pose proof (page_count_bound len ltac:(lia)) as [Hc Hc2]. pose proof (po_root _ _ _ _ Hok) as Hr.
  destruct (po_page _ _ _ _ Hok _ _ _ Hr) as (Hrd & _ & _). rewrite (direct_ne_null _ Hrd).
  change PAGE_SIZE with (2 ^ 12). rewrite Hva. cbn [negb Z.eqb BUG_ON].
  cbn [map_tables]. rewrite Z.gtb_ltb, (proj2 (Z.ltb_lt 0 (page_count len))) by lia.
  unfold mbind, M_bind, mret, M_ret. unfold get_next_ptp. rewrite (direct_ne_null _ Hrd), index_cases by lia.
  destruct (po_mem _ _ _ _ Hok root 0 0 (idx 0 (vpn_of va)) Hr (idx_range _ _)) as [e He].
  unfold mbind, M_bind, mret, M_ret, ld_ent, load. rewrite He.
  assert (IS_PTE_INVALID e = true) as ->.
  { destruct (IS_PTE_INVALID e) eqn:Ei; [done|]. exfalso. pose proof (po_l0 _ _ _ _ Hok _ _ _ _ Hr (idx_range _ _) He Ei) as Ht.
    rewrite (desc_step 0 _ _ _ root e eq_refl He Ei Ht) in Hd. discriminate. }
  cbn [negb]. unfold pt_get_pages, zoom. rewrite Hget. done.
Qed.

(** An allocator with no pages. *)
Definition demo_empty : bstate := mk_bstate 1 0 0 0 0 0 (list_to_map ((λ o, (o, 0)) <$> seqZ 0 11)) ∅ ∅.

Lemma map_range_oom_panics_witness :
  ∃ a : bstate, map_range_in_pgtbl_common demo_root demo_va 0x80000 0x3000 3 KERNEL_PTE (mk_pt a (zero_page demo_root) None) = Halt HBug.
Proof.
  assert (direct_page demo_root) as Hd by (split; vm_compute; intuition congruence).
  exists demo_empty.
  refine (map_range_oom_panics (mk_pt demo_empty (zero_page demo_root) None) demo_root demo_va 0x80000 0x3000 3 KERNEL_PTE
    _ _ demo_empty (empty_table_ok demo_root Hd) _ _ _ _); [reflexivity|reflexivity|reflexivity|].
  cbn [desc mbind option_bind mem]. rewrite empty_entry by apply idx_range. reflexivity.
Defined.
