(* ===== verification/PageTableTypes.v ===== *)
(** * The layout of page table entries and the typing of the page table code

    [pte_t] is a union of four views of one 64-bit word.  A view is a list of
    named bit fields, lowest first, as [page_table.h] declares it; [unpack] and
    [pack] read and build a word through a view.  The accessors of [PageTable]
    are the fields of these views.  [pt_typed] is the typing of a page table
    state: every entry is a 64-bit word in which the fields the code has no use
    for are zero.  [keeps] is the typing judgement of a computation, and the
    rules for it follow the code. *)

From S2P Require Import Prelude Macro Buddy PageTable PageTableInv PageTableOps Pages PageTableTheorems.
From stdpp Require Import strings.

#[local] Open Scope string_scope.
#[local] Open Scope Z_scope.

(** ** The views of [pte_t] *)
Definition layout : Type := list (string * Z).

Definition table_view : layout :=
  [("is_valid", 1); ("is_table", 1); ("ignored1", 10); ("next_table_addr", 36); ("reserved", 4);
   ("ignored2", 7); ("PXNTable", 1); ("XNTable", 1); ("APTable", 2); ("NSTable", 1)].

Definition l1_block_view : layout :=
  [("is_valid", 1); ("is_table", 1); ("attr_index", 3); ("NS", 1); ("AP", 2); ("SH", 2); ("AF", 1); ("nG", 1);
   ("reserved1", 4); ("nT", 1); ("reserved2", 13); ("pfn", 18); ("reserved3", 2); ("GP", 1); ("reserved4", 1);
   ("DBM", 1); ("Contiguous", 1); ("PXN", 1); ("UXN", 1); ("soft_reserved", 4); ("PBHA", 4)].

Definition l2_block_view : layout :=
  [("is_valid", 1); ("is_table", 1); ("attr_index", 3); ("NS", 1); ("AP", 2); ("SH", 2); ("AF", 1); ("nG", 1);
   ("reserved1", 4); ("nT", 1); ("reserved2", 4); ("pfn", 27); ("reserved3", 2); ("GP", 1); ("reserved4", 1);
   ("DBM", 1); ("Contiguous", 1); ("PXN", 1); ("UXN", 1); ("soft_reserved", 4); ("PBHA", 4)].

Definition l3_page_view : layout :=
  [("is_valid", 1); ("is_page", 1); ("attr_index", 3); ("NS", 1); ("AP", 2); ("SH", 2); ("AF", 1); ("nG", 1);
   ("pfn", 36); ("reserved", 3); ("DBM", 1); ("Contiguous", 1); ("PXN", 1); ("UXN", 1); ("soft_reserved", 4);
   ("PBHA", 4); ("ignored", 1)].

(** The bits a view declares. *)
Fixpoint bits_of (l : layout) : Z :=
  match l with [] => 0 | (_, w) :: l' => w + bits_of l' end.

(** Offset and width of a field. *)
Fixpoint field_at (l : layout) (f : string) (lo : Z) : option (Z * Z) :=
  match l with
  | [] => None
  | (g, w) :: l' => if bool_decide (f = g) then Some (lo, w) else field_at l' f (lo + w)
  end.

(** [e.view.f], 0 for a field the view does not have. *)
Definition rd_field (l : layout) (f : string) (e : Z) : Z :=
  match field_at l f 0 with Some (lo, w) => get_field lo w e | None => 0 end.

(** All fields of a word, and the word of given fields. *)
Fixpoint unpack (l : layout) (e : Z) : list Z :=
  match l with [] => [] | (_, w) :: l' => e mod 2 ^ w :: unpack l' (e / 2 ^ w) end.
Fixpoint pack (l : layout) (vs : list Z) : Z :=
  match l, vs with (_, w) :: l', v :: vs' => v + 2 ^ w * pack l' vs' | _, _ => 0 end.

(** ** Views are faithful *)
Definition widths_ok (l : layout) : Prop := Forall (λ p, 0 ≤ p.2) l.

Lemma bits_of_nonneg l : widths_ok l → 0 ≤ bits_of l.
Proof. induction 1 as [|[f w] l Hw _ IH]; simpl in *; lia. Qed.

Lemma pack_unpack l e : widths_ok l → pack l (unpack l e) = e mod 2 ^ bits_of l.
Proof.
  intros Hl. revert e. induction Hl as [|[f w] l Hw Hl IH]; intros e; simpl in *; [by rewrite Z.mod_1_r|].
  rewrite IH. pose proof (bits_of_nonneg _ Hl). pose proof (pow2_gt0 w Hw). pose proof (pow2_gt0 (bits_of l)).
  rewrite Z.pow_add_r, Z.rem_mul_r by lia. done.
Qed.

(** The values a view can hold. *)
Definition fields_fit (l : layout) (vs : list Z) : Prop := Forall2 (λ p v, 0 ≤ v < 2 ^ p.2) l vs.

Lemma unpack_pack l vs : widths_ok l → fields_fit l vs → unpack l (pack l vs) = vs.
Proof.
  intros Hl Hv. revert Hl. induction Hv as [|[f w] v l vs Hv Hvs IH]; intros Hl; [done|].
  apply Forall_cons in Hl as [Hw Hl]. simpl in *. pose proof (pow2_gt0 w Hw).
  rewrite (Z.mul_comm (2 ^ w)), Z.mod_add, Z.div_add, Z.mod_small, (Z.div_small v) by lia. by rewrite Z.add_0_l, IH.
Qed.

Lemma unpack_fits l e : widths_ok l → fields_fit l (unpack l e).
Proof.
  intros Hl. revert e. induction Hl as [|[f w] l Hw _ IH]; intros e; constructor; [|apply IH].
  apply Z.mod_pos_bound. by apply pow2_gt0.
Qed.

(** The accessors of the code are fields of the views. *)
Definition wr_field (l : layout) (f : string) (v e : Z) : Z :=
  match field_at l f 0 with Some (lo, w) => set_field lo w v e | None => e end.

Lemma pte_accessors v e :
  pte.table_is_valid v e = wr_field table_view "is_valid" v e ∧
  pte.table_is_table v e = wr_field table_view "is_table" v e ∧
  pte.table_next_table_addr v e = wr_field table_view "next_table_addr" v e ∧
  pte.l3_is_valid v e = wr_field l3_page_view "is_valid" v e ∧
  pte.l3_is_page v e = wr_field l3_page_view "is_page" v e ∧
  pte.l3_attr_index v e = wr_field l3_page_view "attr_index" v e ∧
  pte.l3_AP v e = wr_field l3_page_view "AP" v e ∧
  pte.l3_SH v e = wr_field l3_page_view "SH" v e ∧
  pte.l3_AF v e = wr_field l3_page_view "AF" v e ∧
  pte.l3_nG v e = wr_field l3_page_view "nG" v e ∧
  pte.l3_pfn v e = wr_field l3_page_view "pfn" v e ∧
  pte.l3_PXN v e = wr_field l3_page_view "PXN" v e ∧
  pte.l3_UXN v e = wr_field l3_page_view "UXN" v e.
Proof. by repeat split. Qed.

(** ** Well-typed entries *)

(** The fields of a page entry that the kernel never sets. *)
Definition unused : list string := ["NS"; "reserved"; "DBM"; "Contiguous"; "soft_reserved"; "PBHA"; "ignored"].
Definition pte_typed (e : Z) : Prop := 0 ≤ e < 2 ^ 64 ∧ Forall (λ f, rd_field l3_page_view f e = 0) unused.

Lemma get_field_0 lo w e : 0 ≤ lo → 0 ≤ w →
  get_field lo w e = 0 ↔ ∀ i, lo ≤ i < lo + w → Z.testbit e i = false.
Proof.
  intros Hlo Hw. split.
  - intros E i Hi. pose proof (f_equal (λ x, Z.testbit x (i - lo)) E) as Hb. cbn beta in Hb.
    rewrite testbit_get_field, Z.bits_0, (proj2 (Z.ltb_lt (i - lo) w)) in Hb by lia. rewrite <- Hb. simpl. f_equal. lia.
  - intros Hb. apply Z.bits_inj'. intros i Hi. rewrite testbit_get_field, Z.bits_0 by done.
    destruct (Z.ltb_spec i w); [|done]. simpl. apply Hb. lia.
Qed.

(** The bits of the unused fields, and those above the word. *)
Definition unused_bit (i : Z) : Prop := i = 5 ∨ 48 ≤ i ≤ 52 ∨ 55 ≤ i.

Lemma pte_typed_bits e : pte_typed e ↔ 0 ≤ e ∧ ∀ i, unused_bit i → Z.testbit e i = false.
Proof.
  unfold pte_typed, unused. rewrite !Forall_cons. unfold rd_field. simpl. rewrite !get_field_0 by lia. split.
  - intros (He & H1 & H2 & H3 & H4 & H5 & H6 & H7 & _). split; [lia|]. intros i Hi. destruct (decide (i < 64)).
    + destruct (decide (i = 5)); [apply H1; lia|]. destruct (decide (i ≤ 50)); [apply H2; unfold unused_bit in Hi; lia|].
      destruct (decide (i = 51)); [apply H3; lia|]. destruct (decide (i = 52)); [apply H4; lia|].
      destruct (decide (i ≤ 58)); [apply H5; unfold unused_bit in Hi; lia|]. destruct (decide (i = 63)); [apply H7; lia|apply H6; lia].
    + destruct (decide (e = 0)) as [->|]; [apply Z.bits_0|]. apply Z.bits_above_log2; [lia|].
      assert (Z.log2 e < 64) by (apply Z.log2_lt_pow2; lia). lia.
  - intros [He Hb]. assert (e < 2 ^ 55) as Hlt.
    { assert (e = e mod 2 ^ 55) as ->; [|by apply Z.mod_pos_bound]. apply Z.bits_inj'. intros i Hi. destruct (decide (i < 55)).
      - by rewrite Z.mod_pow2_bits_low by lia.
      - rewrite Z.mod_pow2_bits_high by lia. apply Hb. unfold unused_bit. lia. }
    repeat split; try lia; try (intros i Hi; apply Hb; unfold unused_bit; lia). constructor.
Qed.

Lemma pte_typed_0 : pte_typed 0.
Proof. apply pte_typed_bits. split; [done|]. intros i _. apply Z.bits_0. Qed.

(** A field that is in use may be set to anything. *)
Lemma set_field_typed lo w v e : 0 ≤ lo → 0 ≤ w → (∀ i, unused_bit i → ¬ lo ≤ i < lo + w) →
  pte_typed e → pte_typed (set_field lo w v e).
Proof.
  intros Hlo Hw Hd [He Hb]%pte_typed_bits. apply pte_typed_bits. split.
  - unfold set_field. rewrite Z.lor_nonneg, Z.shiftl_nonneg. split; [apply Z.ldiff_nonneg; by left|].
    rewrite Z.land_ones by done. apply Z.mod_pos_bound. by apply pow2_gt0.
  - intros i Hi. rewrite testbit_set_field, decide_False by (apply Hd || (unfold unused_bit in *; lia); done). by apply Hb.
Qed.

Ltac typed_field := apply set_field_typed; [lia|lia|unfold unused_bit; intros; lia|].

Lemma pte_flags_typed e flags kind : pte_typed e → pte_typed (pte_flags e flags kind).
Proof.
  intros He. unfold pte_flags, pte.l3_AP, pte.l3_PXN, pte.l3_UXN, pte.l3_AF, pte.l3_nG, pte.l3_SH, pte.l3_attr_index. cbv zeta.
  repeat case_match; by repeat typed_field.
Qed.

Lemma l3_base_typed pa : pte_typed (l3_base pa).
Proof. unfold l3_base, pte.l3_pfn, pte.l3_is_page, pte.l3_is_valid. repeat typed_field. apply pte_typed_0. Qed.

Lemma table_pte_typed pa : pte_typed (table_pte pa).
Proof. unfold table_pte, pte.table_next_table_addr, pte.table_is_table, pte.table_is_valid. repeat typed_field. apply pte_typed_0. Qed.

(** ** The typing judgement *)
Section typing.
Context {A : Type} `{!PageSource A}.
Implicit Types (s : ptstate A).

(** [*rss] is a [long]; the page source is in a state its interface admits. *)
Record pt_typed s : Prop := {
  ty_mem : map_Forall (λ _, pte_typed) (mem s);
  ty_rss : ∀ r, rss s = Some r → - 2 ^ 63 ≤ r < 2 ^ 63;
  ty_src : ∃ H n, ps_ok (src s) H n
}.

(** From a typed state [m] returns a [P] in a typed state, or stops in a
    [BUG_ON] or a fault; it does not run on. *)
Definition keeps {B} (m : M (ptstate A) B) (P : B → Prop) : Prop := ∀ s, pt_typed s →
  match m s with
  | Ok (a, s') => P a ∧ pt_typed s'
  | Halt h => h = HBug ∨ h = HFault
  end.

Lemma keeps_ret {B} (a : B) (P : B → Prop) : P a → keeps (mret a) P.
Proof. done. Qed.

Lemma keeps_bind {B D} (m : M (ptstate A) B) (f : B → M (ptstate A) D) P Q :
  keeps m P → (∀ a, P a → keeps (f a) Q) → keeps (m ≫= f) Q.
Proof.
  intros Hm Hf s Hs. specialize (Hm s Hs). unfold mbind, M_bind. destruct (m s) as [[a s']|h]; [|done].
  destruct Hm as [Ha Hs']. exact (Hf a Ha s' Hs').
Qed.

Lemma keeps_mono {B} (m : M (ptstate A) B) (P Q : B → Prop) : keeps m P → (∀ a, P a → Q a) → keeps m Q.
Proof. intros Hm HPQ s Hs. specialize (Hm s Hs). destruct (m s) as [[a s']|h]; [|done]. destruct Hm. auto. Qed.

Lemma keeps_BUG_ON b (P : unit → Prop) : P tt → keeps (BUG_ON b) P.
Proof. intros HP s Hs. destruct b; [by left|done]. Qed.

Lemma keeps_modify (f : ptstate A → ptstate A) (P : unit → Prop) :
  P tt → (∀ s, pt_typed s → pt_typed (f s)) → keeps (modify f) P.
Proof. intros HP Hf s Hs. split; auto. Qed.

Lemma keeps_ld_ent a : keeps (ld_ent a) pte_typed.
Proof.
  intros s Hs. unfold ld_ent, load. destruct (mem s !! a) eqn:E; [|by right]. split; [|done]. by eapply ty_mem.
Qed.

Lemma keeps_st_ent a v : pte_typed v → keeps (st_ent a v) (λ _, True).
Proof.
  intros Hv. eapply keeps_bind; [apply keeps_ld_ent|]. intros _ _. apply keeps_modify; [done|].
  intros s [Hm Hr Hp]. split; [|done|done]. by apply map_Forall_insert_2.
Qed.

Lemma keeps_memset_page p : keeps (memset_page p) (λ _, True).
Proof.
  apply keeps_modify; [done|]. intros s [Hm Hr Hp]. split; [|done|done]. apply map_Forall_lookup. simpl. intros a e.
  rewrite lookup_union_Some_raw. intros [He|[_ He]]; [|by eapply Hm].
  apply elem_of_list_to_map_2, list_elem_of_fmap in He as (i & [= -> ->] & _). apply pte_typed_0.
Qed.

Lemma keeps_add_rss : keeps add_rss (λ _, True).
Proof.
  apply keeps_modify; [done|]. intros s [Hm Hr Hp]. split; [done| |done]. simpl. intros r.
  destruct (rss s) as [r0|]; [|done]. intros [= <-]. unfold s64. pose proof (Z.mod_pos_bound (r0 + PAGE_SIZE + 2 ^ 63) (2 ^ 64)). lia.
Qed.

Lemma keeps_get_page : keeps (pt_get_pages 0) (λ p, p = NULL ∨ direct_page p).
Proof.
  intros s [Hm Hr (H & n & Hp)]. pose proof (ps_get_page_spec _ _ _ Hp) as Hw. unfold pt_get_pages, zoom.
  destruct (proj1 (wp_inv _ _ _) Hw) as (p & a & -> & Hpost).
  split; [naive_solver|split; [done|done|]]. simpl. naive_solver.
Qed.
End typing.

(** ** The page table code is well typed *)
Section code.
Context {A : Type} `{!PageSource A}.
Implicit Types (s : ptstate A).

(** What [get_next_ptp] returns: [-ENOMEM], or a kind and an aligned 64-bit address. *)
Definition next_typed (r : Z + Z * Z * Z) : Prop :=
  match r with
  | inl e => e = - ENOMEM
  | inr (kind, next, _) => (kind = NORMAL_PTP ∨ kind = BLOCK_PTP) ∧ 0 ≤ next < 2 ^ 64 ∧ next mod PAGE_SIZE = 0
  end.

Lemma GET_NEXT_PTP_typed e : 0 ≤ GET_NEXT_PTP e < 2 ^ 64 ∧ GET_NEXT_PTP e mod PAGE_SIZE = 0.
Proof.
  unfold GET_NEXT_PTP, GET_PADDR_IN_PTE, phys_to_virt. split; [apply u64_range|].
  change PAGE_SIZE with (2 ^ 12). assert ((2 ^ 12 | 2 ^ 64)) by (by exists (2 ^ 52)).
  unfold u64, PAGE_SHIFT. rewrite Z.shiftl_mul_pow2, Z.mod_mod_divide, Zplus_mod, Z.mod_mod_divide, Z.mod_mul by (done || lia). done.
Qed.

Lemma keeps_get_next_ptp cur level va alloc : keeps (get_next_ptp cur level va alloc) next_typed.
Proof.
  unfold get_next_ptp. case_match; [done|].
  eapply (keeps_bind _ _ (λ _, True)).
  { repeat case_match; try done. intros s Hs. by left. }
  intros i _. cbv zeta. eapply keeps_bind; [apply keeps_ld_ent|]. intros e He.
  eapply (keeps_bind _ _ (λ _, True)).
  - case_match; [|done]. case_match; [done|]. eapply keeps_bind; [apply keeps_get_page|]. intros p _. case_match; [done|].
    eapply keeps_bind; [apply keeps_memset_page|]. intros _ _. eapply keeps_bind; [apply keeps_add_rss|]. intros _ _.
    eapply keeps_bind; [apply keeps_st_ent, table_pte_typed|]. done.
  - intros r _. case_match; [done|]. eapply keeps_bind; [apply keeps_ld_ent|]. intros e' He'. apply keeps_ret.
    split; [case_match; auto|apply GET_NEXT_PTP_typed].
Qed.

Lemma keeps_must_table r : keeps (must_table r) (λ _, True).
Proof.
  unfold must_table. repeat case_match; [intros s Hs; by left|].
  eapply keeps_bind; [by apply (keeps_BUG_ON _ (λ _, True))|]. done.
Qed.

Lemma keeps_descend cur level va : keeps (get_next_ptp cur level va true ≫= must_table) (λ _, True).
Proof. eapply keeps_bind; [apply keeps_get_next_ptp|]. intros r _. apply keeps_must_table. Qed.

(** One L3 table takes at least one page and never more than are left. *)
Lemma keeps_map_l3 fuel l3 i va pa cnt flags kind : 0 < cnt →
  keeps (map_l3 fuel l3 i va pa cnt flags kind) (λ x, 0 ≤ x.2 ≤ cnt ∧ (fuel ≠ 0%nat → x.2 < cnt)).
Proof.
  revert i va pa cnt. induction fuel as [|fuel IH]; intros i va pa cnt Hc; cbn [map_l3]; [apply keeps_ret; simpl; lia|].
  eapply (keeps_bind _ _ pte_typed).
  { unfold set_pte_flags. eapply keeps_bind; [by apply (keeps_BUG_ON _ (λ _, True))|]. intros _ _.
    apply keeps_ret, pte_flags_typed, l3_base_typed. }
  intros v Hv. eapply keeps_bind; [by apply keeps_st_ent|]. intros _ _. eapply keeps_bind; [apply keeps_add_rss|]. intros _ _. cbv zeta.
  case_match; [apply keeps_ret; simpl; lia|].
  eapply keeps_mono; [apply IH; lia|]. simpl. intros x [Hx _]. lia.
Qed.

Lemma l3_room va : Z.to_nat (PTP_ENTRIES - GET_L3_INDEX va) ≠ 0%nat.
Proof.
  pose proof (get_index va 3 ltac:(lia)) as E. pose proof (idx_range 3 (vpn_of va)).
  change (GET_L3_INDEX va = idx 3 (vpn_of va)) in E. rewrite E. change PTP_ENTRIES with 512. lia.
Qed.

Lemma keeps_map_tables fuel l0 va pa cnt flags kind : (Z.to_nat cnt < fuel)%nat →
  keeps (map_tables fuel l0 va pa cnt flags kind) (λ _, True).
Proof.
  revert va pa cnt. induction fuel as [|fuel IH]; intros va pa cnt Hf; [lia|]. cbn [map_tables].
  destruct (Z.gtb_spec cnt 0) as [Hc|Hc]; [|done].
  eapply keeps_bind; [apply keeps_get_next_ptp|]; intros r0 _. eapply keeps_bind; [apply keeps_must_table|]; intros l1 _.
  eapply keeps_bind; [apply keeps_get_next_ptp|]; intros r1 _. eapply keeps_bind; [apply keeps_must_table|]; intros l2 _.
  eapply keeps_bind; [apply keeps_get_next_ptp|]; intros r2 _. eapply keeps_bind; [apply keeps_must_table|]; intros l3 _.
  cbv zeta. eapply keeps_bind; [by apply keeps_map_l3|]. intros [[va' pa'] cnt'] [Hx Hlt]. cbn [snd] in *.
  specialize (Hlt (l3_room va)). apply IH. lia.
Qed.

Lemma keeps_map_range pgtbl va pa len flags kind :
  keeps (map_range_in_pgtbl_common pgtbl va pa len flags kind) (λ r, r = 0).
Proof.
  unfold map_range_in_pgtbl_common. eapply keeps_bind; [by apply (keeps_BUG_ON _ (λ _, True))|]. intros _ _.
  eapply keeps_bind; [by apply (keeps_BUG_ON _ (λ _, True))|]. intros _ _. cbv zeta.
  eapply keeps_bind; [apply keeps_map_tables; lia|]. done.
Qed.

(** What [query_in_pgtbl] returns: [-ENOMEM], or a 64-bit physical address. *)
Definition query_typed (r : Z + Z * Z) : Prop :=
  match r with inl e => e = - ENOMEM | inr (pa, _) => 0 ≤ pa < 2 ^ 64 end.

Lemma keeps_query pgtbl va : keeps (query_in_pgtbl pgtbl va) query_typed.
Proof.
  unfold query_in_pgtbl.
  eapply keeps_bind; [apply keeps_get_next_ptp|]. intros [?|[[? ?] ?]] Hr; [by apply keeps_ret|].
  do 2 (eapply keeps_bind; [apply keeps_get_next_ptp|]; intros [?|[[? ?] ?]] ?; [by apply keeps_ret|];
        case_match; [apply keeps_ret, u64_range|]).
  eapply keeps_bind; [apply keeps_get_next_ptp|]; intros [?|[[? ?] ?]] ?; [by apply keeps_ret|apply keeps_ret, u64_range].
Qed.
End code.

(** A fresh root table is well typed. *)
Lemma empty_table_typed {A} `{!PageSource A} (a : A) H n root : ps_ok a H n → pt_typed (mk_pt a (zero_page root) None).
Proof.
  intros Hok. split; [|done|by exists H, n]. intros i e He.
  apply elem_of_list_to_map_2, list_elem_of_fmap in He as (j & [= -> ->] & _). apply pte_typed_0.
Qed.

(** Each view of [pte_t] declares at most a word, and reads and rebuilds it. *)
Lemma pte_view_roundtrip l e : l ∈ [table_view; l1_block_view; l2_block_view; l3_page_view] →
  bits_of l ≤ 64 ∧ fields_fit l (unpack l e) ∧ pack l (unpack l e) = e mod 2 ^ bits_of l ∧
  ∀ vs, fields_fit l vs → unpack l (pack l vs) = vs.
Proof.
  intros Hl. assert (widths_ok l ∧ bits_of l ≤ 64) as [Hw Hb].
  { repeat (apply elem_of_cons in Hl as [->|Hl]; [split; [by repeat constructor|vm_compute; congruence]|]). by apply not_elem_of_nil in Hl. }
  split; [done|split; [by apply unpack_fits|split; [by apply pack_unpack|]]]. intros vs. by apply unpack_pack.
Qed.

(** C20. The page table code is well typed.  A state is typed when every page
    table entry is a 64-bit word whose unused fields ([NS], [reserved], [DBM],
    [Contiguous], [soft_reserved], [PBHA], [ignored]) are zero, [*rss] is a
    [long] and the page allocator meets its interface.  From every typed state
    and on any arguments, [get_next_ptp] with and without allocation,
    [query_in_pgtbl] and [map_range_in_pgtbl_common] each return a typed state
    and a result of their type ([-ENOMEM] is the only error; a table pointer is
    a page-aligned 64-bit address; the mapping returns 0), or stop in a
    [BUG_ON] or on an unmapped address: no loop runs on.  The fresh root table
    is a typed state. *)
Theorem page_table_code_typed {A} `{!PageSource A} :
  (∀ (a : A) H n root, ps_ok a H n → pt_typed (mk_pt a (zero_page root) None)) ∧
  (∀ cur level va alloc, keeps (get_next_ptp (A:=A) cur level va alloc) next_typed) ∧
  (∀ pgtbl va, keeps (query_in_pgtbl (A:=A) pgtbl va) query_typed) ∧
  (∀ pgtbl va pa len flags kind, keeps (map_range_in_pgtbl_common (A:=A) pgtbl va pa len flags kind) (λ r, r = 0)).
Proof.
  split; [apply empty_table_typed|split; [intros; apply keeps_get_next_ptp|split; [intros; apply keeps_query|]]].
  intros. apply keeps_map_range.
Qed.

Lemma page_table_code_typed_witness : ∃ a : bstate, pt_typed (mk_pt a (zero_page demo_root) None) ∧
  match map_range_in_pgtbl_common demo_root demo_va 0x80000 0x3000 3 KERNEL_PTE (mk_pt a (zero_page demo_root) None) with
  | Ok (r, s') => r = 0 ∧ pt_typed s'
  | Halt h => h = HBug ∨ h = HFault
  end.
Proof.
  destruct demo_map_pre as [a [[_ Hps _] _ _ _ _ _ _ _]]. exists a.
  destruct (page_table_code_typed (A:=bstate)) as (He & _ & _ & Hm).
  pose proof (He _ _ _ demo_root Hps) as Ht. split; [exact Ht|]. exact (Hm demo_root demo_va 0x80000 0x3000 3 KERNEL_PTE (mk_pt a (zero_page demo_root) None) Ht).
Defined.
