(* ===== verification/Slab.v ===== *)
(** * The slab allocator: [mm/slab.c], [include/mm/slab.h]

    The state adds to the buddy allocator's: the [struct slab_header] at the
    start of every slab ([headers], by address), the [next] pointer in every free
    block ([nexts], by block address), the list nodes ([snodes]: the
    [partial_list] of each container of [slab_pool_g] and the
    [partial_list_node] at offset 16 of each header) and the [current] and
    [lock] fields of the containers ([pool], by order).  Memory that a slab
    gave back keeps its contents, as it does in the kernel. *)

From S2P Require Import Prelude Macro ListHead Buddy.

Definition MIN_SLAB_BLOCK_ORDER : Z := 6.
Definition MAX_SLAB_BLOCK_ORDER : Z := 11.
Definition SLAB_PAGE_ORDER : Z := 5.
Definition SLAB_SIZE : Z := Z.shiftl 1 (SLAB_PAGE_ORDER + PAGE_SHIFT).
Definition SLAB_PAGES_COUNT : Z := BUDDY_CHUNK_PAGES_COUNT SLAB_PAGE_ORDER.
Definition SLAB_POOL_SIZE : Z := MAX_SLAB_BLOCK_ORDER - MIN_SLAB_BLOCK_ORDER + 1.
Definition slab_order_to_size (order : Z) : Z := Z.shiftl 1 order.

Fixpoint slab_order_loop (fuel : nat) (size order : Z) : Z :=
  match fuel with
  | O => order
  | S fuel' => if size >? slab_order_to_size order then slab_order_loop fuel' size (order + 1) else order
  end.
Definition size_to_slab_order (size : Z) : Z :=
  if (size <=? 0) || (size >? slab_order_to_size MAX_SLAB_BLOCK_ORDER) then -1
  else slab_order_loop 6 size MIN_SLAB_BLOCK_ORDER.

(** [struct slab_header] without its list node (offset 16) *)
Record slab_header : Type := mk_header {
  h_order : Z;
  next_free_block : Z;
  free_block_count : Z;
  total_block_count : Z
}.
(** [struct slab_container] without its list head (offset 8) *)
Record slab_container : Type := mk_container { current : Z; sc_lock : Z }.

Record sstate : Type := mk_sstate {
  bud : bstate;
  headers : gmap Z slab_header;
  nexts : gmap Z Z;
  snodes : nheap;
  pool : gmap Z slab_container;
  pool_addr : Z
}.

Definition set_bud (b : bstate) (s : sstate) : sstate := mk_sstate b (headers s) (nexts s) (snodes s) (pool s) (pool_addr s).
Definition set_headers (h : gmap Z slab_header) (s : sstate) : sstate := mk_sstate (bud s) h (nexts s) (snodes s) (pool s) (pool_addr s).
Definition set_nexts (n : gmap Z Z) (s : sstate) : sstate := mk_sstate (bud s) (headers s) n (snodes s) (pool s) (pool_addr s).
Definition set_snodes (h : nheap) (s : sstate) : sstate := mk_sstate (bud s) (headers s) (nexts s) h (pool s) (pool_addr s).
Definition set_pool (p : gmap Z slab_container) (s : sstate) : sstate := mk_sstate (bud s) (headers s) (nexts s) (snodes s) p (pool_addr s).

Definition on_bud {A} (m : M bstate A) : M sstate A := zoom bud set_bud m.
Definition on_snodes {A} (m : M nheap A) : M sstate A := zoom snodes set_snodes m.

(** [&slab_container(order)->partial_list] *)
Definition partial_list (s : sstate) (order : Z) : Z := pool_addr s + 32 * (order - MIN_SLAB_BLOCK_ORDER) + 8.
(** [&s->partial_list_node] *)
Definition partial_list_node (slab : Z) : Z := slab + 16.

Definition ld_hdr (a : Z) : M sstate slab_header := load (λ s, headers s !! a).
Definition st_hdr (a : Z) (v : slab_header) : M sstate unit := modify (λ s, set_headers (<[a := v]> (headers s)) s).
Definition ld_next (a : Z) : M sstate Z := load (λ s, nexts s !! a).
Definition st_next (a v : Z) : M sstate unit := modify (λ s, set_nexts (<[a := v]> (nexts s)) s).
Definition ld_sc (order : Z) : M sstate slab_container := load (λ s, pool s !! order).
Definition st_sc (order : Z) (v : slab_container) : M sstate unit := modify (λ s, set_pool (<[order := v]> (pool s)) s).
Definition set_current (order v : Z) : M sstate unit := c ← ld_sc order; st_sc order (mk_container v (sc_lock c)).

(** [lock(&sc->lock)] and [unlock(&sc->lock)] on the running core *)
Definition lock_sc (order : Z) : M sstate unit :=
  c ← ld_sc order;
  if sc_lock c =? 0 then st_sc order (mk_container (current c) 1) else stop HDeadlock.
Definition unlock_sc (order : Z) : M sstate unit := c ← ld_sc order; st_sc order (mk_container (current c) 0).

Definition container_is_free_enough (order : Z) : M sstate bool :=
  c ← ld_sc order;
  if current c =? NULL then mret false
  else
    h ← ld_hdr (current c);
    mret (negb (free_block_count h <? total_block_count h / 2)).

(** The [while] loop that links the blocks; returns the last block. *)
Fixpoint link_blocks (fuel : nat) (s order block : Z) : M sstate Z :=
  match fuel with
  | O => stop HFuel
  | S fuel' =>
      if block <? s + SLAB_SIZE - slab_order_to_size order then
        let next_block := block + slab_order_to_size order in
        st_next block next_block ;;
        link_blocks fuel' s order next_block
      else mret block
  end.

(** The header's list node is not initialised: it holds what the page held. *)
Definition touch_node (a : Z) (h : nheap) : nheap :=
  match h !! a with Some _ => h | None => <[a := mk_list_head NULL NULL]> h end.

Definition alloc_slab_from_buddy (order : Z) : M sstate Z :=
  page ← on_bud (buddy_get_pages SLAB_PAGE_ORDER);
  if page =? NULL then mret (- ENOMEM)
  else
    s ← gets (λ st, page_to_virt (bud st) page);
    let total := u32 (SLAB_SIZE / slab_order_to_size order) in
    let block := s + slab_order_to_size order in
    modify (λ st, set_snodes (touch_node (partial_list_node s) (snodes st)) st) ;;
    st_hdr s (mk_header order block (u32 (total - 1)) total) ;;
    set_current order s ;;
    last ← link_blocks (Z.to_nat total) s order block;
    st_next last NULL ;;
    for_up (Z.to_nat SLAB_PAGES_COUNT) 0 (λ i, on_bud (set_slab (page + i * sizeof_page) s)) ;;
    mret 0.

Definition slab_get_free_block (s : Z) : M sstate Z :=
  h ← ld_hdr s;
  BUG_ON (free_block_count h =? 0) ;;
  BUG_ON (next_free_block h =? NULL) ;;
  let block := next_free_block h in
  n ← ld_next block;
  st_hdr s (mk_header (h_order h) n (u32 (free_block_count h - 1)) (total_block_count h)) ;;
  mret block.

Definition get_from_partial_list (order : Z) : M sstate Z :=
  head ← gets (λ st, partial_list st order);
  e ← on_snodes (list_empty head);
  if (e : bool) then mret NULL
  else
    n ← on_snodes (rd_next head);
    on_snodes (list_del n) ;;
    mret (n - 16).

Definition set_new_current_slab (order : Z) : M sstate unit :=
  s ← get_from_partial_list order;
  set_current order s ;;
  if s =? NULL then
    err ← alloc_slab_from_buddy order;
    if negb (err =? 0) then set_current order NULL else mret tt
  else mret tt.

Definition slab_alloc_order (order : Z) : M sstate Z :=
  BUG_ON ((order <? MIN_SLAB_BLOCK_ORDER) || (order >? MAX_SLAB_BLOCK_ORDER)) ;;
  lock_sc order ;;
  c ← ld_sc order;
  err ← (if current c =? NULL then alloc_slab_from_buddy order else mret 0);
  if negb (err =? 0) then (unlock_sc order ;; mret NULL)
  else
    c ← ld_sc order;
    addr ← slab_get_free_block (current c);
    h ← ld_hdr (current c);
    (if free_block_count h =? 0 then
       BUG_ON (negb (next_free_block h =? NULL)) ;;
       set_new_current_slab order
     else mret tt) ;;
    unlock_sc order ;;
    mret addr.

(** [put_slab_to_buddy]; both error paths end in [kerror], which does not return. *)
Definition put_slab_to_buddy (s : Z) : M sstate Z :=
  page ← gets (λ st, virt_to_page (bud st) s);
  if page =? NULL then stop HKerror
  else
    h ← ld_hdr s;
    if negb (free_block_count h =? u32 (total_block_count h - 1)) then stop HKerror
    else
      for_up (Z.to_nat SLAB_PAGES_COUNT) 0 (λ i, on_bud (set_slab (page + i * sizeof_page) NULL)) ;;
      on_bud (buddy_free_pages page) ;;
      mret 0.

Definition slab_put_block (s block : Z) : M sstate unit :=
  BUG_ON (s =? NULL) ;;
  BUG_ON (block =? NULL) ;;
  h ← ld_hdr s;
  let block_index := u64 (block - s) / slab_order_to_size (h_order h) in
  let block := u64 (s + block_index * slab_order_to_size (h_order h)) in
  st_next block (next_free_block h) ;;
  st_hdr s (mk_header (h_order h) block (u32 (free_block_count h + 1)) (total_block_count h)).

Definition slab_free_block (s block : Z) : M sstate Z :=
  h ← ld_hdr s;
  let order := h_order h in
  BUG_ON ((order <? MIN_SLAB_BLOCK_ORDER) || (order >? MAX_SLAB_BLOCK_ORDER)) ;;
  lock_sc order ;;
  slab_put_block s block ;;
  h ← ld_hdr s;
  err ← (if free_block_count h =? 1 then
           head ← gets (λ st, partial_list st order);
           on_snodes (list_append (partial_list_node s) head) ;;
           c ← ld_sc order;
           BUG_ON (current c =? s) ;;
           mret 0
         else if free_block_count h =? u32 (total_block_count h - 1) then
           err ← put_slab_to_buddy s;
           if err =? 0 then
             c ← ld_sc order;
             (if current c =? s then
                s' ← get_from_partial_list order;
                set_current order s'
              else on_snodes (list_del (partial_list_node s))) ;;
             mret err
           else stop HKerror
         else mret 0);
  unlock_sc order ;;
  mret err.

Definition is_aligned (addr order : Z) : bool := Z.land addr (slab_order_to_size order - 1) =? 0.

(** [slab_get_header]; its error path ends in [kerror]. *)
Definition slab_get_header (addr : Z) : M sstate Z :=
  page ← gets (λ st, virt_to_page (bud st) addr);
  if page =? NULL then stop HKerror
  else
    p ← on_bud (ld_page page);
    if slab p =? NULL then stop HKerror else mret (slab p).

(** [for_each_container_in_slab_pool] *)
Definition for_each_container (body : Z → M sstate unit) : M sstate unit :=
  for_up (Z.to_nat SLAB_POOL_SIZE) MIN_SLAB_BLOCK_ORDER body.

Definition init_slab : M sstate unit :=
  for_each_container (λ order,
    c ← ld_sc order;
    st_sc order (mk_container NULL (sc_lock c)) ;;
    h ← gets (λ st, partial_list st order);
    on_snodes (init_list_head h) ;;
    st_sc order (mk_container NULL 0)).

Definition slab_alloc (size : Z) : M sstate Z :=
  let order := size_to_slab_order size in
  if order =? -1 then mret NULL else slab_alloc_order order.

Definition slab_free (addr : Z) : M sstate Z :=
  if addr =? NULL then mret (- EINVAL)
  else if negb (is_aligned addr MIN_SLAB_BLOCK_ORDER) then stop HKerror
  else
    s ← slab_get_header addr;
    if negb (s =? NULL) then
      err ← slab_free_block s addr;
      if negb (err =? 0) then stop HKerror else mret err
    else mret 0.

(** The counters of one container, then of all of them. *)
Fixpoint sum_free_blocks (l : list Z) (acc : Z) : M sstate Z :=
  match l with
  | [] => mret acc
  | n :: l' => h ← ld_hdr (n - 16); sum_free_blocks l' (u64 (acc + free_block_count h))
  end.
Definition container_free_blocks (order : Z) : M sstate Z :=
  c ← ld_sc order;
  acc ← (if negb (current c =? NULL) then h ← ld_hdr (current c); mret (free_block_count h) else mret 0);
  head ← gets (λ st, partial_list st order);
  fuel ← gets (λ st, Datatypes.S (base.size (snodes st)));
  l ← on_snodes (n ← rd_next head; list_nodes fuel n head);
  sum_free_blocks l acc.
Fixpoint calculate_slab_free_block_count (n : nat) (order : Z) : M sstate (list Z) :=
  match n with
  | O => mret []
  | S n' => c ← container_free_blocks order; r ← calculate_slab_free_block_count n' (order + 1); mret (s32 c :: r)
  end.
