(* ===== verification/SlabInv.v ===== *)
(** * The slab allocator's invariant

    Ghost state: [G] maps the address of every slab to its block order and its
    chain of free blocks; [cur k] and [P k] are the current slab and the
    partial list of container [k]; [lk k] its lock.  [slab_core] ties them to
    memory; [slab_shape] is what holds between operations: the current slab has
    a free block, and a slab is on the partial list exactly when it is not
    current and has a free block (so full slabs are on no list). *)

From S2P Require Import Prelude Macro ListHead Buddy Chunks BuddyInv BuddyOps BuddySpec BuddyCount BuddyInit BuddyTheorems Pages Slab.

(** Slabs by address: block order and free blocks. *)
Abbreviation gmap_slabs := (gmap Z (Z * list Z)).

Definition slab_order (k : Z) : Prop := 6 ≤ k ≤ 11.
(** Blocks of a slab, the header's included. *)
Definition nblocks (k : Z) : Z := 2 ^ (17 - k).

Definition is_block (s k b : Z) : Prop := ∃ j, 1 ≤ j < nblocks k ∧ b = s + j * 2 ^ k.

Definition head_or_null (l : list Z) : Z := match l with [] => NULL | b :: _ => b end.

Fixpoint free_chain (m : gmap Z Z) (l : list Z) : Prop :=
  match l with
  | [] => True
  | b :: r => m !! b = Some (head_or_null r) ∧ free_chain m r
  end.

Record slab_rep (st : sstate) (s k : Z) (fl : list Z) : Prop := {
  sr_hdr : headers st !! s = Some (mk_header k (head_or_null fl) (Z.of_nat (length fl)) (nblocks k));
  sr_chain : free_chain (nexts st) fl;
  sr_nodup : NoDup fl;
  sr_blocks : ∀ b, b ∈ fl → is_block s k b;
  sr_node : is_Some (snodes st !! partial_list_node s)
}.

(** [s] is the address of an allocated block of 32 pages. *)
Definition is_slab (b : bstate) (U : gmap Z Z) (s : Z) : Prop := ∃ c, U !! c = Some 5 ∧ s = frame_addr b c.

Definition in_slab (s a : Z) : Prop := s ≤ a < s + 2 ^ 17.

(** The [slab] mark of the page at address [a]. *)
Definition mark_ok (G : gmap_slabs) (a v : Z) : Prop :=
  (is_Some (G !! v) ∧ in_slab v a) ∨ (v = NULL ∧ ∀ s, is_Some (G !! s) → ¬ in_slab s a).

Record slab_core (st : sstate) (U : gmap Z Z) (G : gmap_slabs) (cur : Z → Z) (P : Z → list Z) (lk : Z → Z) : Prop := {
  sc_buddy : buddy_ok (bud st) U;
  sc_addr : 0 < pool_addr st ∧ pool_addr st + 256 ≤ start_addr (bud st);
  sc_slab : ∀ s k fl, G !! s = Some (k, fl) → slab_order k ∧ slab_rep st s k fl ∧ is_slab (bud st) U s;
  sc_mark : ∀ i, 0 ≤ i < page_num (bud st) →
            ∃ p, pages (bud st) !! pfn_to_page (bud st) i = Some p ∧ mark_ok G (frame_addr (bud st) i) (slab p);
  sc_cont : ∀ k, slab_order k → pool st !! k = Some (mk_container (cur k) (lk k));
  sc_list : ∀ k, slab_order k → dlist (snodes st) (partial_list st k) (partial_list_node <$> P k);
  sc_sep : ∀ k k' s, slab_order k → slab_order k' → s ∈ P k → s ∈ P k' → k = k';
  sc_low : ∀ k s, slab_order k → s ∈ P k → start_addr (bud st) ≤ s
}.

Record slab_shape (G : gmap_slabs) (cur : Z → Z) (P : Z → list Z) : Prop := {
  sh_cur : ∀ k, slab_order k → cur k = NULL ∨ ∃ fl, G !! cur k = Some (k, fl) ∧ fl ≠ [];
  sh_part : ∀ k s, slab_order k → s ∈ P k ↔ s ≠ cur k ∧ ∃ fl, G !! s = Some (k, fl) ∧ fl ≠ []
}.

Definition unlocked : Z → Z := λ _, 0.

Definition slab_ok (st : sstate) (U : gmap Z Z) (G : gmap_slabs) : Prop :=
  ∃ cur P, slab_core st U G cur P unlocked ∧ slab_shape G cur P.

(** A block in a client's hands. *)
Definition live (G : gmap_slabs) (a k : Z) : Prop := ∃ s fl, G !! s = Some (k, fl) ∧ is_block s k a ∧ a ∉ fl.

(** ** Geometry *)
Section geometry.
Lemma nblocks_ge k : slab_order k → 64 ≤ nblocks k.
Proof. intros Hk. unfold nblocks. pose proof (pow2_le 6 (17 - k)). unfold slab_order in *. lia. Qed.

Lemma nblocks_size k : slab_order k → nblocks k * 2 ^ k = 2 ^ 17.
Proof. intros Hk. unfold nblocks, slab_order in *. rewrite <- Z.pow_add_r by lia. f_equal. lia. Qed.

Lemma block_size k : slab_order k → 64 ≤ 2 ^ k.
Proof. intros Hk. pose proof (pow2_le 6 k). unfold slab_order in *. lia. Qed.

Lemma nblocks_le k : slab_order k → nblocks k ≤ 2048.
Proof. intros Hk. unfold nblocks. pose proof (pow2_le (17 - k) 11). unfold slab_order in *. lia. Qed.

(** A block lies inside its slab, after the header's block. *)
Lemma block_in_slab s k b : slab_order k → is_block s k b → s + 2 ^ k ≤ b ∧ b + 2 ^ k ≤ s + 2 ^ 17.
Proof.
  intros Hk (j & Hj & ->). pose proof (nblocks_size k Hk). pose proof (block_size k Hk).
  set (n := nblocks k) in *. set (e := 2 ^ k) in *. nia.
Qed.

Lemma block_apart s k b b' : slab_order k → is_block s k b → is_block s k b' → b ≠ b' → b + 2 ^ k ≤ b' ∨ b' + 2 ^ k ≤ b.
Proof.
  intros Hk (j & Hj & ->) (j' & Hj' & ->) Hne. pose proof (block_size k Hk). set (e := 2 ^ k) in *.
  assert (j ≠ j') by (intros ->; done). destruct (Z_lt_dec j j'); [left|right]; nia.
Qed.

Lemma slab_range b U s : buddy_ok b U → is_slab b U s →
  start_addr b ≤ s ∧ s + 2 ^ 17 ≤ start_addr b + size b ∧ 0 < s ∧ s + 2 ^ 17 < 2 ^ 64 ∧ s mod 2 ^ 17 = 0.
Proof.
  intros Hok (c & Hc & ->). destruct (used_block _ _ _ _ Hok Hc) as (Hc0 & _ & Hcn & Hal).
  pose proof (buddy_ok_region _ _ Hok) as HG. rewrite (frame_addr_eq b U c Hok) by lia. pose proof (start_vpn HG) as Hs.
  pose proof HG as []. split_and!; try lia. rewrite Hs. replace (base_vpn b * 2 ^ 12 + c * 2 ^ 12) with ((base_vpn b + c) * 2 ^ 12) by lia.
  change (2 ^ 17) with (2 ^ 5 * 2 ^ 12). rewrite Z.mul_mod_distr_r by lia. lia.
Qed.

Lemma slabs_apart b U s s' : buddy_ok b U → is_slab b U s → is_slab b U s' → s ≠ s' → s + 2 ^ 17 ≤ s' ∨ s' + 2 ^ 17 ≤ s.
Proof.
  intros Hok (c & Hc & ->) (c' & Hc' & ->) Hne.
  destruct (used_block _ _ _ _ Hok Hc) as (Hc0 & _ & Hcn & _). destruct (used_block _ _ _ _ Hok Hc') as (Hc0' & _ & Hcn' & _).
  rewrite (frame_addr_eq b U c Hok), (frame_addr_eq b U c' Hok) in * by lia.
  destruct (used_blocks_apart _ _ _ _ _ _ Hok Hc Hc'); [intros ->; done|lia|lia].
Qed.
End geometry.

(** ** Free chains *)
Lemma free_chain_frame m m' l : (∀ b, b ∈ l → m' !! b = m !! b) → free_chain m l → free_chain m' l.
Proof.
  induction l as [|b l IH]; [done|]. intros Hf [Hb Hl]. split; [rewrite Hf; [done|set_solver]|]. apply IH; [|done]. set_solver.
Qed.

(** All the blocks of a slab. *)
Definition all_blocks (s k : Z) : list Z := (λ j, s + j * 2 ^ k) <$> seqZ 1 (nblocks k - 1).

Lemma elem_of_all_blocks s k b : b ∈ all_blocks s k ↔ is_block s k b.
Proof.
  unfold all_blocks, is_block. rewrite list_elem_of_fmap. setoid_rewrite elem_of_seqZ. split.
  - intros (j & -> & Hj). exists j. split; [lia|done].
  - intros (j & Hj & ->). exists j. split; [done|lia].
Qed.

Lemma all_blocks_NoDup s k : slab_order k → NoDup (all_blocks s k).
Proof.
  intros Hk. apply NoDup_fmap_2_strong; [|apply NoDup_seqZ]. intros i j _ _ Heq. pose proof (block_size k Hk). nia.
Qed.

Lemma all_blocks_length s k : slab_order k → Z.of_nat (length (all_blocks s k)) = nblocks k - 1.
Proof. intros Hk. unfold all_blocks. rewrite length_fmap, length_seqZ. pose proof (nblocks_ge k Hk). lia. Qed.

Lemma free_list_bound s k fl : slab_order k → NoDup fl → (∀ b, b ∈ fl → is_block s k b) → Z.of_nat (length fl) ≤ nblocks k - 1.
Proof.
  intros Hk Hnd Hb. rewrite <- (all_blocks_length s k Hk). apply Nat2Z.inj_le, submseteq_length, NoDup_submseteq; [done|].
  intros b Hin. by apply elem_of_all_blocks, Hb.
Qed.

(** A slab with all blocks counted free has every block on its chain. *)
Lemma full_free s k fl b : slab_order k → NoDup fl → (∀ b, b ∈ fl → is_block s k b) →
  Z.of_nat (length fl) = nblocks k - 1 → is_block s k b → b ∈ fl.
Proof.
  intros Hk Hnd Hb Hlen Hib. assert (fl ≡ₚ all_blocks s k) as ->; [|by apply elem_of_all_blocks].
  apply submseteq_length_Permutation.
  - apply NoDup_submseteq; [done|]. intros x Hx. by apply elem_of_all_blocks, Hb.
  - apply Nat2Z.inj_le. rewrite all_blocks_length by done. lia.
Qed.

(** ** Live blocks under the moves of the allocator *)
Section live.
Implicit Types (G : gmap_slabs) (s k a b : Z) (fl : list Z).

Lemma live_insert G s k fl a k' :
  live (<[s := (k, fl)]> G) a k' ↔ (k' = k ∧ is_block s k a ∧ a ∉ fl) ∨ live (delete s G) a k'.
Proof.
  unfold live. split.
  - intros (s' & fl' & Hl & Hb & Hn). rewrite lookup_insert in Hl. case_decide as Hd; [left; naive_solver|].
    right. exists s', fl'. by rewrite lookup_delete_ne by done.
  - intros [(-> & Hb & Hn)|(s' & fl' & Hl & Hb & Hn)].
    + exists s, fl. by rewrite lookup_insert_eq.
    + rewrite lookup_delete in Hl. case_decide as Hd; [done|]. exists s', fl'. by rewrite lookup_insert_ne by done.
Qed.

Lemma live_split G s k fl a k' : G !! s = Some (k, fl) →
  live G a k' ↔ (k' = k ∧ is_block s k a ∧ a ∉ fl) ∨ live (delete s G) a k'.
Proof. intros Hs. rewrite <- live_insert. by rewrite insert_id. Qed.
End live.

(** ** Memory *)
Section core.
Implicit Types (st : sstate) (U : gmap Z Z) (G : gmap_slabs) (cur : Z → Z) (P : Z → list Z) (lk : Z → Z).

Lemma slab_block_nonnull st U G cur P lk s k fl b :
  slab_core st U G cur P lk → G !! s = Some (k, fl) → is_block s k b → 0 < s ∧ 0 < b ∧ b + 2 ^ k < 2 ^ 64.
Proof.
  intros HC Hs Hb. destruct (sc_slab _ _ _ _ _ _ HC _ _ _ Hs) as (Hk & _ & Hsl).
  destruct (slab_range _ _ _ (sc_buddy _ _ _ _ _ _ HC) Hsl) as (_ & _ & H0 & H64 & _).
  pose proof (block_in_slab s k b Hk Hb). pose proof (block_size k Hk). lia.
Qed.

(** Rewriting the header and the chain of one slab. *)
Lemma core_update_slab st U G cur P lk s k fl fl' h n :
  slab_core st U G cur P lk → G !! s = Some (k, fl) →
  h = mk_header k (head_or_null fl') (Z.of_nat (length fl')) (nblocks k) →
  (∀ a, ¬ in_slab s a → n !! a = nexts st !! a) →
  free_chain n fl' → NoDup fl' → (∀ b, b ∈ fl' → is_block s k b) →
  slab_core (set_headers (<[s := h]> (headers st)) (set_nexts n st)) U (<[s := (k, fl')]> G) cur P lk.
Proof.
  intros HC Hs -> Hn Hch Hnd Hbl. pose proof HC as [HB Hpa HS HMk HCt HL Hsep Hlow].
  destruct (HS _ _ _ Hs) as (Hk & HR & Hsl).
  split; [done|done| |..|done|done|done|done].
  - intros s' k' fl''. rewrite lookup_insert. case_decide as Hd.
    + intros [= <- <-]. subst s'. split; [done|]. split; [|done]. split; simpl; [by rewrite lookup_insert_eq|done|done|done|apply HR].
    + intros Hs'. destruct (HS _ _ _ Hs') as (Hk' & HR' & Hsl'). split; [done|]. split; [|done].
      destruct HR' as [Rh Rc Rn Rb Rd]. split; simpl; [by rewrite lookup_insert_ne|..]; [|done|done|done].
      eapply free_chain_frame; [|exact Rc]. intros b Hb. apply Hn. intros Hin.
      pose proof (block_in_slab _ _ _ Hk' (Rb b Hb)) as Hbr. pose proof (block_size k' Hk').
      unfold in_slab in Hin. destruct (slabs_apart _ _ _ _ HB Hsl Hsl' Hd); lia.
  - intros i Hi. destruct (HMk i Hi) as (p & Hp & Hm). exists p. split; [done|].
    destruct Hm as [[Hg Hin]|[-> Hno]]; [left|right]; (split; [|done]) || (split; [done|]).
    + rewrite lookup_insert_is_Some'. by right.
    + intros s' Hg. apply Hno. rewrite lookup_insert_is_Some' in Hg. destruct Hg as [<-|]; [eauto|done].
Qed.

(** The list nodes of different containers do not meet. *)
Lemma partial_disjoint st U G cur P lk k k' x :
  slab_core st U G cur P lk → slab_order k → slab_order k' → k ≠ k' →
  x ∈ partial_list st k :: (partial_list_node <$> P k) → x ∉ partial_list st k' :: (partial_list_node <$> P k').
Proof.
  intros HC Hk Hk' Hne Hx Hx'. destruct (sc_addr _ _ _ _ _ _ HC) as [_ Hpa]. unfold slab_order in *.
  apply elem_of_cons in Hx as [->|Hx]; apply elem_of_cons in Hx' as [E|Hx'].
  - unfold partial_list, MIN_SLAB_BLOCK_ORDER in E. lia.
  - apply list_elem_of_fmap in Hx' as (s & E & Hs). apply (sc_low _ _ _ _ _ _ HC) in Hs; [|done].
    unfold partial_list, partial_list_node, MIN_SLAB_BLOCK_ORDER in E. lia.
  - apply list_elem_of_fmap in Hx as (s & -> & Hs). apply (sc_low _ _ _ _ _ _ HC) in Hs; [|done].
    unfold partial_list, partial_list_node, MIN_SLAB_BLOCK_ORDER in E. lia.
  - apply list_elem_of_fmap in Hx as (s & -> & Hs). apply list_elem_of_fmap in Hx' as (s' & E & Hs').
    assert (s = s') as -> by (unfold partial_list_node in E; lia). by apply Hne, (sc_sep _ _ _ _ _ _ HC _ _ s').
Qed.

(** Replacing the list of one container. *)
Lemma core_relist st U G cur P lk k l h :
  slab_core st U G cur P lk → slab_order k →
  dlist h (partial_list st k) (partial_list_node <$> l) →
  (∀ x, (∀ k', slab_order k' → k' ≠ k → x ∈ partial_list st k' :: (partial_list_node <$> P k') →
         h !! x = snodes st !! x)) →
  (∀ x, is_Some (snodes st !! x) → is_Some (h !! x)) →
  (∀ s, s ∈ l → start_addr (bud st) ≤ s ∧ ∀ k', slab_order k' → k' ≠ k → s ∉ P k') →
  slab_core (set_snodes h st) U G cur (upd P k l) lk.
Proof.
  intros HC Hk Hd Hf Hs Hl. pose proof HC as [HB Hpa HS HMk HCt HL Hsep Hlow].
  split; [done|done| |done|done|..].
  - intros s k' fl Hg. destruct (HS _ _ _ Hg) as (Hk' & [Rh Rc Rn Rb Rd] & Hsl). split; [done|]. split; [|done].
    split; [done|done|done|done|]. simpl. by apply Hs.
  - intros k' Hk'. simpl. change (partial_list (set_snodes h st) k') with (partial_list st k').
    destruct (decide (k' = k)) as [->|Hne]; [by rewrite upd_eq|]. rewrite upd_ne by done.
    eapply dlist_frame; [|by apply HL]. intros x Hx. by apply (Hf x k').
  - intros k1 k2 s Hk1 Hk2. destruct (decide (k1 = k)) as [->|H1]; destruct (decide (k2 = k)) as [->|H2];
      rewrite ?upd_eq, ?upd_ne by done; [done| | |by apply Hsep].
    + intros Hin1 Hin2. by destruct (proj2 (Hl s Hin1) k2 Hk2 H2).
    + intros Hin1 Hin2. by destruct (proj2 (Hl s Hin2) k1 Hk1 H1).
  - intros k' s Hk'. destruct (decide (k' = k)) as [->|Hne]; rewrite ?upd_eq, ?upd_ne by done; [by intros [? _]%Hl|by apply Hlow].
Qed.

Lemma partial_NoDup st U G cur P lk k : slab_core st U G cur P lk → slab_order k → NoDup (P k).
Proof.
  intros HC Hk. destruct (sc_list _ _ _ _ _ _ HC k Hk) as [Hnd _]. apply NoDup_cons in Hnd as [_ Hnd]. by apply NoDup_fmap_1 in Hnd.
Qed.

(** Unlinking [s] from its container's partial list. *)
Lemma wp_partial_del st U G cur P lk k l1 s l2 (Q : unit → sstate → Prop) :
  slab_core st U G cur P lk → slab_order k → P k = l1 ++ s :: l2 →
  (∀ h, slab_core (set_snodes h st) U G cur (upd P k (l1 ++ l2)) lk → Q tt (set_snodes h st)) →
  wp (on_snodes (list_del (partial_list_node s))) st Q.
Proof.
  intros HC Hk EP HQ. pose proof (sc_list _ _ _ _ _ _ HC k Hk) as Hd. rewrite EP, fmap_app, fmap_cons in Hd.
  apply wp_zoom, (wp_list_del _ _ _ _ _ _ Hd). intros h Hd' Hf Hnode. apply HQ, core_relist; [done|done|by rewrite fmap_app|..].
  - intros x k' Hk' Hne Hx. apply Hf. rewrite <- fmap_cons, <- fmap_app, <- EP. by eapply partial_disjoint.
  - intros x Hx. destruct (decide (x ∈ partial_list st k :: (partial_list_node <$> l1) ++ partial_list_node s :: (partial_list_node <$> l2))) as [Hin|Hni].
    + destruct (decide (x = partial_list_node s)) as [->|]; [by rewrite Hnode|]. eapply dlist_is_Some; [exact Hd'|]. set_solver.
    + by rewrite Hf.
  - intros x Hx. assert (x ∈ P k) as Hxk by (rewrite EP; set_solver). split; [by eapply (sc_low _ _ _ _ _ _ HC)|].
    intros k' Hk' Hne Hxk'. by apply Hne, (sc_sep _ _ _ _ _ _ HC _ _ x).
Qed.

Lemma wp_get_from_partial_list st U G cur P lk k (Q : Z → sstate → Prop) :
  slab_core st U G cur P lk → slab_order k →
  (P k = [] → Q NULL st) →
  (∀ s l h, P k = s :: l → slab_core (set_snodes h st) U G cur (upd P k l) lk → Q s (set_snodes h st)) →
  wp (get_from_partial_list k) st Q.
Proof.
  intros HC Hk HQ0 HQ1. unfold get_from_partial_list. apply wp_bind, wp_gets. pose proof (sc_list _ _ _ _ _ _ HC k Hk) as Hd.
  apply wp_bind, wp_zoom, (wp_list_empty _ _ _ _ Hd). replace (set_snodes (snodes st) st) with st by by destruct st.
  destruct (P k) as [|s l] eqn:EP.
  { rewrite bool_decide_true by done. by apply wp_ret, HQ0. }
  rewrite bool_decide_false by done. apply wp_bind, wp_zoom.
  eapply wp_rd_next; [destruct Hd as [_ Hch]; by eapply chain_first|]. replace (set_snodes (snodes st) st) with st by by destruct st.
  simpl. apply wp_bind, (wp_partial_del _ _ _ _ _ _ _ [] s l _ HC Hk EP). intros h HC'. apply wp_ret.
  replace (partial_list_node s - 16) with s by (unfold partial_list_node; lia). by apply (HQ1 s l).
Qed.

(** Appending a slab that is on no list. *)
Lemma wp_partial_append st U G cur P lk k s fl (Q : unit → sstate → Prop) :
  slab_core st U G cur P lk → slab_order k → G !! s = Some (k, fl) → (∀ k', slab_order k' → s ∉ P k') →
  (∀ h, slab_core (set_snodes h st) U G cur (upd P k (P k ++ [s])) lk → Q tt (set_snodes h st)) →
  wp (on_snodes (list_append (partial_list_node s) (partial_list st k))) st Q.
Proof.
  intros HC Hk Hs Hno HQ. pose proof (sc_list _ _ _ _ _ _ HC k Hk) as Hd.
  destruct (sc_slab _ _ _ _ _ _ HC _ _ _ Hs) as (_ & HR & Hsl).
  destruct (slab_range _ _ _ (sc_buddy _ _ _ _ _ _ HC) Hsl) as (Hlow & _). destruct (sc_addr _ _ _ _ _ _ HC) as [_ Hpa].
  assert (∀ k', slab_order k' → partial_list_node s ∉ partial_list st k' :: (partial_list_node <$> P k')) as Hnew.
  { intros k' Hk' [E|(s' & E & Hs')%list_elem_of_fmap]%elem_of_cons.
    - unfold partial_list, partial_list_node, MIN_SLAB_BLOCK_ORDER, slab_order in *. lia.
    - assert (s = s') as <- by (unfold partial_list_node in E; lia). by eapply Hno. }
  apply wp_zoom. eapply wp_list_append; [exact Hd|by apply Hnew|apply (sr_node _ _ _ _ HR)|]. intros h Hd' Hf.
  apply HQ, core_relist; [done|done|by rewrite fmap_app|..].
  - intros x k' Hk' Hne Hx. apply Hf. intros [->|Hx']%elem_of_cons; [by eapply Hnew|]. revert Hx'. by eapply partial_disjoint.
  - intros x Hx. destruct (decide (x ∈ partial_list_node s :: partial_list st k :: (partial_list_node <$> P k))) as [Hin|Hni].
    + eapply dlist_is_Some; [exact Hd'|]. set_solver.
    + by rewrite Hf.
  - intros x [Hx|Hx]%elem_of_app.
    + split; [by eapply (sc_low _ _ _ _ _ _ HC)|]. intros k' Hk' Hne Hxk'. by apply Hne, (sc_sep _ _ _ _ _ _ HC _ _ x).
    + assert (x = s) as -> by set_solver. split; [done|]. intros k' Hk' _. by apply Hno.
Qed.

(** The fields of a container. *)
Lemma wp_set_current st U G cur P lk k v (Q : unit → sstate → Prop) :
  slab_core st U G cur P lk → slab_order k →
  (∀ p, slab_core (set_pool p st) U G (upd cur k v) P lk → Q tt (set_pool p st)) →
  wp (set_current k v) st Q.
Proof.
  intros HC Hk HQ. unfold set_current. apply wp_bind. eapply wp_load; [exact (sc_cont _ _ _ _ _ _ HC k Hk)|].
  apply wp_modify, HQ. pose proof HC as [HB Hpa HS HMk HCt HL Hsep Hlow]. split; try done.
  - intros s k' fl Hs. destruct (HS _ _ _ Hs) as (? & [] & ?). by split_and!.
  - intros k' Hk'. simpl. rewrite lookup_insert. unfold upd. case_decide as E; [subst; by rewrite decide_True|].
    rewrite decide_False by done. by apply HCt.
Qed.

Lemma core_set_lock st U G cur P lk k v : slab_core st U G cur P lk → slab_order k →
  slab_core (set_pool (<[k := mk_container (cur k) v]> (pool st)) st) U G cur P (upd lk k v).
Proof.
  intros [HB Hpa HS HMk HCt HL Hsep Hlow] Hk. split; try done.
  - intros s k' fl Hs. destruct (HS _ _ _ Hs) as (? & [] & ?). by split_and!.
  - intros k' Hk'. simpl. rewrite lookup_insert. unfold upd. case_decide as E; [subst; by rewrite decide_True|].
    rewrite decide_False by done. by apply HCt.
Qed.
End core.
