(* ===== verification/SlabOps.v ===== *)
(** * The operations of the slab allocator

    Total correctness of the static functions of [mm/slab.c] on states that
    satisfy [slab_core]. *)

From S2P Require Import Prelude Macro ListHead Buddy Chunks BuddyInv BuddyOps BuddySpec BuddyCount BuddyInit BuddyTheorems Pages Slab SlabInv.

(** ** Marking the pages of a slab *)

(** The region of the allocator, without its contents. *)
Record geo (b b' : bstate) : Prop := {
  ge_start : start_addr b' = start_addr b;
  ge_size : size b' = size b;
  ge_arr : page_arrry b' = page_arrry b;
  ge_num : page_num b' = page_num b
}.

#[global] Instance geo_preorder : PreOrder geo.
Proof. split; [by split|]. intros b1 b2 b3 [] []. split; etrans; eauto. Qed.

Lemma frame_geo b b' : frame b b' → geo b b'.
Proof. intros []. by split. Qed.

Lemma geo_pfn b b' i : geo b b' → pfn_to_page b' i = pfn_to_page b i.
Proof. intros []. unfold pfn_to_page. congruence. Qed.

Lemma geo_addr b b' i : geo b b' → frame_addr b' i = frame_addr b i.
Proof. intros Hg. unfold frame_addr, page_to_virt, page_to_pfn. rewrite (geo_pfn _ _ _ Hg). destruct Hg. congruence. Qed.

Lemma geo_is_slab b b' U s : geo b b' → is_slab b' U s ↔ is_slab b U s.
Proof. intros Hg. unfold is_slab. by setoid_rewrite (geo_addr _ _ _ Hg). Qed.

(** The free lists did not move. *)
Definition same_lists (b b' : bstate) : Prop := ∀ L, lists b L ↔ lists b' L.

#[global] Instance same_lists_equiv : Equivalence same_lists.
Proof. split; [by intros b L|by intros b b' H L|]. intros b1 b2 b3 H1 H2 L. by rewrite (H1 L). Qed.

#[global] Instance took_lists_proper : Proper (same_lists ==> same_lists ==> eq ==> eq ==> iff) took_lists.
Proof. intros b1 b2 Hb b1' b2' Hb' o ? <- c ? <-. unfold took_lists. by setoid_rewrite (Hb _); setoid_rewrite (Hb' _). Qed.

#[global] Instance gave_lists_proper : Proper (same_lists ==> same_lists ==> iff) gave_lists.
Proof. intros b1 b2 Hb b1' b2' Hb'. unfold gave_lists. by setoid_rewrite (Hb _); setoid_rewrite (Hb' _). Qed.

Lemma gave_lists_refl b U : buddy_ok b U → gave_lists b b.
Proof. intros (C & L & HR & _). exists L, L. split_and!; [by eapply rep_lists|by eapply rep_lists|by left]. Qed.

(** The [slab] mark of frame [i]. *)
Definition mark (b : bstate) (i : Z) : option Z := slab <$> pages b !! pfn_to_page b i.

Lemma buddy_ok_set_slab b U i p v : buddy_ok b U → 0 ≤ i < page_num b → pages b !! pfn_to_page b i = Some p →
  buddy_ok (set_pages (<[pfn_to_page b i := mk_page (allocated p) (order p) v]> (pages b)) b) U.
Proof.
  intros (C & L & HR & Hh & Hco & Hlk & HU) Hi Hp. exists C, L. split_and!; [|done|done|done|done].
  apply (rep_set_pages _ C); [done|apply (rp_cmap _ _ _ HR)| |done].
  intros j Hj. destruct (rep_page _ _ _ _ HR Hj) as (q & Hq & Hm). rewrite lookup_insert. case_decide as Hd; [|eauto].
  rewrite Hd in Hp. eexists. split; [done|]. rewrite Hq in Hp. simplify_eq. by destruct (C !! j) as [[]|].
Qed.

Definition marked (b : bstate) (c n v : Z) (b' : bstate) : Prop :=
  geo b b' ∧ (∀ i, 0 ≤ i < page_num b → mark b' i = if decide (c ≤ i < c + n) then Some v else mark b i) ∧ same_lists b b'.

Lemma wp_mark_pages st U c n v (Q : unit → sstate → Prop) :
  buddy_ok (bud st) U → 0 ≤ c → c + Z.of_nat n ≤ page_num (bud st) →
  (∀ b', buddy_ok b' U → marked (bud st) c (Z.of_nat n) v b' → Q tt (set_bud b' st)) →
  wp (for_up n 0 (λ i, on_bud (set_slab (pfn_to_page (bud st) c + i * sizeof_page) v))) st Q.
Proof.
  intros Hok Hc Hn HQ.
  apply (wp_for_up (λ j st', ∃ b', st' = set_bud b' st ∧ buddy_ok b' U ∧ marked (bud st) c j v b')).
  - exists (bud st). split_and!; [by destruct st|done|split_and!; [done| |done]]. intros i Hi. rewrite decide_False by lia. done.
  - intros j st' Hj (b' & -> & Hok' & Hg & Hm & Hsl). cbn [bud set_bud].
    replace (pfn_to_page (bud st) c + j * sizeof_page) with (pfn_to_page b' (c + j)) by (rewrite (geo_pfn _ _ _ Hg); unfold pfn_to_page; lia).
    apply wp_zoom. cbn [bud set_bud]. assert (0 ≤ c + j < page_num b') as Hr by (rewrite (ge_num _ _ Hg); lia).
    assert (∃ p, pages b' !! pfn_to_page b' (c + j) = Some p) as [p Hp].
    { destruct Hok' as (C & L & HR & _). destruct (rep_page _ _ _ _ HR Hr) as (p & Hp & _). eauto. }
    unfold set_slab, st_page. apply wp_bind. eapply wp_load; [exact Hp|]. apply wp_modify.
    eexists. split_and!; [done|by apply buddy_ok_set_slab|split_and!; [etrans; [exact Hg|by split]| |by etrans]].
    intros i Hi. unfold mark. cbn [pages set_pages]. change (pfn_to_page (set_pages _ b') i) with (pfn_to_page b' i).
    rewrite lookup_insert. case_decide as Hd.
    + apply pfn_to_page_inj in Hd as <-. rewrite decide_True by lia. done.
    + assert (c + j ≠ i) by (intros <-; done). specialize (Hm i Hi). unfold mark in Hm. rewrite Hm. repeat case_decide; done || lia.
  - intros st' (b' & -> & Hok' & Hm). by apply HQ.
Qed.

(** ** Linking the blocks of a new slab *)
Definition blocks_from (s k j : Z) : list Z := (λ i, s + i * 2 ^ k) <$> seqZ j (nblocks k - j).

Lemma blocks_from_cons s k j : j < nblocks k → blocks_from s k j = s + j * 2 ^ k :: blocks_from s k (j + 1).
Proof.
  intros Hj. unfold blocks_from. rewrite seqZ_cons by lia. rewrite fmap_cons. do 3 f_equal; lia.
Qed.

Lemma blocks_from_nil s k : blocks_from s k (nblocks k) = [].
Proof. unfold blocks_from. by rewrite Z.sub_diag. Qed.

Lemma free_chain_from m s k n j : nblocks k - j = Z.of_nat n → 
  (∀ i, j ≤ i < nblocks k - 1 → m !! (s + i * 2 ^ k) = Some (s + (i + 1) * 2 ^ k)) →
  m !! (s + (nblocks k - 1) * 2 ^ k) = Some NULL → free_chain m (blocks_from s k j).
Proof.
  revert j. induction n as [|n IH]; intros j Hj Hin Hlast.
  { replace j with (nblocks k) by lia. by rewrite blocks_from_nil. }
  rewrite blocks_from_cons by lia. split; [|apply IH; [lia| |done]; intros; apply Hin; lia].
  destruct (decide (j = nblocks k - 1)) as [->|Hne].
  - replace (nblocks k - 1 + 1) with (nblocks k) by lia. by rewrite blocks_from_nil.
  - rewrite blocks_from_cons by lia. simpl. apply Hin. lia.
Qed.

Lemma slab_size_eq : SLAB_SIZE = 2 ^ 17.
Proof. reflexivity. Qed.

Lemma order_to_size k : 0 ≤ k → slab_order_to_size k = 2 ^ k.
Proof. intros. unfold slab_order_to_size. by rewrite Z.shiftl_1_l. Qed.

Lemma wp_link_blocks fuel st s k j (Q : Z → sstate → Prop) :
  slab_order k → 1 ≤ j ≤ nblocks k - 1 → nblocks k - 1 - j < Z.of_nat fuel →
  (∀ n, (∀ i, j ≤ i < nblocks k - 1 → n !! (s + i * 2 ^ k) = Some (s + (i + 1) * 2 ^ k)) →
        (∀ a, (∀ i, j ≤ i < nblocks k - 1 → a ≠ s + i * 2 ^ k) → n !! a = nexts st !! a) →
        Q (s + (nblocks k - 1) * 2 ^ k) (set_nexts n st)) →
  wp (link_blocks fuel s k (s + j * 2 ^ k)) st Q.
Proof.
  intros Hk. revert st j. induction fuel as [|fuel IH]; intros st j Hj Hfuel HQ; [lia|].
  cbn [link_blocks]. pose proof (nblocks_size k Hk) as Hsz. pose proof (block_size k Hk) as Hbs. unfold slab_order in Hk.
  rewrite slab_size_eq, order_to_size by lia. set (e := 2 ^ k) in *. case_cmp as Hc.
  - assert (j < nblocks k - 1) by nia. apply wp_bind, wp_modify.
    replace (s + j * e + e) with (s + (j + 1) * e) by lia. apply IH; [lia|lia|].
    intros n Hn Hf. set (st1 := set_nexts _ st) in *. change (set_nexts n st1) with (set_nexts n st). apply HQ.
    + intros i Hi. destruct (decide (i = j)) as [->|Hne]; [|apply Hn; lia].
      rewrite Hf by (intros i' Hi' E; nia). subst st1. simpl. by rewrite lookup_insert_eq.
    + intros a Ha. rewrite Hf by (intros i Hi; apply Ha; lia). subst st1. simpl. rewrite lookup_insert_ne; [done|]. intros E. by apply (Ha j); [lia|].
  - assert (j = nblocks k - 1) as -> by nia. apply wp_ret. replace st with (set_nexts (nexts st) st) by by destruct st.
    apply HQ; [lia|done].
Qed.

(** ** A new slab *)
Section new_slab.
Context {st : sstate} {U : gmap Z Z} {G : gmap_slabs} {cur : Z → Z} {P : Z → list Z} {lk : Z → Z}.
Context (HC : slab_core st U G cur P lk).
Context (HPG : ∀ k s, slab_order k → s ∈ P k → is_Some (G !! s)).
Context (k c : Z) (Hk : slab_order k) (Hav : block_avail (bud st) U c 5).

Let s := frame_addr (bud st) c.

Lemma avail_frame : 0 ≤ c ∧ c + 32 ≤ page_num (bud st) ∧ U !! c = None.
Proof.
  pose proof (avail_unused _ _ _ _ Hav ltac:(lia)) as Hu. destruct Hav as [Hc0 Hcn _ _].
  split; [done|]. split; [done|]. apply Hu. intros d o Hd. destruct (used_block _ _ _ _ (sc_buddy _ _ _ _ _ _ HC) Hd). lia.
Qed.

Lemma new_slab_unused : G !! s = None.
Proof.
  destruct avail_frame as (Hc0 & Hcn & Hu). destruct (G !! s) as [[k' fl]|] eqn:E; [|done]. exfalso.
  destruct (sc_slab _ _ _ _ _ _ HC _ _ _ E) as (_ & _ & c' & Hc' & Es). unfold s in Es.
  pose proof (sc_buddy _ _ _ _ _ _ HC) as Hok. destruct (used_block _ _ _ _ Hok Hc') as (? & _ & ? & _).
  rewrite (frame_addr_eq _ U c Hok), (frame_addr_eq _ U c' Hok) in Es by lia. assert (c = c') by lia. congruence.
Qed.

Lemma touch_node_insert a h : touch_node a h = <[a := default (mk_list_head NULL NULL) (h !! a)]> h.
Proof. unfold touch_node. destruct (h !! a) as [v|] eqn:E; [|done]. simpl. by rewrite insert_id. Qed.

(** Frames of the new slab, by address. *)
Lemma new_slab_frames i : 0 ≤ i < page_num (bud st) → in_slab s (frame_addr (bud st) i) ↔ c ≤ i < c + 32.
Proof.
  intros Hi. destruct avail_frame as (Hc0 & Hcn & _). unfold in_slab, s. pose proof (sc_buddy _ _ _ _ _ _ HC) as Hok.
  rewrite (frame_addr_eq _ U c Hok), (frame_addr_eq _ U i Hok) by lia. lia.
Qed.

Lemma new_mark i v v' : 0 ≤ i < page_num (bud st) → mark_ok G (frame_addr (bud st) i) v →
  v' = (if decide (c ≤ i < c + 32) then s else v) → mark_ok (<[s := (k, all_blocks s k)]> G) (frame_addr (bud st) i) v'.
Proof.
  intros Hi Hv ->. unfold mark_ok. case_decide as Hd.
  - left. rewrite lookup_insert_eq. split; [eauto|]. by apply new_slab_frames.
  - destruct Hv as [[Hg Hin]|[-> Hno]]; [left|right]; split; try done.
    + rewrite lookup_insert_is_Some'. by right.
    + intros s'. rewrite lookup_insert_is_Some'. intros [<-|Hs']; [by rewrite new_slab_frames|by apply Hno].
Qed.

Lemma core_new_slab b n :
  geo (bud st) b → buddy_ok b (<[c := 5]> U) →
  (∀ i, 0 ≤ i < page_num (bud st) → mark b i = if decide (c ≤ i < c + 32) then Some s else mark (bud st) i) →
  (∀ a, ¬ in_slab s a → n !! a = nexts st !! a) → free_chain n (all_blocks s k) →
  slab_core (mk_sstate b (<[s := mk_header k (s + 2 ^ k) (nblocks k - 1) (nblocks k)]> (headers st)) n
    (touch_node (partial_list_node s) (snodes st)) (<[k := mk_container s (lk k)]> (pool st)) (pool_addr st))
    (<[c := 5]> U) (<[s := (k, all_blocks s k)]> G) (upd cur k s) P lk.
Proof.
  intros Hg Hok' Hmk Hn Hch. rewrite touch_node_insert. pose proof HC as [HB Hpa HS HMk HCt HL Hsep Hlow]. destruct avail_frame as (Hc0 & Hcn & Hu).
  assert (is_slab (bud st) (<[c := 5]> U) s) as Hsl by (exists c; by rewrite lookup_insert_eq).
  assert (∀ s', is_Some (G !! s') → s' ≠ s) as Hne by (intros s' [? Hs'] ->; rewrite new_slab_unused in Hs'; done).
  split; simpl.
  - done.
  - by rewrite (ge_start _ _ Hg).
  - intros s' k' fl. rewrite lookup_insert. case_decide as Hd.
    + intros [= <- <-]. subst s'. split; [done|]. split; [|by apply (geo_is_slab _ _ _ _ Hg)].
      pose proof (nblocks_ge k Hk). split; simpl.
      * rewrite lookup_insert_eq, all_blocks_length by done. unfold all_blocks. rewrite seqZ_cons by lia. simpl. do 2 f_equal. lia.
      * done.
      * by apply all_blocks_NoDup.
      * intros b' Hb'. by apply elem_of_all_blocks.
      * rewrite lookup_insert_eq. eauto.
    + intros Hs'. destruct (HS _ _ _ Hs') as (Hk' & [Rh Rc Rn Rb Rd] & Hsl'). split; [done|].
      assert (is_slab (bud st) (<[c := 5]> U) s') as Hsl2.
      { destruct Hsl' as (c' & Hc' & ->). exists c'. rewrite lookup_insert_ne by congruence. done. }
      split; [|by apply (geo_is_slab _ _ _ _ Hg)]. split; simpl.
      * by rewrite lookup_insert_ne.
      * eapply free_chain_frame; [|exact Rc]. intros b' Hb'. apply Hn. intros Hin.
        pose proof (block_in_slab _ _ _ Hk' (Rb b' Hb')). pose proof (block_size k' Hk'). unfold in_slab in Hin.
        apply (geo_is_slab _ _ _ _ Hg) in Hsl, Hsl2. destruct (slabs_apart _ _ _ _ Hok' Hsl Hsl2 Hd); lia.
      * done.
      * done.
      * rewrite lookup_insert_is_Some'. by right.
  - intros i Hi. rewrite (ge_num _ _ Hg) in Hi. destruct (HMk i Hi) as (p & Hp & Hm). specialize (Hmk i Hi).
    unfold mark in Hmk at 2. rewrite Hp in Hmk. unfold mark in Hmk. destruct (pages b !! pfn_to_page b i) as [q|] eqn:Eq; [|by case_decide].
    exists q. split; [done|]. rewrite (geo_addr _ _ _ Hg). eapply new_mark; [done|exact Hm|]. simpl in Hmk. case_decide; congruence.
  - intros k' Hk'. rewrite lookup_insert. unfold upd. case_decide as Hd; [subst; by rewrite decide_True|]. rewrite decide_False by done. by apply HCt.
  - intros k' Hk'. eapply dlist_frame; [|by apply HL]. intros x Hx. rewrite lookup_insert_ne; [done|]. intros <-.
    change (partial_list_node s ∈ partial_list st k' :: (partial_list_node <$> P k')) in Hx.
    destruct (slab_range _ _ _ Hok' (proj2 (geo_is_slab _ _ _ _ Hg) Hsl)) as (Hlo & _). rewrite (ge_start _ _ Hg) in Hlo.
    apply elem_of_cons in Hx as [E|(s' & E & Hs')%list_elem_of_fmap].
    + unfold partial_list, partial_list_node, MIN_SLAB_BLOCK_ORDER, slab_order in *. lia.
    + apply (Hne s'); [by eapply HPG|]. unfold partial_list_node in E. lia.
  - done.
  - intros k' s' Hk' Hs'. rewrite (ge_start _ _ Hg). by eapply Hlow.
Qed.
End new_slab.

Section allocating.
Implicit Types (st : sstate) (U : gmap Z Z) (G : gmap_slabs) (cur : Z → Z) (P : Z → list Z) (lk : Z → Z).

Lemma blocks_total k : slab_order k → u32 (SLAB_SIZE / slab_order_to_size k) = nblocks k.
Proof.
  intros Hk. pose proof (nblocks_size k Hk) as Hs. pose proof (nblocks_ge k Hk). pose proof (nblocks_le k Hk).
  rewrite order_to_size by (unfold slab_order in Hk; lia). rewrite slab_size_eq, <- Hs, Z.div_mul by (pose proof (block_size k Hk); lia).
  apply u32_small. lia.
Qed.

Lemma all_blocks_from s k : all_blocks s k = blocks_from s k 1.
Proof. done. Qed.

Lemma wp_alloc_slab_lists st U G cur P lk k (Q : Z → sstate → Prop) :
  slab_core st U G cur P lk → slab_order k → (∀ k s, slab_order k → s ∈ P k → is_Some (G !! s)) →
  ((∀ c, ¬ block_avail (bud st) U c 5) → Q (- ENOMEM) st) →
  (∀ c s st', block_avail (bud st) U c 5 → s = frame_addr (bud st) c → G !! s = None → geo (bud st) (bud st') →
     slab_core st' (<[c := 5]> U) (<[s := (k, all_blocks s k)]> G) (upd cur k s) P lk →
     took_lists (bud st) (bud st') 5 c → Q 0 st') →
  wp (alloc_slab_from_buddy k) st Q.
Proof.
  intros HC Hk HPG HQ0 HQ1. unfold alloc_slab_from_buddy. pose proof (sc_buddy _ _ _ _ _ _ HC) as HB.
  apply wp_bind, wp_zoom, (wp_buddy_get_pages_lists _ _ _ _ HB); [unfold SLAB_PAGE_ORDER; lia| |].
  { intros Hno. simpl. replace (set_bud (bud st) st) with st by by destruct st. by apply wp_ret, HQ0. }
  intros c b1 Hav Hf Hok1 Htk. rewrite (proj2 (Z.eqb_neq _ _)) by (eapply ok_pfn_ne_null; [exact HB|by destruct Hav]).
  destruct (avail_frame HC c Hav) as (Hc0 & Hcn & _). pose proof (frame_geo _ _ Hf) as Hg1.
  apply wp_bind, wp_gets. cbn [bud set_bud]. rewrite <- (frame_pfn _ _ c Hf). fold (frame_addr b1 c). rewrite (geo_addr _ _ c Hg1).
  set (s := frame_addr (bud st) c). cbv zeta. rewrite blocks_total, order_to_size by (done || (unfold slab_order in Hk; lia)).
  pose proof (nblocks_ge k Hk) as Hge. pose proof (nblocks_le k Hk) as Hle. rewrite u32_small by lia.
  apply wp_bind, wp_modify, wp_bind, wp_modify, wp_bind. unfold set_current. apply wp_bind.
  eapply wp_load; [exact (sc_cont _ _ _ _ _ _ HC k Hk)|]. apply wp_modify. cbn [sc_lock].
  replace (s + 2 ^ k) with (s + 1 * 2 ^ k) by lia. apply wp_bind, wp_link_blocks; [done|lia|lia|].
  intros n Hn1 Hn2. apply wp_bind, wp_modify. apply wp_bind.
  match goal with |- wp _ ?x _ => set (st2 := x) end. change b1 with (bud st2).
  change (Z.to_nat SLAB_PAGES_COUNT) with 32%nat.
  eapply (wp_mark_pages st2 (<[c := 5]> U)); [exact Hok1|done|change (bud st2) with b1; rewrite (fr_num _ _ Hf); lia|].
  intros b2 Hok2 (Hg2 & Hmk & Hsl). apply wp_ret. change (bud st2) with b1 in *.
  assert (geo (bud st) b2) as Hg by by etrans. pose proof (block_size k Hk) as Hbs. pose proof (nblocks_size k Hk) as Hns.
  eapply (HQ1 c s); [done|done|by apply (new_slab_unused HC)|exact Hg| |cbn [bud set_bud]; by rewrite <- Hsl].
  pose proof (core_new_slab HC HPG k c Hk Hav b2 (<[s + (nblocks k - 1) * 2 ^ k := NULL]> n) Hg Hok2) as Hcore.
  fold s in Hcore. replace (s + 2 ^ k) with (s + 1 * 2 ^ k) in Hcore by lia. apply Hcore.
  - intros i Hi. rewrite Hmk by (rewrite (fr_num _ _ Hf); lia). change (Z.of_nat 32) with 32. case_decide; [done|].
    unfold mark. rewrite (fr_slab _ _ Hf). by rewrite (frame_pfn _ _ _ Hf).
  - intros a Ha. unfold in_slab in Ha. rewrite lookup_insert_ne by nia. apply Hn2. intros i Hi ->. nia.
  - rewrite all_blocks_from. apply (free_chain_from _ _ _ (Z.to_nat (nblocks k - 1))); [lia| |by rewrite lookup_insert_eq].
    intros i Hi. rewrite lookup_insert_ne by nia. by apply Hn1.
Qed.

Lemma wp_alloc_slab st U G cur P lk k (Q : Z → sstate → Prop) :
  slab_core st U G cur P lk → slab_order k → (∀ k s, slab_order k → s ∈ P k → is_Some (G !! s)) →
  ((∀ c, ¬ block_avail (bud st) U c 5) → Q (- ENOMEM) st) →
  (∀ c s st', block_avail (bud st) U c 5 → s = frame_addr (bud st) c → G !! s = None → geo (bud st) (bud st') →
     slab_core st' (<[c := 5]> U) (<[s := (k, all_blocks s k)]> G) (upd cur k s) P lk → Q 0 st') →
  wp (alloc_slab_from_buddy k) st Q.
Proof. intros HC Hk HPG HQ0 HQ1. eapply wp_alloc_slab_lists; eauto. Qed.
End allocating.

(** ** Blocks *)
Section blocks.
Implicit Types (st : sstate) (U : gmap Z Z) (G : gmap_slabs) (cur : Z → Z) (P : Z → list Z) (lk : Z → Z).

Lemma wp_get_free_block st U G cur P lk s k b fl (Q : Z → sstate → Prop) :
  slab_core st U G cur P lk → G !! s = Some (k, b :: fl) →
  (∀ h, slab_core (set_headers h st) U (<[s := (k, fl)]> G) cur P lk → Q b (set_headers h st)) →
  wp (slab_get_free_block s) st Q.
Proof.
  intros HC Hs HQ. destruct (sc_slab _ _ _ _ _ _ HC _ _ _ Hs) as (Hk & [Rh Rc Rn Rb Rd] & Hsl).
  destruct (slab_block_nonnull _ _ _ _ _ _ _ _ _ b HC Hs (Rb b ltac:(set_solver))) as (_ & Hb0 & _).
  pose proof (free_list_bound s k (b :: fl) Hk Rn Rb) as Hlen. pose proof (nblocks_le k Hk) as Hnb. simpl in Hlen.
  destruct Rc as [Hnext Rc]. unfold slab_get_free_block. apply wp_bind. eapply wp_load; [exact Rh|]. cbn [h_order next_free_block free_block_count total_block_count head_or_null length].
  apply wp_bind, wp_BUG_ON; [apply Z.eqb_neq; lia|]. apply wp_bind, wp_BUG_ON; [apply Z.eqb_neq; lia|].
  apply wp_bind. eapply wp_load; [exact Hnext|]. apply wp_bind, wp_modify, wp_ret, HQ.
  rewrite u32_small by lia. replace (Z.of_nat (S (length fl)) - 1) with (Z.of_nat (length fl)) by lia.
  replace (set_headers _ st) with
    (set_headers (<[s := mk_header k (head_or_null fl) (Z.of_nat (length fl)) (nblocks k)]> (headers st)) (set_nexts (nexts st) st)) by by destruct st.
  apply NoDup_cons in Rn as [_ Rn]. eapply core_update_slab; [done|exact Hs|done|done|done|done|]. set_solver.
Qed.

(** The block index computation of [slab_put_block] maps any address of a block to the block. *)
Lemma put_block_addr s k b r : slab_order k → 0 < s → s + 2 ^ 17 < 2 ^ 64 → is_block s k b → 0 ≤ r < 2 ^ k →
  u64 (s + u64 (b + r - s) / slab_order_to_size k * slab_order_to_size k) = b.
Proof.
  intros Hk Hs0 Hs64 Hb Hr. pose proof (block_in_slab s k b Hk Hb) as Hbr. destruct Hb as (j & Hj & ->). pose proof (block_size k Hk).
  rewrite order_to_size by (unfold slab_order in Hk; lia). set (e := 2 ^ k) in *.
  rewrite (u64_small (s + j * e + r - s)) by lia. replace (s + j * e + r - s) with (r + j * e) by lia.
  rewrite Z.div_add, Z.div_small by lia. apply u64_small. lia.
Qed.

Lemma wp_put_block st U G cur P lk s k fl b r (Q : unit → sstate → Prop) :
  slab_core st U G cur P lk → G !! s = Some (k, fl) → is_block s k b → b ∉ fl → 0 ≤ r < 2 ^ k →
  (∀ h n, slab_core (set_headers h (set_nexts n st)) U (<[s := (k, b :: fl)]> G) cur P lk → Q tt (set_headers h (set_nexts n st))) →
  wp (slab_put_block s (b + r)) st Q.
Proof.
  intros HC Hs Hb Hbf Hr HQ. destruct (sc_slab _ _ _ _ _ _ HC _ _ _ Hs) as (Hk & [Rh Rc Rn Rb Rd] & Hsl).
  destruct (slab_range _ _ _ (sc_buddy _ _ _ _ _ _ HC) Hsl) as (_ & _ & Hs0 & Hs64 & _).
  pose proof (block_in_slab s k b Hk Hb) as Hbr. pose proof (block_size k Hk).
  assert (NoDup (b :: fl)) as Hnd by by constructor.
  assert (∀ x, x ∈ b :: fl → is_block s k x) as Hbl by (intros x [->|Hx]%elem_of_cons; auto).
  pose proof (free_list_bound s k (b :: fl) Hk Hnd Hbl) as Hlen. pose proof (nblocks_le k Hk) as Hnb. simpl in Hlen.
  unfold slab_put_block. apply wp_bind, wp_BUG_ON; [apply Z.eqb_neq; lia|]. apply wp_bind, wp_BUG_ON; [apply Z.eqb_neq; lia|].
  apply wp_bind. eapply wp_load; [exact Rh|]. cbn [h_order next_free_block free_block_count total_block_count].
  rewrite (put_block_addr s k b r) by done. apply wp_bind, wp_modify, wp_modify, HQ.
  rewrite u32_small by lia. replace (Z.of_nat (length fl) + 1) with (Z.of_nat (length (b :: fl))) by (simpl; lia).
  refine (core_update_slab st _ _ _ _ _ s k fl (b :: fl) _ _ HC Hs eq_refl _ _ Hnd Hbl).
  - intros a Ha. rewrite lookup_insert_ne; [done|]. intros <-. apply Ha. unfold in_slab. lia.
  - split; [by rewrite lookup_insert_eq|]. eapply free_chain_frame; [|exact Rc]. intros x Hx. rewrite lookup_insert_ne; [done|]. intros <-. done.
Qed.

(** ** Giving a slab back *)
Lemma core_drop_slab st U G cur P lk s k fl c b :
  slab_core st U G cur P lk → G !! s = Some (k, fl) → U !! c = Some 5 → s = frame_addr (bud st) c →
  geo (bud st) b → buddy_ok b (delete c U) →
  (∀ i, 0 ≤ i < page_num (bud st) → mark b i = if decide (c ≤ i < c + 32) then Some NULL else mark (bud st) i) →
  slab_core (set_bud b st) (delete c U) (delete s G) cur P lk.
Proof.
  intros HC Hs Hc Es Hg Hok' Hmk. pose proof HC as [HB Hpa HS HMk HCt HL Hsep Hlow].
  destruct (HS _ _ _ Hs) as (Hk & HR & Hsl). destruct (used_block _ _ _ _ HB Hc) as (Hc0 & _ & Hcn & _).
  assert (∀ i, 0 ≤ i < page_num (bud st) → in_slab s (frame_addr (bud st) i) ↔ c ≤ i < c + 32) as Hfr.
  { intros i Hi. unfold in_slab. rewrite Es. rewrite (frame_addr_eq _ U c HB), (frame_addr_eq _ U i HB) by lia. lia. }
  split; simpl; [done| | | |done|done|done|].
  - by rewrite (ge_start _ _ Hg).
  - intros s' k' fl'. rewrite lookup_delete. case_decide as Hd; [done|]. intros Hs'.
    destruct (HS _ _ _ Hs') as (Hk' & [Rh Rc Rn Rb Rd] & (c' & Hc' & Es')). split; [done|]. split; [by split|].
    exists c'. rewrite (geo_addr _ _ _ Hg). split; [|done]. rewrite lookup_delete_ne; [done|]. intros <-. by rewrite Es, Es' in Hd.
  - intros i Hi. rewrite (ge_num _ _ Hg) in Hi. destruct (HMk i Hi) as (p & Hp & Hm). specialize (Hmk i Hi).
    unfold mark in Hmk. rewrite Hp in Hmk. destruct (pages b !! pfn_to_page b i) as [q|] eqn:Eq; [|by case_decide].
    exists q. split; [done|]. rewrite (geo_addr _ _ _ Hg). simpl in Hmk. case_decide as Hd.
    + right. split; [congruence|]. intros s' [e Hs'] Hin. rewrite lookup_delete in Hs'. case_decide as Hne; [done|].
      destruct e as [k' fl']. destruct (HS _ _ _ Hs') as (_ & _ & Hsl'). apply (Hfr i Hi) in Hd. unfold in_slab in *.
      destruct (slabs_apart _ _ _ _ HB Hsl Hsl' Hne); lia.
    + injection Hmk as ->. destruct Hm as [[Hgv Hin]|[-> Hno]]; [left|right]; split; try done.
      * rewrite lookup_delete_ne; [done|]. intros E. rewrite <- E in Hin. by apply Hfr in Hin.
      * intros s' Hs'. apply Hno. rewrite lookup_delete_is_Some in Hs'. tauto.
  - intros k' s' Hk' Hs'. rewrite (ge_start _ _ Hg). by eapply Hlow.
Qed.

Lemma wp_put_slab st U G cur P lk s k fl (Q : Z → sstate → Prop) :
  slab_core st U G cur P lk → G !! s = Some (k, fl) → Z.of_nat (length fl) = nblocks k - 1 →
  (∀ c b, U !! c = Some 5 → s = frame_addr (bud st) c → geo (bud st) b → gave_lists (bud st) b →
     slab_core (set_bud b st) (delete c U) (delete s G) cur P lk → Q 0 (set_bud b st)) →
  wp (put_slab_to_buddy s) st Q.
Proof.
  intros HC Hs Hlen HQ. destruct (sc_slab _ _ _ _ _ _ HC _ _ _ Hs) as (Hk & HR & (c & Hc & Es)).
  pose proof (sc_buddy _ _ _ _ _ _ HC) as HB. destruct (used_block _ _ _ _ HB Hc) as (Hc0 & _ & Hcn & _).
  unfold put_slab_to_buddy. apply wp_bind, wp_gets.
  assert (virt_to_page (bud st) s = pfn_to_page (bud st) c) as ->.
  { pose proof (buddy_ok_region _ _ HB) as HG. rewrite Es. unfold frame_addr. rewrite (page_to_virt_frame HG) by lia.
    rewrite <- (Z.add_0_r (_ * _)). apply virt_to_page_frame; [done|lia|lia]. }
  rewrite (proj2 (Z.eqb_neq _ _)) by by eapply ok_pfn_ne_null.
  apply wp_bind. eapply wp_load; [exact (sr_hdr _ _ _ _ HR)|]. cbn [free_block_count total_block_count].
  pose proof (nblocks_ge k Hk). pose proof (nblocks_le k Hk). rewrite u32_small, Hlen, Z.eqb_refl by lia. cbn [negb].
  apply wp_bind. change (Z.to_nat SLAB_PAGES_COUNT) with 32%nat.
  eapply (wp_mark_pages st U); [done|done|lia|]. intros b1 Hok1 (Hg1 & Hmk & Hsl).
  apply wp_bind, wp_zoom. cbn [bud set_bud]. rewrite <- (geo_pfn _ _ c Hg1). eapply wp_buddy_free_pages_lists; [exact Hok1|exact Hc|].
  intros b2 Hf2 Hok2 Hgv. apply wp_ret. change (set_bud b2 (set_bud b1 st)) with (set_bud b2 st).
  assert (geo (bud st) b2) as Hg by (etrans; [exact Hg1|by apply frame_geo]).
  apply (HQ c b2); [done|done|done|by rewrite Hsl|]. eapply core_drop_slab; [exact HC|exact Hs|done|done|done|done|].
  intros i Hi. change (Z.of_nat 32) with 32 in Hmk. rewrite <- Hmk by done. unfold mark. rewrite (fr_slab _ _ Hf2). by rewrite (frame_pfn _ _ _ Hf2).
Qed.
End blocks.
