(* ===== verification/SlabSpec.v ===== *)
(** * What the slab allocator promises

    [slab_ok st U G]: between calls the state [st] is consistent with the
    allocated buddy blocks [U] and the slabs [G].  [live G a k] are the blocks
    in the clients' hands.  The lemmas give the effect of [__slab_alloc] and
    [__slab_free] on [live], on the page blocks that are not slabs, and on the
    invariant. *)

From S2P Require Import Prelude Macro ListHead Buddy Chunks BuddyInv BuddyOps BuddySpec BuddyCount BuddyInit BuddyTheorems Pages Slab SlabInv SlabOps.

(** An allocated buddy block that is not a slab. *)
Definition page_block (b : bstate) (U : gmap Z Z) (G : gmap_slabs) (c o : Z) : Prop :=
  U !! c = Some o ∧ G !! frame_addr b c = None.

(** The clients' view did not change. *)
Record same_view (b : bstate) (U : gmap Z Z) (G : gmap_slabs) (b' : bstate) (U' : gmap Z Z) (G' : gmap_slabs) : Prop := {
  sv_geo : geo b b';
  sv_pages : ∀ c o, page_block b' U' G' c o ↔ page_block b U G c o;
  sv_live : ∀ a k, live G' a k ↔ live G a k
}.

Lemma same_view_refl b U G : same_view b U G b U G.
Proof. by split. Qed.

Lemma same_view_trans b1 U1 G1 b2 U2 G2 b3 U3 G3 :
  same_view b1 U1 G1 b2 U2 G2 → same_view b2 U2 G2 b3 U3 G3 → same_view b1 U1 G1 b3 U3 G3.
Proof.
  intros [g1 p1 l1] [g2 p2 l2]. split; [by etrans|..].
  - intros c o. by rewrite p2.
  - intros a k. by rewrite l2.
Qed.

Section views.
Context {st : sstate} {U : gmap Z Z} {G : gmap_slabs} {cur : Z → Z} {P : Z → list Z} {lk : Z → Z}.
Context (HC : slab_core st U G cur P lk).

Lemma view_new b' c s k : geo (bud st) b' → block_avail (bud st) U c 5 → s = frame_addr (bud st) c → G !! s = None →
  same_view (bud st) U G b' (<[c := 5]> U) (<[s := (k, all_blocks s k)]> G).
Proof.
  intros Hg Hav Es Hs. pose proof (sc_buddy _ _ _ _ _ _ HC) as HB. destruct (avail_frame HC c Hav) as (Hc0 & Hcn & Hu).
  split; [done|..].
  - intros d o. unfold page_block. rewrite (geo_addr _ _ _ Hg), !lookup_insert. destruct (decide (c = d)) as [<-|Hd].
    + rewrite (decide_True (P := s = _)) by done. rewrite Hu. naive_solver.
    + assert (U !! d = Some o → s ≠ frame_addr (bud st) d) as Hne.
      { intros Hdo E. destruct (used_block _ _ _ _ HB Hdo) as (? & ? & ? & _). pose proof (pow2_gt0 o ltac:(lia)).
        rewrite Es, (frame_addr_eq _ U c HB), (frame_addr_eq _ U d HB) in E by lia. lia. }
      split; intros [Hdo Hn]; (split; [done|]); specialize (Hne Hdo); [by rewrite decide_False in Hn by done|by rewrite decide_False by done].
  - intros a k'. rewrite live_insert, delete_id by done. split; [|by right]. intros [(_ & Hb & Hn)|Hl]; [|done].
    by apply elem_of_all_blocks in Hb.
Qed.

Lemma view_drop b' c s k fl : geo (bud st) b' → U !! c = Some 5 → s = frame_addr (bud st) c → G !! s = Some (k, fl) →
  Z.of_nat (length fl) = nblocks k - 1 → same_view (bud st) U G b' (delete c U) (delete s G).
Proof.
  intros Hg Hc Es Hs Hlen. pose proof (sc_buddy _ _ _ _ _ _ HC) as HB.
  destruct (sc_slab _ _ _ _ _ _ HC _ _ _ Hs) as (Hk & [Rh Rc Rn Rb Rd] & _). destruct (used_block _ _ _ _ HB Hc) as (Hc0 & _ & Hcn & _).
  split; [done|..].
  - intros d o. unfold page_block. rewrite (geo_addr _ _ _ Hg), !lookup_delete. destruct (decide (c = d)) as [<-|Hd].
    + rewrite <- Es, Hs. naive_solver.
    + assert (U !! d = Some o → s ≠ frame_addr (bud st) d) as Hne.
      { intros Hdo E. destruct (used_block _ _ _ _ HB Hdo) as (? & ? & ? & _). pose proof (pow2_gt0 o ltac:(lia)).
        rewrite Es, (frame_addr_eq _ U c HB), (frame_addr_eq _ U d HB) in E by lia. lia. }
      split; intros [Hdo Hn]; (split; [done|]); specialize (Hne Hdo); [by rewrite decide_False in Hn by done|by rewrite decide_False by done].
  - intros a k'. rewrite (live_split G s k fl) by done. split; [by right|]. intros [(_ & Hb & Hn)|Hl]; [|done].
    exfalso. by eapply Hn, full_free.
Qed.

(** Taking the first free block of a slab, or putting one back. *)
Lemma live_take s k b fl a k' : G !! s = Some (k, b :: fl) →
  live (<[s := (k, fl)]> G) a k' ↔ live G a k' ∨ (a = b ∧ k' = k).
Proof.
  intros Hs. destruct (sc_slab _ _ _ _ _ _ HC _ _ _ Hs) as (Hk & [_ _ Rn Rb _] & _). apply NoDup_cons in Rn as [Rn _].
  rewrite live_insert, (live_split G s k (b :: fl)) by done. pose proof (Rb b ltac:(set_solver)).
  destruct (decide (a = b)) as [->|Hne]; [split; set_solver|]. split.
  - intros [(-> & Hb & Hn)|Hl]; [|tauto]. left. left. set_solver.
  - intros [[(-> & Hb & Hn)|Hl]|[-> _]]; [left; set_solver|tauto|done].
Qed.

Lemma not_live_free s k b fl : G !! s = Some (k, fl) → b ∈ fl → ¬ live G b k.
Proof.
  intros Hs Hb (s' & fl' & Hs' & Hib & Hn). destruct (sc_slab _ _ _ _ _ _ HC _ _ _ Hs) as (Hk & [_ _ _ Rb _] & Hsl).
  destruct (sc_slab _ _ _ _ _ _ HC _ _ _ Hs') as (_ & _ & Hsl'). destruct (decide (s = s')) as [<-|Hne]; [naive_solver|].
  pose proof (block_in_slab _ _ _ Hk (Rb b Hb)). pose proof (block_in_slab _ _ _ Hk Hib). pose proof (block_size k Hk).
  destruct (slabs_apart _ _ _ _ (sc_buddy _ _ _ _ _ _ HC) Hsl Hsl' Hne); lia.
Qed.

Lemma live_put s k b fl a k' : G !! s = Some (k, fl) → is_block s k b → b ∉ fl →
  live (<[s := (k, b :: fl)]> G) a k' ↔ live G a k' ∧ ¬ (a = b ∧ k' = k).
Proof.
  intros Hs Hib Hbf. rewrite live_insert, (live_split G s k fl) by done.
  assert (live (delete s G) b k → False) as Hno.
  { intros (s' & fl' & Hs' & Hib' & _). rewrite lookup_delete in Hs'. case_decide as Hne; [done|].
    destruct (sc_slab _ _ _ _ _ _ HC _ _ _ Hs) as (Hk & _ & Hsl). destruct (sc_slab _ _ _ _ _ _ HC _ _ _ Hs') as (_ & _ & Hsl').
    pose proof (block_in_slab _ _ _ Hk Hib). pose proof (block_in_slab _ _ _ Hk Hib'). pose proof (block_size k Hk).
    destruct (slabs_apart _ _ _ _ (sc_buddy _ _ _ _ _ _ HC) Hsl Hsl' Hne); lia. }
  split.
  - intros [(-> & Hb & Hn)|Hl]; [split; [left; set_solver|set_solver]|]. split; [by right|]. intros [-> ->]. done.
  - intros [[(-> & Hb & Hn)|Hl] Hne]; [|by right]. left. split_and!; [done|done|]. set_solver.
Qed.

Lemma page_block_update s k fl k' fl' b' c o : geo (bud st) b' → G !! s = Some (k, fl) →
  page_block b' U (<[s := (k', fl')]> G) c o ↔ page_block (bud st) U G c o.
Proof.
  intros Hg Hs. unfold page_block. rewrite (geo_addr _ _ _ Hg), lookup_insert. case_decide as Hd; [|done]. rewrite <- Hd, Hs. naive_solver.
Qed.
End views.

Lemma core_lk_ext st U G cur P lk lk' : (∀ k, slab_order k → lk k = lk' k) → slab_core st U G cur P lk → slab_core st U G cur P lk'.
Proof. intros Hl [HB Hpa HS HMk HCt HL Hsep Hlow]. split; try done. intros k Hk. rewrite <- Hl by done. by apply HCt. Qed.

Lemma wp_lock_sc st U G cur P lk k (Q : unit → sstate → Prop) :
  slab_core st U G cur P lk → slab_order k → lk k = 0 →
  (slab_core (set_pool (<[k := mk_container (cur k) 1]> (pool st)) st) U G cur P (upd lk k 1) →
   Q tt (set_pool (<[k := mk_container (cur k) 1]> (pool st)) st)) → wp (lock_sc k) st Q.
Proof.
  intros HC Hk Hl HQ. unfold lock_sc. apply wp_bind. eapply wp_load; [exact (sc_cont _ _ _ _ _ _ HC k Hk)|]. cbn [sc_lock current].
  rewrite Hl, Z.eqb_refl. by apply wp_modify, HQ, core_set_lock.
Qed.

Lemma wp_unlock_sc st U G cur P lk k (Q : unit → sstate → Prop) :
  slab_core st U G cur P lk → slab_order k →
  (slab_core (set_pool (<[k := mk_container (cur k) 0]> (pool st)) st) U G cur P (upd lk k 0) →
   Q tt (set_pool (<[k := mk_container (cur k) 0]> (pool st)) st)) → wp (unlock_sc k) st Q.
Proof.
  intros HC Hk HQ. unfold unlock_sc. apply wp_bind. eapply wp_load; [exact (sc_cont _ _ _ _ _ _ HC k Hk)|]. cbn [current].
  by apply wp_modify, HQ, core_set_lock.
Qed.

Lemma relock_unlocked k : ∀ k', upd (upd unlocked k 1) k 0 k' = unlocked k'.
Proof. intros k'. unfold upd, unlocked. by repeat case_decide. Qed.

(** ** Shape lemmas *)

(** [slab_shape] except that container [k0] may be without a usable current slab. *)
Record shape_but (k0 : Z) (G : gmap_slabs) (cur : Z → Z) (P : Z → list Z) : Prop := {
  sb_cur : ∀ k, slab_order k → k ≠ k0 → cur k = NULL ∨ ∃ fl, G !! cur k = Some (k, fl) ∧ fl ≠ [];
  sb_part : ∀ k s, slab_order k → s ∈ P k ↔ s ≠ cur k ∧ ∃ fl, G !! s = Some (k, fl) ∧ fl ≠ [];
  sb_none : ∀ fl, G !! cur k0 = Some (k0, fl) → fl = []
}.

Section shape.
Implicit Types (G : gmap_slabs) (cur : Z → Z) (P : Z → list Z).

Lemma shape_in G cur P k s : slab_shape G cur P → slab_order k → s ∈ P k → is_Some (G !! s).
Proof. intros HS Hk Hs. apply (sh_part _ _ _ HS) in Hs as (_ & fl & Hg & _); [eauto|done]. Qed.

Lemma shape_but_in k0 G cur P k s : shape_but k0 G cur P → slab_order k → s ∈ P k → is_Some (G !! s).
Proof. intros HS Hk Hs. apply (sb_part _ _ _ _ HS) in Hs as (_ & fl & Hg & _); [eauto|done]. Qed.

Lemma shape_null_but G cur P k : slab_shape G cur P → slab_order k → G !! NULL = None → cur k = NULL → shape_but k G cur P.
Proof. intros [Hc Hp] Hk H0 E. split; [auto|done|]. intros fl. by rewrite E, H0. Qed.

(** A new current slab, all of its blocks free. *)
Lemma shape_new G cur P k s : shape_but k G cur P → slab_order k → G !! s = None →
  slab_shape (<[s := (k, all_blocks s k)]> G) (upd cur k s) P.
Proof.
  intros [Hc Hp Hn] Hk Hs. split.
  - intros k' Hk'. destruct (decide (k' = k)) as [->|Hne].
    + right. rewrite upd_eq, lookup_insert_eq. eexists. split; [done|]. intros E.
      pose proof (all_blocks_length s k Hk) as Hl. rewrite E in Hl. pose proof (nblocks_ge k Hk). simpl in Hl. lia.
    + rewrite upd_ne by done. destruct (Hc k' Hk' Hne) as [E|(fl & Hg & Hfl)]; [by left|right].
      exists fl. rewrite lookup_insert_ne; [done|]. intros E. by rewrite E, Hg in Hs.
  - intros k' s' Hk'. rewrite (Hp k' s' Hk'), lookup_insert. destruct (decide (s = s')) as [<-|Hne].
    + rewrite Hs. split; [intros (_ & ? & [=] & _)|]. intros (Hx & fl & [= <- _] & _). exfalso. apply Hx. by rewrite upd_eq.
    + destruct (decide (k' = k)) as [->|Hk2]; [|by rewrite upd_ne]. rewrite upd_eq. split; [naive_solver|].
      intros (_ & fl & Hg & Hfl). split; [|eauto]. intros ->. by apply Hfl, Hn.
Qed.

(** The first partial slab becomes current. *)
Lemma shape_from_partial G cur P k s l : shape_but k G cur P → slab_order k → P k = s :: l → NoDup (P k) →
  slab_shape G (upd cur k s) (upd P k l).
Proof.
  intros [Hc Hp Hn] Hk EP Hnd. rewrite EP in Hnd. apply NoDup_cons in Hnd as [Hsl _].
  destruct (proj1 (Hp k s Hk)) as (Hsc & fls & Hsg & Hsn); [rewrite EP; set_solver|]. split.
  - intros k' Hk'. destruct (decide (k' = k)) as [->|Hne]; [rewrite upd_eq; right; eauto|rewrite upd_ne by done; auto].
  - intros k' s' Hk'. destruct (decide (k' = k)) as [->|Hne]; [|rewrite !upd_ne by done; by apply Hp]. rewrite !upd_eq.
    pose proof (Hp k s' Hk) as Hps. rewrite EP in Hps. split.
    + intros Hin. split; [intros ->; done|]. apply Hps. set_solver.
    + intros (Hne & fl & Hg & Hfl). assert (s' ∈ s :: l) as Hin; [|set_solver]. apply Hps. split; [|eauto].
      intros ->. by apply Hfl, Hn.
Qed.

(** No slab with a free block is left. *)
Lemma shape_no_current G cur P k : shape_but k G cur P → slab_order k → P k = [] → G !! NULL = None →
  slab_shape G (upd cur k NULL) P.
Proof.
  intros [Hc Hp Hn] Hk EP H0. split.
  - intros k' Hk'. destruct (decide (k' = k)) as [->|Hne]; [left; by rewrite upd_eq|rewrite upd_ne by done; auto].
  - intros k' s' Hk'. destruct (decide (k' = k)) as [->|Hne]; [|rewrite upd_ne by done; by apply Hp]. rewrite upd_eq, EP.
    split; [set_solver|]. intros (_ & fl & Hg & Hfl). exfalso. assert (s' ∈ P k) as Hin; [|rewrite EP in Hin; set_solver].
    apply Hp; [done|]. split; [|eauto]. intros ->. by apply Hfl, Hn.
Qed.

(** A slab of order [k] changes its chain: the other containers do not notice. *)
Lemma shape_other G cur P k s fl fl' k' : slab_shape G cur P → G !! s = Some (k, fl) → slab_order k' → k' ≠ k →
  cur k' = NULL ∨ ∃ f, <[s := (k, fl')]> G !! cur k' = Some (k', f) ∧ f ≠ [].
Proof.
  intros HS Hs Hk' Hne. destruct (sh_cur _ _ _ HS k' Hk') as [E|(f & Hg & Hf)]; [by left|right].
  exists f. rewrite lookup_insert_ne; [done|]. intros ->. congruence.
Qed.

Lemma shape_take_but G cur P k b : slab_shape G cur P → slab_order k → G !! cur k = Some (k, [b]) →
  shape_but k (<[cur k := (k, [])]> G) cur P.
Proof.
  intros HS Hk Hs. split.
  - intros k' Hk' Hne. by eapply shape_other.
  - intros k' s' Hk'. rewrite (sh_part _ _ _ HS k' s' Hk'), lookup_insert. case_decide as Hd; [subst s'|done].
    rewrite Hs. split; [|naive_solver]. intros (Hne & fl & [= <- <-] & _). done.
  - intros fl. rewrite lookup_insert_eq. by intros [= <-].
Qed.

(** A slab keeps a free block: nothing moves. *)
Lemma shape_keep G cur P k s fl fl' : slab_shape G cur P → G !! s = Some (k, fl) → fl ≠ [] → fl' ≠ [] →
  slab_shape (<[s := (k, fl')]> G) cur P.
Proof.
  intros HS Hs Hf Hf'. split.
  - intros k' Hk'. destruct (sh_cur _ _ _ HS k' Hk') as [E|(f & Hg & Hne)]; [by left|right]. rewrite lookup_insert.
    case_decide as Hd; [|eauto]. rewrite <- Hd, Hs in Hg. simplify_eq. eauto.
  - intros k' s' Hk'. rewrite (sh_part _ _ _ HS k' s' Hk'), lookup_insert. case_decide as Hd; [subst s'|done].
    rewrite Hs. naive_solver.
Qed.

(** A full slab gets a free block and joins the partial list. *)
Lemma shape_append G cur P k s fl' : slab_shape G cur P → slab_order k → G !! s = Some (k, []) → fl' ≠ [] → G !! NULL = None →
  s ≠ cur k ∧ (∀ k', slab_order k' → s ∉ P k') ∧ slab_shape (<[s := (k, fl')]> G) cur (upd P k (P k ++ [s])).
Proof.
  intros HS Hk Hs Hf' H0.
  assert (s ≠ cur k) as Hne by (intros ->; destruct (sh_cur _ _ _ HS k Hk) as [E|(f & Hg & Hf)]; congruence).
  assert (∀ k', slab_order k' → s ∉ P k') as Hno.
  { intros k' Hk' Hin. apply (sh_part _ _ _ HS) in Hin as (_ & f & Hg & Hf); [|done]. congruence. }
  split_and!; [done|done|]. split.
  - intros k' Hk'. destruct (sh_cur _ _ _ HS k' Hk') as [E|(f & Hg & Hf)]; [by left|right]. rewrite lookup_insert.
    case_decide as Hd; [|eauto]. rewrite <- Hd, Hs in Hg. simplify_eq.
  - intros k' s' Hk'. destruct (decide (k' = k)) as [->|Hk2].
    + rewrite upd_eq, elem_of_app, list_elem_of_singleton, (sh_part _ _ _ HS k s' Hk), lookup_insert. case_decide as Hd.
      * subst s'. split; [intros _; split; [done|eauto]|by right].
      * split; [naive_solver|by left].
    + rewrite upd_ne, (sh_part _ _ _ HS k' s' Hk'), lookup_insert by done. case_decide as Hd; [subst s'|done].
      rewrite Hs. split; naive_solver.
Qed.

(** The slab [s] is given back. *)
Lemma shape_drop_current G cur P k fl : slab_shape G cur P → slab_order k → G !! cur k = Some (k, fl) → shape_but k (delete (cur k) G) cur P.
Proof.
  intros HS Hk Hs. split.
  - intros k' Hk' Hne. destruct (sh_cur _ _ _ HS k' Hk') as [E|(f & Hg & Hf)]; [by left|right].
    exists f. rewrite lookup_delete_ne; [done|]. intros E. rewrite E in Hs. congruence.
  - intros k' s' Hk'. rewrite (sh_part _ _ _ HS k' s' Hk'), lookup_delete. case_decide as Hd; [subst s'|done].
    rewrite Hs. split; [|naive_solver]. intros (Hne & f & [= <- <-] & _). done.
  - intros f. by rewrite lookup_delete_eq.
Qed.

Lemma shape_drop_partial G cur P k s l1 l2 fl : slab_shape G cur P → slab_order k → G !! s = Some (k, fl) → s ≠ cur k →
  P k = l1 ++ s :: l2 → NoDup (P k) → slab_shape (delete s G) cur (upd P k (l1 ++ l2)).
Proof.
  intros HS Hk Hs Hne EP Hnd. rewrite EP in Hnd. apply NoDup_app in Hnd as (_ & Hd1 & [Hd2 _]%NoDup_cons). split.
  - intros k' Hk'. destruct (sh_cur _ _ _ HS k' Hk') as [E|(f & Hg & Hf)]; [by left|right].
    exists f. rewrite lookup_delete_ne; [done|]. intros ->. rewrite Hs in Hg. simplify_eq.
  - intros k' s' Hk'. destruct (decide (k' = k)) as [->|Hk2].
    + rewrite upd_eq. pose proof (sh_part _ _ _ HS k s' Hk) as Hps. rewrite EP in Hps.
      rewrite lookup_delete. case_decide as Hd; [subst s'; split; [set_solver|naive_solver]|]. rewrite <- Hps. set_solver.
    + rewrite upd_ne, (sh_part _ _ _ HS k' s' Hk'), lookup_delete by done. case_decide as Hd; [subst s'|done]. rewrite Hs. naive_solver.
Qed.
End shape.

(** ** Slabs without a block in use

    Such a slab is kept only as a current slab that was fetched in advance. *)
Definition in_use (k : Z) (fl : list Z) : Prop := Z.of_nat (length fl) < nblocks k - 1.
Definition lean_but (s : Z) (G : gmap_slabs) : Prop := ∀ s' k fl, G !! s' = Some (k, fl) → s' ≠ s → in_use k fl.
Definition lean (G : gmap_slabs) : Prop := ∀ s k fl, G !! s = Some (k, fl) → in_use k fl.
(** The slab [s] has a block to spare. *)
Definition roomy (G : gmap_slabs) (s : Z) : Prop := ∀ k fl, G !! s = Some (k, fl) → (2 ≤ length fl)%nat.

Lemma lean_lean_but s G : lean G → lean_but s G.
Proof. intros H s' k fl Hs _. by eapply H. Qed.

Lemma lean_insert s k fl G : lean_but s G → in_use k fl → lean (<[s := (k, fl)]> G).
Proof.
  intros H Hu s' k' fl' Hs'. destruct (decide (s' = s)) as [->|Hne]; [rewrite lookup_insert_eq in Hs'; by simplify_eq|].
  rewrite lookup_insert_ne in Hs' by done. by eapply H.
Qed.

Lemma lean_delete s G : lean_but s G → lean (delete s G).
Proof. intros H s' k fl [Hne Hs']%lookup_delete_Some. by eapply H. Qed.

(** ** Allocation *)
Section alloc.
Implicit Types (st : sstate) (U : gmap Z Z) (G : gmap_slabs) (cur : Z → Z) (P : Z → list Z) (lk : Z → Z).

Lemma core_no_null st U G cur P lk : slab_core st U G cur P lk → G !! NULL = None.
Proof.
  intros HC. destruct (G !! NULL) as [[k fl]|] eqn:E; [|done]. exfalso. destruct (sc_slab _ _ _ _ _ _ HC _ _ _ E) as (_ & _ & Hsl).
  destruct (slab_range _ _ _ (sc_buddy _ _ _ _ _ _ HC) Hsl) as (_ & _ & ? & _). lia.
Qed.

Lemma wp_ensure_current st U G cur P lk k (Q : Z → sstate → Prop) :
  slab_core st U G cur P lk → slab_shape G cur P → slab_order k →
  (cur k = NULL → (∀ c, ¬ block_avail (bud st) U c 5) → Q (- ENOMEM) st) →
  (∀ st' U' G' cur', slab_core st' U' G' cur' P lk → slab_shape G' cur' P → cur' k ≠ NULL →
     same_view (bud st) U G (bud st') U' G' → (lean G → roomy G (cur k) → lean_but (cur' k) G' ∧ roomy G' (cur' k)) → Q 0 st') →
  wp (if cur k =? NULL then alloc_slab_from_buddy k else mret 0) st Q.
Proof.
  intros HC HS Hk HQ0 HQ1. pose proof (core_no_null _ _ _ _ _ _ HC) as H0. case_cmp as Ec.
  - eapply wp_alloc_slab; [exact HC|done|intros; by eapply shape_in|auto|].
    intros c s st' Hav Es Hs Hg HC'. eapply HQ1; [exact HC'|apply shape_new; [by apply shape_null_but|done|done]| |by eapply view_new|].
    + rewrite upd_eq. intros E. destruct (sc_slab _ _ _ _ _ _ HC' s k (all_blocks s k)) as (_ & _ & Hsl); [by rewrite lookup_insert_eq|].
      destruct (slab_range _ _ _ (sc_buddy _ _ _ _ _ _ HC') Hsl) as (_ & _ & ? & _). lia.
    + intros Hl _. rewrite upd_eq. split.
      * intros s' k' fl' Hs' Hne. rewrite lookup_insert_ne in Hs' by done. by eapply Hl.
      * intros k' fl'. rewrite lookup_insert_eq. intros [= <- <-]. pose proof (all_blocks_length s k Hk). pose proof (nblocks_ge k Hk). lia.
  - apply wp_ret. eapply HQ1; [exact HC|done|done|apply same_view_refl|]. intros Hl Hr. split; [by apply lean_lean_but|done].
Qed.

Lemma wp_refill st U G cur P lk k (Q : unit → sstate → Prop) :
  slab_core st U G cur P lk → shape_but k G cur P → slab_order k →
  (∀ st' U' G' cur' P', slab_core st' U' G' cur' P' lk → slab_shape G' cur' P' → same_view (bud st) U G (bud st') U' G' → Q tt st') →
  wp (set_new_current_slab k) st Q.
Proof.
  intros HC HS Hk HQ. pose proof (core_no_null _ _ _ _ _ _ HC) as H0. unfold set_new_current_slab.
  apply wp_bind, (wp_get_from_partial_list _ _ _ _ _ _ _ _ HC Hk).
  - intros EP. apply wp_bind, (wp_set_current _ _ _ _ _ _ _ _ _ HC Hk). intros p HC1. simpl.
    assert (shape_but k G (upd cur k NULL) P) as HS1 by (apply shape_null_but; [by apply shape_no_current|done|done|apply upd_eq]).
    apply wp_bind. eapply wp_alloc_slab; [exact HC1|done|intros; by eapply shape_but_in|..].
    + intros _. simpl. eapply wp_set_current; [exact HC1|done|]. intros p' HC2. eapply HQ; [exact HC2| |apply same_view_refl].
      apply shape_no_current; done.
    + intros c s st' Hav Es Hs Hg HC2. simpl. apply wp_ret. eapply HQ; [exact HC2| |].
      * by apply shape_new.
      * apply (view_new HC1); done.
  - intros s l h EP HC1. apply wp_bind, (wp_set_current _ _ _ _ _ _ _ _ _ HC1 Hk). intros p HC2.
    pose proof (partial_NoDup _ _ _ _ _ _ _ HC Hk) as Hnd.
    assert (s ≠ NULL) as Hs0.
    { intros ->. assert (is_Some (G !! NULL)) as [x Hx]; [|congruence]. eapply shape_but_in; [done|exact Hk|]. rewrite EP. set_solver. }
    rewrite (proj2 (Z.eqb_neq _ _)) by done. apply wp_ret. eapply HQ; [exact HC2|by apply shape_from_partial|apply same_view_refl].
Qed.

(** What a successful [__slab_alloc] of order [k] does. *)
Record slab_took (st : sstate) (U : gmap Z Z) (G : gmap_slabs) (k b : Z) (st' : sstate) (U' : gmap Z Z) (G' : gmap_slabs) : Prop := {
  st_ok : slab_ok st' U' G';
  st_geo : geo (bud st) (bud st');
  st_pages : ∀ c o, page_block (bud st') U' G' c o ↔ page_block (bud st) U G c o;
  st_live : ∀ a k', live G' a k' ↔ live G a k' ∨ (a = b ∧ k' = k);
  st_new : ¬ live G b k;
  st_lean : ∀ c, pool st !! k = Some (mk_container c 0) → lean G → roomy G c → lean G'
}.

(** Taking a block from the current slab, and replacing the slab when it is full. *)
Lemma wp_take_block st U G cur P lk k (Q : Z → sstate → Prop) :
  slab_core st U G cur P lk → slab_shape G cur P → slab_order k → cur k ≠ NULL →
  (∀ b st' U' G' cur' P', slab_core st' U' G' cur' P' lk → slab_shape G' cur' P' → geo (bud st) (bud st') →
     (∀ c o, page_block (bud st') U' G' c o ↔ page_block (bud st) U G c o) →
     (∀ a k', live G' a k' ↔ live G a k' ∨ (a = b ∧ k' = k)) → ¬ live G b k →
     (lean_but (cur k) G → roomy G (cur k) → lean G') → Q b st') →
  wp (addr ← slab_get_free_block (cur k);
      h ← ld_hdr (cur k);
      (if free_block_count h =? 0 then
         BUG_ON (negb (next_free_block h =? NULL)) ;;
         set_new_current_slab k
       else mret tt) ;;
      mret addr) st Q.
Proof.
  intros HC HS Hk Hc0 HQ. destruct (sh_cur _ _ _ HS k Hk) as [?|(fl0 & Hs & Hfl)]; [done|].
  destruct fl0 as [|b fl]; [done|]. pose proof (live_take HC (cur k) k b fl) as Hlive.
  pose proof (not_live_free HC _ _ b _ Hs ltac:(set_solver)) as Hnew.
  apply wp_bind, (wp_get_free_block _ _ _ _ _ _ _ _ _ _ _ HC Hs). intros h HC1.
  destruct (sc_slab _ _ _ _ _ _ HC1 (cur k) k fl) as (_ & HR1 & _); [by rewrite lookup_insert_eq|].
  apply wp_bind. eapply wp_load; [exact (sr_hdr _ _ _ _ HR1)|]. cbn [free_block_count next_free_block].
  assert (∀ c o, page_block (bud st) U (<[cur k := (k, fl)]> G) c o ↔ page_block (bud st) U G c o) as Hpg
    by (intros; by eapply page_block_update).
  apply wp_bind. destruct fl as [|b2 fl].
  - simpl. apply wp_bind, wp_ret. eapply wp_refill; [exact HC1|by eapply shape_take_but|done|].
    intros st' U' G' cur' P' HC' HS' [Hg Hp Hl]. apply wp_ret. eapply HQ; [exact HC'|exact HS'|exact Hg| | |done|].
    + intros c o. rewrite Hp. apply Hpg.
    + intros a k'. rewrite Hl. by apply Hlive.
    + intros _ Hroom. specialize (Hroom _ _ Hs). simpl in Hroom. lia.
  - destruct (Z.eqb_spec (Z.of_nat (length (b2 :: fl))) 0); [simpl in *; lia|]. apply wp_ret, wp_ret.
    eapply HQ; [exact HC1|by eapply shape_keep|done|exact Hpg| |done|]; [intros a k'; by apply Hlive|].
    intros Hl _. apply lean_insert; [done|]. destruct (sc_slab _ _ _ _ _ _ HC _ _ _ Hs) as (_ & HR & _).
    pose proof (free_list_bound _ _ _ Hk (sr_nodup _ _ _ _ HR) (sr_blocks _ _ _ _ HR)) as Hb. unfold in_use. simpl length in Hb |- *. lia.
Qed.

Lemma wp_slab_alloc_order st U G k (Q : Z → sstate → Prop) :
  slab_ok st U G → slab_order k →
  (pool st !! k = Some (mk_container NULL 0) → (∀ c, ¬ block_avail (bud st) U c 5) → Q NULL st) →
  (∀ b st' U' G', slab_took st U G k b st' U' G' → Q b st') →
  wp (slab_alloc_order k) st Q.
Proof.
  intros (cur & P & HC & HS) Hk HQ0 HQ1. unfold slab_alloc_order. pose proof Hk as Hk'. unfold slab_order in Hk'.
  apply wp_bind, wp_BUG_ON; [unfold MIN_SLAB_BLOCK_ORDER, MAX_SLAB_BLOCK_ORDER; repeat case_cmp; done || lia|].
  apply wp_bind. eapply wp_lock_sc; [exact HC|done|done|]. intros HC1. set (st1 := set_pool _ st) in *.
  apply wp_bind. eapply wp_load; [exact (sc_cont _ _ _ _ _ _ HC1 k Hk)|]. cbn [current].
  apply wp_bind. eapply wp_ensure_current; [exact HC1|exact HS|done|..].
  - intros Ec Hno. simpl. apply wp_bind. eapply wp_unlock_sc; [exact HC1|done|]. intros _. apply wp_ret.
    pose proof (sc_cont _ _ _ _ _ _ HC k Hk) as Hpool.
    assert (set_pool (<[k := mk_container (cur k) 0]> (pool st1)) st1 = st) as ->.
    { subst st1. simpl. rewrite insert_insert_eq. change (unlocked k) with 0 in Hpool.
      rewrite insert_id by done. by destruct st. }
    apply HQ0; [by rewrite Hpool, Ec|done].
  - intros st2 U2 G2 cur2 HC2 HS2 Hc2 [Hg2 Hp2 Hl2] Hlean2. simpl.
    apply wp_bind. eapply wp_load; [exact (sc_cont _ _ _ _ _ _ HC2 k Hk)|]. cbn [current].
    apply wp_bind_keep. eapply wp_take_block; [exact HC2|done|done|done|].
    intros b st3 U3 G3 cur3 P3 HC3 HS3 Hg3 Hp3 Hl3 Hnew Hlean3. apply wp_bind.
    eapply wp_unlock_sc; [exact HC3|done|]. intros HC4. apply wp_ret. apply (HQ1 _ _ U3 G3). split.
    + exists cur3, P3. split; [|done]. eapply core_lk_ext; [|exact HC4]. intros k2 _. apply relock_unlocked.
    + simpl. by etrans.
    + intros c o. etrans; [apply Hp3|apply Hp2].
    + intros a k2. rewrite Hl3, Hl2. done.
    + by rewrite <- Hl2.
    + intros c Hc Hl Hr. rewrite (sc_cont _ _ _ _ _ _ HC k Hk) in Hc. simplify_eq. destruct (Hlean2 Hl Hr). auto.
Qed.
End alloc.

(** ** Release *)
Section free.
Implicit Types (st : sstate) (U : gmap Z Z) (G : gmap_slabs) (cur : Z → Z) (P : Z → list Z) (lk : Z → Z).

(** What [__slab_free] of the live block [b] of order [k] does. *)
Record slab_gave (st : sstate) (U : gmap Z Z) (G : gmap_slabs) (k b : Z) (st' : sstate) (U' : gmap Z Z) (G' : gmap_slabs) : Prop := {
  sg_ok : slab_ok st' U' G';
  sg_geo : geo (bud st) (bud st');
  sg_pages : ∀ c o, page_block (bud st') U' G' c o ↔ page_block (bud st) U G c o;
  sg_live : ∀ a k', live G' a k' ↔ live G a k' ∧ ¬ (a = b ∧ k' = k);
  sg_lean : lean G → lean G';
  sg_lists : gave_lists (bud st) (bud st')
}.

(** Returning a free slab to the buddy allocator and taking it off its container. *)
Lemma wp_retire st U G cur P lk k s fl fl0 (Q : Z → sstate → Prop) :
  slab_core st U (<[s := (k, fl)]> G) cur P lk → slab_shape G cur P → slab_order k → G !! s = Some (k, fl0) → fl0 ≠ [] →
  Z.of_nat (length fl) = nblocks k - 1 →
  (∀ st' U' cur' P', slab_core st' U' (delete s G) cur' P' lk → slab_shape (delete s G) cur' P' →
     same_view (bud st) U (<[s := (k, fl)]> G) (bud st') U' (delete s G) → gave_lists (bud st) (bud st') → Q 0 st') →
  wp (err ← put_slab_to_buddy s;
      if err =? 0 then
        c ← ld_sc k;
        (if current c =? s then s' ← get_from_partial_list k; set_current k s'
         else on_snodes (list_del (partial_list_node s))) ;;
        mret err
      else stop HKerror) st Q.
Proof.
  intros HC HS Hk Hs Hfl0 Hlen HQ. assert (<[s := (k, fl)]> G !! s = Some (k, fl)) as Hs1 by by rewrite lookup_insert_eq.
  apply wp_bind. eapply wp_put_slab; [exact HC|exact Hs1|done|]. intros c b Hc Es Hg Hgv HC1. rewrite delete_insert_eq in HC1.
  pose proof (view_drop HC b c s k fl Hg Hc Es Hs1 Hlen) as HV. rewrite delete_insert_eq in HV.
  change (0 =? 0) with true. cbv iota. apply wp_bind. eapply wp_load; [exact (sc_cont _ _ _ _ _ _ HC1 k Hk)|]. cbn [current].
  pose proof (core_no_null _ _ _ _ _ _ HC1) as H0. apply wp_bind. case_cmp as Ec.
  - rewrite <- Ec in Hs. pose proof (shape_drop_current G cur P k fl0 HS Hk Hs) as HS1. rewrite Ec in HS1.
    apply wp_bind, (wp_get_from_partial_list _ _ _ _ _ _ _ _ HC1 Hk).
    + intros EP. eapply wp_set_current; [exact HC1|done|]. intros p HC2. apply wp_ret.
      eapply HQ; [exact HC2|by apply shape_no_current|exact HV|done].
    + intros s2 l h EP HC2. eapply wp_set_current; [exact HC2|done|]. intros p HC3. apply wp_ret.
      eapply HQ; [exact HC3|apply shape_from_partial; [done|done|done|by eapply partial_NoDup; [exact HC1|]]|exact HV|done].
  - assert (s ∈ P k) as Hin by (apply (sh_part _ _ _ HS); [done|split; [congruence|eauto]]).
    apply list_elem_of_split in Hin as (l1 & l2 & EP). eapply wp_partial_del; [exact HC1|done|exact EP|]. intros h HC2. apply wp_ret.
    eapply HQ; [exact HC2| |exact HV|done]. eapply shape_drop_partial; [exact HS|done|exact Hs|congruence|done|by eapply partial_NoDup; [exact HC1|]].
Qed.

Lemma wp_slab_free_block st U G s k fl b r (Q : Z → sstate → Prop) :
  slab_ok st U G → G !! s = Some (k, fl) → is_block s k b → b ∉ fl → 0 ≤ r < 2 ^ k →
  (∀ st' U' G', slab_gave st U G k b st' U' G' → Q 0 st') →
  wp (slab_free_block s (b + r)) st Q.
Proof.
  intros (cur & P & HC & HS) Hs Hib Hbf Hr HQ. destruct (sc_slab _ _ _ _ _ _ HC _ _ _ Hs) as (Hk & HR & Hsl).
  unfold slab_free_block. pose proof Hk as Hk'. unfold slab_order in Hk'.
  apply wp_bind. eapply wp_load; [exact (sr_hdr _ _ _ _ HR)|]. cbn [h_order].
  apply wp_bind, wp_BUG_ON; [unfold MIN_SLAB_BLOCK_ORDER, MAX_SLAB_BLOCK_ORDER; repeat case_cmp; done || lia|].
  apply wp_bind. eapply wp_lock_sc; [exact HC|done|done|]. intros HC1. set (st1 := set_pool _ st) in *.
  pose proof (live_put HC s k b fl) as Hlive. pose proof (nblocks_ge k Hk) as Hge. pose proof (nblocks_le k Hk) as Hle.
  apply wp_bind. eapply wp_put_block; [exact HC1|exact Hs|done|done|done|]. intros h n HC2. set (st2 := set_headers h _) in *.
  set (G2 := <[s := (k, b :: fl)]> G) in *. assert (G2 !! s = Some (k, b :: fl)) as Hs2 by (subst G2; by rewrite lookup_insert_eq).
  destruct (sc_slab _ _ _ _ _ _ HC2 _ _ _ Hs2) as (_ & HR2 & _). pose proof (free_list_bound _ _ _ Hk (sr_nodup _ _ _ _ HR2) (sr_blocks _ _ _ _ HR2)) as Hlen.
  apply wp_bind. eapply wp_load; [exact (sr_hdr _ _ _ _ HR2)|]. cbn [free_block_count total_block_count]. rewrite (u32_small (nblocks k - 1)) by lia.
  assert (∀ st' U' G' cur' P', slab_core st' U' G' cur' P' (upd unlocked k 1) → slab_shape G' cur' P' → same_view (bud st) U G2 (bud st') U' G' →
    (lean G → lean G') → gave_lists (bud st) (bud st') → wp (unlock_sc k ;; mret 0) st' Q) as Hend.
  { intros st' U' G' cur' P' HC' HS' [Hg Hp Hl] Hlean Hgv. apply wp_bind. eapply wp_unlock_sc; [exact HC'|done|]. intros HC4. apply wp_ret.
    eapply (HQ _ U' G'). split.
    - exists cur', P'. split; [|done]. eapply core_lk_ext; [|exact HC4]. intros k2 _. apply relock_unlocked.
    - done.
    - intros c o. etrans; [apply Hp|]. by eapply page_block_update.
    - intros a k2. rewrite Hl. by apply Hlive.
    - done.
    - done. }
  pose proof (gave_lists_refl _ _ (sc_buddy _ _ _ _ _ _ HC)) as Hgr.
  apply wp_bind. case_cmp as E1; [|case_cmp as E2].
  - assert (fl = []) as -> by (destruct fl; [done|simpl in E1; lia]).
    destruct (shape_append G cur P k s [b] HS Hk Hs ltac:(done) (core_no_null _ _ _ _ _ _ HC)) as (Hsc & Hno & HS2).
    apply wp_bind, wp_gets, wp_bind. change (partial_list st2 k) with (partial_list st2 k).
    eapply wp_partial_append; [exact HC2|done|exact Hs2|done|]. intros h' HC3.
    apply wp_bind. eapply wp_load; [exact (sc_cont _ _ _ _ _ _ HC3 k Hk)|]. cbn [current].
    apply wp_bind, wp_BUG_ON; [apply Z.eqb_neq; congruence|]. apply wp_ret. eapply Hend; [exact HC3|exact HS2|apply same_view_refl| |done].
    intros Hl. apply lean_insert; [by apply lean_lean_but|]. unfold in_use. simpl. lia.
  - eapply (wp_retire st2 U G cur P _ k s (b :: fl) fl); [exact HC2|exact HS|done|exact Hs| |done|].
    + intros ->. simpl in E2. lia.
    + intros st' U' cur' P' HC3 HS3 HV Hgv. eapply Hend; [exact HC3|exact HS3|exact HV| |done]. intros Hl. by apply lean_delete, lean_lean_but.
  - apply wp_ret. eapply Hend; [exact HC2| |apply same_view_refl| |done].
    + eapply shape_keep; [exact HS|exact Hs| |done]. intros ->. done.
    + intros Hl. apply lean_insert; [by apply lean_lean_but|]. unfold in_use. lia.
Qed.

(** [slab_get_header] finds the slab of a block from the mark of its page. *)
Lemma wp_slab_get_header st U G cur P lk s k fl a (Q : Z → sstate → Prop) :
  slab_core st U G cur P lk → G !! s = Some (k, fl) → in_slab s a → Q s st → wp (slab_get_header a) st Q.
Proof.
  intros HC Hs Hin HQ. pose proof (sc_buddy _ _ _ _ _ _ HC) as HB. pose proof (buddy_ok_region _ _ HB) as HG.
  destruct (sc_slab _ _ _ _ _ _ HC _ _ _ Hs) as (Hk & _ & Hsl). destruct (slab_range _ _ _ HB Hsl) as (Hlo & Hhi & Hs0 & _ & Hal).
  set (i := (a - start_addr (bud st)) / 2 ^ 12). pose proof (start_vpn HG) as Hst. unfold in_slab in Hin.
  pose proof (Z.div_mod (a - start_addr (bud st)) (2 ^ 12) ltac:(lia)) as Hdm. pose proof (Z.mod_pos_bound (a - start_addr (bud st)) (2 ^ 12) ltac:(lia)) as Hm.
  fold i in Hdm. pose proof (rg_size _ HG) as Hsz. assert (0 ≤ i < page_num (bud st)) as Hi by lia.
  assert (virt_to_page (bud st) a = pfn_to_page (bud st) i) as Ev.
  { replace a with ((base_vpn (bud st) + i) * 2 ^ 12 + (a - start_addr (bud st)) mod 2 ^ 12) by lia. by apply virt_to_page_frame. }
  unfold slab_get_header. apply wp_bind, wp_gets. rewrite Ev. rewrite (proj2 (Z.eqb_neq _ _)) by (eapply ok_pfn_ne_null; [exact HB|lia]).
  destruct (sc_mark _ _ _ _ _ _ HC i Hi) as (p & Hp & Hmk). apply wp_bind, wp_zoom. eapply wp_load; [exact Hp|].
  replace (set_bud (bud st) st) with st by by destruct st.
  assert (in_slab s (frame_addr (bud st) i)) as Hin2.
  { rewrite (frame_addr_eq _ U i HB) by lia. apply Z.mod_divide in Hal as [q Hq]; [|lia]. unfold in_slab. pose proof (rg_page _ HG) as Hpg.
    apply Z.mod_divide in Hpg as [q' Hq']; [|lia]. lia. }
  destruct Hmk as [[[[k' fl'] Hg'] Hin']|[_ Hno]]; [|exfalso; eapply Hno; eauto].
  assert (slab p = s) as Esl.
  { destruct (decide (slab p = s)) as [|Hne]; [done|]. exfalso. destruct (sc_slab _ _ _ _ _ _ HC _ _ _ Hg') as (_ & _ & Hsl').
    unfold in_slab in *. destruct (slabs_apart _ _ _ _ HB Hsl' Hsl Hne); lia. }
  rewrite Esl, (proj2 (Z.eqb_neq _ _)) by lia. by apply wp_ret.
Qed.
End free.
