(* ===== verification/SlabTheorems.v ===== *)
(** * The theorems about the slab allocator *)

From S2P Require Import Prelude Macro ListHead Buddy Chunks BuddyInv BuddyOps BuddySpec BuddyCount BuddyInit BuddyTheorems Pages.
From S2P Require Import Slab SlabInv SlabOps SlabSpec.

(** ** Orders *)
Lemma slab_order_loop_ok fuel size o :
  6 ≤ o → size ≤ 2 ^ (o + Z.of_nat fuel) → (o = 6 ∨ 2 ^ (o - 1) < size) →
  let r := slab_order_loop fuel size o in
  o ≤ r ≤ o + Z.of_nat fuel ∧ size ≤ 2 ^ r ∧ (r = 6 ∨ 2 ^ (r - 1) < size).
Proof.
  revert o. induction fuel as [|fuel IH]; intros o Ho Hsz Hmin; cbn [slab_order_loop].
  { replace (o + Z.of_nat 0) with o in Hsz by lia. cbv zeta. split_and!; [lia|lia|done|done]. }
  rewrite order_to_size by lia. case_cmp as Hc.
  - destruct (IH (o + 1)) as (Hr & Hs & Hm); [lia| |right; by replace (o + 1 - 1) with o by lia|].
    + by replace (o + 1 + Z.of_nat fuel) with (o + Z.of_nat (S fuel)) by lia.
    + split_and!; [lia|lia|done|done].
  - split_and!; [lia|lia|done|done].
Qed.

Lemma size_to_slab_order_ok size : 0 < size ≤ 2 ^ 11 →
  slab_order (size_to_slab_order size) ∧ size ≤ 2 ^ size_to_slab_order size ∧
  ∀ k, 6 ≤ k < size_to_slab_order size → 2 ^ k < size.
Proof.
  intros Hsz. unfold size_to_slab_order, MAX_SLAB_BLOCK_ORDER, MIN_SLAB_BLOCK_ORDER. rewrite order_to_size by lia.
  rewrite (proj2 (Z.leb_gt size 0)), Z.gtb_ltb, (proj2 (Z.ltb_ge (2 ^ 11) size)) by lia. cbn [orb].
  destruct (slab_order_loop_ok 6 size 6) as (Hr & Hs & Hm); [lia|change (2 ^ (6 + Z.of_nat 6)) with (2 ^ 12); lia|by left|].
  set (r := slab_order_loop 6 size 6) in *. assert (r ≤ 11).
  { destruct (Z_le_dec r 11); [done|]. destruct Hm; [lia|]. pose proof (pow2_le 11 (r - 1)). lia. }
  split_and!; [unfold slab_order; lia|done|]. intros k Hk. destruct Hm as [?|Hm]; [lia|]. pose proof (pow2_le k (r - 1)). lia.
Qed.

(** ** Blocks of a slab *)
Lemma block_aligned st U G cur P lk s k fl b : slab_core st U G cur P lk → G !! s = Some (k, fl) → is_block s k b → b mod 2 ^ k = 0.
Proof.
  intros HC Hs (j & Hj & ->). destruct (sc_slab _ _ _ _ _ _ HC _ _ _ Hs) as (Hk & _ & Hsl).
  destruct (slab_range _ _ _ (sc_buddy _ _ _ _ _ _ HC) Hsl) as (_ & _ & _ & _ & Hal). unfold slab_order in Hk.
  apply aligned_add; [lia|]. apply (aligned_weaken _ _ 17); [lia|done].
Qed.

Lemma live_aligned st U G a k : slab_ok st U G → live G a k → slab_order k ∧ a mod 2 ^ k = 0 ∧ 0 < a ∧ a + 2 ^ k < 2 ^ 64.
Proof.
  intros (cur & P & HC & _) (s & fl & Hs & Hb & _). destruct (sc_slab _ _ _ _ _ _ HC _ _ _ Hs) as (Hk & _ & _).
  destruct (slab_block_nonnull _ _ _ _ _ _ _ _ _ _ HC Hs Hb) as (_ & ? & ?). split_and!; [apply Hk|by eapply block_aligned|done|done].
Qed.

Lemma live_apart st U G a k a' k' : slab_ok st U G → live G a k → live G a' k' → a ≠ a' ∨ k ≠ k' → a + 2 ^ k ≤ a' ∨ a' + 2 ^ k' ≤ a.
Proof.
  intros (cur & P & HC & _) (s & fl & Hs & Hb & _) (s' & fl' & Hs' & Hb' & _) Hne.
  destruct (sc_slab _ _ _ _ _ _ HC _ _ _ Hs) as (Hk & _ & Hsl). destruct (sc_slab _ _ _ _ _ _ HC _ _ _ Hs') as (Hk' & _ & Hsl').
  destruct (decide (s = s')) as [<-|Hss].
  - rewrite Hs in Hs'. simplify_eq. destruct Hne as [Hne|]; [|done]. by eapply block_apart.
  - pose proof (block_in_slab _ _ _ Hk Hb). pose proof (block_in_slab _ _ _ Hk' Hb'). pose proof (block_size k Hk). pose proof (block_size k' Hk').
    destruct (slabs_apart _ _ _ _ (sc_buddy _ _ _ _ _ _ HC) Hsl Hsl' Hss); lia.
Qed.

(** A slab block and a page block share no address. *)
Lemma live_page_apart st U G a k c o x : slab_ok st U G → live G a k → page_block (bud st) U G c o →
  a ≤ x < a + 2 ^ k → ¬ in_block (bud st) c o x.
Proof.
  intros (cur & P & HC & _) (s & fl & Hs & Hb & _) [Hc Hn] Hx Hin. pose proof (sc_buddy _ _ _ _ _ _ HC) as HB.
  destruct (sc_slab _ _ _ _ _ _ HC _ _ _ Hs) as (Hk & _ & (d & Hd & Es)). pose proof (block_in_slab _ _ _ Hk Hb). pose proof (block_size k Hk).
  assert (c ≠ d) as Hcd by (intros ->; rewrite <- Es in Hn; congruence).
  destruct (used_block _ _ _ _ HB Hc) as (Hc0 & Ho & Hcn & _). destruct (used_block _ _ _ _ HB Hd) as (Hd0 & _ & Hdn & _).
  pose proof (pow2_gt0 o ltac:(lia)). unfold in_block in Hin. fold (frame_addr (bud st) c) in Hin.
  rewrite (frame_addr_eq _ U c HB) in Hin by lia. rewrite chunk_size_pow2, Z.pow_add_r in Hin by lia.
  rewrite (frame_addr_eq _ U d HB) in Es by lia. destruct (used_blocks_apart _ _ _ _ _ _ HB Hc Hd Hcd); lia.
Qed.

Lemma wp_slab_free st U G b k (Q : Z → sstate → Prop) :
  slab_ok st U G → live G b k → (∀ st' U' G', slab_gave st U G k b st' U' G' → Q 0 st') → wp (slab_free b) st Q.
Proof.
  intros Hok Hl HQ. destruct (live_aligned _ _ _ _ _ Hok Hl) as (Hk & Hal & Hb0 & _). pose proof Hok as (cur & P & HC & _).
  destruct Hl as (s & fl & Hs & Hb & Hn). unfold slab_free. rewrite (proj2 (Z.eqb_neq _ _)) by lia.
  assert (is_aligned b MIN_SLAB_BLOCK_ORDER = true) as ->.
  { unfold is_aligned, MIN_SLAB_BLOCK_ORDER. rewrite order_to_size, land_ones_mod by lia. unfold slab_order in Hk.
    by rewrite (aligned_weaken b 6 k) by (lia || done). }
  cbn [negb]. pose proof (block_in_slab _ _ _ Hk Hb) as Hbs. pose proof (block_size k Hk).
  destruct (slab_block_nonnull _ _ _ _ _ _ _ _ _ _ HC Hs Hb) as (Hs0 & _ & _).
  apply wp_bind. eapply wp_slab_get_header; [exact HC|exact Hs|unfold in_slab; lia|].
  rewrite (proj2 (Z.eqb_neq _ _)) by lia. cbn [negb]. apply wp_bind. rewrite <- (Z.add_0_r b).
  eapply wp_slab_free_block; [exact Hok|exact Hs|done|done|lia|]. intros st' U' G' Hg. simpl. apply wp_ret. by eapply HQ.
Qed.

(** ** Initialisation *)
Definition bss_slab (b : bstate) (pa : Z) : sstate :=
  mk_sstate b ∅ ∅
    (list_to_map ((λ i, (pa + 32 * i + 8, mk_list_head NULL NULL)) <$> seqZ 0 (Z.of_nat 6)))
    (list_to_map ((λ i, (6 + i, mk_container NULL 0)) <$> seqZ 0 (Z.of_nat 6))) pa.

Definition pool_ready (st0 : sstate) (j : Z) (st : sstate) : Prop := ∃ h p,
  st = set_snodes h (set_pool p st0) ∧
  (∀ k, slab_order k → is_Some (p !! k) ∧ is_Some (h !! partial_list st0 k)) ∧
  (∀ k, 6 ≤ k < j → p !! k = Some (mk_container NULL 0) ∧ dlist h (partial_list st0 k) []).

Lemma wp_init_slab st0 (Q : unit → sstate → Prop) :
  (∀ k, slab_order k → is_Some (pool st0 !! k) ∧ is_Some (snodes st0 !! partial_list st0 k)) →
  (∀ st, pool_ready st0 12 st → Q tt st) → wp init_slab st0 Q.
Proof.
  intros Hs HQ. unfold init_slab, for_each_container. apply (wp_for_up (pool_ready st0)); [| |done].
  - exists (snodes st0), (pool st0). split_and!; [by destruct st0|done|unfold MIN_SLAB_BLOCK_ORDER; lia].
  - intros j st Hj (h & p & -> & Hp & Hd). unfold MIN_SLAB_BLOCK_ORDER in Hj. change (Z.to_nat SLAB_POOL_SIZE) with 6%nat in Hj.
    assert (slab_order j) as Hjo by (unfold slab_order; lia). destruct (Hp j Hjo) as [[c Hc] Hn].
    apply wp_bind. eapply wp_load; [exact Hc|]. apply wp_bind, wp_modify, wp_bind, wp_gets, wp_bind, wp_zoom.
    change (partial_list (set_pool _ _) j) with (partial_list st0 j). apply wp_init_list_head; [done|]. intros h' Hd' Hf'. apply wp_modify.
    exists h', (<[j := mk_container NULL 0]> (<[j := mk_container NULL (sc_lock c)]> p)). split_and!; [done| |].
    + intros k Hk. destruct (Hp k Hk) as [Hk1 Hk2]. rewrite !lookup_insert_is_Some'. split; [tauto|].
      destruct (decide (partial_list st0 k = partial_list st0 j)) as [->|Hne]; [eapply dlist_is_Some; [exact Hd'|set_solver]|by rewrite Hf'].
    + intros k Hk. destruct (decide (k = j)) as [->|Hne]; [by rewrite lookup_insert_eq|]. rewrite !lookup_insert_ne by done.
      destruct (Hd k) as [Hpk Hdk]; [lia|]. split; [done|]. eapply dlist_frame; [|exact Hdk]. intros x Hx. apply Hf'.
      assert (x = partial_list st0 k) as -> by set_solver. unfold partial_list, MIN_SLAB_BLOCK_ORDER. lia.
Qed.

Lemma init_slab_ok b U pa : buddy_ok b U → fresh b → 0 < pa → pa + 256 ≤ start_addr b →
  wp init_slab (bss_slab b pa) (λ _ st, slab_ok st U ∅ ∧ bud st = b).
Proof.
  intros Hok Hfr Hpa Hlow. apply wp_init_slab.
  - intros k Hk. unfold slab_order in Hk. split.
    + exists (mk_container NULL 0). pose proof (lookup_seq_map (λ i, 6 + i) (mk_container NULL 0) 6 (k - 6) ltac:(lia)) as Hl.
      cbv beta in Hl. replace (6 + (k - 6)) with k in Hl by lia. exact Hl.
    + exists (mk_list_head NULL NULL). exact (lookup_seq_map (λ i, pa + 32 * i + 8) (mk_list_head NULL NULL) 6 (k - 6) ltac:(lia)).
  - intros st (h & p & -> & _ & Hd). split; [|done]. exists (λ _, NULL), (λ _, []). split; split; simpl; try done.
    + intros i Hi. destruct Hok as (C & L & HR & _). destruct (rep_page _ _ _ _ HR Hi) as (q & Hq & _). exists q. split; [done|].
      right. split; [by eapply Hfr|]. intros s [x Hx]. by rewrite lookup_empty in Hx.
    + intros k Hk. unfold slab_order in Hk. destruct (Hd k) as [-> _]; [lia|done].
    + intros k Hk. unfold slab_order in Hk. destruct (Hd k) as [_ Hdk]; [lia|done].
    + intros k k' s _ _ Hin. set_solver.
    + intros k s _ Hin. set_solver.
    + auto.
    + intros k s _. split; [set_solver|]. intros (_ & fl & Hl & _). by rewrite lookup_empty in Hl.
Qed.

(** The state after [init_buddy] and [init_slab], [slab_pool_g] just below
    [memory_region_g]. *)
Definition demo_pool : Z := demo_mr - 192.

Lemma demo_slab : ∃ st, slab_ok st ∅ ∅ ∧ page_num (bud st) = npages_of demo_end.
Proof.
  destruct demo_boot as (s & _ & Hok & Hfr & Hlay). pose proof Hlay as (Hst & _ & _ & Hn & _).
  assert (wp init_slab (bss_slab s demo_pool) (λ _ st, slab_ok st ∅ ∅ ∧ bud st = s)) as Hw.
  { apply init_slab_ok; [done|done|by vm_compute|]. rewrite Hst. vm_compute. congruence. }
  destruct (proj1 (wp_inv _ _ _) Hw) as ([] & st & _ & H & Eb). exists st. split; [done|]. by rewrite Eb.
Qed.

Lemma wp_slab_alloc st U G size (Q : Z → sstate → Prop) :
  slab_ok st U G → 0 < size ≤ 2 ^ 11 →
  (pool st !! size_to_slab_order size = Some (mk_container NULL 0) → (∀ c, ¬ block_avail (bud st) U c 5) → Q NULL st) →
  (∀ b st' U' G', slab_took st U G (size_to_slab_order size) b st' U' G' → Q b st') →
  wp (slab_alloc size) st Q.
Proof.
  intros Hok Hsz HQ0 HQ1. destruct (size_to_slab_order_ok size Hsz) as (Hk & _). unfold slab_alloc.
  rewrite (proj2 (Z.eqb_neq _ _)) by (unfold slab_order in Hk; lia). by eapply wp_slab_alloc_order.
Qed.

Lemma took_live st U G k b st' U' G' : slab_took st U G k b st' U' G' → live G' b k.
Proof. intros H. apply (st_live _ _ _ _ _ _ _ _ H). by right. Qed.

(** A block of 64 bytes can be had after boot. *)
Lemma demo_slab_alloc : ∃ st a st' U' G', slab_ok st ∅ ∅ ∧ slab_alloc 40 st = Ok (a, st') ∧ a ≠ NULL ∧ slab_took st ∅ ∅ 6 a st' U' G'.
Proof.
  destruct demo_slab as (st & Hok & Hn). exists st.
  assert (wp (slab_alloc 40) st (λ a st', ∃ U' G', a ≠ NULL ∧ slab_took st ∅ ∅ 6 a st' U' G')) as Hw.
  { apply (wp_slab_alloc _ _ _ _ _ Hok); [lia| |].
    - intros _ Hno. exfalso. destruct (first_aligned_ok (bud st)) as [Hf Hal].
      apply (Hno (first_aligned (bud st))). split; [lia| |by apply (aligned_weaken _ _ 10)|done].
      rewrite Hn. assert (2 ^ 11 ≤ npages_of demo_end) by (vm_compute; congruence). lia.
    - intros b st' U' G' Ht. exists U', G'. split; [|exact Ht].
      destruct (live_aligned _ _ _ _ _ (st_ok _ _ _ _ _ _ _ _ Ht) (took_live _ _ _ _ _ _ _ _ Ht)) as (_ & _ & ? & _). lia. }
  destruct (proj1 (wp_inv _ _ _) Hw) as (a & st' & Ha & U' & G' & Hne & Ht). by exists a, st', U', G'.
Qed.

Lemma demo_live : ∃ st U G a, slab_ok st U G ∧ live G a 6.
Proof.
  destruct demo_slab_alloc as (st & a & st' & U' & G' & _ & _ & _ & Ht). exists st', U', G', a.
  split; [apply (st_ok _ _ _ _ _ _ _ _ Ht)|by eapply took_live].
Qed.

(** ** Properties *)

(** C12. [slab_alloc] of a size up to 2048 always returns.  Either it hands
    out a block of the least order whose blocks hold [size] bytes, a block that
    was not in any client's hands, while every other slab block and every page
    block stays as it was and the invariant (headers, free chains, counters,
    partial lists, page marks, locks) holds again; or it returns [NULL] and
    changes nothing, and then the container has no current slab and the buddy
    allocator has no block of 32 pages. *)
Theorem slab_alloc_correct st U G size :
  slab_ok st U G → 0 < size ≤ 2 ^ 11 →
  ∃ a st', slab_alloc size st = Ok (a, st') ∧
    let k := size_to_slab_order size in
    (6 ≤ k ≤ 11 ∧ size ≤ 2 ^ k ∧ ∀ k', 6 ≤ k' < k → 2 ^ k' < size) ∧
    ((a = NULL ∧ st' = st ∧ pool st !! k = Some (mk_container NULL 0) ∧ ∀ c, ¬ block_avail (bud st) U c 5) ∨
     (a ≠ NULL ∧ ∃ U' G', slab_took st U G k a st' U' G')).
Proof.
  intros Hok Hsz. apply wp_inv. pose proof (size_to_slab_order_ok size Hsz) as Ho. apply (wp_slab_alloc _ _ _ _ _ Hok Hsz).
  - intros Hp Hno. split; [exact Ho|]. by left.
  - intros b st' U' G' Ht. split; [exact Ho|]. right. split; [|eauto].
    destruct (live_aligned _ _ _ _ _ (st_ok _ _ _ _ _ _ _ _ Ht) (took_live _ _ _ _ _ _ _ _ Ht)) as (_ & _ & ? & _). lia.
Qed.

Lemma slab_alloc_correct_witness : ∃ st a st', slab_ok st ∅ ∅ ∧ slab_alloc 100 st = Ok (a, st') ∧
    let k := size_to_slab_order 100 in
    (6 ≤ k ≤ 11 ∧ 100 ≤ 2 ^ k ∧ ∀ k', 6 ≤ k' < k → 2 ^ k' < 100) ∧
    ((a = NULL ∧ st' = st ∧ pool st !! k = Some (mk_container NULL 0) ∧ ∀ c, ¬ block_avail (bud st) ∅ c 5) ∨
     (a ≠ NULL ∧ ∃ U' G', slab_took st ∅ ∅ k a st' U' G')).
Proof.
  destruct demo_slab as (st & Hok & _). destruct (slab_alloc_correct st ∅ ∅ 100 Hok ltac:(lia)) as (a & st' & H).
  exists st, a, st'. split; [exact Hok|exact H].
Defined.

(** C13. [slab_free] of a block in a client's hands returns 0, takes exactly
    that block out of the client's hands, leaves every other block alone and
    restores the invariant, on each of its paths: a full slab returns to the
    partial list, a slab without used blocks goes back to the buddy allocator
    (and is replaced when it was the current one). *)
Theorem slab_free_correct st U G a k :
  slab_ok st U G → live G a k → ∃ st' U' G', slab_free a st = Ok (0, st') ∧ slab_gave st U G k a st' U' G'.
Proof.
  intros Hok Hl. assert (wp (slab_free a) st (λ r st', r = 0 ∧ ∃ U' G', slab_gave st U G k a st' U' G')) as Hw.
  { eapply wp_slab_free; [exact Hok|exact Hl|]. intros st' U' G' Hg. split; [done|eauto]. }
  destruct (proj1 (wp_inv _ _ _) Hw) as (r & st' & Hr & -> & U' & G' & Hg). eauto 10.
Qed.

Lemma slab_free_correct_witness : ∃ st U G a, live G a 6 ∧ ∃ st' U' G', slab_free a st = Ok (0, st') ∧ slab_gave st U G 6 a st' U' G'.
Proof.
  destruct demo_live as (st & U & G & a & Hok & Hl). exists st, U, G, a. split; [exact Hl|].
  exact (slab_free_correct st U G a 6 Hok Hl).
Defined.

(** C26. Round trip: what [slab_alloc] returned can be given to [slab_free],
    and afterwards exactly the blocks of before are in use, slab blocks and
    page blocks alike. *)
Theorem slab_alloc_free_roundtrip st U G size a st1 :
  slab_ok st U G → 0 < size ≤ 2 ^ 11 → slab_alloc size st = Ok (a, st1) → a ≠ NULL →
  ∃ st2 U2 G2, slab_free a st1 = Ok (0, st2) ∧ slab_ok st2 U2 G2 ∧
    (∀ b k, live G2 b k ↔ live G b k) ∧ (∀ c o, page_block (bud st2) U2 G2 c o ↔ page_block (bud st) U G c o).
Proof.
  intros Hok Hsz Ha Hne.
  assert (wp (slab_alloc size) st (λ a st1, a ≠ NULL → wp (slab_free a) st1 (λ r st2, r = 0 ∧ ∃ U2 G2, slab_ok st2 U2 G2 ∧
    (∀ b k, live G2 b k ↔ live G b k) ∧ (∀ c o, page_block (bud st2) U2 G2 c o ↔ page_block (bud st) U G c o)))) as Hw.
  { apply (wp_slab_alloc _ _ _ _ _ Hok Hsz); [done|]. intros b st' U' G' Ht _. pose proof (took_live _ _ _ _ _ _ _ _ Ht) as Hl.
    destruct Ht as [Hok' _ Hpg Hlive Hnew]. eapply wp_slab_free; [exact Hok'|exact Hl|]. intros st2 U2 G2 [Hok2 _ Hpg2 Hlive2 _ _].
    split; [done|]. exists U2, G2. split_and!; [done| |].
    - intros b' k'. rewrite Hlive2, Hlive. destruct (decide (b' = b)) as [->|]; [|naive_solver].
      destruct (decide (k' = size_to_slab_order size)) as [->|]; naive_solver.
    - intros c o. by rewrite Hpg2, Hpg. }
  unfold wp at 1 in Hw. rewrite Ha in Hw. apply Hw in Hne as (r & st2 & Hr & -> & U2 & G2 & H)%wp_inv. eauto 10.
Qed.

Lemma slab_alloc_free_roundtrip_witness : ∃ st a st1 st2 U2 G2, slab_alloc 40 st = Ok (a, st1) ∧ slab_free a st1 = Ok (0, st2) ∧ slab_ok st2 U2 G2 ∧
    (∀ b k, live G2 b k ↔ live ∅ b k) ∧ (∀ c o, page_block (bud st2) U2 G2 c o ↔ page_block (bud st) ∅ ∅ c o).
Proof.
  destruct demo_slab_alloc as (st & a & st1 & _ & _ & Hok & Ha & Hne & _).
  destruct (slab_alloc_free_roundtrip st ∅ ∅ 40 a st1 Hok ltac:(lia) Ha Hne) as (st2 & U2 & G2 & H).
  exists st, a, st1, st2, U2, G2. split; [exact Ha|exact H].
Defined.

(** The blocks in use do not overlap: two different slab blocks share no
    address, and a slab block shares none with a block of pages; each slab
    block is aligned to its size. *)
Theorem slab_blocks_disjoint st U G a k x :
  slab_ok st U G → live G a k → a ≤ x < a + 2 ^ k →
  a mod 2 ^ k = 0 ∧
  (∀ a' k', live G a' k' → a' ≤ x < a' + 2 ^ k' → a' = a ∧ k' = k) ∧
  (∀ c o, page_block (bud st) U G c o → ¬ in_block (bud st) c o x).
Proof.
  intros Hok Hl Hx. destruct (live_aligned _ _ _ _ _ Hok Hl) as (_ & Hal & _). split_and!; [done| |].
  - intros a' k' Hl' Hx'. destruct (decide (a' = a)) as [->|Hne]; [destruct (decide (k' = k)) as [->|Hne]; [done|]|].
    + destruct (live_apart _ _ _ _ _ _ _ Hok Hl' Hl); [by right|lia|lia].
    + destruct (live_apart _ _ _ _ _ _ _ Hok Hl' Hl); [by left|lia|lia].
  - intros c o Hc. by eapply live_page_apart.
Qed.

Lemma slab_blocks_disjoint_witness : ∃ st U G a, slab_ok st U G ∧ a mod 2 ^ 6 = 0 ∧
  (∀ a' k', live G a' k' → a' ≤ a < a' + 2 ^ k' → a' = a ∧ k' = 6) ∧
  (∀ c o, page_block (bud st) U G c o → ¬ in_block (bud st) c o a).
Proof.
  destruct demo_live as (st & U & G & a & Hok & Hl). exists st, U, G, a. split; [exact Hok|].
  apply (slab_blocks_disjoint st U G a 6 a Hok Hl). change (2 ^ 6) with 64. lia.
Defined.

(** C27. [init_slab] turns the zeroed [slab_pool_g] into an empty slab allocator
    on top of an initialised buddy allocator: every container without a current
    slab, with an empty partial list and an open lock. *)
Theorem init_slab_establishes b U pa :
  buddy_ok b U → fresh b → 0 < pa → pa + 256 ≤ start_addr b →
  ∃ st, init_slab (bss_slab b pa) = Ok (tt, st) ∧ slab_ok st U ∅ ∧ bud st = b.
Proof. intros H1 H2 H3 H4. destruct (proj1 (wp_inv _ _ _) (init_slab_ok b U pa H1 H2 H3 H4)) as ([] & st & H). eauto. Qed.

Lemma init_slab_establishes_witness : ∃ b st, init_slab (bss_slab b demo_pool) = Ok (tt, st) ∧ slab_ok st ∅ ∅ ∧ bud st = b.
Proof.
  destruct demo_boot as (s & _ & Hok & Hfr & Hlay). exists s. apply (init_slab_establishes s ∅ demo_pool Hok Hfr).
  - by vm_compute.
  - destruct Hlay as (-> & _). vm_compute. congruence.
Defined.
