(* ===== verification/Utils.v ===== *)
(** * Memory and string helpers: [include/common/utils.h]

    Byte memory is a map from the mapped addresses to bytes (0 to 255: [char] is
    unsigned on AArch64); an access outside it is a fault.  Pointers do not wrap
    around in these loops. *)

From S2P Require Import Prelude Macro.

Abbreviation bytes := (gmap Z Z).

Definition ld8 (a : Z) : M bytes Z := load (λ m : bytes, m !! a).
Definition st8 (a v : Z) : M bytes unit := ld8 a ;; modify (λ m : bytes, <[a := v]> m).

(** [while (size--) *d++ = *s++;] *)
Fixpoint memcpy (size : nat) (d s : Z) : M bytes unit :=
  match size with
  | O => mret tt
  | S size' => c ← ld8 s; st8 d c ;; memcpy size' (d + 1) (s + 1)
  end.

Fixpoint memset (size : nat) (p ch : Z) : M bytes unit :=
  match size with
  | O => mret tt
  | S size' => st8 p ch ;; memset size' (p + 1) ch
  end.

(** The string loops run until a zero byte; [fuel] bounds the bytes visited. *)
Fixpoint strcmp_loop (fuel : nat) (src dst : Z) : M bytes Z :=
  match fuel with
  | O => stop HFuel
  | S fuel' =>
      a ← ld8 src;
      b ← (if a =? 0 then mret 0 else ld8 dst);
      if negb (a =? 0) && negb (b =? 0) then
        if a =? b then strcmp_loop fuel' (src + 1) (dst + 1) else mret (a - b)
      else
        b ← ld8 dst;
        if (a =? 0) && (b =? 0) then mret 0
        else if a =? 0 then mret (-1)
        else mret 1
  end.
Definition mem_fuel : M bytes nat := gets (λ m : bytes, Datatypes.S (base.size m)).
Definition strcmp (src dst : Z) : M bytes Z := fuel ← mem_fuel; strcmp_loop fuel src dst.

Fixpoint strncmp_loop (n : nat) (src dst : Z) : M bytes Z :=
  match n with
  | O => mret 0
  | S n' =>
      a ← ld8 src;
      b ← ld8 dst;
      if (a =? 0) || negb (a =? b) then mret (a - b)
      else strncmp_loop n' (src + 1) (dst + 1)
  end.
Definition strncmp (src dst : Z) (size : nat) : M bytes Z := strncmp_loop size src dst.

Fixpoint strlen_loop (fuel : nat) (src i : Z) : M bytes Z :=
  match fuel with
  | O => stop HFuel
  | S fuel' =>
      c ← ld8 src;
      if negb (c =? 0) then strlen_loop fuel' (src + 1) (u64 (i + 1)) else mret i
  end.
Definition strlen (src : Z) : M bytes Z := fuel ← mem_fuel; strlen_loop fuel src 0.

(** [for (; n && *l == *r; n--, l++, r++); return n ? *l - *r : 0;] *)
Fixpoint memcmp (n : nat) (l r : Z) : M bytes Z :=
  match n with
  | O => mret 0
  | S n' => a ← ld8 l; b ← ld8 r; if a =? b then memcmp n' (l + 1) (r + 1) else mret (a - b)
  end.

(** ** Byte strings in memory *)

(** The bytes [l] are at [a], [a + 1], ... *)
Fixpoint arr (m : bytes) (a : Z) (l : list Z) : Prop :=
  match l with
  | [] => True
  | c :: l' => m !! a = Some c ∧ arr m (a + 1) l'
  end.

(** A C string: no zero byte inside, one at the end. *)
Definition cstr (m : bytes) (a : Z) (l : list Z) : Prop := arr m a (l ++ [0]) ∧ Forall (λ c, 0 < c ≤ 255) l.

(** The first differing byte decides; a proper prefix is smaller. *)
Fixpoint lex (l r : list Z) : comparison :=
  match l, r with
  | [], [] => Eq
  | [], _ => Lt
  | _, [] => Gt
  | a :: l', b :: r' => match a ?= b with Eq => lex l' r' | c => c end
  end.

Lemma lex_eq l r : lex l r = Eq ↔ l = r.
Proof.
  revert r. induction l as [|a l IH]; intros [|b r]; simpl; try done.
  destruct (Z.compare_spec a b); [subst; rewrite IH; naive_solver|naive_solver lia|naive_solver lia].
Qed.

Lemma arr_app m a l r : arr m a (l ++ r) ↔ arr m a l ∧ arr m (a + Z.of_nat (length l)) r.
Proof.
  revert a. induction l as [|c l IH]; intros a; cbn [app arr length]; [replace (a + Z.of_nat 0) with a by lia; tauto|].
  rewrite IH. replace (a + 1 + Z.of_nat (length l)) with (a + Z.of_nat (S (length l))) by lia. tauto.
Qed.

Lemma arr_lookup m a l i c : arr m a l → l !! i = Some c → m !! (a + Z.of_nat i) = Some c.
Proof.
  revert a i. induction l as [|d l IH]; intros a i Ha Hi; [done|]. destruct Ha as [Hd Hl]. destruct i as [|i].
  - simpl in Hi. simplify_eq. by replace (a + Z.of_nat 0) with a by lia.
  - replace (a + Z.of_nat (S i)) with (a + 1 + Z.of_nat i) by lia. by apply IH.
Qed.

(** An array of [n] bytes needs [n] mapped addresses. *)
Lemma arr_size m a l : arr m a l → (length l ≤ base.size m)%nat.
Proof.
  intros Ha. rewrite <- size_dom. set (al := (λ i : nat, a + Z.of_nat i) <$> seq 0 (length l)).
  assert (NoDup al) as Hnd by (apply NoDup_fmap_2; [intros x y ?; lia|apply NoDup_seq]).
  replace (length l) with (length al) by (subst al; by rewrite length_fmap, length_seq).
  rewrite <- (size_list_to_set (C := gset Z) al Hnd). apply subseteq_size. intros x Hx%elem_of_list_to_set.
  subst al. apply list_elem_of_fmap in Hx as (i & -> & Hi%elem_of_seq). destruct (lookup_lt_is_Some_2 l i ltac:(lia)) as [c Hc].
  apply elem_of_dom. exists c. by eapply arr_lookup.
Qed.

(** ** The loops *)
Lemma wp_ld8 a c m (Q : Z → bytes → Prop) : m !! a = Some c → Q c m → wp (ld8 a) m Q.
Proof. intros. by eapply wp_load. Qed.

Lemma wp_st8 a v m (Q : unit → bytes → Prop) : is_Some (m !! a) → Q tt (<[a := v]> m) → wp (st8 a v) m Q.
Proof. intros [c Hc] HQ. unfold st8. apply wp_bind. eapply wp_ld8; [exact Hc|]. by apply wp_modify. Qed.

(** [n] bytes from [a] on are mapped. *)
Definition mapped_bytes (m : bytes) (a n : Z) : Prop := ∀ x, a ≤ x < a + n → is_Some (m !! x).

Lemma wp_memset n p ch m (Q : unit → bytes → Prop) :
  mapped_bytes m p (Z.of_nat n) →
  (∀ m', (∀ x, p ≤ x < p + Z.of_nat n → m' !! x = Some ch) →
         (∀ x, ¬ (p ≤ x < p + Z.of_nat n) → m' !! x = m !! x) → Q tt m') →
  wp (memset n p ch) m Q.
Proof.
  revert p m Q. induction n as [|n IH]; intros p m Q Hm HQ; cbn [memset].
  { apply wp_ret, HQ; [lia|done]. }
  apply wp_bind, wp_st8; [apply Hm; lia|]. apply IH.
  - intros x Hx. rewrite lookup_insert_is_Some'. right. apply Hm. lia.
  - intros m' Hin Hout. apply HQ.
    + intros x Hx. destruct (decide (x = p)) as [->|]; [rewrite Hout by lia; by rewrite lookup_insert_eq|apply Hin; lia].
    + intros x Hx. rewrite Hout by lia. by rewrite lookup_insert_ne by lia.
Qed.

(** A forward copy is right when the destination does not start inside the
    source. *)
Lemma wp_memcpy n d s m (Q : unit → bytes → Prop) :
  mapped_bytes m d (Z.of_nat n) → mapped_bytes m s (Z.of_nat n) → d ≤ s ∨ s + Z.of_nat n ≤ d →
  (∀ m', (∀ x, d ≤ x < d + Z.of_nat n → m' !! x = m !! (s + (x - d))) →
         (∀ x, ¬ (d ≤ x < d + Z.of_nat n) → m' !! x = m !! x) → Q tt m') →
  wp (memcpy n d s) m Q.
Proof.
  revert d s m Q. induction n as [|n IH]; intros d s m Q Hd Hs Hov HQ; cbn [memcpy].
  { apply wp_ret, HQ; [lia|done]. }
  destruct (Hs s ltac:(lia)) as [c Hc]. apply wp_bind. eapply wp_ld8; [exact Hc|]. apply wp_bind, wp_st8; [apply Hd; lia|]. apply IH.
  - intros x Hx. rewrite lookup_insert_is_Some'. right. apply Hd. lia.
  - intros x Hx. rewrite lookup_insert_is_Some'. right. apply Hs. lia.
  - lia.
  - intros m' Hin Hout. apply HQ.
    + intros x Hx. destruct (decide (x = d)) as [->|].
      * rewrite Hout by lia. by rewrite lookup_insert_eq, Z.sub_diag, Z.add_0_r, Hc.
      * rewrite Hin by lia. rewrite lookup_insert_ne by lia. f_equal. lia.
    + intros x Hx. rewrite Hout by lia. by rewrite lookup_insert_ne by lia.
Qed.

Lemma wp_strlen_loop fuel m a l i (Q : Z → bytes → Prop) :
  cstr m a l → (length l < fuel)%nat → 0 ≤ i → i + Z.of_nat (length l) < 2 ^ 64 →
  Q (i + Z.of_nat (length l)) m → wp (strlen_loop fuel a i) m Q.
Proof.
  revert a i l. induction fuel as [|fuel IH]; intros a i l [Ha Hl] Hf Hi Hb HQ; [lia|]. cbn [strlen_loop].
  destruct l as [|c l]; simpl in Ha; destruct Ha as [Hc Ha]; apply wp_bind; (eapply wp_ld8; [exact Hc|]).
  - simpl. apply wp_ret. simpl in HQ. by rewrite Z.add_0_r in HQ.
  - apply Forall_cons in Hl as [Hc0 Hl]. rewrite (proj2 (Z.eqb_neq c 0)) by lia. cbn [negb]. simpl in Hf, Hb.
    rewrite u64_small by lia. eapply (IH _ _ l); [by split|lia|lia|lia|]. simpl in HQ.
    by replace (i + 1 + Z.of_nat (length l)) with (i + Z.of_nat (S (length l))) by lia.
Qed.

Lemma wp_strlen m a l (Q : Z → bytes → Prop) :
  cstr m a l → Z.of_nat (length l) < 2 ^ 64 → Q (Z.of_nat (length l)) m → wp (strlen a) m Q.
Proof.
  intros Hs Hb HQ. unfold strlen. apply wp_bind, wp_gets. eapply wp_strlen_loop; [exact Hs| |lia|lia|done].
  destruct Hs as [Ha _]. apply arr_size in Ha. rewrite length_app in Ha. simpl in Ha. lia.
Qed.

(** The sign of the result is the lexicographic order. *)
Definition agrees (r : Z) (c : comparison) : Prop := (r ?= 0) = c.

Lemma agrees_sub a b c : a ≠ b → (a ?= b) = c → agrees (a - b) c.
Proof. unfold agrees. intros Hne <-. by rewrite <- Z.compare_sub. Qed.

Lemma wp_strcmp_loop fuel m a b l r (Q : Z → bytes → Prop) :
  cstr m a l → cstr m b r → (length l < fuel)%nat →
  (∀ x, agrees x (lex l r) → Q x m) → wp (strcmp_loop fuel a b) m Q.
Proof.
  revert a b l r. induction fuel as [|fuel IH]; intros a b l r [Ha Hl] [Hb Hr] Hf HQ; [lia|]. cbn [strcmp_loop].
  destruct l as [|c l]; simpl in Ha; destruct Ha as [Hc Ha]; apply wp_bind; (eapply wp_ld8; [exact Hc|]);
    destruct r as [|d r]; simpl in Hb; destruct Hb as [Hd Hb].
  - apply wp_bind, wp_ret. simpl. apply wp_bind. eapply wp_ld8; [exact Hd|]. simpl. by apply wp_ret, HQ.
  - apply Forall_cons in Hr as [Hd0 _]. apply wp_bind, wp_ret. simpl. apply wp_bind. eapply wp_ld8; [exact Hd|]. rewrite (proj2 (Z.eqb_neq d 0)) by lia. simpl. by apply wp_ret, HQ.
  - apply Forall_cons in Hl as [Hc0 _]. rewrite (proj2 (Z.eqb_neq c 0)) by lia. apply wp_bind. eapply wp_ld8; [exact Hd|]. simpl.
    apply wp_bind. eapply wp_ld8; [exact Hd|]. simpl. by apply wp_ret, HQ.
  - apply Forall_cons in Hl as [Hc0 Hl]. apply Forall_cons in Hr as [Hd0 Hr]. rewrite (proj2 (Z.eqb_neq c 0)) by lia.
    apply wp_bind. eapply wp_ld8; [exact Hd|]. rewrite (proj2 (Z.eqb_neq d 0)) by lia. cbn [negb andb]. simpl in HQ, Hf.
    case_cmp as E; [subst d; rewrite Z.compare_refl in HQ; eapply IH; [by split|by split|lia|done]|].
    apply wp_ret, HQ. destruct (c ?= d) eqn:Ec; [by apply Z.compare_eq in Ec| |]; by apply agrees_sub.
Qed.

Lemma wp_strcmp m a b l r (Q : Z → bytes → Prop) :
  cstr m a l → cstr m b r → (∀ x, agrees x (lex l r) → Q x m) → wp (strcmp a b) m Q.
Proof.
  intros Ha Hb HQ. unfold strcmp. apply wp_bind, wp_gets. eapply wp_strcmp_loop; [exact Ha|exact Hb| |done].
  destruct Ha as [Ha _]. apply arr_size in Ha. rewrite length_app in Ha. simpl in Ha. lia.
Qed.

(** [strncmp] compares at most [n] bytes, the terminating zero included. *)
Lemma wp_strncmp m n a b l r (Q : Z → bytes → Prop) :
  cstr m a l → cstr m b r → (∀ x, agrees x (lex (take n l) (take n r)) → Q x m) → wp (strncmp a b n) m Q.
Proof.
  unfold strncmp. revert a b l r. induction n as [|n IH]; intros a b l r [Ha Hl] [Hb Hr] HQ; [by apply wp_ret, HQ|]. cbn [strncmp_loop].
  destruct l as [|c l]; simpl in Ha; destruct Ha as [Hc Ha]; apply wp_bind; (eapply wp_ld8; [exact Hc|]);
    destruct r as [|d r]; simpl in Hb; destruct Hb as [Hd Hb]; apply wp_bind; (eapply wp_ld8; [exact Hd|]).
  - by apply wp_ret, HQ.
  - apply Forall_cons in Hr as [Hd0 _]. apply wp_ret, HQ. unfold agrees. simpl. apply Z.compare_lt_iff. lia.
  - apply Forall_cons in Hl as [Hc0 _]. rewrite (proj2 (Z.eqb_neq c 0)) by lia. cbn [negb orb]. apply wp_ret, HQ. unfold agrees. simpl. apply Z.compare_gt_iff. lia.
  - apply Forall_cons in Hl as [Hc0 Hl]. apply Forall_cons in Hr as [Hd0 Hr]. rewrite (proj2 (Z.eqb_neq c 0)) by lia. cbn [orb]. simpl in HQ.
    case_cmp as E; cbn [negb]; [subst d; rewrite Z.compare_refl in HQ; eapply IH; [by split|by split|done]|].
    apply wp_ret, HQ. destruct (c ?= d) eqn:Ec; [by apply Z.compare_eq in Ec| |]; by apply agrees_sub.
Qed.

Lemma wp_memcmp m n a b l r (Q : Z → bytes → Prop) :
  arr m a l → arr m b r → length l = n → length r = n → (∀ x, agrees x (lex l r) → Q x m) → wp (memcmp n a b) m Q.
Proof.
  revert a b l r. induction n as [|n IH]; intros a b [|c l] [|d r] Ha Hb Hl Hr HQ; simplify_eq/=; [by apply wp_ret, HQ|].
  destruct Ha as [Hc Ha], Hb as [Hd Hb]. apply wp_bind. eapply wp_ld8; [exact Hc|]. apply wp_bind. eapply wp_ld8; [exact Hd|].
  case_cmp as E; [subst d; rewrite Z.compare_refl in HQ; by eapply IH|].
  apply wp_ret, HQ. destruct (c ?= d) eqn:Ec; [by apply Z.compare_eq in Ec| |]; by apply agrees_sub.
Qed.

(** ** Properties *)

(** A memory with the bytes [l] at [a], and nothing else. *)
Fixpoint lay (a : Z) (l : list Z) : bytes :=
  match l with
  | [] => ∅
  | c :: l' => <[a := c]> (lay (a + 1) l')
  end.

(** [memcpy] copies: when both areas are mapped and the destination does
    not start inside the source, it returns, the destination holds the bytes
    the source had, and every other byte keeps its value. *)
Theorem memcpy_copies m d s n :
  mapped_bytes m d (Z.of_nat n) → mapped_bytes m s (Z.of_nat n) → d ≤ s ∨ s + Z.of_nat n ≤ d →
  ∃ m', memcpy n d s m = Ok (tt, m') ∧
    (∀ i, 0 ≤ i < Z.of_nat n → m' !! (d + i) = m !! (s + i)) ∧
    (∀ x, ¬ (d ≤ x < d + Z.of_nat n) → m' !! x = m !! x).
Proof.
  intros Hd Hs Hov. assert (wp (memcpy n d s) m (λ _ m', (∀ i, 0 ≤ i < Z.of_nat n → m' !! (d + i) = m !! (s + i)) ∧
    (∀ x, ¬ (d ≤ x < d + Z.of_nat n) → m' !! x = m !! x))) as Hw.
  { apply wp_memcpy; [done|done|done|]. intros m' Hin Hout. split; [|done]. intros i Hi. rewrite Hin by lia. f_equal. lia. }
  apply wp_inv in Hw as ([] & m' & H). eauto.
Qed.

Lemma memcpy_copies_witness :
  let m := lay 100 [1; 2; 3; 0; 0; 0] in
  ∃ m', memcpy 3 103 100 m = Ok (tt, m') ∧
    (∀ i, 0 ≤ i < Z.of_nat 3 → m' !! (103 + i) = m !! (100 + i)) ∧
    (∀ x, ¬ (103 ≤ x < 103 + Z.of_nat 3) → m' !! x = m !! x).
Proof.
  set (m := lay 100 [1; 2; 3; 0; 0; 0]). cbv zeta.
  assert (∀ x, 100 ≤ x < 106 → is_Some (m !! x)) as Hm.
  { intros x Hx. assert (x = 100 ∨ x = 101 ∨ x = 102 ∨ x = 103 ∨ x = 104 ∨ x = 105) as Hc by lia.
    destruct Hc as [-> | [-> | [-> | [-> | [-> | -> ]]]]]; eexists; reflexivity. }
  destruct (memcpy_copies m 103 100 3) as (m' & H).
  - intros x Hx. apply Hm. lia.
  - intros x Hx. apply Hm. lia.
  - lia.
  - exists m'. exact H.
Defined.

(** [strcmp] orders C strings lexicographically by unsigned bytes: it
    returns for any two terminated strings (it reads no byte beyond the
    terminators), its result is negative, zero or positive as the first string
    is smaller, equal or greater, and zero exactly for equal strings. *)
Theorem strcmp_lexicographic m a b l r :
  cstr m a l → cstr m b r →
  ∃ x, strcmp a b m = Ok (x, m) ∧ (x ?= 0) = lex l r ∧ (x = 0 ↔ l = r).
Proof.
  intros Ha Hb. assert (wp (strcmp a b) m (λ x m', m' = m ∧ (x ?= 0) = lex l r)) as Hw.
  { eapply wp_strcmp; [exact Ha|exact Hb|]. intros x Hx. by split. }
  apply wp_inv in Hw as (x & m' & Hx & -> & Hr). exists x. split_and!; [done|done|].
  rewrite <- lex_eq, <- Hr. apply iff_sym, Z.compare_eq_iff.
Qed.

Lemma strcmp_lexicographic_witness :
  let m := lay 100 [65; 66; 0] ∪ lay 200 [65; 67; 68; 0] in
  ∃ x, strcmp 100 200 m = Ok (x, m) ∧ (x ?= 0) = lex [65; 66] [65; 67; 68] ∧ (x = 0 ↔ [65; 66] = [65; 67; 68]).
Proof.
  cbv zeta. apply (strcmp_lexicographic (lay 100 [65; 66; 0] ∪ lay 200 [65; 67; 68; 0]) 100 200 [65; 66] [65; 67; 68]).
  - split; [by repeat split|by repeat constructor].
  - split; [by repeat split|by repeat constructor].
Defined.
