(* ===== verification/Kmalloc.v ===== *)
(** * [kmalloc], [kzalloc] and [kfree]: [mm/kmalloc.c]

    The state of the slab allocator (which contains the buddy allocator's),
    together with the byte memory that clients use. *)

From S2P Require Import Prelude Macro ListHead Buddy Chunks BuddyInv BuddyOps BuddySpec BuddyCount BuddyInit BuddyTheorems Pages.
From S2P Require Import Slab SlabInv SlabOps SlabSpec SlabTheorems Utils.

(** [((void * )(-1UL))] *)
Definition ZERO_SIZE_PTR : Z := u64 (-1).
Definition IS_VALID_PTR (ptr : Z) : bool := negb (ptr =? NULL) && negb (ptr =? ZERO_SIZE_PTR).

Record kstate : Type := mk_kstate { sl : sstate; kdata : bytes }.
Definition set_sl (s : sstate) (st : kstate) : kstate := mk_kstate s (kdata st).
Definition set_kdata (m : bytes) (st : kstate) : kstate := mk_kstate (sl st) m.

(** [__kmalloc(size, &real_size)]: the result and, when it is stored, [*real_size]. *)
Definition kmalloc_real (size : Z) : M sstate (Z * option Z) :=
  if size <=? slab_order_to_size MAX_SLAB_BLOCK_ORDER then
    let real_size := slab_order_to_size (size_to_slab_order size) in
    p ← slab_alloc size;
    mret (p, Some real_size)
  else if size <=? BUDDY_CHUNK_SIZE (BUDDY_MAX_ORDER - 1) then
    let real_size := BUDDY_CHUNK_SIZE (size_to_page_order size) in
    p ← on_bud (get_pages (size_to_page_order size));
    mret (p, Some real_size)
  else mret (NULL, None).

Definition kmalloc (size : Z) : M sstate Z :=
  if size =? 0 then mret ZERO_SIZE_PTR
  else
    r ← kmalloc_real size;
    mret (fst r).

Definition kzalloc (size : Z) : M kstate Z :=
  addr ← zoom sl set_sl (kmalloc size);
  (if negb (IS_VALID_PTR addr) then zoom kdata set_kdata (memset (Z.to_nat size) addr 0) else mret tt) ;;
  mret addr.

Definition kfree (ptr : Z) : M sstate unit :=
  if ptr =? ZERO_SIZE_PTR then mret tt
  else
    page ← gets (λ st, virt_to_page (bud st) ptr);
    if page =? NULL then mret tt
    else
      p ← on_bud (ld_page page);
      if negb (slab p =? NULL) then slab_free ptr ;; mret tt
      else on_bud (free_pages ptr).

(** ** The heap as clients see it *)

(** [n] bytes at [a] are an allocation: a slab block or a block of pages. *)
Definition owned (st : sstate) (U : gmap Z Z) (G : gmap_slabs) (a n : Z) : Prop :=
  (∃ k, live G a k ∧ n = 2 ^ k) ∨
  (∃ c o, page_block (bud st) U G c o ∧ a = frame_addr (bud st) c ∧ n = BUDDY_CHUNK_SIZE o).

Section heap.
Implicit Types (st : sstate) (U : gmap Z Z) (G : gmap_slabs) (cur : Z → Z) (P : Z → list Z) (lk : Z → Z).

(** The slab allocator does not mind what happens to page blocks. *)
Lemma core_set_bud st U G cur P lk b U' :
  slab_core st U G cur P lk → frame (bud st) b → buddy_ok b U' →
  (∀ c, U !! c = Some 5 → is_Some (G !! frame_addr (bud st) c) → U' !! c = Some 5) →
  slab_core (set_bud b st) U' G cur P lk.
Proof.
  intros [HB Hpa HS HMk HCt HL Hsep Hlow] Hf Hok' Hkeep. pose proof (frame_geo _ _ Hf) as Hg.
  split; simpl; [done| | | |done|done|done|].
  - by rewrite (ge_start _ _ Hg).
  - intros s k fl Hs. destruct (HS _ _ _ Hs) as (Hk & [Rh Rc Rn Rb Rd] & (c & Hc & Es)). split; [done|]. split; [by split|].
    exists c. rewrite (geo_addr _ _ _ Hg). split; [|done]. apply Hkeep; [done|]. rewrite <- Es. eauto.
  - intros i Hi. rewrite (ge_num _ _ Hg) in Hi. destruct (HMk i Hi) as (p & Hp & Hm). pose proof (fr_slab _ _ Hf (pfn_to_page (bud st) i)) as Hs.
    rewrite Hp, <- (geo_pfn _ _ i Hg) in Hs. destruct (pages b !! pfn_to_page b i) as [q|] eqn:Eq; [|done].
    exists q. split; [done|]. rewrite (geo_addr _ _ _ Hg). by injection Hs as ->.
  - intros k s Hk Hs. rewrite (ge_start _ _ Hg). by eapply Hlow.
Qed.

Lemma slab_ok_buddy st U G : slab_ok st U G → buddy_ok (bud st) U.
Proof. intros (cur & P & HC & _). apply HC. Qed.

(** No slab is at a frame that was not allocated. *)
Lemma unused_no_slab st U G c : slab_ok st U G → U !! c = None → 0 ≤ c < page_num (bud st) → G !! frame_addr (bud st) c = None.
Proof.
  intros (cur & P & HC & _) Hc Hr. pose proof (sc_buddy _ _ _ _ _ _ HC) as HB. destruct (G !! frame_addr (bud st) c) as [[k fl]|] eqn:E; [|done].
  destruct (sc_slab _ _ _ _ _ _ HC _ _ _ E) as (_ & _ & (d & Hd & Ed)). exfalso.
  destruct (used_block _ _ _ _ HB Hd) as (Hd0 & _ & Hdn & _). rewrite (frame_addr_eq _ U c HB), (frame_addr_eq _ U d HB) in Ed by lia.
  assert (c = d) as -> by lia. congruence.
Qed.

Lemma page_get st U G c o b : slab_ok st U G → block_avail (bud st) U c o → 0 ≤ o → frame (bud st) b → buddy_ok b (<[c := o]> U) →
  slab_ok (set_bud b st) (<[c := o]> U) G ∧
  (∀ d k, page_block b (<[c := o]> U) G d k ↔ page_block (bud st) U G d k ∨ (d = c ∧ k = o)).
Proof.
  intros Hok Hav Ho Hf Hok'. pose proof (slab_ok_buddy _ _ _ Hok) as HB.
  assert (U !! c = None) as Hc.
  { eapply avail_unused; [done|done|]. intros d k Hd. destruct (used_block _ _ _ _ HB Hd). lia. }
  pose proof (pow2_gt0 o Ho). assert (G !! frame_addr (bud st) c = None) as HGc by (eapply unused_no_slab; [exact Hok|done|destruct Hav; lia]).
  split.
  - destruct Hok as (cur & P & HC & HS). exists cur, P. split; [|done]. eapply core_set_bud; [exact HC|done|done|].
    intros d Hd _. rewrite lookup_insert_ne; [done|]. intros <-. congruence.
  - intros d k. unfold page_block. rewrite (geo_addr _ _ _ (frame_geo _ _ Hf)), lookup_insert. case_decide as E; [subst d|]; naive_solver.
Qed.

Lemma page_drop st U G c o b : slab_ok st U G → page_block (bud st) U G c o → frame (bud st) b → buddy_ok b (delete c U) →
  slab_ok (set_bud b st) (delete c U) G ∧
  (∀ d k, page_block b (delete c U) G d k ↔ page_block (bud st) U G d k ∧ ¬ (d = c ∧ k = o)).
Proof.
  intros Hok [Hc HGc] Hf Hok'. split.
  - destruct Hok as (cur & P & HC & HS). exists cur, P. split; [|done]. eapply core_set_bud; [exact HC|done|done|].
    intros d Hd Hg. rewrite lookup_delete_ne; [done|]. intros <-. rewrite HGc in Hg. by destruct Hg.
  - intros d k. unfold page_block. rewrite (geo_addr _ _ _ (frame_geo _ _ Hf)), lookup_delete. case_decide as E; [subst d|]; naive_solver.
Qed.
End heap.

Section owned.
Context (st : sstate) (U : gmap Z Z) (G : gmap_slabs) (Hok : slab_ok st U G).

Lemma page_range c o : page_block (bud st) U G c o →
  0 ≤ o ≤ 10 ∧ 0 ≤ c ∧ c + 2 ^ o ≤ page_num (bud st) ∧ frame_addr (bud st) c = start_addr (bud st) + c * 2 ^ 12 ∧
  BUDDY_CHUNK_SIZE o = 2 ^ o * 2 ^ 12 ∧ frame_addr (bud st) c mod BUDDY_CHUNK_SIZE o = 0.
Proof.
  intros [Hc _]. pose proof (slab_ok_buddy _ _ _ Hok) as HB. destruct (used_block _ _ _ _ HB Hc) as (Hc0 & Ho & Hn & Hal).
  destruct (block_range _ _ _ _ HB Hc) as [Hv Hsz]. pose proof (pow2_gt0 o ltac:(lia)). split_and!; [lia|lia|done|lia| |done|].
  - eapply frame_addr_eq; [exact HB|lia].
  - unfold frame_addr. rewrite Hv, Hsz, Z.mul_mod_distr_r, Hal by lia. lia.
Qed.

Lemma owned_range a n : owned st U G a n →
  0 < n ∧ start_addr (bud st) ≤ a ∧ a + n ≤ start_addr (bud st) + size (bud st) ∧ a mod n = 0.
Proof.
  pose proof (slab_ok_buddy _ _ _ Hok) as HB. pose proof (buddy_ok_region _ _ HB) as HG. pose proof (rg_size _ HG) as Hsz.
  intros [(k & Hl & ->)|(c & o & Hp & -> & ->)].
  - destruct (live_aligned _ _ _ _ _ Hok Hl) as (Hk & Hal & _). pose proof (block_size k Hk). destruct Hl as (s & fl & Hs & Hb & _).
    destruct Hok as (cur & P & HC & _). destruct (sc_slab _ _ _ _ _ _ HC _ _ _ Hs) as (_ & _ & Hsl).
    destruct (slab_range _ _ _ HB Hsl) as (Hlo & Hhi & _). pose proof (block_in_slab _ _ _ Hk Hb). split_and!; [lia|lia|lia|done].
  - destruct (page_range c o Hp) as (Ho & Hc & Hn & Ea & Hs & Hal). pose proof (pow2_gt0 o ltac:(lia)).
    split_and!; [lia|lia|lia|done].
Qed.

Lemma owned_apart a n a' n' : owned st U G a n → owned st U G a' n' → a ≠ a' ∨ n ≠ n' → a + n ≤ a' ∨ a' + n' ≤ a.
Proof.
  pose proof (slab_ok_buddy _ _ _ Hok) as HB.
  assert (∀ a k c o, live G a k → page_block (bud st) U G c o →
    a + 2 ^ k ≤ frame_addr (bud st) c ∨ frame_addr (bud st) c + BUDDY_CHUNK_SIZE o ≤ a) as Hmix.
  { intros b k c o Hl Hp. destruct (live_aligned _ _ _ _ _ Hok Hl) as (Hk & _). pose proof (block_size k Hk).
    destruct (page_range c o Hp) as (Ho & _ & _ & _ & Hs & _). pose proof (pow2_gt0 o ltac:(lia)).
    destruct (Z_le_dec (b + 2 ^ k) (frame_addr (bud st) c)) as [?|H1]; [by left|].
    destruct (Z_le_dec (frame_addr (bud st) c + BUDDY_CHUNK_SIZE o) b) as [?|H2]; [by right|]. exfalso.
    apply (live_page_apart st U G b k c o (Z.max b (frame_addr (bud st) c)) Hok Hl Hp); [lia|].
    unfold in_block. fold (frame_addr (bud st) c). lia. }
  intros [(k & Hl & ->)|(c & o & Hp & -> & ->)] [(k' & Hl' & ->)|(c' & o' & Hp' & -> & ->)] Hne.
  - eapply live_apart; [exact Hok|exact Hl|exact Hl'|]. destruct Hne as [?|Hne]; [by left|right; congruence].
  - by apply Hmix.
  - destruct (Hmix a' k' c o Hl' Hp); lia.
  - destruct (decide (c = c')) as [<-|Hcc].
    { exfalso. destruct Hp as [Hp _], Hp' as [Hp' _]. rewrite Hp in Hp'. simplify_eq. naive_solver. }
    destruct (page_range c o Hp) as (_ & _ & _ & -> & -> & _). destruct (page_range c' o' Hp') as (_ & _ & _ & -> & -> & _).
    destruct Hp as [Hp _], Hp' as [Hp' _]. destruct (used_blocks_apart _ _ _ _ _ _ HB Hp Hp' Hcc); lia.
Qed.
End owned.

(** ** The operations *)

(** The heap [(st', U', G')] has the allocations of [(st, U, G)] and [n] bytes at [a]. *)
Record heap_grew (st : sstate) (U : gmap Z Z) (G : gmap_slabs) (a n : Z) (st' : sstate) (U' : gmap Z Z) (G' : gmap_slabs) : Prop := {
  hg_ok : slab_ok st' U' G';
  hg_geo : geo (bud st) (bud st');
  hg_owned : ∀ b m, owned st' U' G' b m ↔ owned st U G b m ∨ (b = a ∧ m = n);
  hg_new : ¬ owned st U G a n
}.

Record heap_shrank (st : sstate) (U : gmap Z Z) (G : gmap_slabs) (a n : Z) (st' : sstate) (U' : gmap Z Z) (G' : gmap_slabs) : Prop := {
  hs_ok : slab_ok st' U' G';
  hs_geo : geo (bud st) (bud st');
  hs_owned : ∀ b m, owned st' U' G' b m ↔ owned st U G b m ∧ ¬ (b = a ∧ m = n)
}.

Section ops.
Implicit Types (st : sstate) (U : gmap Z Z) (G : gmap_slabs).

(** Memory of at least [size] bytes cannot be had: no block of 32 pages for a
    new slab, or no block of pages of the order. *)
Definition exhausted (st : sstate) (U : gmap Z Z) (size : Z) : Prop :=
  if size <=? 2 ^ 11 then ∀ c, ¬ block_avail (bud st) U c 5
  else ∀ c, ¬ block_avail (bud st) U c (size_to_page_order size).

Lemma owned_new_apart st U G st' U' G' a n : slab_ok st' U' G' →
  (∀ b m, owned st U G b m → owned st' U' G' b m) → owned st' U' G' a n → ¬ owned st U G a n →
  ∀ b m, owned st U G b m → b + m ≤ a ∨ a + n ≤ b.
Proof.
  intros Hok' Hsub Hn Hnew b m Hb. eapply (owned_apart st' U' G' Hok' b m a n); [by apply Hsub|done|].
  destruct (decide (b = a)) as [->|]; [|by left]. right. intros ->. done.
Qed.

Lemma took_grew st U G k b st' U' G' : slab_ok st U G → slab_took st U G k b st' U' G' → heap_grew st U G b (2 ^ k) st' U' G'.
Proof.
  intros Hok Ht. pose proof (took_live _ _ _ _ _ _ _ _ Ht) as Hl. destruct Ht as [Hok' Hg Hpg Hlive Hnew].
  destruct (live_aligned _ _ _ _ _ Hok' Hl) as (Hk & _). split; [done|done| |].
  - intros a m. unfold owned. setoid_rewrite Hpg. setoid_rewrite Hlive. setoid_rewrite (geo_addr _ _ _ Hg). naive_solver.
  - intros [(k' & Hl' & E)|(c & o & Hp & Ea & E)].
    + destruct (live_aligned _ _ _ _ _ Hok Hl') as (Hk' & _). apply Z.pow_inj_r in E; [subst; done|lia|unfold slab_order in *; lia|unfold slab_order in *; lia].
    + destruct (page_range st U G Hok c o Hp) as (Ho & _ & _ & _ & Es & _).
      apply Hpg in Hp. pose proof (pow2_gt0 o ltac:(lia)).
      apply (live_page_apart st' U' G' b k c o b Hok' Hl Hp); [pose proof (block_size k Hk); lia|].
      unfold in_block. fold (frame_addr (bud st') c). rewrite (geo_addr _ _ _ Hg), <- Ea. lia.
Qed.

Lemma get_grew st U G c o b : slab_ok st U G → block_avail (bud st) U c o → 0 ≤ o → frame (bud st) b → buddy_ok b (<[c := o]> U) →
  heap_grew st U G (frame_addr (bud st) c) (BUDDY_CHUNK_SIZE o) (set_bud b st) (<[c := o]> U) G.
Proof.
  intros Hok Hav Ho Hf Hok'. destruct (page_get _ _ _ _ _ _ Hok Hav Ho Hf Hok') as [Hok2 Hpg]. pose proof (frame_geo _ _ Hf) as Hg.
  assert (∀ a m, owned (set_bud b st) (<[c := o]> U) G a m ↔ owned st U G a m ∨ (a = frame_addr (bud st) c ∧ m = BUDDY_CHUNK_SIZE o)) as Hown.
  { intros a m. unfold owned. cbn [bud set_bud]. setoid_rewrite Hpg. setoid_rewrite (geo_addr _ _ _ Hg). naive_solver. }
  split; [done|done|exact Hown|]. pose proof (slab_ok_buddy _ _ _ Hok) as HB. pose proof (pow2_gt0 o Ho).
  assert (page_block b (<[c := o]> U) G c o) as Hpc by (apply Hpg; by right).
  intros [(k & Hl & E)|(d & k & Hp & Ea & E)].
  - destruct (live_aligned _ _ _ _ _ Hok Hl) as (Hk & _). pose proof (block_size k Hk).
    apply (live_page_apart (set_bud b st) _ _ _ _ c o (frame_addr (bud st) c) Hok2 Hl Hpc); [lia|].
    unfold in_block. cbn [bud set_bud]. fold (frame_addr b c). rewrite (geo_addr _ _ _ Hg), chunk_size_pow2 by lia. pose proof (pow2_gt0 (12 + o)). lia.
  - destruct (page_range st U G Hok d k Hp) as (Hk & Hd & Hdn & Hd2 & _). destruct Hp as [Hp _]. destruct Hav as [Hc0 Hcn _ Hap].
    rewrite (frame_addr_eq _ U c HB) in Ea by lia. assert (c = d) as -> by lia. pose proof (pow2_gt0 k ltac:(lia)). destruct (Hap d k Hp); lia.
Qed.

Lemma wp_kmalloc_real st U G size (Q : Z * option Z → sstate → Prop) :
  slab_ok st U G → 0 < size ≤ 2 ^ 22 →
  (∀ n, exhausted st U size → Q (NULL, Some n) st) →
  (∀ p n st' U' G', heap_grew st U G p n st' U' G' → owned st' U' G' p n → size ≤ n → Q (p, Some n) st') →
  wp (kmalloc_real size) st Q.
Proof.
  intros Hok Hsz HQ0 HQ1. unfold kmalloc_real, MAX_SLAB_BLOCK_ORDER, BUDDY_MAX_ORDER, exhausted in *.
  rewrite order_to_size, chunk_size_pow2 by lia. case_cmp as Hle.
  - destruct (size_to_slab_order_ok size ltac:(lia)) as (Hk & Hfit & _). unfold slab_order in Hk. rewrite order_to_size by lia.
    apply wp_bind, (wp_slab_alloc st U G size _ Hok ltac:(lia)).
    + intros _ Hno. by apply wp_ret, HQ0.
    + intros b st' U' G' Ht. apply wp_ret. eapply HQ1; [by eapply took_grew| |done]. left. eexists. split; [by eapply took_live|done].
  - change (12 + (11 - 1)) with 22. rewrite (proj2 (Z.leb_le _ _)) by lia. destruct (size_to_page_order_spec size) as [[_ Hbad]|(Ho & Hfit & _)]; [rewrite chunk_size_pow2 in Hbad by lia; change (12 + 10) with 22 in Hbad; lia|].
    apply wp_bind, wp_zoom. eapply wp_get_pages; [by eapply slab_ok_buddy|done|..].
    + intros Hno. apply wp_ret. replace (set_bud (bud st) st) with st by by destruct st. by apply HQ0.
    + intros c b Hav Hf Hok'. apply wp_ret. pose proof (get_grew _ _ _ _ _ _ Hok Hav ltac:(lia) Hf Hok') as Hg.
      eapply HQ1; [exact Hg| |lia]. apply (hg_owned _ _ _ _ _ _ _ _ Hg). by right.
Qed.

(** The page of an address of an allocation. *)
Lemma owned_page st U G a n : slab_ok st U G → owned st U G a n →
  ∃ i p, 0 ≤ i < page_num (bud st) ∧ virt_to_page (bud st) a = pfn_to_page (bud st) i ∧
    frame_addr (bud st) i ≤ a < frame_addr (bud st) i + 2 ^ 12 ∧
    pages (bud st) !! pfn_to_page (bud st) i = Some p ∧ mark_ok G (frame_addr (bud st) i) (slab p).
Proof.
  intros Hok Hown. pose proof (slab_ok_buddy _ _ _ Hok) as HB. pose proof (buddy_ok_region _ _ HB) as HG. pose proof (rg_size _ HG) as Hsz.
  destruct (owned_range st U G Hok a n Hown) as (Hn0 & Hlo & Hhi & _). pose proof (start_vpn HG) as Hst.
  set (i := (a - start_addr (bud st)) / 2 ^ 12).
  pose proof (Z.div_mod (a - start_addr (bud st)) (2 ^ 12) ltac:(lia)) as Hdm. pose proof (Z.mod_pos_bound (a - start_addr (bud st)) (2 ^ 12) ltac:(lia)) as Hm.
  fold i in Hdm. assert (0 ≤ i < page_num (bud st)) as Hi by lia. pose proof Hok as (cur & P & HC & _).
  destruct (sc_mark _ _ _ _ _ _ HC i Hi) as (p & Hp & Hmk). exists i, p. split; [done|]. split; [|split; [|done]].
  - replace a with ((base_vpn (bud st) + i) * 2 ^ 12 + (a - start_addr (bud st)) mod 2 ^ 12) by lia. by apply virt_to_page_frame.
  - rewrite (frame_addr_eq _ U i HB) by lia. lia.
Qed.

(** The mark of a page tells which allocator an address belongs to. *)
Lemma live_mark st U G a k i v : slab_ok st U G → live G a k → 0 ≤ i < page_num (bud st) →
  frame_addr (bud st) i ≤ a < frame_addr (bud st) i + 2 ^ 12 → mark_ok G (frame_addr (bud st) i) v → v ≠ NULL.
Proof.
  intros Hok (s & fl & Hs & Hb & _) Hi Ha Hmk. pose proof (slab_ok_buddy _ _ _ Hok) as HB. pose proof (buddy_ok_region _ _ HB) as HG.
  destruct Hok as (cur & P & HC & _). destruct (sc_slab _ _ _ _ _ _ HC _ _ _ Hs) as (Hk & _ & Hsl).
  destruct Hmk as [[[[k' fl'] Hg'] _]|[_ Hno]]; [intros E; rewrite E in Hg'; by rewrite (core_no_null _ _ _ _ _ _ HC) in Hg'|].
  exfalso. apply (Hno s ltac:(eauto)). destruct (slab_range _ _ _ HB Hsl) as (Hslo & Hshi & _ & _ & Hal).
  pose proof (block_in_slab _ _ _ Hk Hb). pose proof (block_size k Hk). unfold in_slab. rewrite (frame_addr_eq _ U i HB) in * by lia.
  apply Z.mod_divide in Hal as [q Hq]; [|lia]. pose proof (rg_page _ HG) as Hpg. apply Z.mod_divide in Hpg as [q' Hq']; [|lia]. lia.
Qed.

Lemma page_mark st U G c o v : slab_ok st U G → page_block (bud st) U G c o → mark_ok G (frame_addr (bud st) c) v → v = NULL.
Proof.
  intros Hok [Hpb Hno] [[[[k' fl'] Hg'] Hin]|[-> _]]; [|done]. exfalso. pose proof (slab_ok_buddy _ _ _ Hok) as HB.
  destruct Hok as (cur & P & HC & _). destruct (sc_slab _ _ _ _ _ _ HC _ _ _ Hg') as (_ & _ & (d & Hd & Ed)).
  destruct (used_block _ _ _ _ HB Hd) as (Hd0 & _ & Hdn & _). destruct (used_block _ _ _ _ HB Hpb) as (Hc0 & Ho & Hcn & _).
  pose proof (pow2_gt0 o ltac:(lia)). unfold in_slab in Hin. rewrite Ed in Hin. destruct (decide (c = d)) as [->|Hcd]; [rewrite <- Ed, Hg' in Hno; done|].
  rewrite (frame_addr_eq _ U c HB), (frame_addr_eq _ U d HB) in Hin by lia.
  destruct (used_blocks_apart _ _ _ _ _ _ HB Hpb Hd Hcd); change (2 ^ 5) with 32 in *; lia.
Qed.

(** A slab block is not a block of pages. *)
Lemma live_not_page st U G a k c o : slab_ok st U G → live G a k → page_block (bud st) U G c o → frame_addr (bud st) c ≠ a.
Proof.
  intros Hok Hl Hpb E. destruct (page_range st U G Hok c o Hpb) as (Ho & _ & _ & _ & Es & _). pose proof (pow2_gt0 o ltac:(lia)).
  destruct (live_aligned _ _ _ _ _ Hok Hl) as (Hk & _). apply (live_page_apart st U G a k c o a Hok Hl Hpb); [pose proof (block_size k Hk); lia|].
  unfold in_block. fold (frame_addr (bud st) c). lia.
Qed.

Lemma gave_shrank st U G k a st' U' G' : slab_ok st U G → live G a k → slab_gave st U G k a st' U' G' → heap_shrank st U G a (2 ^ k) st' U' G'.
Proof.
  intros Hok Hl [Hok' Hgeo Hpg Hlive]. split; [done|done|]. destruct (live_aligned _ _ _ _ _ Hok Hl) as (Hk & _).
  intros b m. unfold owned at 1. setoid_rewrite Hpg. setoid_rewrite Hlive. setoid_rewrite (geo_addr _ _ _ Hgeo). split.
  - intros [(k' & [Hl' Hne'] & ->)|(c & o & Hpb & -> & ->)].
    + split; [left; eauto|]. intros [-> E]. apply Hne'. split; [done|]. destruct (live_aligned _ _ _ _ _ Hok Hl') as (Hk' & _).
      apply Z.pow_inj_r in E; [done|lia|unfold slab_order in *; lia|unfold slab_order in *; lia].
    + split; [right; eauto|]. intros [E _]. exact (live_not_page st U G a k c o Hok Hl Hpb E).
  - intros [[(k' & Hl' & ->)|Hpb] Hne']; [left; exists k'; naive_solver|by right].
Qed.

Lemma drop_shrank st U G c o b : slab_ok st U G → page_block (bud st) U G c o → frame (bud st) b → buddy_ok b (delete c U) →
  heap_shrank st U G (frame_addr (bud st) c) (BUDDY_CHUNK_SIZE o) (set_bud b st) (delete c U) G.
Proof.
  intros Hok Hpb Hf Hok'. destruct (page_drop _ _ _ _ _ _ Hok Hpb Hf Hok') as [Hok2 Hpg]. split; [exact Hok2|by apply frame_geo|].
  intros x m. unfold owned at 1. cbn [bud set_bud]. setoid_rewrite Hpg. setoid_rewrite (geo_addr _ _ _ (frame_geo _ _ Hf)). split.
  - intros [(k & Hl & ->)|(d & k & [Hd Hne] & -> & ->)].
    + split; [left; eauto|]. intros [E _]. exact (live_not_page st U G x k c o Hok Hl Hpb (eq_sym E)).
    + split; [right; eauto|]. intros [E _]. apply Hne. destruct (page_range st U G Hok d k Hd) as (_ & ? & ? & Ed & _).
      destruct (page_range st U G Hok c o Hpb) as (_ & ? & ? & Ec & _). assert (d = c) as -> by lia.
      destruct Hd as [Hd _], Hpb as [Hpb _]. rewrite Hd in Hpb. naive_solver.
  - intros [[Hl|(d & k & Hd & -> & ->)] Hne]; [by left|right]. exists d, k. naive_solver.
Qed.

(** [kfree] up to the choice of the allocator. *)
Lemma wp_kfree_dispatch st U G a n (Q : unit → sstate → Prop) :
  slab_ok st U G → owned st U G a n →
  (∀ i p, 0 ≤ i < page_num (bud st) → frame_addr (bud st) i ≤ a < frame_addr (bud st) i + 2 ^ 12 → mark_ok G (frame_addr (bud st) i) (slab p) →
     wp (if negb (slab p =? NULL) then slab_free a ;; mret tt else on_bud (free_pages a)) st Q) → wp (kfree a) st Q.
Proof.
  intros Hok Hown HQ. pose proof (slab_ok_buddy _ _ _ Hok) as HB. pose proof (buddy_ok_region _ _ HB) as HG.
  destruct (owned_range st U G Hok a n Hown) as (Hn0 & Hlo & Hhi & _).
  unfold kfree. assert (a ≠ ZERO_SIZE_PTR) as Hz by (change ZERO_SIZE_PTR with (2 ^ 64 - 1); destruct HG; lia).
  rewrite (proj2 (Z.eqb_neq _ _)) by done. destruct (owned_page st U G a n Hok Hown) as (i & p & Hi & Ev & Hai & Hp & Hmk).
  apply wp_bind, wp_gets. rewrite Ev. rewrite (proj2 (Z.eqb_neq _ _)) by (eapply ok_pfn_ne_null; [exact HB|lia]).
  apply wp_bind, wp_zoom. eapply wp_load; [exact Hp|]. replace (set_bud (bud st) st) with st by by destruct st. by eapply HQ.
Qed.

Lemma wp_kfree_block st U G a k (Q : unit → sstate → Prop) :
  slab_ok st U G → live G a k → (∀ st' U' G', slab_gave st U G k a st' U' G' → Q tt st') → wp (kfree a) st Q.
Proof.
  intros Hok Hl HQ. apply (wp_kfree_dispatch st U G a (2 ^ k)); [done|left; eauto|]. intros i p Hi Hai Hmk.
  rewrite (proj2 (Z.eqb_neq _ _)) by by eapply live_mark. cbn [negb]. apply wp_bind.
  eapply wp_slab_free; [exact Hok|exact Hl|]. intros st' U' G' Hg. by eapply wp_ret, HQ.
Qed.

Lemma wp_kfree_pages st U G c o (Q : unit → sstate → Prop) :
  slab_ok st U G → page_block (bud st) U G c o →
  (∀ b, frame (bud st) b → buddy_ok b (delete c U) → Q tt (set_bud b st)) → wp (kfree (frame_addr (bud st) c)) st Q.
Proof.
  intros Hok Hpb HQ. apply (wp_kfree_dispatch st U G _ (BUDDY_CHUNK_SIZE o)); [done|right; eauto|]. intros i p Hi Hai Hmk.
  pose proof (slab_ok_buddy _ _ _ Hok) as HB. destruct (page_range st U G Hok c o Hpb) as (Ho & Hc0 & Hcn & Ea & _). pose proof (pow2_gt0 o ltac:(lia)).
  assert (i = c) as -> by (rewrite (frame_addr_eq _ U i HB), Ea in Hai by lia; lia).
  rewrite (page_mark _ _ _ _ _ _ Hok Hpb Hmk). cbn [negb Z.eqb]. apply wp_zoom. eapply wp_free_pages; [exact HB|by destruct Hpb|exact HQ].
Qed.

Lemma wp_kfree st U G a n (Q : unit → sstate → Prop) :
  slab_ok st U G → owned st U G a n → (∀ st' U' G', heap_shrank st U G a n st' U' G' → Q tt st') → wp (kfree a) st Q.
Proof.
  intros Hok [(k & Hl & ->)|(c & o & Hpb & -> & ->)] HQ.
  - eapply wp_kfree_block; [exact Hok|exact Hl|]. intros st' U' G' Hg. eapply HQ. by eapply gave_shrank.
  - eapply wp_kfree_pages; [exact Hok|exact Hpb|]. intros b Hf Hok'. eapply HQ. by eapply drop_shrank.
Qed.
End ops.
