(* ===== verification/KmallocTheorems.v ===== *)
(** * The theorems about [kmalloc], [kfree] and [kzalloc] *)

From S2P Require Import Prelude Macro ListHead Buddy Chunks BuddyInv BuddyOps BuddySpec BuddyCount BuddyInit BuddyTheorems Pages.
From S2P Require Import Slab SlabInv SlabOps SlabSpec SlabTheorems Utils Kmalloc.

Lemma wp_kmalloc st U G size (Q : Z → sstate → Prop) :
  slab_ok st U G → 0 < size ≤ 2 ^ 22 →
  (exhausted st U size → Q NULL st) →
  (∀ p n st' U' G', heap_grew st U G p n st' U' G' → owned st' U' G' p n → size ≤ n → Q p st') →
  wp (kmalloc size) st Q.
Proof.
  intros Hok Hsz HQ0 HQ1. unfold kmalloc. rewrite (proj2 (Z.eqb_neq _ _)) by lia. apply wp_bind.
  apply (wp_kmalloc_real st U G); [done|done| |].
  - intros n Hex. by apply wp_ret, HQ0.
  - intros p n st' U' G' Hg Ho Hn. apply wp_ret. by eapply HQ1.
Qed.

Lemma owned_valid st U G a n : slab_ok st U G → owned st U G a n → IS_VALID_PTR a = true.
Proof.
  intros Hok Ho. destruct (owned_range _ _ _ Hok _ _ Ho) as (? & ? & ? & _). pose proof (buddy_ok_region _ _ (slab_ok_buddy _ _ _ Hok)) as [].
  unfold IS_VALID_PTR. change ZERO_SIZE_PTR with (2 ^ 64 - 1). rewrite !(proj2 (Z.eqb_neq _ _)) by lia. done.
Qed.

Lemma owned_unique st U G a n n' : slab_ok st U G → owned st U G a n → owned st U G a n' → n = n'.
Proof.
  intros Hok H1 H2. destruct (decide (n = n')) as [|Hne]; [done|]. exfalso.
  destruct (owned_range _ _ _ Hok _ _ H1) as (? & _). destruct (owned_range _ _ _ Hok _ _ H2) as (? & _).
  destruct (owned_apart _ _ _ Hok _ _ _ _ H1 H2); [by right|lia|lia].
Qed.

(** ** Client programs *)

(** A client asks for memory and releases, by its position, a pointer it holds. *)
Inductive kop : Type := Kmalloc (size : Z) | Kfree (i : nat).

Definition run_op (op : kop) (held : list Z) : M sstate (list Z) :=
  match op with
  | Kmalloc size => p ← kmalloc size; mret (p :: held)
  | Kfree i =>
      match held !! i with
      | Some p => kfree p ;; mret (delete i held)
      | None => mret held
      end
  end.

Fixpoint run_ops (ops : list kop) (held : list Z) : M sstate (list Z) :=
  match ops with
  | [] => mret held
  | op :: ops' => held' ← run_op op held; run_ops ops' held'
  end.

Definition valid_op (op : kop) : Prop := match op with Kmalloc size => 0 ≤ size < 2 ^ 64 | Kfree _ => True end.
Definition valids (held : list Z) : list Z := filter (λ p, IS_VALID_PTR p = true) held.

(** The allocations are exactly the valid pointers the client holds, each once. *)
Definition heap_is (st : sstate) (held : list Z) : Prop := ∃ U G,
  slab_ok st U G ∧ NoDup (valids held) ∧ ∀ a, (∃ n, owned st U G a n) ↔ a ∈ valids held.

Lemma heap_is_cons_invalid st p held : heap_is st held → IS_VALID_PTR p = false → heap_is st (p :: held).
Proof. intros (U & G & H) Hp. exists U, G. unfold valids. rewrite filter_cons_False by congruence. exact H. Qed.

Lemma heap_is_grew st U G p n st' U' G' held : slab_ok st U G → NoDup (valids held) →
  (∀ a, (∃ n, owned st U G a n) ↔ a ∈ valids held) → heap_grew st U G p n st' U' G' → owned st' U' G' p n → heap_is st' (p :: held).
Proof.
  intros Hok Hnd Hown [Hok' _ Hiff Hnew] Hp. exists U', G'. split; [done|]. pose proof (owned_valid _ _ _ _ _ Hok' Hp) as Hv.
  unfold valids. rewrite filter_cons_True by done. split.
  - constructor; [|done]. intros Hin. apply Hown in Hin as [m Hm].
    assert (m = n) as ->; [|done]. eapply owned_unique; [exact Hok'| |exact Hp]. apply Hiff. by left.
  - intros a. rewrite elem_of_cons. fold (valids held). rewrite <- Hown. setoid_rewrite Hiff. naive_solver.
Qed.

Lemma valids_delete held i p : held !! i = Some p → valids held ≡ₚ (if IS_VALID_PTR p then [p] else []) ++ valids (delete i held).
Proof.
  intros Hi. unfold valids. rewrite (delete_Permutation held i p Hi) at 1. destruct (IS_VALID_PTR p) eqn:E.
  - by rewrite filter_cons_True.
  - by rewrite filter_cons_False by congruence.
Qed.

Lemma kfree_invalid st U G p : slab_ok st U G → IS_VALID_PTR p = false → kfree p st = Ok (tt, st).
Proof.
  intros Hok Hp. unfold kfree. destruct (Z.eqb_spec p ZERO_SIZE_PTR) as [|Hz]; [done|].
  unfold IS_VALID_PTR in Hp. rewrite (proj2 (Z.eqb_neq _ _) Hz), andb_true_r in Hp. apply negb_false_iff, Z.eqb_eq in Hp as ->.
  pose proof (buddy_ok_region _ _ (slab_ok_buddy _ _ _ Hok)) as HG. unfold mbind, M_bind, gets.
  rewrite (virt_to_page_below) by (destruct HG; lia). done.
Qed.

Lemma wp_run_op op held st : valid_op op → heap_is st held → wp (run_op op held) st (λ held' st', heap_is st' held').
Proof.
  intros Hv Hh. pose proof Hh as (U & G & Hok & Hnd & Hown). destruct op as [size|i]; cbn [run_op valid_op] in *.
  - apply wp_bind. destruct (decide (0 < size ≤ 2 ^ 22)) as [Hsz|Hsz].
    + apply (wp_kmalloc st U G); [done|done| |].
      * intros _. apply wp_ret. by apply heap_is_cons_invalid.
      * intros p n st' U' G' Hg Ho _. apply wp_ret. by eapply heap_is_grew.
    + unfold kmalloc. case_cmp as E0; [apply wp_ret, wp_ret; by apply heap_is_cons_invalid|].
      unfold kmalloc_real, MAX_SLAB_BLOCK_ORDER, BUDDY_MAX_ORDER. rewrite order_to_size, chunk_size_pow2 by lia.
      change (12 + (11 - 1)) with 22. rewrite !(proj2 (Z.leb_gt _ _)) by lia. apply wp_bind, wp_ret, wp_ret, wp_ret. by apply heap_is_cons_invalid.
  - destruct (held !! i) as [p|] eqn:Hi; [|by apply wp_ret]. pose proof (valids_delete _ _ _ Hi) as Hperm.
    apply wp_bind. destruct (IS_VALID_PTR p) eqn:Ep; simpl in Hperm.
    + assert (p ∈ valids held) as Hin by (rewrite Hperm; set_solver). apply Hown in Hin as [n Hn].
      eapply wp_kfree; [exact Hok|exact Hn|]. intros st' U' G' [Hok' _ Hiff]. apply wp_ret. exists U', G'. split; [done|].
      rewrite Hperm in Hnd. apply NoDup_cons in Hnd as [Hni Hnd]. split; [done|]. intros a. setoid_rewrite Hiff. split.
      * intros [m [Hm Hne]]. assert (a ∈ valids held) as Hin by (apply Hown; eauto). rewrite Hperm, elem_of_cons in Hin.
        destruct Hin as [->|]; [|done]. exfalso. apply Hne. split; [done|]. exact (owned_unique _ _ _ _ _ _ Hok Hm Hn).
      * intros Hin. assert (a ∈ valids held) as [m Hm]%Hown by (rewrite Hperm; set_solver). exists m. split; [done|]. intros [-> _]. done.
    + eapply wp_ok; [by eapply kfree_invalid|]. apply wp_ret. exists U, G. rewrite Hperm in Hnd. split_and!; [done|done|].
      intros a. by rewrite Hown, Hperm.
Qed.

(** ** Properties *)

(** C7. [kmalloc] of 1 byte to 4 MB always returns.  Either it returns a new
    allocation of at least [size] bytes, inside the managed memory, aligned to
    its own size and apart from every allocation there was (which all stay);
    or it returns [NULL], changes nothing, and no block of pages for it is
    left. *)
Theorem kmalloc_correct st U G sz :
  slab_ok st U G → 0 < sz ≤ 2 ^ 22 →
  ∃ p st', kmalloc sz st = Ok (p, st') ∧
    ((p = NULL ∧ st' = st ∧ exhausted st U sz) ∨
     (p ≠ NULL ∧ ∃ n U' G', sz ≤ n ∧ heap_grew st U G p n st' U' G' ∧ p mod n = 0 ∧
        start_addr (bud st) ≤ p ∧ p + n ≤ start_addr (bud st) + size (bud st) ∧
        ∀ b m, owned st U G b m → b + m ≤ p ∨ p + n ≤ b)).
Proof.
  intros Hok Hsz. apply wp_inv. apply (wp_kmalloc _ _ _ _ _ Hok Hsz).
  - intros Hex. by left.
  - intros p n st' U' G' Hg Ho Hn. right. pose proof (hg_ok _ _ _ _ _ _ _ _ Hg) as Hok'. pose proof (hg_geo _ _ _ _ _ _ _ _ Hg) as [E1 E2 _ _].
    destruct (owned_range _ _ _ Hok' _ _ Ho) as (Hn0 & Hlo & Hhi & Hal). rewrite E1, ?E2 in *. split.
    + pose proof (buddy_ok_region _ _ (slab_ok_buddy _ _ _ Hok)) as []. lia.
    + exists n, U', G'. split_and!; [done|done|done|done|done|]. eapply (owned_new_apart st U G st' U' G' p n); [done| |done|by destruct Hg].
      intros b m Hb. apply (hg_owned _ _ _ _ _ _ _ _ Hg). by left.
Qed.

Lemma kmalloc_correct_witness : ∃ st p st', slab_ok st ∅ ∅ ∧ kmalloc 5000 st = Ok (p, st') ∧
    ((p = NULL ∧ st' = st ∧ exhausted st ∅ 5000) ∨
     (p ≠ NULL ∧ ∃ n U' G', 5000 ≤ n ∧ heap_grew st ∅ ∅ p n st' U' G' ∧ p mod n = 0 ∧
        start_addr (bud st) ≤ p ∧ p + n ≤ start_addr (bud st) + size (bud st) ∧
        ∀ b m, owned st ∅ ∅ b m → b + m ≤ p ∨ p + n ≤ b)).
Proof.
  destruct demo_slab as (st & Hok & _). destruct (kmalloc_correct st ∅ ∅ 5000 Hok ltac:(lia)) as (p & st' & H).
  exists st, p, st'. split; [exact Hok|exact H].
Defined.

(** C8. [kfree] of an allocation finds the right allocator from the mark of the
    page, returns, and takes exactly that allocation out of the heap. *)
Theorem kfree_correct st U G p n :
  slab_ok st U G → owned st U G p n → ∃ st' U' G', kfree p st = Ok (tt, st') ∧ heap_shrank st U G p n st' U' G'.
Proof.
  intros Hok Ho. assert (wp (kfree p) st (λ _ st', ∃ U' G', heap_shrank st U G p n st' U' G')) as Hw.
  { eapply wp_kfree; [exact Hok|exact Ho|]. eauto. }
  destruct (proj1 (wp_inv _ _ _) Hw) as ([] & st' & H & U' & G' & Hs). eauto.
Qed.

Lemma kfree_correct_witness : ∃ st U G p, owned st U G p (2 ^ 6) ∧
  ∃ st' U' G', kfree p st = Ok (tt, st') ∧ heap_shrank st U G p (2 ^ 6) st' U' G'.
Proof.
  destruct demo_live as (st & U & G & p & Hok & Hl). exists st, U, G, p.
  assert (owned st U G p (2 ^ 6)) as Ho. { left. exists 6. split; [exact Hl|reflexivity]. }
  split; [exact Ho|]. exact (kfree_correct st U G p (2 ^ 6) Hok Ho).
Defined.

(** C1. No client can bring the allocators down: every sequence of [kmalloc]
    calls (any [size_t], zero and unsatisfiable requests included) and
    [kfree] calls on pointers it was given and still holds, [NULL] and the
    zero-size pointer included, runs to its end, without [BUG_ON], [kerror],
    wild access or deadlock; and at the end the allocations are exactly the
    valid pointers the client still holds, each held once. *)
Theorem heap_clients_safe ops st held :
  Forall valid_op ops → heap_is st held → ∃ held' st', run_ops ops held st = Ok (held', st') ∧ heap_is st' held'.
Proof.
  intros Hv Hh. apply wp_inv. revert st held Hh. induction Hv as [|op ops Hop _ IH]; intros st held Hh; cbn [run_ops]; [by apply wp_ret|].
  apply wp_bind. eapply wp_mono; [|by apply wp_run_op]. intros held' st' Hh'. by apply IH.
Qed.

Lemma heap_clients_safe_witness : ∃ st held' st', heap_is st [] ∧
  run_ops [Kmalloc 40; Kmalloc 0; Kmalloc 9000; Kfree 2; Kmalloc (2 ^ 30); Kfree 0; Kfree 0] [] st = Ok (held', st') ∧ heap_is st' held'.
Proof.
  destruct demo_slab as (st & Hok & _). exists st. assert (heap_is st []) as Hh.
  { exists ∅, ∅. split; [exact Hok|]. split; [constructor|]. intros a. split; [|intros H; by apply not_elem_of_nil in H].
    intros [n [(k & (s & fl & Hs & _) & _)|(c & o & [Hp _] & _)]]; by rewrite lookup_empty in *. }
  destruct (heap_clients_safe [Kmalloc 40; Kmalloc 0; Kmalloc 9000; Kfree 2; Kmalloc (2 ^ 30); Kfree 0; Kfree 0] st []) as (held' & st' & H).
  - repeat constructor; simpl; lia.
  - exact Hh.
  - exists held', st'. split; [exact Hh|exact H].
Defined.

(** [kzalloc] does not zero: its test for a valid pointer is inverted.  A
    block it returns keeps the contents it had, and when memory is exhausted
    it stores through [NULL] (where nothing is mapped) instead of returning
    it. *)
Theorem kzalloc_does_not_zero st U G sz :
  slab_ok (sl st) U G → 0 < sz ≤ 2 ^ 22 → kdata st !! NULL = None →
  ∃ p s', kmalloc sz (sl st) = Ok (p, s') ∧
    kzalloc sz st = if p =? NULL then Halt HFault else Ok (p, mk_kstate s' (kdata st)).
Proof.
  intros Hok Hsz Hnull. assert (wp (kmalloc sz) (sl st) (λ p s', p = NULL ∨ IS_VALID_PTR p = true)) as Hw.
  { apply (wp_kmalloc _ _ _ _ _ Hok Hsz); [by left|]. intros p n st' U' G' Hg Ho _. right. eapply owned_valid; [|exact Ho]. by destruct Hg. }
  destruct (proj1 (wp_inv _ _ _) Hw) as (p & s' & Hk & Hp). exists p, s'. split; [done|].
  unfold kzalloc, mbind, M_bind, zoom. rewrite Hk. destruct Hp as [->|Hv].
  - simpl. destruct (Z.to_nat sz) as [|n] eqn:E; [lia|]. cbn [memset]. unfold st8, ld8, load, mbind, M_bind. cbn [kdata set_sl]. by rewrite Hnull.
  - rewrite Hv. simpl. unfold IS_VALID_PTR in Hv. by destruct (p =? NULL).
Qed.

Lemma kzalloc_does_not_zero_witness : ∃ st p s', slab_ok (sl st) ∅ ∅ ∧ kmalloc 100 (sl st) = Ok (p, s') ∧
    kzalloc 100 st = if p =? NULL then Halt HFault else Ok (p, mk_kstate s' (kdata st)).
Proof.
  destruct demo_slab as (s & Hok & _). destruct (kzalloc_does_not_zero (mk_kstate s ∅) ∅ ∅ 100 Hok ltac:(lia) (lookup_empty NULL)) as (p & s' & H).
  exists (mk_kstate s ∅), p, s'. split; [exact Hok|exact H].
Defined.
