(* ===== verification/Mm.v ===== *)
(** * Bringing up memory management, and its self tests

    The allocators' part of [mm_init] ([mm/mm.c]), [kmalloc_test]
    ([mm/kmalloc.c]), and [run_test1] with its table of sizes
    ([mm/slab_test.c]).  The other half of the slab test, [run_test], is in
    [SlabTest]; [Main] puts the parts together with their messages. *)

From S2P Require Import Prelude Macro ListHead Buddy Chunks BuddyInv BuddyOps BuddySpec BuddyCount BuddyInit BuddyTheorems Pages.
From S2P Require Import Slab SlabInv SlabOps SlabSpec SlabTheorems Utils Kmalloc KmallocTheorems.

(** [assert(expr)] *)
Definition assert {S : Type} (b : bool) : M S unit := if b then mret tt else stop HBug.

(** [init_buddy(); init_slab();] with the kernel image ending at [e] *)
Definition mm_init_allocators (e : Z) : M sstate unit :=
  on_bud (init_buddy e) ;;
  init_slab.

(** The body of the loops of [kmalloc_test] *)
Definition kmalloc_round (i : Z) : M sstate unit :=
  let size := u64 (Z.shiftl 1 i) - 1 in
  r ← kmalloc_real size;
  kfree (fst r).

Fixpoint kmalloc_rounds (loop : nat) : M sstate unit :=
  match loop with
  | O => mret tt
  | S loop' => for_up 22 1 kmalloc_round ;; kmalloc_rounds loop'
  end.

Definition kmalloc_test : M sstate unit :=
  free_buddy_size_before ← on_bud get_free_mem_size_from_buddy;
  kmalloc_rounds 1000 ;;
  free_buddy_size_after ← on_bud get_free_mem_size_from_buddy;
  assert (free_buddy_size_after =? free_buddy_size_before).

Definition NUM_OPERATIONS : Z := 1000.

(** The table is declared with 2000 elements; the last 572 have no initialiser. *)
Definition sizes : list Z := [
  1121; 482; 1469; 648; 1204; 413; 1096; 302; 704; 1008; 1517; 1110; 1992; 865; 815; 1577; 227; 1799;
  648; 1178; 1357; 286; 1795; 776; 1974; 654; 1363; 1239; 1555; 338; 1467; 274; 740; 929; 1180; 226;
  1327; 1055; 1595; 1077; 1091; 1775; 680; 1030; 247; 1817; 1706; 475; 797; 799; 1588; 1052; 531; 1985;
  1399; 1061; 878; 1272; 522; 1024; 1299; 1899; 1214; 1069; 302; 893; 720; 387; 295; 1108; 225; 1450;
  1759; 1390; 1095; 330; 1362; 1254; 726; 982; 235; 1131; 238; 1869; 754; 445; 987; 951; 1006; 1156;
  1223; 1259; 855; 1300; 1877; 539; 1196; 397; 338; 1265; 1341; 1278; 271; 343; 681; 978; 1393; 268;
  1669; 1718; 1531; 753; 330; 1067; 1815; 313; 1004; 705; 1222; 1433; 1790; 1244; 582; 1765; 1106; 1559;
  1172; 552; 838; 270; 446; 1764; 988; 1362; 1206; 1621; 507; 680; 592; 503; 1181; 883; 289; 935;
  1729; 657; 1117; 1282; 745; 1734; 604; 1670; 819; 1511; 331; 1154; 1273; 1170; 1361; 254; 973; 289;
  819; 644; 1024; 1521; 1628; 1334; 780; 1425; 700; 990; 1841; 1974; 907; 596; 476; 1307; 1410; 604;
  695; 1563; 368; 553; 932; 1612; 1348; 1538; 1339; 1568; 1429; 1483; 1071; 984; 979; 1012; 1416; 1313;
  1037; 593; 1970; 1029; 1094; 1967; 628; 1089; 894; 1320; 1419; 1059; 789; 1372; 1369; 510; 459; 606;
  1730; 1098; 1057; 470; 477; 1545; 1619; 1622; 896; 544; 1123; 417; 1837; 1171; 505; 833; 408; 1016;
  1041; 1309; 276; 736; 930; 1135; 1528; 847; 1867; 1700; 1296; 1284; 1202; 1498; 1437; 609; 1257; 946;
  1183; 1447; 1118; 920; 755; 881; 909; 1247; 661; 1229; 1137; 332; 1753; 1979; 773; 1242; 1459; 512;
  791; 1049; 764; 1097; 1136; 1454; 1237; 1030; 1747; 1981; 1366; 559; 552; 455; 1315; 1377; 671; 453;
  508; 1562; 417; 759; 1245; 1375; 1144; 1499; 303; 1025; 324; 739; 671; 982; 832; 1617; 1472; 1103;
  1940; 1182; 843; 1046; 656; 1035; 431; 1754; 927; 1376; 836; 1290; 503; 738; 1125; 1129; 1346; 1707;
  1310; 1542; 1430; 587; 1195; 1000; 508; 924; 1054; 741; 1682; 324; 1143; 1027; 1104; 1044; 992; 768;
  455; 1589; 819; 1225; 1600; 986; 1420; 1749; 1719; 1066; 1544; 1411; 1515; 623; 960; 1153; 1090; 889;
  1200; 1380; 1241; 806; 1758; 616; 1335; 513; 981; 1596; 1674; 1382; 505; 1064; 960; 1350; 1943; 908;
  1671; 477; 1413; 1126; 817; 1220; 673; 1297; 1354; 1173; 1679; 1813; 1293; 1007; 676; 471; 882; 959;
  1627; 1453; 1179; 664; 987; 1969; 1344; 1015; 1853; 1142; 1100; 1463; 832; 1149; 836; 919; 1739; 852;
  1111; 1001; 563; 1417; 1715; 858; 455; 1115; 1068; 945; 875; 919; 493; 1291; 1689; 1919; 982; 1345;
  1249; 1368; 516; 1043; 1844; 1688; 834; 1394; 1177; 938; 1385; 1947; 1745; 792; 1660; 1203; 1034; 1495;
  952; 1905; 857; 649; 1075; 882; 1175; 1228; 1003; 1060; 720; 665; 1240; 987; 508; 1292; 1120; 925;
  1058; 1774; 1121; 482; 1469; 648; 1204; 413; 1096; 302; 704; 1008; 1517; 1110; 1992; 865; 815; 1577;
  227; 1799; 648; 1178; 1357; 286; 1795; 776; 1974; 654; 1363; 1239; 1555; 338; 1467; 274; 740; 929;
  1180; 226; 1327; 1055; 1595; 1077; 1091; 1775; 680; 1030; 247; 1817; 1706; 475; 797; 799; 1588; 1052;
  531; 1985; 1399; 1061; 878; 1272; 522; 1024; 1299; 1899; 1214; 1069; 302; 893; 720; 387; 295; 1108;
  225; 1450; 1759; 1390; 1095; 330; 1362; 1254; 726; 982; 235; 1131; 238; 1869; 754; 445; 987; 951;
  1006; 1156; 1223; 1259; 855; 1300; 1877; 539; 1196; 397; 338; 1265; 1341; 1278; 271; 343; 681; 978;
  1393; 268; 1669; 1718; 1531; 753; 330; 1067; 1815; 313; 1004; 705; 1222; 1433; 1790; 1244; 582; 1765;
  1106; 1559; 1172; 552; 838; 270; 446; 1764; 988; 1362; 1206; 1621; 507; 680; 592; 503; 1181; 883;
  289; 935; 1729; 657; 1117; 1282; 745; 1734; 604; 1670; 819; 1511; 331; 1154; 1273; 1170; 1361; 254;
  973; 289; 819; 644; 1024; 1521; 1628; 1334; 780; 1425; 700; 990; 1841; 1974; 907; 596; 476; 1307;
  1410; 604; 695; 1563; 368; 553; 932; 1612; 1348; 1538; 1339; 1568; 1429; 1483; 1071; 984; 979; 1012;
  1416; 1313; 1037; 593; 1970; 1029; 1094; 1967; 628; 1089; 894; 1320; 1419; 1059; 789; 1372; 1369; 510;
  459; 606; 1730; 1098; 1057; 470; 477; 1545; 1619; 1622; 896; 544; 1123; 417; 1837; 1171; 505; 833;
  408; 1016; 1041; 1309; 276; 736; 930; 1135; 1528; 847; 1867; 1700; 1296; 1284; 1202; 1498; 1437; 609;
  1257; 946; 1183; 1447; 1118; 920; 755; 881; 909; 1247; 661; 1229; 1137; 332; 1753; 1979; 773; 1242;
  1459; 512; 791; 1049; 764; 1097; 1136; 1454; 1237; 1030; 1747; 1981; 1366; 559; 552; 455; 1315; 1377;
  671; 453; 508; 1562; 417; 759; 1245; 1375; 1144; 1499; 303; 1025; 324; 739; 671; 982; 832; 1617;
  1472; 1103; 1940; 1182; 843; 1046; 656; 1035; 431; 1754; 927; 1376; 836; 1290; 503; 738; 1125; 1129;
  1346; 1707; 1310; 1542; 1430; 587; 1195; 1000; 508; 924; 1054; 741; 1682; 324; 1143; 1027; 1104; 1044;
  992; 768; 455; 1589; 819; 1225; 1600; 986; 1420; 1749; 1719; 1066; 1544; 1411; 1515; 623; 960; 1153;
  1090; 889; 1200; 1380; 1241; 806; 1758; 616; 1335; 513; 981; 1596; 1674; 1382; 505; 1064; 960; 1350;
  1943; 908; 1671; 477; 1413; 1126; 817; 1220; 673; 1297; 1354; 1173; 1679; 1813; 1293; 1007; 676; 471;
  882; 959; 1627; 1453; 1179; 664; 987; 1969; 1344; 1015; 1853; 1142; 1100; 1463; 832; 1149; 836; 919;
  1739; 852; 1111; 1001; 563; 1417; 1715; 858; 455; 1115; 1068; 945; 875; 919; 493; 1291; 1689; 1919;
  982; 1345; 1249; 1368; 516; 1043; 1844; 1688; 834; 1394; 1177; 938; 1385; 1947; 1745; 792; 1660; 1203;
  1034; 1495; 952; 1905; 857; 649; 1075; 882; 1175; 1228; 1003; 1060; 720; 665; 1240; 987; 508; 1292;
  1120; 925; 1058; 1774; 1121; 482; 1469; 648; 1204; 413; 1096; 302; 704; 1008; 1517; 1110; 1992; 865;
  815; 1577; 227; 1799; 648; 1178; 1357; 286; 1795; 776; 1974; 654; 1363; 1239; 1555; 338; 1467; 274;
  740; 929; 1180; 226; 1327; 1055; 1595; 1077; 1091; 1775; 680; 1030; 247; 1817; 1706; 475; 797; 799;
  1588; 1052; 531; 1985; 1399; 1061; 878; 1272; 522; 1024; 1299; 1899; 1214; 1069; 302; 893; 720; 387;
  295; 1108; 225; 1450; 1759; 1390; 1095; 330; 1362; 1254; 726; 982; 235; 1131; 238; 1869; 754; 445;
  987; 951; 1006; 1156; 1223; 1259; 855; 1300; 1877; 539; 1196; 397; 338; 1265; 1341; 1278; 271; 343;
  681; 978; 1393; 268; 1669; 1718; 1531; 753; 330; 1067; 1815; 313; 1004; 705; 1222; 1433; 1790; 1244;
  582; 1765; 1106; 1559; 1172; 552; 838; 270; 446; 1764; 988; 1362; 1206; 1621; 507; 680; 592; 503;
  1181; 883; 289; 935; 1729; 657; 1117; 1282; 745; 1734; 604; 1670; 819; 1511; 331; 1154; 1273; 1170;
  1361; 254; 973; 289; 819; 644; 1024; 1521; 1628; 1334; 780; 1425; 700; 990; 1841; 1974; 907; 596;
  476; 1307; 1410; 604; 695; 1563; 368; 553; 932; 1612; 1348; 1538; 1339; 1568; 1429; 1483; 1071; 984;
  979; 1012; 1416; 1313; 1037; 593; 1970; 1029; 1094; 1967; 628; 1089; 894; 1320; 1419; 1059; 789; 1372;
  1369; 510; 459; 606; 1730; 1098; 1057; 470; 477; 1545; 1619; 1622; 896; 544; 1123; 417; 1837; 1171;
  505; 833; 408; 1016; 1041; 1309; 276; 736; 930; 1135; 1528; 847; 1867; 1700; 1296; 1284; 1202; 1498;
  1437; 609; 1257; 946; 1183; 1447; 1118; 920; 755; 881; 909; 1247; 661; 1229; 1137; 332; 1753; 1979;
  773; 1242; 1459; 512; 791; 1049; 764; 1097; 1136; 1454; 1237; 1030; 1747; 1981; 1366; 559; 552; 455;
  1315; 1377; 671; 453; 508; 1562; 417; 759; 1245; 1375; 1144; 1499; 303; 1025; 324; 739; 671; 982;
  832; 1617; 1472; 1103; 1940; 1182; 843; 1046; 656; 1035; 431; 1754; 927; 1376; 836; 1290; 503; 738;
  1125; 1129; 1346; 1707; 1310; 1542; 1430; 587; 1195; 1000; 508; 924; 1054; 741; 1682; 324; 1143; 1027;
  1104; 1044; 992; 768; 455; 1589; 819; 1225; 1600; 986; 1420; 1749; 1719; 1066; 1544; 1411; 1515; 623;
  960; 1153; 1090; 889; 1200; 1380; 1241; 806; 1758; 616; 1335; 513; 981; 1596; 1674; 1382; 505; 1064;
  960; 1350; 1943; 908; 1671; 477; 1413; 1126; 817; 1220; 673; 1297; 1354; 1173; 1679; 1813; 1293; 1007;
  676; 471; 882; 959; 1627; 1453; 1179; 664; 987; 1969; 1344; 1015; 1853; 1142; 1100; 1463; 832; 1149;
  836; 919; 1739; 852; 1111; 1001; 563; 1417; 1715; 858; 455; 1115; 1068; 945; 875; 919; 493; 1291;
  1689; 1919; 982; 1345; 1249; 1368; 516; 1043; 1844; 1688; 834; 1394; 1177; 938; 1385; 1947; 1745; 792;
  1660; 1203; 1034; 1495; 952; 1905; 857; 649; 1075; 882; 1175; 1228; 1003; 1060; 720; 665; 1240; 987;
  508; 1292; 1120; 925; 1058; 1774; 1121; 482; 1469; 648; 1204; 413; 1096; 302; 704; 1008; 1517; 1110;
  1992; 865; 815; 1577; 227; 1799
] ++ replicate 572 0.

(** [for (i = 0; i < NUM_OPERATIONS; i++) assert(slab_free(slab_alloc(sizes[i])) == 0);] *)
Definition run_test1 (sizes : list Z) : M sstate unit :=
  for_up (Z.to_nat NUM_OPERATIONS) 0 (λ i,
    size ← load (λ _, sizes !! Z.to_nat i);
    addr ← slab_alloc size;
    r ← slab_free addr;
    assert (r =? 0)).

(** ** One block out and back *)
Section rounds.
Implicit Types (st : sstate) (U : gmap Z Z) (G : gmap_slabs).

(** Without a block in a client's hands and without slabs kept in advance there is no slab. *)
Lemma lean_empty st U G : slab_ok st U G → lean G → (∀ a k, ¬ live G a k) → G = ∅.
Proof.
  intros (cur & P & HC & _) Hl Hno. apply map_empty. intros s. destruct (G !! s) as [[k fl]|] eqn:Hs; [|done]. exfalso.
  destruct (sc_slab _ _ _ _ _ _ HC _ _ _ Hs) as (Hk & _ & _). specialize (Hl _ _ _ Hs). unfold in_use in Hl.
  assert (all_blocks s k ⊆+ fl) as Hsub.
  { apply NoDup_submseteq; [by apply all_blocks_NoDup|]. intros b Hb. destruct (decide (b ∈ fl)) as [|Hn]; [done|].
    exfalso. apply (Hno b k). exists s, fl. split; [done|]. split; [by apply elem_of_all_blocks|done]. }
  apply submseteq_length in Hsub. pose proof (all_blocks_length s k Hk). lia.
Qed.

Lemma no_slabs_pages b U b' U' : (∀ c o, page_block b' U' ∅ c o ↔ page_block b U ∅ c o) → U' = U.
Proof.
  intros H. apply map_eq. intros c. unfold page_block in H. setoid_rewrite lookup_empty in H.
  apply option_eq. intros o. specialize (H c o). naive_solver.
Qed.

(** The heap has no slab, and only the page blocks [U]. *)
Definition no_slabs (b0 : bstate) (U : gmap Z Z) st : Prop := slab_ok st U ∅ ∧ geo b0 (bud st).

Lemma lean_none : lean ∅.
Proof. intros s k fl. by rewrite lookup_empty. Qed.

Lemma took_first st U k a st' U' G' : slab_ok st U ∅ → slab_order k → slab_took st U ∅ k a st' U' G' → lean G'.
Proof.
  intros (cur & P & HC & _) Hk Ht. apply (st_lean _ _ _ _ _ _ _ _ Ht (cur k)); [exact (sc_cont _ _ _ _ _ _ HC k Hk)|apply lean_none|].
  intros k' fl. by rewrite lookup_empty.
Qed.

(** A first block taken and given back leaves no slab behind. *)
Lemma gave_back st U k a st1 U1 G1 st2 U2 G2 : slab_ok st U ∅ → slab_order k →
  slab_took st U ∅ k a st1 U1 G1 → slab_gave st1 U1 G1 k a st2 U2 G2 → slab_ok st2 U ∅ ∧ geo (bud st) (bud st2).
Proof.
  intros Hok Hk Ht Hg. pose proof (took_first _ _ _ _ _ _ _ Hok Hk Ht) as Hlean. apply (sg_lean _ _ _ _ _ _ _ _ Hg) in Hlean.
  destruct Ht as [_ Hgeo1 Hpg1 Hlive1 _ _]. destruct Hg as [Hok2 Hgeo2 Hpg2 Hlive2 _ _].
  assert (G2 = ∅) as ->.
  { eapply lean_empty; [exact Hok2|done|]. intros b k'. rewrite Hlive2, Hlive1. intros [[(s & fl & Hs & _)|?] ?]; [by rewrite lookup_empty in Hs|done]. }
  assert (U2 = U) as -> by (eapply no_slabs_pages; intros c o; etrans; [apply Hpg2|apply Hpg1]).
  split; [done|by etrans].
Qed.

Lemma wp_slab_round st U size (Q : Z → sstate → Prop) :
  slab_ok st U ∅ → 0 < size ≤ 2 ^ 11 → (∃ c, block_avail (bud st) U c 5) →
  (∀ st', slab_ok st' U ∅ → geo (bud st) (bud st') → Q 0 st') →
  wp (addr ← slab_alloc size; slab_free addr) st Q.
Proof.
  intros Hok Hsz [c Hav] HQ. destruct (size_to_slab_order_ok size Hsz) as (Hk & _). apply wp_bind, (wp_slab_alloc st U ∅ size _ Hok Hsz).
  - intros _ Hno. by destruct (Hno c).
  - intros b st1 U1 G1 Ht. pose proof (took_live _ _ _ _ _ _ _ _ Ht) as Hl.
    eapply wp_slab_free; [exact (st_ok _ _ _ _ _ _ _ _ Ht)|exact Hl|]. intros st2 U2 G2 Hg.
    destruct (gave_back _ _ _ _ _ _ _ _ _ _ Hok Hk Ht Hg). by apply HQ.
Qed.

Lemma wp_kmalloc_round st U i (Q : unit → sstate → Prop) :
  slab_ok st U ∅ → 1 ≤ i < 23 → (∀ st', slab_ok st' U ∅ → geo (bud st) (bud st') → Q tt st') → wp (kmalloc_round i) st Q.
Proof.
  intros Hok Hi HQ. unfold kmalloc_round. rewrite Z.shiftl_1_l. pose proof (pow2_le 1 i ltac:(lia)). pose proof (pow2_le i 22 ltac:(lia)).
  rewrite u64_small by lia. set (size := 2 ^ i - 1) in *. assert (0 < size ≤ 2 ^ 22) as Hsz by lia. clearbody size.
  unfold kmalloc_real, MAX_SLAB_BLOCK_ORDER, BUDDY_MAX_ORDER. rewrite order_to_size, chunk_size_pow2 by lia. apply wp_bind. case_cmp as Hle.
  - destruct (size_to_slab_order_ok size ltac:(lia)) as (Hk & _). apply wp_bind, (wp_slab_alloc st U ∅ size _ Hok ltac:(lia)).
    + intros _ _. apply wp_ret. simpl. eapply wp_ok; [by eapply kfree_invalid|]. by apply HQ.
    + intros b st1 U1 G1 Ht. apply wp_ret. simpl. eapply wp_kfree_block; [exact (st_ok _ _ _ _ _ _ _ _ Ht)|by eapply took_live|].
      intros st2 U2 G2 Hg. destruct (gave_back _ _ _ _ _ _ _ _ _ _ Hok Hk Ht Hg). by apply HQ.
  - change (12 + (11 - 1)) with 22. rewrite (proj2 (Z.leb_le _ _)) by lia.
    destruct (size_to_page_order_spec size) as [[_ Hbad]|(Ho & _)]; [rewrite chunk_size_pow2 in Hbad by lia; change (12 + 10) with 22 in Hbad; lia|].
    pose proof (slab_ok_buddy _ _ _ Hok) as HB. apply wp_bind, wp_zoom. eapply wp_get_pages; [exact HB|done|..].
    + intros _. apply wp_ret. simpl. replace (set_bud (bud st) st) with st by by destruct st. eapply wp_ok; [by eapply kfree_invalid|]. by apply HQ.
    + intros c b Hav Hf Hok1. apply wp_ret. simpl. destruct (page_get _ _ _ _ _ _ Hok Hav ltac:(lia) Hf Hok1) as [Hok2 Hpg].
      rewrite <- (geo_addr _ _ c (frame_geo _ _ Hf)). eapply (wp_kfree_pages (set_bud b st)); [exact Hok2|apply Hpg; by right|].
      intros b' Hf' Hok'. destruct (page_drop _ _ _ _ _ _ Hok2 (proj2 (Hpg c _) (or_intror (conj eq_refl eq_refl))) Hf' Hok') as [Hok3 _].
      rewrite delete_insert_id in Hok3; [apply HQ; [exact Hok3|]|].
      * etrans; [by apply frame_geo|]. by apply (frame_geo b).
      * eapply avail_unused; [exact Hav|lia|]. intros d k Hd. destruct (used_block _ _ _ _ HB Hd) as (_ & ? & _). lia.
Qed.

Lemma wp_kmalloc_rounds b0 U loop st : no_slabs b0 U st → wp (kmalloc_rounds loop) st (λ _ st', no_slabs b0 U st').
Proof.
  revert st. induction loop as [|loop IH]; intros st Hst; cbn [kmalloc_rounds]; [by apply wp_ret|].
  apply wp_bind. apply (wp_for_up (λ _ st, no_slabs b0 U st)); [done| |exact IH].
  intros j s' Hj [Hok Hg]. eapply wp_kmalloc_round; [exact Hok|lia|]. intros st' Hok' Hg'. split; [done|by etrans].
Qed.

Lemma wp_run_test1 b0 U l st : Forall (λ n, 0 < n ≤ 2 ^ 11) (take 1000 l) → NUM_OPERATIONS ≤ Z.of_nat (length l) → (∃ c, block_avail b0 U c 5) →
  no_slabs b0 U st → wp (run_test1 l) st (λ _ st', no_slabs b0 U st').
Proof.
  intros Hl Hlen [c Hav] Hst. unfold run_test1, NUM_OPERATIONS in *. apply (wp_for_up (λ _ st, no_slabs b0 U st)); [done| |done].
  intros j s' Hj [Hok Hg]. destruct (lookup_lt_is_Some_2 l (Z.to_nat j)) as [n Hn]; [lia|]. rewrite Forall_lookup in Hl.
  apply wp_bind. eapply wp_load; [exact Hn|]. apply wp_bind_assoc. eapply wp_slab_round; [exact Hok|apply (Hl (Z.to_nat j)); by rewrite lookup_take_lt by lia| |].
  - exists c. destruct Hav as [H1 H2 H3 H4]. split; [done|by rewrite (ge_num _ _ Hg)| |done]. unfold base_vpn in *. by rewrite (ge_start _ _ Hg).
  - intros st' Hok' Hg'. split; [done|by etrans].
Qed.

Lemma wp_free_size b0 U st (Q : Z → sstate → Prop) :
  no_slabs b0 U st → Q (size b0 - used_pages U * 2 ^ 12) st → wp (on_bud get_free_mem_size_from_buddy) st Q.
Proof.
  intros [Hok Hg] HQ. apply wp_zoom. eapply wp_mono; [|eapply wp_get_free_mem_size; by eapply slab_ok_buddy]. intros n b [-> ->].
  rewrite (ge_size _ _ Hg). by destruct st.
Qed.

Lemma wp_kmalloc_test b0 U st : no_slabs b0 U st → wp kmalloc_test st (λ _ st', no_slabs b0 U st').
Proof.
  intros Hst. unfold kmalloc_test. apply wp_bind. eapply wp_free_size; [exact Hst|]. apply wp_bind.
  eapply wp_mono; [|by apply wp_kmalloc_rounds]. intros [] st2 H2. apply wp_bind. eapply wp_free_size; [exact H2|].
  rewrite Z.eqb_refl. by apply wp_ret.
Qed.
End rounds.

(** ** After boot *)
Lemma enough_for_a_slab s : region_ok s → 32 ≤ page_num s → block_avail s ∅ (page_num s - 32) 5.
Proof.
  intros HG Hn. split; [lia|lia| |intros d k Hd; by rewrite lookup_empty in Hd].
  pose proof (start_vpn HG) as Hst. destruct HG. apply Z.mod_divide in rg_end as [q Hq]; [|lia]. rewrite rg_size in Hq.
  replace (base_vpn s + (page_num s - 32)) with ((q * 32 - 1) * 2 ^ 5) by lia. apply Z.mod_mul. lia.
Qed.

Lemma wp_mm_init_allocators e mr pa (Q : unit → sstate → Prop) :
  0 < e → e + 2 ^ 23 ≤ PHYS_MEM_END → 0 < mr → mr + 304 ≤ phys_to_virt e → 0 < pa → pa + 256 ≤ phys_to_virt e →
  (∀ st, slab_ok st ∅ ∅ → init_layout e (bud st) → fresh (bud st) → block_avail (bud st) ∅ (page_num (bud st) - 32) 5 → Q tt st) →
  wp (mm_init_allocators e) (bss_slab (bss_bstate mr) pa) Q.
Proof.
  intros He Hroom Hmr Hb Hpa Hpb HQ. destruct (booted_ok mr e He Hroom Hmr Hb) as (s & Hs & Hok & Hfr & Hlay).
  destruct (layout_ok e) as (Hps & _ & Hn0 & Hest & Hfs & Hfa & Hn); [unfold PHYS_MEM_END in *; lia|].
  assert (32 ≤ page_num s) as H32. { destruct Hlay as (_ & _ & _ & -> & _). unfold PHYS_MEM_END in *. lia. }
  pose proof (enough_for_a_slab s (buddy_ok_region _ _ Hok) H32) as Hav.
  assert (pa + 256 ≤ start_addr s) as Hlow.
  { destruct Hlay as (-> & _). unfold PHYS_MEM_END in *. rewrite !phys_to_virt_eq in * by lia. lia. }
  apply wp_bind, wp_zoom. eapply wp_ok; [exact Hs|]. change (set_bud s (bss_slab (bss_bstate mr) pa)) with (bss_slab s pa).
  eapply wp_mono; [|by apply (init_slab_ok s ∅ pa)]. intros [] st [Hst Eb]. apply HQ; by rewrite ?Eb.
Qed.

Lemma no_allocation st U : slab_ok st U ∅ → U = ∅ → heap_is st [].
Proof.
  intros Hok ->. exists ∅, ∅. split; [done|]. split; [constructor|]. intros a. split; [|set_solver].
  intros [n [(k & (s & fl & Hs & _) & _)|(c & o & [Hc _] & _)]]; [by rewrite lookup_empty in Hs|by rewrite lookup_empty in Hc].
Qed.

Lemma sizes_ok : Forall (λ n, 0 < n ≤ 2 ^ 11) (take 1000 sizes).
Proof.
  assert (forallb (λ n, (0 <? n) && (n <=? 2 ^ 11)) (take 1000 sizes) = true) as Hall by by vm_compute.
  rewrite forallb_forall in Hall. apply Forall_forall. intros n Hn. apply list_elem_of_In, Hall in Hn. lia.
Qed.

(** The run of [mm_init], and what is known of the memory it leaves. *)
Lemma mm_init_run e mr pa :
  0 < e → e + 2 ^ 23 ≤ PHYS_MEM_END → 0 < mr → mr + 304 ≤ phys_to_virt e → 0 < pa → pa + 256 ≤ phys_to_virt e →
  ∃ st st1 st2, mm_init_allocators e (bss_slab (bss_bstate mr) pa) = Ok (tt, st) ∧ slab_ok st ∅ ∅ ∧ init_layout e (bud st) ∧
    run_test1 sizes st = Ok (tt, st1) ∧ kmalloc_test st1 = Ok (tt, st2) ∧ no_slabs (bud st) ∅ st2.
Proof.
  intros He Hroom Hmr Hb Hpa Hpb.
  assert (wp (mm_init_allocators e) (bss_slab (bss_bstate mr) pa)
    (λ _ st, (slab_ok st ∅ ∅ ∧ init_layout e (bud st)) ∧ ∃ c, block_avail (bud st) ∅ c 5)) as Hw.
  { apply wp_mm_init_allocators; [done..|]. intros st Hok Hl _ Hav. split; [done|]. eauto. }
  destruct (proj1 (wp_inv _ _ _) Hw) as ([] & st & E & [Hok Hl] & Hav). exists st.
  assert (wp (run_test1 sizes) st (λ _ st', no_slabs (bud st) ∅ st')) as Hw1.
  { apply wp_run_test1; [apply sizes_ok|by vm_compute|done|by split]. }
  destruct (proj1 (wp_inv _ _ _) Hw1) as ([] & st1 & E1 & H1). exists st1.
  pose proof (wp_kmalloc_test (bud st) ∅ st1 H1) as Hw2. destruct (proj1 (wp_inv _ _ _) Hw2) as ([] & st2 & E2 & H2). exists st2. done.
Qed.

(** After boot the allocators are ready and pass their self tests: for
    every kernel image that leaves 8 MB of memory, [init_buddy] and [init_slab]
    return with an empty heap; [run_test1] on the table of sizes and then
    [kmalloc_test] run to their end without a failed assertion (so the buddy
    allocator has back exactly the memory it gave), and leave the heap empty
    again. *)
Theorem mm_init_self_tests e mr pa :
  0 < e → e + 2 ^ 23 ≤ PHYS_MEM_END → 0 < mr → mr + 304 ≤ phys_to_virt e → 0 < pa → pa + 256 ≤ phys_to_virt e →
  ∃ st st1 st2, mm_init_allocators e (bss_slab (bss_bstate mr) pa) = Ok (tt, st) ∧ heap_is st [] ∧
    run_test1 sizes st = Ok (tt, st1) ∧ kmalloc_test st1 = Ok (tt, st2) ∧ heap_is st2 [].
Proof.
  intros He Hroom Hmr Hb Hpa Hpb. destruct (mm_init_run e mr pa) as (st & st1 & st2 & E & Hok & _ & E1 & E2 & [H2 _]); [done..|].
  exists st, st1, st2. split_and!; [done|by eapply no_allocation|done|done|by eapply no_allocation].
Qed.

Lemma mm_init_self_tests_witness :
  ∃ st st1 st2, mm_init_allocators demo_end (bss_slab (bss_bstate demo_mr) demo_pool) = Ok (tt, st) ∧ heap_is st [] ∧
    run_test1 sizes st = Ok (tt, st1) ∧ kmalloc_test st1 = Ok (tt, st2) ∧ heap_is st2 [].
Proof.
  apply (mm_init_self_tests demo_end demo_mr demo_pool); unfold demo_end, demo_mr, demo_pool;
    [lia|vm_compute; congruence|vm_compute; congruence|vm_compute; congruence|vm_compute; congruence|vm_compute; congruence].
Defined.
