(* ===== verification/FreeLists.v ===== *)
(** * The order of the free lists

    Which chunk an allocation gets depends on the order of the chunks on the
    free lists, which [buddy_ok] leaves open.  This file shows that the order
    is restored when memory is given back: if at most 31 blocks of 32 pages are
    taken from an empty allocator and all of them are given back, in any order,
    then every free list is the list it was ([lists_restored]).  The lists of
    the smaller orders have at most one chunk in an empty allocator; the list
    of the largest chunks loses at most its first element ([top_inv]), because
    31 blocks do not fill a chunk of 1024 pages. *)

From S2P Require Import Prelude Macro ListHead Buddy Chunks BuddyInv BuddyOps BuddySpec BuddyCount BuddyInit BuddyTheorems Pages.
From S2P Require Import Slab SlabInv SlabOps.

(** Equal on the orders that exist. *)
Definition same_fl (L L' : Z → list Z) : Prop := ∀ o, 0 ≤ o ≤ 10 → L o = L' o.

#[global] Instance same_fl_equiv : Equivalence same_fl.
Proof. split; [by intros L o|by intros L L' H o Ho; rewrite H|]. intros L1 L2 L3 H1 H2 o Ho. by rewrite H1, H2. Qed.

Lemma lists_same_fl b L L' : lists b L → lists b L' → same_fl L L'.
Proof. intros H H' o Ho. by eapply lists_unique. Qed.

(** The chunk taken and the lists left are determined by the lists. *)
Lemma takes_unique L M o c d L' M' : same_fl L M → 0 ≤ o → takes L o c L' → takes M o d M' → c = d ∧ same_fl L' M'.
Proof.
  intros HLM Ho (k & [Hk Hc Hn Hh Hr] & He) (k' & [Hk' Hc' Hn' Hh' Hr'] & He').
  assert (∀ j, o ≤ j < k → L j = []) as Hnil.
  { intros j Hj. destruct (decide (j = o)) as [->|]; [apply He; lia|apply Hn; lia]. }
  assert (∀ j, o ≤ j < k' → M j = []) as Hnil'.
  { intros j Hj. destruct (decide (j = o)) as [->|]; [apply He'; lia|apply Hn'; lia]. }
  assert (k = k') as <-.
  { destruct (Z.lt_total k k') as [Hlt|[?|Hlt]]; [|done|]; exfalso.
    - specialize (Hnil' k ltac:(lia)). rewrite <- HLM, Hc in Hnil' by lia. done.
    - specialize (Hnil k' ltac:(lia)). rewrite HLM, Hc' in Hnil by lia. done. }
  rewrite HLM, Hc' in Hc by lia. injection Hc as -> Ek. split; [done|]. intros j Hj.
  destruct (decide (j = k)) as [->|Hjk]; [done|]. destruct (decide (o ≤ j < k)) as [Hin|Hout].
  - rewrite Hh, Hh', HLM by lia. done.
  - rewrite Hr, Hr', HLM by lia. done.
Qed.

Lemma takes_proper L M o c L' : same_fl L M → 0 ≤ o → takes L o c L' → takes M o c L'.
Proof.
  intros HLM Ho (k & [H1 H2 H3 H4 H5] & He). exists k. split; [|intros Hk; rewrite <- HLM by lia; auto].
  split; [done|..]; intros; rewrite <- HLM by lia; auto.
Qed.

(** ** Blocks of 32 pages *)
Definition only_slabs (U : gmap Z Z) : Prop := ∀ c o, U !! c = Some o → o = 5.

(** A naturally aligned block of 1024 pages of the region. *)
Record top_block (b : bstate) (x : Z) : Prop := {
  tb_low : 0 ≤ x;
  tb_high : x + 2 ^ 10 ≤ page_num b;
  tb_align : (base_vpn b + x) mod 2 ^ 10 = 0
}.

(** Fewer than 32 slabs leave room for another one in it. *)
Lemma room_in_top b U x : buddy_ok b U → only_slabs U → (base.size U < 32)%nat → top_block b x →
  ∃ c, x ≤ c ∧ c + 2 ^ 5 ≤ x + 2 ^ 10 ∧ block_avail b U c 5.
Proof.
  intros Hok H5 Hsz [Hx0 Hxn Hxa]. set (cs := (λ i, x + i * 32) <$> seqZ 0 32).
  assert (∃ i, 0 ≤ i < 32 ∧ U !! (x + i * 32) = None) as (i & Hi & Hu).
  { destruct (decide (Exists (λ c, U !! c = None) cs)) as [He|Hne].
    - apply Exists_exists in He as (c & (i & -> & Hi%elem_of_seqZ)%list_elem_of_fmap & Hc). exists i. split; [lia|done].
    - exfalso. assert (list_to_set cs ⊆ dom U) as Hsub.
      { intros c Hc%elem_of_list_to_set. apply elem_of_dom. destruct (U !! c) eqn:E; [done|]. exfalso. apply Hne, Exists_exists. eauto. }
      apply subseteq_size in Hsub. rewrite size_dom, size_list_to_set in Hsub; [|apply NoDup_fmap_2_strong; [intros; lia|apply NoDup_seqZ]].
      subst cs. rewrite length_fmap, length_seqZ in Hsub. lia. }
  assert ((base_vpn b + (x + i * 32)) mod 2 ^ 5 = 0) as Hal.
  { rewrite Z.add_assoc. change 32 with (2 ^ 5). rewrite Z.mod_add by lia. by apply (aligned_weaken _ 5 10). }
  exists (x + i * 32). split; [lia|]. split; [lia|]. split; [lia|lia|done|].
  intros d k Hd. pose proof (H5 _ _ Hd) as ->. destruct (used_block _ _ _ _ Hok Hd) as (_ & _ & _ & Hda).
  assert (d ≠ x + i * 32) by (intros ->; congruence).
  apply Z.mod_divide in Hal as [q Hq]; [|lia]. apply Z.mod_divide in Hda as [r Hr]; [|lia]. lia.
Qed.

(** An empty allocator: region, lists. *)
Section restoring.
Context (b0 : bstate) (L0 : Z → list Z) (Hok0 : buddy_ok b0 ∅) (HL0 : lists b0 L0).

Lemma geo_base b : geo b0 b → base_vpn b = base_vpn b0.
Proof. intros Hg. unfold base_vpn. by rewrite (ge_start _ _ Hg). Qed.

Lemma geo_top b x : geo b0 b → top_block b x ↔ top_block b0 x.
Proof. intros Hg. pose proof (geo_base b Hg) as Hb. pose proof (ge_num _ _ Hg) as Hn. by split; intros []; split; rewrite ?Hb, ?Hn in *. Qed.

(** The free chunks of the largest order are aligned blocks; in an empty allocator all of them. *)
Lemma free_top b U L x : buddy_ok b U → lists b L → x ∈ L 10 → top_block b x.
Proof.
  intros (C & M & HR & _) HL Hx. rewrite (lists_unique b L M) in Hx by (done || lia || by eapply rep_lists).
  apply (rp_mem _ _ _ HR) in Hx; [|lia]. destruct (chunk_frames HR _ _ _ Hx) as (? & _ & ? & _).
  split; [done|done|]. by apply (ck_align _ _ _ (rp_cmap _ _ _ HR) _ _ _ Hx).
Qed.

Lemma top_free x : top_block b0 x → x ∈ L0 10.
Proof.
  intros [Hl Hh Ha]. destruct Hok0 as (C & M & HR & Hh0 & Hco & _ & HU). rewrite (lists_unique b0 L0 M) by (done || lia || by eapply rep_lists).
  destruct (free_block_covered _ _ C 10 x (rp_cmap _ _ _ HR) Hco Hh0) as (c & o & Hc & Ho & Hr); [lia|done|done|done| |].
  { intros d k Hd. apply HU in Hd. by rewrite lookup_empty in Hd. }
  destruct (chunk_frames HR _ _ _ Hc) as (_ & Ho10 & _). assert (o = 10) as -> by lia. assert (c = x) as <- by lia. by apply (rp_mem _ _ _ HR); [lia|].
Qed.

Lemma lists_NoDup b U L o : buddy_ok b U → lists b L → 0 ≤ o ≤ 10 → NoDup (L o).
Proof. intros (C & M & HR & _) HL Ho. rewrite (lists_unique b L M) by (done || by eapply rep_lists). by eapply free_list_NoDup. Qed.

(** The list of the largest chunks has lost at most its first element. *)
Definition top_inv (b : bstate) : Prop := ∃ L pre, lists b L ∧ L0 10 = pre ++ L 10 ∧ (length pre ≤ 1)%nat.

Lemma top_inv_init : top_inv b0.
Proof. exists L0, []. split; [done|]. split; [done|simpl; lia]. Qed.

Lemma top_took b b' U c : geo b0 b → buddy_ok b U → only_slabs U → (base.size U < 32)%nat →
  top_inv b → took_lists b b' 5 c → top_inv b'.
Proof.
  intros Hg Hok H5 Hsz (L & pre & HL & E & Hpre) (M & M' & HM & (k & Hs & He) & HM').
  pose proof (lists_same_fl _ _ _ HM HL) as HML. destruct Hs as [Hk Hc Hn Hh Hr]. destruct (decide (k = 10)) as [->|Hk10].
  2: { exists M', pre. rewrite Hr, HML by lia. done. }
  exists M', (pre ++ [c]). split; [done|]. rewrite <- app_assoc. simpl. rewrite <- Hc, HML by lia. split; [done|].
  destruct pre as [|x pre]; [simpl; lia|]. exfalso. destruct pre; [|simpl in Hpre; lia].
  assert (x ∈ L0 10) as Hx by (rewrite E; set_solver). pose proof (free_top _ _ _ _ Hok0 HL0 Hx) as Hxt.
  apply (geo_top b x Hg) in Hxt. destruct (room_in_top b U x Hok H5 Hsz Hxt) as (d & Hd1 & Hd2 & Hav).
  destruct Hok as (C & N & HR & Hh0 & Hco & _ & HU). destruct Hav as [Hl Hhi Hal Hap].
  destruct (free_block_covered _ _ C 5 d (rp_cmap _ _ _ HR) Hco Hh0) as (e & o & Hef & Ho & Her); [lia|done|done|done| |].
  { intros d' k' Hd'. apply HU in Hd'. auto. }
  destruct (chunk_frames HR _ _ _ Hef) as (_ & Ho10 & _). pose proof (lists_same_fl _ _ _ HM (rep_lists _ _ _ HR)) as HMN.
  assert (e ∈ M o) as Hin by (rewrite HMN by lia; apply (rp_mem _ _ _ HR); [lia|done]).
  destruct (decide (o = 10)) as [->|Ho']; [|destruct (decide (o = 5)) as [->|]; [rewrite He in Hin by lia|rewrite Hn in Hin by lia]; set_solver].
  assert (e = x) as ->.
  { pose proof (ck_align _ _ _ (rp_cmap _ _ _ HR) _ _ _ Hef) as Hea. destruct Hxt as [_ _ Hxa].
    apply Z.mod_divide in Hea as [q Hq]; [|lia]. apply Z.mod_divide in Hxa as [r Hr']; [|lia]. lia. }
  rewrite HML in Hin by lia. pose proof (lists_NoDup _ _ _ 10 Hok0 HL0 ltac:(lia)) as Hnd. rewrite E in Hnd. apply NoDup_cons in Hnd as [Hnd _]. done.
Qed.

Lemma top_gave b b' U' : geo b0 b' → buddy_ok b' U' → top_inv b → gave_lists b b' → top_inv b'.
Proof.
  intros Hg Hok' (L & pre & HL & E & Hpre) (M & M' & HM & HM' & Ht).
  pose proof (lists_same_fl _ _ _ HM HL 10 ltac:(lia)) as HML. rewrite HML in Ht. exists M'. destruct Ht as [Et|[c Et]].
  { exists pre. rewrite Et. done. }
  assert (c ∈ L0 10) as Hc by (apply top_free, (geo_top b' c Hg), (free_top b' U' M' c Hok' HM'); rewrite Et; set_solver).
  pose proof (lists_NoDup _ _ _ 10 Hok' HM' ltac:(lia)) as Hnd. rewrite Et in Hnd. apply NoDup_cons in Hnd as [Hnd _].
  rewrite E in Hc. destruct pre as [|x [|y pre]]; [set_solver| |simpl in Hpre; lia].
  assert (c = x) as -> by set_solver. exists []. rewrite E, Et. split; [done|]. split; [done|simpl; lia].
Qed.

(** An empty allocator has at most one free chunk of each smaller order: the
    one that begins at the start of the region. *)
Lemma small_chunk_unique C L j c d : rep b0 C L → held_only (λ _, False) C → coalesced (base_vpn b0) C → (∀ c o, C !! c ≠ Some (o, CUsed)) →
  0 ≤ j < 10 → C !! c = Some (j, CFree) → C !! d = Some (j, CFree) → c = d.
Proof.
  intros HR Hh Hco Hnu Hj. pose proof (rp_cmap _ _ _ HR) as HC. pose proof (rp_region _ _ _ HR) as HG.
  pose proof (pow2_gt0 j ltac:(lia)) as Hpos. pose proof (pow2_succ j ltac:(lia)) as Hsucc.
  assert (∀ c, C !! c = Some (j, CFree) → (base_vpn b0 + c) mod 2 ^ j = 0 ∧ 0 ≤ c < 2 ^ j) as Hlow.
  { clear c d. intros c Hc. pose proof (ck_align _ _ _ HC _ _ _ Hc) as Hal. split; [done|].
    destruct (chunk_frames HR _ _ _ Hc) as (Hc0 & _ & Hcn & _). split; [done|]. destruct (Z_lt_dec c (2 ^ j)) as [|Hge]; [done|]. exfalso.
    set (e := buddy_of (base_vpn b0) c j). assert (0 ≤ e ∧ e + 2 ^ j ≤ page_num b0) as [He0 Hen].
    { subst e. unfold buddy_of. case_decide as Hd; [|lia]. pose proof (upper_buddy_inside HG c j Hc0 ltac:(lia) Hcn Hd). lia. }
    destruct (free_block_covered _ _ C j e HC Hco Hh) as (f & o & Hf & Ho & Hr); [lia|done|done|by apply buddy_of_aligned; [lia|]| |].
    { intros d k Hd. by apply Hnu in Hd. }
    destruct (decide (o = j)) as [->|Hne].
    { assert (f = e) as -> by lia. by apply (Hco c j ltac:(lia) Hc). }
    assert (c ≠ f). { intros ->. congruence. } destruct (ck_disj _ _ _ HC _ _ _ _ _ _ Hc Hf); [done|..].
    - pose proof (ck_align _ _ _ HC _ _ _ Hf) as Hfa. apply (aligned_weaken _ (j + 1)) in Hfa; [|destruct (chunk_frames HR _ _ _ Hf); lia].
      apply Z.mod_divide in Hfa as [q Hq]; [|lia]. unfold e, buddy_of in Hr, He0, Hen. case_decide as Hd; [|lia].
      apply Z.mod_divide in Hd as [r Hr']; [|lia]. rewrite Hsucc in *.
      assert (2 ^ j * (2 * (q - r) - 1) = 0) as [?|?]%Z.mul_eq_0 by lia; lia.
    - pose proof (ck_align _ _ _ HC _ _ _ Hf) as Hfa. destruct (chunk_frames HR _ _ _ Hf) as (_ & Ho10 & _).
      assert ((base_vpn b0 + (f + 2 ^ o)) mod 2 ^ (j + 1) = 0) as Hfb.
      { apply (aligned_weaken _ _ o); [lia|]. rewrite Z.add_assoc. rewrite <- (Z.mul_1_l (2 ^ o)) at 1. by rewrite Z.mod_add by lia. }
      apply Z.mod_divide in Hfb as [q Hq]; [|lia]. unfold e, buddy_of in Hr, He0, Hen. case_decide as Hd; [lia|].
      apply Z.mod_divide in Hal as [r Hr']; [|lia]. pose proof (parent_aligned (base_vpn b0 + c) j ltac:(lia)) as Hpa.
      assert ((base_vpn b0 + c) mod 2 ^ j = 0) as Hal' by (rewrite Hr'; apply Z.mod_mul; lia). specialize (Hpa Hal' Hd).
      apply Z.mod_divide in Hpa as [t Ht]; [|lia]. rewrite Hsucc in *.
      assert (2 ^ j * (2 * (q - t) - 1) = 0) as [?|?]%Z.mul_eq_0 by lia; lia. }
  intros Hc Hd. destruct (Hlow c Hc) as [Hca Hcr], (Hlow d Hd) as [Hda Hdr].
  apply Z.mod_divide in Hca as [q Hq]; [|lia]. apply Z.mod_divide in Hda as [r Hr]; [|lia].
  assert (c - d = 2 ^ j * (q - r)) as Hcd by lia. assert (q - r = 0) as E0 by nia. rewrite E0 in Hcd. lia.
Qed.

Lemma short_list_eq (l l' : list Z) : NoDup l → NoDup l' → (∀ x, x ∈ l ↔ x ∈ l') → (∀ x y, x ∈ l → y ∈ l → x = y) → l = l'.
Proof.
  intros Hn Hn' Hx Hs. assert (l ≡ₚ l') as Hp by by apply NoDup_Permutation. destruct l as [|x [|y l]].
  - by apply Permutation_nil_l in Hp as ->.
  - by apply Permutation_singleton_l in Hp as ->.
  - exfalso. apply NoDup_cons in Hn as [Hn _]. rewrite (Hs x y) in Hn by (rewrite !elem_of_cons; tauto). apply Hn, list_elem_of_here.
Qed.

(** ** When everything is given back the lists are what they were. *)
Lemma lists_restored b L : geo b0 b → buddy_ok b ∅ → lists b L → top_inv b → same_fl L0 L.
Proof.
  intros Hg Hok HL (M & pre & HM & E & Hpre). destruct Hok0 as (C0 & N0 & HR0 & Hh0 & Hco0 & _ & HU0).
  pose proof Hok as (C & N & HR & Hh & Hco & _ & HU).
  assert (C0 = C) as <-.
  { eapply coalesced_unique; [exact (rp_cmap _ _ _ HR0)|done|done|..].
    - rewrite <- (geo_base b Hg), <- (ge_num _ _ Hg). apply (rp_cmap _ _ _ HR).
    - by rewrite <- (geo_base b Hg).
    - done.
    - intros c o. by rewrite <- HU0, <- HU. }
  assert (∀ o x, 0 ≤ o ≤ 10 → x ∈ L0 o ↔ x ∈ L o) as Hmem.
  { intros o x Ho. rewrite (lists_unique b0 L0 N0) by (done || by eapply rep_lists). rewrite (lists_unique b L N) by (done || by eapply rep_lists).
    by rewrite (rp_mem _ _ _ HR0), (rp_mem _ _ _ HR). }
  intros o Ho. pose proof (lists_NoDup _ _ _ o Hok0 HL0 Ho) as Hnd0. pose proof (lists_NoDup _ _ _ o Hok HL Ho) as Hnd.
  destruct (decide (o = 10)) as [->|Ho10].
  - rewrite (lists_unique b M L) in E by (done || lia). destruct pre as [|x pre]; [done|]. exfalso.
    rewrite E in Hnd0. apply NoDup_app in Hnd0 as (_ & Hd & _). apply (Hd x); [set_solver|]. apply Hmem; [lia|]. rewrite E. set_solver.
  - apply short_list_eq; [done|done|intros; by apply Hmem|]. intros x y Hx Hy.
    rewrite (lists_unique b0 L0 N0) in Hx, Hy by (done || by eapply rep_lists).
    apply (rp_mem _ _ _ HR0) in Hx; [|done]. apply (rp_mem _ _ _ HR0) in Hy; [|done].
    eapply small_chunk_unique; [exact HR0|done|done| |assert (0 ≤ o < 10) as Hlt by lia; exact Hlt|exact Hx|exact Hy].
    intros c k Hc. apply HU0 in Hc. by rewrite lookup_empty in Hc.
Qed.
End restoring.
