(* ===== verification/SlabExact.v ===== *)
(** * Which block an allocation gets

    [slab_alloc_correct] says that [slab_alloc] hands out some unused block of
    the right order.  Here the block is determined: while nothing is given
    back, an allocation takes the first block of the current slab's chain, and
    a new slab is the first chunk of the first free list that has one.
    [alloc_step] is this behaviour on the abstract state of a round of
    allocations ([round]); it is deterministic ([alloc_step_det]), and
    [slab_alloc_order] follows it ([wp_slab_alloc_exact]). *)

From S2P Require Import Prelude Macro ListHead Buddy Chunks BuddyInv BuddyOps BuddySpec BuddyCount BuddyInit BuddyTheorems Pages.
From S2P Require Import Slab SlabInv SlabOps SlabSpec SlabTheorems FreeLists.

(** Free lists of the buddy allocator, its allocated blocks, the slabs and the current slabs. *)
Record round : Type := mk_round {
  r_lists : Z → list Z;
  r_used : gmap Z Z;
  r_slabs : gmap_slabs;
  r_cur : Z → Z
}.

(** One allocation of order [k]; [fa c] is the address of frame [c]. *)
Inductive alloc_step (fa : Z → Z) (k : Z) : round → Z → round → Prop :=
| step_first L U G cur c L' b fl :
    cur k = NULL → takes L 5 c L' → U !! c = None → G !! fa c = None → all_blocks (fa c) k = b :: fl →
    alloc_step fa k (mk_round L U G cur) b (mk_round L' (<[c := 5]> U) (<[fa c := (k, fl)]> G) (upd cur k (fa c)))
| step_next L U G cur b b' fl :
    cur k ≠ NULL → G !! cur k = Some (k, b :: b' :: fl) →
    alloc_step fa k (mk_round L U G cur) b (mk_round L U (<[cur k := (k, b' :: fl)]> G) cur)
| step_last L U G cur c L' b :
    cur k ≠ NULL → G !! cur k = Some (k, [b]) → takes L 5 c L' → U !! c = None → G !! fa c = None →
    alloc_step fa k (mk_round L U G cur) b
      (mk_round L' (<[c := 5]> U) (<[fa c := (k, all_blocks (fa c) k)]> (<[cur k := (k, [])]> G)) (upd cur k (fa c))).

(** Rounds in the same state: the entries of orders that do not exist do not count. *)
Record same_round (A B : round) : Prop := {
  sr_lists : same_fl (r_lists A) (r_lists B);
  sr_used : r_used A = r_used B;
  sr_slabs : r_slabs A = r_slabs B;
  sr_cur : ∀ k, slab_order k → r_cur A k = r_cur B k
}.

Lemma upd_ext {A} (f g : Z → A) k v : (∀ j, slab_order j → f j = g j) → ∀ j, slab_order j → upd f k v j = upd g k v j.
Proof. intros H j Hj. unfold upd. case_decide; auto. Qed.

(** The block and the next state are determined by the state. *)
Lemma alloc_step_det fa k A B b d A' B' : slab_order k → same_round A B →
  alloc_step fa k A b A' → alloc_step fa k B d B' → b = d ∧ same_round A' B'.
Proof.
  intros Hk [Hl Hu Hg Hc] HA HB. specialize (Hc k Hk) as Hck.
  destruct HA as [L U G cur c L' b fl|L U G cur b b' fl|L U G cur c L' b]; destruct HB as [M V K cur2 d M' e fl2|M V K cur2 e e' fl2|M V K cur2 d M' e];
    simpl in *; subst; rewrite ?Hck in *; try congruence.
  - destruct (takes_unique L M 5 c d L' M' Hl) as [-> Hl']; [lia|done|done|]. simplify_eq. by split; [congruence|]; split; [|..|apply upd_ext]; simpl; congruence || done.
  - simplify_eq. by split.
  - destruct (takes_unique L M 5 c d L' M' Hl) as [-> Hl']; [lia|done|done|]. simplify_eq. by split; [|split; [..|apply upd_ext]].
Qed.

(** ** The state represents a round *)
Record round_rep (b0 : bstate) (A : round) (st : sstate) : Prop := {
  rr_geo : geo b0 (bud st);
  rr_lists : lists (bud st) (r_lists A);
  rr_slab : ∃ P, slab_core st (r_used A) (r_slabs A) (r_cur A) P unlocked ∧ slab_shape (r_slabs A) (r_cur A) P ∧
            ∀ k, slab_order k → P k = []
}.

Lemma rr_ok b0 A st : round_rep b0 A st → slab_ok st (r_used A) (r_slabs A).
Proof. intros [_ _ (P & HC & HS & _)]. by exists (r_cur A), P. Qed.

Section exact.
Implicit Types (st : sstate) (U : gmap Z Z) (G : gmap_slabs) (cur : Z → Z) (P : Z → list Z) (lk : Z → Z).

Lemma core_cur_ext st U G cur cur' P lk : (∀ k, slab_order k → cur k = cur' k) → slab_core st U G cur P lk → slab_core st U G cur' P lk.
Proof. intros Hl [HB Hpa HS HMk HCt HL Hsep Hlow]. split; try done. intros k Hk. rewrite <- Hl by done. by apply HCt. Qed.

Lemma shape_cur_ext G cur cur' P : (∀ k, slab_order k → cur k = cur' k) → slab_shape G cur P → slab_shape G cur' P.
Proof. intros Hl [Hc Hp]. split; intros k; [intros Hk|intros s Hk]; rewrite <- Hl by done; auto. Qed.

(** A new slab is at the frame the free lists determine. *)
Lemma wp_new_slab_exact st U G cur P lk k L (Q : Z → sstate → Prop) :
  slab_core st U G cur P lk → slab_order k → (∀ k, slab_order k → P k = []) → lists (bud st) L → (∃ c, block_avail (bud st) U c 5) →
  (∀ c L' st', takes L 5 c L' → lists (bud st') L' → geo (bud st) (bud st') → U !! c = None → G !! frame_addr (bud st) c = None →
     (∀ a k', live (<[frame_addr (bud st) c := (k, all_blocks (frame_addr (bud st) c) k)]> G) a k' ↔ live G a k') →
     slab_core st' (<[c := 5]> U) (<[frame_addr (bud st) c := (k, all_blocks (frame_addr (bud st) c) k)]> G) (upd cur k (frame_addr (bud st) c)) P lk → Q 0 st') →
  wp (alloc_slab_from_buddy k) st Q.
Proof.
  intros HC Hk HP HL [c0 Hav0] HQ. eapply wp_alloc_slab_lists; [exact HC|done| | |].
  - intros k' s Hk'. rewrite HP by done. set_solver.
  - intros Hno. by destruct (Hno c0).
  - intros c s st' Hav -> Hs Hg HC' (M & M' & HM & (j & Hsp & Hj) & HM'). pose proof (lists_same_fl _ _ _ HM HL) as HML.
    apply (HQ c M'); [by eapply takes_proper; [exact HML|lia|exists j]|done|done|by destruct (avail_frame HC c Hav) as (_ & _ & ?)|done| |done].
    intros a k'. apply (sv_live _ _ _ _ _ _ (view_new HC (bud st') c _ k Hg Hav eq_refl Hs)).
Qed.
(** The current slab is full: with an empty partial list a new one is fetched. *)
Lemma wp_refill_exact st U G cur P lk k L (Q : unit → sstate → Prop) :
  slab_core st U G cur P lk → shape_but k G cur P → slab_order k → (∀ k, slab_order k → P k = []) → lists (bud st) L →
  (∃ c, block_avail (bud st) U c 5) →
  (∀ c L' st', takes L 5 c L' → lists (bud st') L' → geo (bud st) (bud st') → U !! c = None → G !! frame_addr (bud st) c = None →
     (let s := frame_addr (bud st) c in let G' := <[s := (k, all_blocks s k)]> G in
      (∀ a k', live G' a k' ↔ live G a k') ∧
      slab_core st' (<[c := 5]> U) G' (upd cur k s) P lk ∧ slab_shape G' (upd cur k s) P) → Q tt st') →
  wp (set_new_current_slab k) st Q.
Proof.
  intros HC HS Hk HP HL Hav HQ. pose proof (core_no_null _ _ _ _ _ _ HC) as H0. unfold set_new_current_slab.
  apply wp_bind, (wp_get_from_partial_list _ _ _ _ _ _ _ _ HC Hk); [intros _|intros s l h EP _; by rewrite HP in EP].
  apply wp_bind, (wp_set_current _ _ _ _ _ _ _ _ _ HC Hk). intros p HC1. simpl.
  apply wp_bind. eapply wp_new_slab_exact; [exact HC1|done|done|exact HL|done|].
  intros c L' st' Ht HL' Hg Hu Hs Hl HC2. simpl. apply wp_ret. cbn [bud set_pool] in *.
  assert (∀ j v, slab_order j → upd (upd cur k NULL) k v j = upd cur k v j) as Hext by (intros j v _; unfold upd; by case_decide).
  apply (HQ c L'); [done|done|done|done|done|]. cbv zeta. split_and!; [done|eapply core_cur_ext; [|exact HC2]; auto|].
  by apply shape_new.
Qed.

(** Taking a block from the current slab. *)
Lemma wp_take_exact b0 st L U G cur P lk k A (Q : Z → sstate → Prop) :
  slab_core st U G cur P lk → slab_shape G cur P → slab_order k → cur k ≠ NULL → (∀ k, slab_order k → P k = []) →
  lists (bud st) L → geo b0 (bud st) →
  (∀ b, G !! cur k = Some (k, [b]) → A = mk_round L U G cur ∧ ∃ c, block_avail (bud st) U c 5) →
  (∀ b b' fl, G !! cur k = Some (k, b :: b' :: fl) → alloc_step (frame_addr b0) k A b (mk_round L U (<[cur k := (k, b' :: fl)]> G) cur)) →
  (∀ b A' st', alloc_step (frame_addr b0) k A b A' → geo b0 (bud st') → lists (bud st') (r_lists A') →
     slab_core st' (r_used A') (r_slabs A') (r_cur A') P lk → slab_shape (r_slabs A') (r_cur A') P →
     (∀ a k', live (r_slabs A') a k' ↔ live G a k' ∨ (a = b ∧ k' = k)) → ¬ live G b k → Q b st') →
  wp (addr ← slab_get_free_block (cur k);
      h ← ld_hdr (cur k);
      (if free_block_count h =? 0 then
         BUG_ON (negb (next_free_block h =? NULL)) ;;
         set_new_current_slab k
       else mret tt) ;;
      mret addr) st Q.
Proof.
  intros HC HS Hk Hc0 HP HL Hg Hlast Hnext HQ. destruct (sh_cur _ _ _ HS k Hk) as [?|(fl0 & Hs & Hfl)]; [done|].
  destruct fl0 as [|b fl]; [done|]. pose proof (live_take HC (cur k) k b fl) as Hlive.
  pose proof (not_live_free HC _ _ b _ Hs ltac:(set_solver)) as Hnew.
  apply wp_bind, (wp_get_free_block _ _ _ _ _ _ _ _ _ _ _ HC Hs). intros h HC1.
  destruct (sc_slab _ _ _ _ _ _ HC1 (cur k) k fl) as (_ & HR1 & _); [by rewrite lookup_insert_eq|].
  apply wp_bind. eapply wp_load; [exact (sr_hdr _ _ _ _ HR1)|]. cbn [free_block_count next_free_block].
  apply wp_bind. destruct fl as [|b2 fl].
  - destruct (Hlast b Hs) as [-> Hav]. simpl. apply wp_bind, wp_ret.
    eapply wp_refill_exact; [exact HC1|by eapply shape_take_but|done|done|exact HL|exact Hav|].
    intros c L' st' Ht HL' Hg' Hu Hn (Hl & HC2 & HS2). apply wp_ret. cbn [bud set_headers] in *. rewrite (geo_addr _ _ c Hg) in Hn, Hl, HC2, HS2.
    eapply HQ; [apply step_last; [done|done|done|done|]; by apply lookup_insert_None in Hn as [? _]|by etrans|exact HL'|exact HC2|exact HS2| |done].
    intros a k'. simpl. rewrite Hl. by apply Hlive.
  - destruct (Z.eqb_spec (Z.of_nat (length (b2 :: fl))) 0); [simpl in *; lia|]. apply wp_ret, wp_ret.
    eapply HQ; [by apply Hnext|done|exact HL|exact HC1|by eapply shape_keep| |done]. intros a k'. by apply Hlive.
Qed.

(** [__slab_alloc] follows [alloc_step]. *)
Lemma wp_slab_alloc_exact b0 A st k (Q : Z → sstate → Prop) :
  round_rep b0 A st → slab_order k → (∃ c, block_avail (bud st) (r_used A) c 5) →
  (∀ b A' st', alloc_step (frame_addr b0) k A b A' → round_rep b0 A' st' →
     (∀ a k', live (r_slabs A') a k' ↔ live (r_slabs A) a k' ∨ (a = b ∧ k' = k)) → ¬ live (r_slabs A) b k → Q b st') →
  wp (slab_alloc_order k) st Q.
Proof.
  intros [Hg HL (P & HC & HS & HP)] Hk Hav HQ. unfold slab_alloc_order. pose proof Hk as Hk'. unfold slab_order in Hk'.
  apply wp_bind, wp_BUG_ON; [unfold MIN_SLAB_BLOCK_ORDER, MAX_SLAB_BLOCK_ORDER; repeat case_cmp; done || lia|].
  apply wp_bind. eapply wp_lock_sc; [exact HC|done|done|]. intros HC1. set (st1 := set_pool _ st) in *.
  apply wp_bind. eapply wp_load; [exact (sc_cont _ _ _ _ _ _ HC1 k Hk)|]. cbn [current].
  assert (∀ b A' st', alloc_step (frame_addr b0) k A b A' → geo b0 (bud st') → lists (bud st') (r_lists A') →
     slab_core st' (r_used A') (r_slabs A') (r_cur A') P (upd unlocked k 1) → slab_shape (r_slabs A') (r_cur A') P →
     (∀ a k', live (r_slabs A') a k' ↔ live (r_slabs A) a k' ∨ (a = b ∧ k' = k)) → ¬ live (r_slabs A) b k →
     wp (unlock_sc k ;; mret b) st' Q) as Hend.
  { intros b A' st' Hst Hg' HL' HC' HS' Hl' Hn'. apply wp_bind. eapply wp_unlock_sc; [exact HC'|done|]. intros HC4. apply wp_ret.
    eapply HQ; [exact Hst| |done|done]. split; [done|done|]. exists P. split_and!; [|done|done].
    eapply core_lk_ext; [|exact HC4]. intros k2 _. apply relock_unlocked. }
  destruct A as [L U G cur]. simpl in *. apply wp_bind. case_cmp as Ec.
  - eapply wp_new_slab_exact; [exact HC1|done|done|exact HL|exact Hav|]. intros c L' st2 Ht HL2 Hg2 Hu Hs Hl HC2. simpl.
    apply wp_bind. eapply wp_load; [exact (sc_cont _ _ _ _ _ _ HC2 k Hk)|]. cbn [current].
    apply wp_bind_keep. change (bud st1) with (bud st) in *. rewrite (geo_addr _ _ c Hg) in Hs, Hl, HC2 |- *. set (s := frame_addr b0 c) in *.
    destruct (all_blocks s k) as [|b [|b' fl]] eqn:Eb; [pose proof (all_blocks_length s k Hk) as Hlen; rewrite Eb in Hlen; pose proof (nblocks_ge k Hk); simpl in Hlen; lia..|].
    rewrite <- Eb in Hl, HC2.
    assert (slab_shape (<[s := (k, all_blocks s k)]> G) (upd cur k s) P) as HS2.
    { apply shape_new; [apply shape_null_but|..]; try done. by eapply core_no_null. }
    assert (s ≠ NULL) as Hs0.
    { intros E. pose proof (core_no_null _ _ _ _ _ _ HC2) as H0. rewrite E, lookup_insert_eq in H0. done. }
    eapply (wp_take_exact b0); [exact HC2|exact HS2|done|by rewrite upd_eq|done|exact HL2|by etrans| | |].
    + intros d. rewrite upd_eq, lookup_insert_eq, Eb. done.
    + intros d d' fl'. rewrite upd_eq, lookup_insert_eq, Eb. intros [= <- <- <-]. rewrite insert_insert_eq. by apply step_first.
    + intros d A' st' Hst Hg' HL' HC' HS' Hl' Hn'. eapply Hend; [exact Hst|done|done|done|done| |by rewrite <- Hl].
      intros a k2. by rewrite Hl', Hl.
  - apply wp_ret. simpl. apply wp_bind. eapply wp_load; [exact (sc_cont _ _ _ _ _ _ HC1 k Hk)|]. cbn [current]. apply wp_bind_keep.
    eapply (wp_take_exact b0 st1 L U G cur); [exact HC1|exact HS|done|done|done|exact HL|done| | |exact Hend].
    + intros b _. split; [done|exact Hav].
    + intros b b' fl Hb. by apply step_next.
Qed.
End exact.
