(* ===== verification/SlabTest.v ===== *)
(** * The slab allocator's self test: [run_test] of [mm/slab_test.c]

    The test allocates 1000 blocks, gives them back in the opposite order,
    allocates again and asserts that every address is the same as the first
    time, and gives everything back in order.  It passes on this allocator
    because an allocation is determined by the abstract state ([SlabExact]) and
    that state comes back: the slabs because no slab is kept in advance at the
    end of a round ([room_step], a small machine that counts the free blocks of
    the current slabs, says when that happens), the order of the free lists by
    [lists_restored]. *)

From S2P Require Import Prelude Macro ListHead Buddy Chunks BuddyInv BuddyOps BuddySpec BuddyCount BuddyInit BuddyTheorems Pages.
From S2P Require Import Slab SlabInv SlabOps SlabSpec SlabTheorems Utils Kmalloc KmallocTheorems Mm FreeLists SlabExact.

(** The slab allocator and the arrays [allocation] and [allocation_]. *)
Record teststate : Type := mk_test { t_slab : sstate; allocation : list Z; allocation_ : list Z }.

Definition on_slab {A} (m : M sstate A) : M teststate A := zoom t_slab (λ s t, mk_test s (allocation t) (allocation_ t)) m.

(** [second] chooses [allocation_]; an index outside of the array is undefined. *)
Definition arr (second : bool) (t : teststate) : list Z := if second then allocation_ t else allocation t.
Definition set_arr (second : bool) (l : list Z) (t : teststate) : teststate :=
  if second then mk_test (t_slab t) (allocation t) l else mk_test (t_slab t) l (allocation_ t).
Definition ld_arr (second : bool) (i : Z) : M teststate Z := load (λ t, arr second t !! Z.to_nat i).
Definition st_arr (second : bool) (i v : Z) : M teststate unit :=
  _ ← ld_arr second i; modify (λ t, set_arr second (<[Z.to_nat i := v]> (arr second t)) t).

(** The two loops that allocate *)
Definition alloc_all (second : bool) (sizes : list Z) : M teststate unit :=
  for_up (Z.to_nat NUM_OPERATIONS) 0 (λ i,
    size ← load (λ _, sizes !! Z.to_nat i);
    a ← on_slab (slab_alloc size);
    st_arr second i a ;;
    v ← ld_arr second i;
    assert (negb (v =? NULL))).

Definition free_backward : M teststate unit :=
  for_up (Z.to_nat NUM_OPERATIONS) 0 (λ i,
    a ← ld_arr false (NUM_OPERATIONS - i - 1);
    r ← on_slab (slab_free a);
    assert (r =? 0)).

Definition free_forward : M teststate unit :=
  for_up (Z.to_nat NUM_OPERATIONS) 0 (λ i,
    a ← ld_arr true i;
    r ← on_slab (slab_free a);
    assert (r =? 0)).

Fixpoint compare_loop (n : nat) (i : Z) : M teststate bool :=
  match n with
  | O => mret true
  | S n' =>
      x ← ld_arr false i;
      y ← ld_arr true i;
      if negb (x =? y) then mret false else compare_loop n' (i + 1)
  end.
Definition compare_allocations : M teststate bool := compare_loop (Z.to_nat NUM_OPERATIONS) 0.

Definition run_test (sizes : list Z) : M teststate unit :=
  alloc_all false sizes ;;
  free_backward ;;
  alloc_all true sizes ;;
  b ← compare_allocations;
  assert b ;;
  free_forward.

(** ** Counting the free blocks of the current slabs

    By order from 6 on (0: there is no current slab), with the number of slabs. *)
Definition room_step (acc : list Z * nat) (k : Z) : list Z * nat :=
  let i := Z.to_nat (k - 6) in
  match acc.1 !! i with
  | None => acc
  | Some r =>
      if r =? 0 then (<[i := nblocks k - 2]> acc.1, S acc.2)
      else if r =? 1 then (<[i := nblocks k - 1]> acc.1, S acc.2)
      else (<[i := r - 1]> acc.1, acc.2)
  end.
Definition rooms (ks : list Z) : list Z * nat := foldl room_step (replicate 6 0, O) ks.

Lemma room_step_mono acc ks : (acc.2 ≤ (foldl room_step acc ks).2)%nat.
Proof.
  revert acc. induction ks as [|k ks IH]; intros acc; [done|]. cbn [foldl]. etrans; [|apply IH].
  unfold room_step. cbv zeta. destruct (acc.1 !! _) as [r|]; [|done]. repeat case_cmp; simpl; lia.
Qed.

Lemma rooms_take i ks : ((rooms (take i ks)).2 ≤ (rooms ks).2)%nat.
Proof. rewrite <- (take_drop i ks) at 2. unfold rooms. rewrite foldl_app. apply room_step_mono. Qed.

Record rooms_ok (A : round) (acc : list Z * nat) : Prop := {
  ro_len : length acc.1 = 6%nat;
  ro_cur : ∀ k, slab_order k → ∃ r, acc.1 !! Z.to_nat (k - 6) = Some r ∧
           ((r = 0 ∧ r_cur A k = NULL) ∨
            (0 < r ∧ r_cur A k ≠ NULL ∧ ∃ fl, r_slabs A !! r_cur A k = Some (k, fl) ∧ Z.of_nat (length fl) = r));
  ro_full : ∀ s k fl, r_slabs A !! s = Some (k, fl) → s = r_cur A k ∨ fl = [];
  ro_count : base.size (r_used A) = acc.2
}.

(** What [room_step] computes when the room of order [k] becomes [v]. *)
Lemma ro_cur_upd (cur cur' : Z → Z) (G G' : gmap_slabs) (rs : list Z) k v :
  length rs = 6%nat → slab_order k →
  (∀ j, slab_order j → j ≠ k → cur' j = cur j ∧ ∀ fl, G !! cur j = Some (j, fl) → G' !! cur j = Some (j, fl)) →
  (∀ j, slab_order j → ∃ r, rs !! Z.to_nat (j - 6) = Some r ∧
     ((r = 0 ∧ cur j = NULL) ∨ (0 < r ∧ cur j ≠ NULL ∧ ∃ fl, G !! cur j = Some (j, fl) ∧ Z.of_nat (length fl) = r))) →
  0 < v → cur' k ≠ NULL → (∃ fl, G' !! cur' k = Some (k, fl) ∧ Z.of_nat (length fl) = v) →
  ∀ j, slab_order j → ∃ r, <[Z.to_nat (k - 6) := v]> rs !! Z.to_nat (j - 6) = Some r ∧
     ((r = 0 ∧ cur' j = NULL) ∨ (0 < r ∧ cur' j ≠ NULL ∧ ∃ fl, G' !! cur' j = Some (j, fl) ∧ Z.of_nat (length fl) = r)).
Proof.
  intros Hlen Hk Hoth Hcur Hv Hn Hg j Hj. unfold slab_order in *. destruct (decide (j = k)) as [->|Hne].
  - exists v. rewrite list_lookup_insert_eq by lia. split; [done|]. right. done.
  - destruct (Hoth j Hj Hne) as [-> Hgo]. destruct (Hcur j Hj) as (r & Hr & Hc). exists r. rewrite list_lookup_insert_ne by lia. split; [done|].
    destruct Hc as [?|(H0 & H1 & fl & Hfl & E)]; [by left|right]. split_and!; [done|done|]. exists fl. auto.
Qed.

Lemma rooms_step fa k A b A' acc : slab_order k → r_slabs A !! NULL = None → (∀ s j fl, r_slabs A !! s = Some (j, fl) → s ≠ NULL) →
  (∀ c, r_slabs A' !! fa c ≠ None → fa c ≠ NULL) →
  alloc_step fa k A b A' → rooms_ok A acc → rooms_ok A' (room_step acc k).
Proof.
  intros Hk Hnull Hnn Hfa Hst [Hlen Hcur Hfull Hcnt]. destruct (Hcur k Hk) as (r & Hr & Hc).
  unfold room_step. cbv zeta. rewrite Hr. pose proof (nblocks_ge k Hk) as Hge.
  destruct Hst as [L U G cur c L' b fl Ec _ Hu Hg Eb|L U G cur b b' fl Ec Hs|L U G cur c L' b Ec Hs _ Hu Hg]; simpl in *.
  - assert (r = 0) as -> by (destruct Hc as [[? _]|(_ & ? & _)]; done). rewrite Z.eqb_refl.
    pose proof (all_blocks_length (fa c) k Hk) as Hl. rewrite Eb in Hl. simpl in Hl.
    assert (fa c ≠ NULL) as Hc0 by (apply Hfa; by rewrite lookup_insert_eq).
    split; cbn [fst snd r_used r_slabs r_cur]; [by rewrite length_insert|..].
    + eapply (ro_cur_upd cur _ G); [done|done| |exact Hcur|lia|by rewrite upd_eq|].
      * intros j Hj Hne. rewrite upd_ne by done. split; [done|]. intros f Hf. rewrite lookup_insert_ne; [done|]. intros E. rewrite E in Hg. congruence.
      * exists fl. rewrite upd_eq, lookup_insert_eq. split; [done|lia].
    + intros s j f. rewrite lookup_insert. case_decide as E; [intros [= <- <-]; left; by rewrite upd_eq|]. intros Hs.
      destruct (Hfull _ _ _ Hs) as [->|?]; [|by right]. left. destruct (decide (j = k)) as [->|]; [|by rewrite upd_ne]. exfalso. by apply (Hnn _ _ _ Hs).
    + by rewrite map_size_insert_None, Hcnt.
  - destruct Hc as [[_ ?]|(Hr0 & _ & fl0 & Hf & El)]; [done|]. rewrite Hs in Hf. injection Hf as <-. cbn [length] in El.
    rewrite (proj2 (Z.eqb_neq r 0)), (proj2 (Z.eqb_neq r 1)) by lia.
    split; cbn [fst snd r_used r_slabs r_cur]; [by rewrite length_insert|..|done].
    + eapply (ro_cur_upd cur _ G); [done|done| |exact Hcur|lia|done|].
      * intros j Hj Hne. split; [done|]. intros f Hf. rewrite lookup_insert_ne; [done|]. intros E. rewrite E in Hs. congruence.
      * exists (b' :: fl). rewrite lookup_insert_eq. split; [done|cbn [length]; lia].
    + intros s j f. rewrite lookup_insert. case_decide as E; [intros [= <- <-]; by left|]. apply Hfull.
  - destruct Hc as [[_ ?]|(Hr0 & _ & fl0 & Hf & El)]; [done|]. rewrite Hs in Hf. simplify_eq. simpl in Hr |- *.
    pose proof (all_blocks_length (fa c) k Hk) as Hl. assert (fa c ≠ NULL) as Hc0 by (apply Hfa; by rewrite lookup_insert_eq).
    split; cbn [fst snd r_used r_slabs r_cur]; [by rewrite length_insert|..].
    + eapply (ro_cur_upd cur _ G); [done|done| |exact Hcur|lia|by rewrite upd_eq|].
      * intros j Hj Hne. rewrite upd_ne by done. split; [done|]. intros f Hf. rewrite !lookup_insert_ne; [done|intros E; rewrite E in Hs; congruence|].
        intros E. rewrite E in Hg. congruence.
      * exists (all_blocks (fa c) k). rewrite upd_eq, lookup_insert_eq. split; [done|lia].
    + intros s j f. rewrite lookup_insert. case_decide as E; [intros [= <- <-]; left; by rewrite upd_eq|].
      rewrite lookup_insert. case_decide as E2; [intros [= <- <-]; by right|]. intros Hsj.
      destruct (Hfull _ _ _ Hsj) as [->|?]; [|by right]. left. destruct (decide (j = k)) as [->|]; [done|by rewrite upd_ne].
    + by rewrite map_size_insert_None, Hcnt.
Qed.

(** ** Sequences of allocations *)
Inductive alloc_steps (fa : Z → Z) (A : round) : list Z → list Z → round → Prop :=
| steps_none : alloc_steps fa A [] [] A
| steps_snoc ks bs A1 k b A2 : alloc_steps fa A ks bs A1 → alloc_step fa k A1 b A2 → alloc_steps fa A (ks ++ [k]) (bs ++ [b]) A2.

Lemma alloc_steps_det fa A B ks bs A' ds B' : Forall slab_order ks → same_round A B →
  alloc_steps fa A ks bs A' → alloc_steps fa B ks ds B' → bs = ds ∧ same_round A' B'.
Proof.
  intros Hks HAB HA. revert Hks ds B'. induction HA as [|ks bs A1 k b A2 HA IH Hst]; intros Hks ds B' HB.
  - inversion HB as [|ks' ? ? ? ? ? ? ? E]; subst; [done|]. by destruct ks'.
  - apply Forall_app in Hks as [Hks [Hk _]%Forall_cons].
    inversion HB as [E|ks' ds' B1 k' d B2 HB1 Hst' E]; subst; [by destruct ks|]. apply app_inj_tail in E as [-> ->].
    destruct (IH Hks _ _ HB1) as [-> HR]. by destruct (alloc_step_det _ _ _ _ _ _ _ _ Hk HR Hst Hst') as [-> HR'].
Qed.

(** The slabs of a lean heap without a client's block are gone, and with them every block. *)
Definition no_pages (st : sstate) (U : gmap Z Z) (G : gmap_slabs) : Prop := ∀ c o, ¬ page_block (bud st) U G c o.

Lemma nothing_left st U G : slab_ok st U G → lean G → no_pages st U G → (∀ a k, ¬ live G a k) → slab_ok st ∅ ∅.
Proof.
  intros Hok Hl Hp Hno. pose proof (lean_empty _ _ _ Hok Hl Hno) as ->. assert (U = ∅) as ->; [|done].
  apply map_empty. intros c. destruct (U !! c) as [o|] eqn:E; [|done]. destruct (Hp c o). by split.
Qed.

Section testing.
Context (b0 : bstate) (L0 : Z → list Z) (x0 : Z).
Context (Hok0 : buddy_ok b0 ∅) (HL0 : lists b0 L0) (Hx0 : top_block b0 x0).
Abbreviation fa := (frame_addr b0).

(** The heap is empty; the list of the largest chunks is the one of [b0] up to its first element. *)
Record idle (st : sstate) : Prop := {
  id_ok : slab_ok st ∅ ∅;
  id_geo : geo b0 (bud st);
  id_top : top_inv L0 (bud st)
}.

(** During a round of allocations from [A0]: orders [ks] asked for, blocks [bs] given. *)
Record round_inv (A0 : round) (ks bs : list Z) (A : round) (st : sstate) : Prop := {
  ri_steps : alloc_steps fa A0 ks bs A;
  ri_rep : round_rep b0 A st;
  ri_slabs : ∀ c o, r_used A !! c = Some o → o = 5 ∧ is_Some (r_slabs A !! fa c);
  ri_rooms : rooms_ok A (rooms ks);
  ri_top : top_inv L0 (bud st);
  ri_len : length bs = length ks;
  ri_live : ∀ a k, live (r_slabs A) a k ↔ (a, k) ∈ zip bs ks;
  ri_nodup : NoDup (zip bs ks)
}.

Lemma round_start st : idle st → ∃ A0, same_round (mk_round L0 ∅ ∅ (λ _, NULL)) A0 ∧ round_inv A0 [] [] A0 st.
Proof.
  intros [(cur & P & HC & HS) Hg Ht]. pose proof (sc_buddy _ _ _ _ _ _ HC) as HB.
  assert (∃ L, lists (bud st) L) as [L HL] by (destruct HB as (C & L & HR & _); exists L; by eapply rep_lists).
  assert (∀ k, slab_order k → cur k = NULL) as Hcur.
  { intros k Hk. destruct (sh_cur _ _ _ HS k Hk) as [?|(fl & Hf & _)]; [done|by rewrite lookup_empty in Hf]. }
  exists (mk_round L ∅ ∅ cur). split.
  { split; simpl; [eapply (lists_restored b0 L0 Hok0 HL0 (bud st)); done|done|done|]. intros k Hk. by rewrite Hcur. }
  split; simpl; [apply steps_none| | |  |done|done| |constructor].
  - split; simpl; [done|done|]. exists P. split_and!; [done|done|]. intros k Hk. destruct (P k) as [|s l] eqn:E; [done|]. exfalso.
    destruct (proj1 (sh_part _ _ _ HS k s Hk)) as (_ & fl & Hf & _); [rewrite E; set_solver|by rewrite lookup_empty in Hf].
  - intros c o Hc. by rewrite lookup_empty in Hc.
  - split; cbn [rooms foldl fst snd r_cur r_slabs r_used]; [done| | |done].
    + intros k Hk. exists 0. split; [|left; auto]. unfold slab_order in Hk. apply lookup_replicate_2. lia.
    + intros s k fl Hs. by rewrite lookup_empty in Hs.
  - intros a k. split; [|set_solver]. intros (s & fl & Hs & _). by rewrite lookup_empty in Hs.
Qed.

Lemma slabs_step k A b A' : alloc_step fa k A b A' →
  (∀ c o, r_used A !! c = Some o → o = 5 ∧ is_Some (r_slabs A !! fa c)) → ∀ c o, r_used A' !! c = Some o → o = 5 ∧ is_Some (r_slabs A' !! fa c).
Proof.
  intros Hst Hsl c o. destruct Hst; simpl in *; rewrite ?lookup_insert_is_Some', ?lookup_insert; try (case_decide; [intros [= <-]; subst; tauto|]);
    intros Hc; destruct (Hsl c o Hc); tauto.
Qed.

Lemma top_step k A b A' st st' : alloc_step fa k A b A' → round_rep b0 A st → round_rep b0 A' st' →
  only_slabs (r_used A) → (base.size (r_used A) < 32)%nat → top_inv L0 (bud st) → top_inv L0 (bud st').
Proof.
  intros Hst HA HA' H5 Hsz Ht. pose proof (slab_ok_buddy _ _ _ (rr_ok _ _ _ HA)) as HB. destruct HA as [Hg HL _], HA' as [_ HL' _].
  assert (∀ c, takes (r_lists A) 5 c (r_lists A') → top_inv L0 (bud st')) as Hnew.
  { intros c Htk. eapply (top_took b0 L0 Hok0 HL0 (bud st)); [done|exact HB|done|done|done|]. exists (r_lists A), (r_lists A'). done. }
  destruct Hst as [L U G cur c L' b fl|L U G cur b b' fl|L U G cur c L' b]; simpl in *; [by eapply Hnew| |by eapply Hnew].
  destruct Ht as (M & pre & HM & Epre & Hp). exists L, pre. split; [done|]. by rewrite (lists_unique (bud st) L M) by (done || lia).
Qed.

Lemma wp_round_step A0 ks bs A st k (Q : Z → sstate → Prop) :
  round_inv A0 ks bs A st → slab_order k → ((rooms ks).2 < 32)%nat →
  (∀ b A' st', b ≠ NULL → round_inv A0 (ks ++ [k]) (bs ++ [b]) A' st' → Q b st') → wp (slab_alloc_order k) st Q.
Proof.
  intros [Hs HR Hsl Hro Ht Hlen Hlive Hnd] Hk Hm HQ. pose proof (rr_ok _ _ _ HR) as Hok. pose proof (slab_ok_buddy _ _ _ Hok) as HB.
  assert (only_slabs (r_used A)) as H5 by (intros c o Hc; by destruct (Hsl c o Hc)).
  assert (base.size (r_used A) < 32)%nat as Hsz by (rewrite (ro_count _ _ Hro); done).
  assert (∀ A st s, round_rep b0 A st → r_slabs A !! s ≠ None → s ≠ NULL) as Hnn.
  { intros A1 st1 s [_ _ (P & HC & _)] Hn ->. apply Hn. by eapply core_no_null. }
  eapply wp_slab_alloc_exact; [exact HR|done| |].
  - destruct (room_in_top (bud st) (r_used A) x0 HB H5 Hsz) as (c & _ & _ & Hav); [|by exists c].
    by apply (geo_top b0 (bud st)); [apply HR|].
  - intros b A' st' Hst HR' Hl' Hn'. apply (HQ b A').
    + destruct (live_aligned _ _ _ b k (rr_ok _ _ _ HR')) as (_ & _ & ? & _); [apply Hl'; by right|lia].
    + rewrite <- (Nat.add_0_r (length bs)) in Hlen.
      assert (zip (bs ++ [b]) (ks ++ [k]) = zip bs ks ++ [(b, k)]) as Ez by (rewrite zip_with_app by lia; done).
      split; [by eapply steps_snoc|done|by eapply slabs_step|..].
      * unfold rooms. rewrite foldl_app. eapply rooms_step; [done| | | |exact Hst|exact Hro].
        -- destruct HR as [_ _ (P & HC & _)]. by eapply core_no_null.
        -- intros s j fl Hs'. eapply Hnn; [exact HR|]. by rewrite Hs'.
        -- intros c Hc. eapply Hnn; [exact HR'|done].
      * by eapply top_step.
      * rewrite !length_app. simpl. lia.
      * intros a k'. rewrite Hl', Ez, elem_of_app, Hlive, list_elem_of_singleton. naive_solver.
      * rewrite Ez. apply NoDup_app. split_and!; [done| |apply NoDup_singleton].
        intros y Hy ->%list_elem_of_singleton. by apply Hn', Hlive.
Qed.

(** ** Giving the blocks back *)
Record free_inv (l : list (Z * Z)) (st : sstate) : Prop := {
  fi_ok : ∃ U G, slab_ok st U G ∧ lean G ∧ no_pages st U G ∧ ∀ a k, live G a k ↔ (a, k) ∈ l;
  fi_nodup : NoDup l;
  fi_geo : geo b0 (bud st);
  fi_top : top_inv L0 (bud st)
}.

Lemma wp_free_step l1 b k l2 st (Q : Z → sstate → Prop) :
  free_inv (l1 ++ (b, k) :: l2) st → (∀ st', free_inv (l1 ++ l2) st' → Q 0 st') → wp (slab_free b) st Q.
Proof.
  intros [(U & G & Hok & Hl & Hp & Hlive) Hnd Hg Ht] HQ. eapply (wp_slab_free st U G b k); [exact Hok|apply Hlive; set_solver|].
  intros st' U' G' [Hok' Hg' Hp' Hlive' Hl' Hls]. assert (geo b0 (bud st')) as Hg2 by by etrans.
  apply NoDup_app in Hnd as (Hn1 & Hn12 & [Hb Hn2]%NoDup_cons). apply HQ. split.
  - exists U', G'. split_and!; [done|by apply Hl'|intros c o; rewrite Hp'; apply Hp|]. intros a k'. rewrite Hlive', Hlive.
    rewrite !elem_of_app, elem_of_cons. assert ((b, k) ∉ l1) by (intros Hin; apply (Hn12 _ Hin); set_solver). split; [naive_solver|].
    intros Hin. split; [tauto|]. intros [-> ->]. tauto.
  - apply NoDup_app. split_and!; [done| |done]. intros y Hy1 Hy2. apply (Hn12 y Hy1). set_solver.
  - done.
  - eapply (top_gave b0 L0 Hok0 HL0 (bud st)); [done|by eapply slab_ok_buddy|done|done].
Qed.

(** The round is over: no slab was fetched in advance. *)
Definition no_spare (rs : list Z) : Prop := ∀ k, slab_order k → ∃ r, rs !! Z.to_nat (k - 6) = Some r ∧ r < nblocks k - 1.

Lemma round_over A0 ks bs A st : round_inv A0 ks bs A st → no_spare (rooms ks).1 → free_inv (zip bs ks) st.
Proof.
  intros [Hs HR Hsl Hro Ht Hlen Hlive Hnd] Hsp. pose proof (rr_ok _ _ _ HR) as Hok. split; [|done|apply HR|done].
  exists (r_used A), (r_slabs A). split_and!; [done| | |done].
  - intros s k fl Hsk. assert (slab_order k) as Hk by (destruct HR as [_ _ (P & HC & _)]; by destruct (sc_slab _ _ _ _ _ _ HC _ _ _ Hsk)).
    unfold in_use. destruct (ro_full _ _ Hro _ _ _ Hsk) as [-> | ->]; [|pose proof (nblocks_ge k Hk); simpl; lia].
    destruct (Hsp k Hk) as (r & Hr & Hlt). destruct (ro_cur _ _ Hro k Hk) as (r' & Hr' & Hc). rewrite Hr in Hr'. simplify_eq.
    destruct Hc as [[_ E]|(_ & _ & f & Hf & E)]; [|rewrite Hsk in Hf; simplify_eq; lia]. exfalso.
    destruct HR as [_ _ (P & HC & _)]. pose proof (core_no_null _ _ _ _ _ _ HC). congruence.
  - intros c o [Hc Hn]. rewrite (geo_addr _ _ _ (rr_geo _ _ _ HR)) in Hn. destruct (Hsl c o Hc) as [_ [y Hy]]. congruence.
Qed.

Lemma all_free st : free_inv [] st → idle st.
Proof.
  intros [(U & G & Hok & Hl & Hp & Hlive) _ Hg Ht]. split; [|done|done]. eapply nothing_left; [exact Hok|done|done|].
  intros a k Ha%Hlive. set_solver.
Qed.

(** ** The loops of the test *)
Definition with_slab (st : sstate) (t : teststate) : teststate := mk_test st (allocation t) (allocation_ t).

Lemma arr_set second l t : arr second (set_arr second l t) = l.
Proof. by destruct second. Qed.
Lemma set_arr_set second l l' t : set_arr second l (set_arr second l' t) = set_arr second l t.
Proof. by destruct second. Qed.
Lemma set_arr_same second t : set_arr second (arr second t) t = t.
Proof. by destruct second, t. Qed.
Lemma t_slab_set second l t : t_slab (set_arr second l t) = t_slab t.
Proof. by destruct second. Qed.
Lemma arr_with second st t : arr second (with_slab st t) = arr second t.
Proof. by destruct second. Qed.
Lemma with_set second l st t : with_slab st (set_arr second l t) = set_arr second l (with_slab st t).
Proof. by destruct second. Qed.

Lemma wp_ld_arr second i v t (Q : Z → teststate → Prop) : arr second t !! Z.to_nat i = Some v → Q v t → wp (ld_arr second i) t Q.
Proof. intros. by eapply wp_load. Qed.

Lemma wp_st_arr second i v t (Q : unit → teststate → Prop) : (Z.to_nat i < length (arr second t))%nat →
  Q tt (set_arr second (<[Z.to_nat i := v]> (arr second t)) t) → wp (st_arr second i v) t Q.
Proof. intros Hi HQ. destruct (lookup_lt_is_Some_2 _ _ Hi) as [w Hw]. apply wp_bind. eapply wp_ld_arr; [exact Hw|]. by apply wp_modify. Qed.

(** The table of sizes: block orders of slabs, and a round of them is no more than 31 slabs. *)
Context (l : list Z).
Abbreviation ks := (size_to_slab_order <$> take 1000 l).
Context (Hlen : 1000 ≤ Z.of_nat (length l)) (Hsizes : Forall (λ n, 0 < n ≤ 2 ^ 11) (take 1000 l)).
Context (Hfew : ((rooms ks).2 < 32)%nat) (Hspare : no_spare (rooms ks).1).

Lemma ks_length : length ks = 1000%nat.
Proof. rewrite length_fmap, length_take. lia. Qed.

Lemma ks_orders : Forall slab_order ks.
Proof. apply Forall_fmap. eapply Forall_impl; [exact Hsizes|]. intros n Hn. by destruct (size_to_slab_order_ok n Hn). Qed.

Lemma wp_alloc_all second t (Q : unit → teststate → Prop) :
  idle (t_slab t) → length (arr second t) = 1000%nat →
  (∀ bs A0 A st, same_round (mk_round L0 ∅ ∅ (λ _, NULL)) A0 → alloc_steps fa A0 ks bs A → free_inv (zip bs ks) st → length bs = 1000%nat →
     Q tt (set_arr second bs (with_slab st t))) →
  wp (alloc_all second l) t Q.
Proof.
  intros Hid Harr HQ. destruct (round_start _ Hid) as (A0 & Hsame & Hri). unfold alloc_all, NUM_OPERATIONS.
  apply (wp_for_up (λ j t', ∃ bs A st, t' = set_arr second (bs ++ drop (Z.to_nat j) (arr second t)) (with_slab st t) ∧
    length bs = Z.to_nat j ∧ round_inv A0 (take (Z.to_nat j) ks) bs A st)).
  - exists [], A0, (t_slab t). split; [|done]. rewrite drop_0. simpl. rewrite <- (arr_with second (t_slab t) t), set_arr_same. by destruct t.
  - intros j t' Hj (bs & A & st & -> & Hbs & Hinv). set (i := Z.to_nat j) in *. assert (i < 1000)%nat as Hi by lia.
    destruct (lookup_lt_is_Some_2 l i) as [n Hn]; [lia|].
    assert (take 1000 l !! i = Some n) as Hn' by by rewrite lookup_take_lt by lia.
    assert (ks !! i = Some (size_to_slab_order n)) as Hk by by rewrite list_lookup_fmap, Hn'.
    pose proof (Forall_lookup_1 _ _ _ _ Hsizes Hn') as Hsz. destruct (size_to_slab_order_ok n Hsz) as (Ho & _).
    apply wp_bind. eapply wp_load; [exact Hn|]. apply wp_bind, wp_zoom. rewrite t_slab_set. cbn [t_slab with_slab].
    unfold slab_alloc. rewrite (proj2 (Z.eqb_neq _ _)) by (unfold slab_order in Ho; lia).
    eapply wp_round_step; [exact Hinv|done|eapply Nat.le_lt_trans; [apply rooms_take|done]|]. intros b A' st' Hb Hinv'.
    match goal with |- wp _ ?x _ => change x with (with_slab st' (set_arr second (bs ++ drop i (arr second t)) (with_slab st t))) end.
    rewrite with_set. change (with_slab st' (with_slab st t)) with (with_slab st' t).
    destruct (lookup_lt_is_Some_2 (arr second t) i) as [w Hw]; [lia|]. rewrite (drop_S _ _ _ Hw).
    apply wp_bind, wp_st_arr; [rewrite arr_set, length_app; cbn [length]; lia|]. rewrite arr_set, set_arr_set. fold i.
    rewrite insert_app_r_alt, Hbs, Nat.sub_diag by lia. cbn [list_insert insert].
    apply wp_bind. eapply wp_ld_arr.
    { rewrite arr_set. fold i. rewrite lookup_app_r, Hbs, Nat.sub_diag by lia. done. }
    unfold assert. rewrite (proj2 (Z.eqb_neq b NULL) Hb). apply wp_ret. exists (bs ++ [b]), A', st'.
    assert (Z.to_nat (j + 1) = S i) as -> by lia. split_and!; [by rewrite <- app_assoc|rewrite length_app; simpl; lia|].
    by rewrite (take_S_r _ _ _ Hk).
  - intros t' (bs & A & st & -> & Hbs & Hinv). change (Z.to_nat (0 + Z.of_nat (Z.to_nat 1000))) with 1000%nat in *.
    rewrite drop_ge, app_nil_r by lia. rewrite take_ge in Hinv by (rewrite ks_length; lia).
    eapply (HQ bs A0 A st); [done|apply Hinv|by eapply round_over|done].
Qed.

Lemma zip_lookup (bs : list Z) i : length bs = 1000%nat → (i < 1000)%nat →
  ∃ b k, bs !! i = Some b ∧ take (S i) (zip bs ks) = take i (zip bs ks) ++ [(b, k)] ∧ drop i (zip bs ks) = (b, k) :: drop (S i) (zip bs ks).
Proof.
  intros Hbs Hi. destruct (lookup_lt_is_Some_2 bs i) as [b Hb]; [lia|]. destruct (lookup_lt_is_Some_2 ks i) as [k Hk]; [rewrite ks_length; lia|].
  exists b, k. assert (zip bs ks !! i = Some (b, k)) as Hz by (apply lookup_zip_with_Some; eauto 6).
  split; [done|]. split; [by apply take_S_r|by apply drop_S].
Qed.

Lemma wp_free_backward t bs (Q : unit → teststate → Prop) :
  allocation t = bs → length bs = 1000%nat → free_inv (zip bs ks) (t_slab t) →
  (∀ st, idle st → Q tt (with_slab st t)) → wp free_backward t Q.
Proof.
  intros Ebs Hbs Hinv HQ. assert (length (zip bs ks) = 1000%nat) as Hz by (rewrite length_zip_with, Hbs, ks_length; done).
  unfold free_backward, NUM_OPERATIONS.
  apply (wp_for_up (λ j t', ∃ st, t' = with_slab st t ∧ free_inv (take (1000 - Z.to_nat j) (zip bs ks)) st)).
  - exists (t_slab t). split; [by destruct t|]. by rewrite take_ge by lia.
  - intros j t' Hj (st & -> & Hf). destruct (zip_lookup bs (Z.to_nat (1000 - j - 1)) Hbs ltac:(lia)) as (b & k & Hb & Htk & _).
    replace (1000 - Z.to_nat j)%nat with (S (Z.to_nat (1000 - j - 1))) in Hf by lia. rewrite Htk in Hf.
    apply wp_bind. eapply wp_ld_arr; [rewrite arr_with; simpl; rewrite Ebs; exact Hb|]. apply wp_bind, wp_zoom.
    eapply wp_free_step; [exact Hf|]. intros st' Hf'. apply wp_ret. exists st'. split; [done|]. rewrite app_nil_r in Hf'.
    by replace (1000 - Z.to_nat (j + 1))%nat with (Z.to_nat (1000 - j - 1)) by lia.
  - intros t' (st & -> & Hf). apply HQ, all_free. exact Hf.
Qed.

Lemma wp_free_forward t bs (Q : unit → teststate → Prop) :
  allocation_ t = bs → length bs = 1000%nat → free_inv (zip bs ks) (t_slab t) →
  (∀ st, idle st → Q tt (with_slab st t)) → wp free_forward t Q.
Proof.
  intros Ebs Hbs Hinv HQ. assert (length (zip bs ks) = 1000%nat) as Hz by (rewrite length_zip_with, Hbs, ks_length; done).
  unfold free_forward, NUM_OPERATIONS.
  apply (wp_for_up (λ j t', ∃ st, t' = with_slab st t ∧ free_inv (drop (Z.to_nat j) (zip bs ks)) st)).
  - exists (t_slab t). split; [by destruct t|done].
  - intros j t' Hj (st & -> & Hf). destruct (zip_lookup bs (Z.to_nat j) Hbs ltac:(lia)) as (b & k & Hb & _ & Hdr). rewrite Hdr in Hf.
    apply wp_bind. eapply wp_ld_arr; [rewrite arr_with; simpl; rewrite Ebs; exact Hb|]. apply wp_bind, wp_zoom.
    eapply (wp_free_step []); [exact Hf|]. intros st' Hf'. apply wp_ret. exists st'. split; [done|].
    by replace (Z.to_nat (j + 1)) with (S (Z.to_nat j)) by lia.
  - intros t' (st & -> & Hf). apply HQ, all_free. rewrite drop_ge in Hf by lia. exact Hf.
Qed.

Lemma wp_compare t (Q : bool → teststate → Prop) :
  allocation t = allocation_ t → length (allocation t) = 1000%nat → Q true t → wp compare_allocations t Q.
Proof.
  intros E Hl HQ. unfold compare_allocations, NUM_OPERATIONS.
  assert (∀ n i, 0 ≤ i → i + Z.of_nat n ≤ 1000 → wp (compare_loop n i) t Q) as Hc; [|by apply Hc].
  intros n. induction n as [|n IH]; intros i Hi Hn; cbn [compare_loop]; [by apply wp_ret|].
  destruct (lookup_lt_is_Some_2 (allocation t) (Z.to_nat i)) as [v Hv]; [lia|].
  apply wp_bind. eapply wp_ld_arr; [exact Hv|]. apply wp_bind. eapply wp_ld_arr; [simpl; rewrite <- E; exact Hv|].
  rewrite Z.eqb_refl. cbn [negb]. apply IH; lia.
Qed.

(** The whole test, from an empty heap to an empty heap. *)
Lemma wp_run_test t (Q : unit → teststate → Prop) :
  idle (t_slab t) → length (allocation t) = 1000%nat → length (allocation_ t) = 1000%nat →
  (∀ t', idle (t_slab t') → length (allocation t') = 1000%nat → allocation_ t' = allocation t' → Q tt t') →
  wp (run_test l) t Q.
Proof.
  intros Hid H1 H2 HQ. unfold run_test. apply wp_bind, wp_alloc_all; [done|done|]. intros bs A0 A st Hsame Hst Hf Hbs.
  apply wp_bind. eapply (wp_free_backward _ bs); [done|done|done|]. intros st1 Hid1.
  apply wp_bind, wp_alloc_all; [done|done|]. intros ds B0 B st2 Hsame' Hst' Hf2 Hds.
  assert (bs = ds) as <-.
  { eapply alloc_steps_det; [apply ks_orders| |exact Hst|exact Hst']. destruct Hsame as [a1 a2 a3 a4], Hsame' as [c1 c2 c3 c4].
    split; [by etrans|by etrans|by etrans|]. intros k Hk. by rewrite <- a4, <- c4. }
  apply wp_bind, wp_compare; [done|done|]. apply wp_bind. cbn [assert]. apply wp_ret.
  eapply (wp_free_forward _ bs); [done|done|done|]. intros st3 Hid3. by apply HQ.
Qed.
End testing.

(** ** The table of sizes *)
Lemma sizes_rooms : rooms (size_to_slab_order <$> take 1000 sizes) = ([0; 0; 494; 138; 74; 8], 14%nat).
Proof. by vm_compute. Qed.

Lemma sizes_few : ((rooms (size_to_slab_order <$> take 1000 sizes)).2 < 32)%nat.
Proof. rewrite sizes_rooms. simpl. lia. Qed.

Lemma sizes_spare : no_spare (rooms (size_to_slab_order <$> take 1000 sizes)).1.
Proof.
  rewrite sizes_rooms. intros k Hk. assert (k = 6 ∨ k = 7 ∨ k = 8 ∨ k = 9 ∨ k = 10 ∨ k = 11) as Hc by (unfold slab_order in Hk; lia).
  destruct Hc as [-> | [-> | [-> | [-> | [-> | ->]]]]]; eexists; (split; [reflexivity|]); unfold nblocks; simpl; lia.
Qed.

(** The last 4 MB of the memory are a largest chunk. *)
Lemma last_top b : region_ok b → 2 ^ 10 ≤ page_num b → top_block b (page_num b - 2 ^ 10).
Proof.
  intros HG Hn. pose proof (end_vpn HG) as He. split; [lia|lia|]. rewrite Z.add_sub_assoc, Zminus_mod, He. done.
Qed.

Lemma top_avail b x : buddy_ok b ∅ → top_block b x → ∃ c, block_avail b ∅ c 5.
Proof.
  intros Hok Hx. destruct (room_in_top b ∅ x Hok) as (c & _ & _ & Hav); [|rewrite map_size_empty; lia|done|by exists c].
  intros c o Hc. by rewrite lookup_empty in Hc.
Qed.

(** The body of the loop of [test_slab], on an empty heap. *)
Lemma wp_test_round t (Q : unit → teststate → Prop) :
  slab_ok (t_slab t) ∅ ∅ → (∃ x, top_block (bud (t_slab t)) x) → length (allocation t) = 1000%nat → length (allocation_ t) = 1000%nat →
  (∀ t', slab_ok (t_slab t') ∅ ∅ → geo (bud (t_slab t)) (bud (t_slab t')) → length (allocation t') = 1000%nat → allocation_ t' = allocation t' → Q tt t') →
  wp (on_slab (run_test1 sizes) ;; run_test sizes) t Q.
Proof.
  intros Hok [x Hx] H1 H2 HQ. apply wp_bind, wp_zoom. eapply wp_mono.
  2: { apply (wp_run_test1 (bud (t_slab t)) ∅); [apply sizes_ok|by vm_compute| |by split].
       apply (top_avail _ x); [by eapply slab_ok_buddy|done]. }
  intros [] st [Hok1 Hg1]. pose proof (slab_ok_buddy _ _ _ Hok1) as HB1.
  assert (∃ L, lists (bud st) L) as [L HL] by (destruct HB1 as (C & L & HR & _); exists L; by eapply rep_lists).
  apply (geo_top _ (bud st) x Hg1) in Hx.
  apply (wp_run_test (bud st) L x HB1 HL Hx sizes); [by vm_compute|apply sizes_ok|apply sizes_few|apply sizes_spare| |done|done|].
  - split; simpl; [done|done|]. exists L, []. split; [done|]. split; [done|simpl; lia].
  - intros t' [Hok' Hg' _] Hl' E'. apply HQ; [done|by etrans|done|done].
Qed.

(** ** The property *)

(** C14. [run_test] passes: started with an empty heap and at least one free
    chunk of 4 MB, on any table of 1000 sizes of up to 2048 bytes whose blocks
    need fewer than 32 slabs and never end a round with a slab fetched in
    advance (both computed by [rooms]), it runs to its end: no allocation
    fails, no assertion fails, in particular the second round of allocations
    gets exactly the addresses of the first one, and the heap is empty again. *)
Theorem run_test_replays l t x :
  let ks := size_to_slab_order <$> take 1000 l in
  slab_ok (t_slab t) ∅ ∅ → top_block (bud (t_slab t)) x → length (allocation t) = 1000%nat → length (allocation_ t) = 1000%nat →
  1000 ≤ Z.of_nat (length l) → Forall (λ n, 0 < n ≤ 2 ^ 11) (take 1000 l) → ((rooms ks).2 < 32)%nat → no_spare (rooms ks).1 →
  ∃ t', run_test l t = Ok (tt, t') ∧ slab_ok (t_slab t') ∅ ∅ ∧ allocation_ t' = allocation t'.
Proof.
  intros ks Hok Hx H1 H2 Hl Hs Hf Hsp. pose proof (slab_ok_buddy _ _ _ Hok) as HB.
  assert (∃ L, lists (bud (t_slab t)) L) as [L HL] by (destruct HB as (C & L & HR & _); exists L; by eapply rep_lists).
  assert (wp (run_test l) t (λ _ t', slab_ok (t_slab t') ∅ ∅ ∧ allocation_ t' = allocation t')) as Hw.
  { apply (wp_run_test (bud (t_slab t)) L x HB HL Hx l Hl Hs Hf Hsp); [|done|done|].
    - split; [done|done|]. exists L, []. split; [done|]. split; [done|simpl; lia].
    - intros t' [Hok' _ _] _ E'. done. }
  destruct (proj1 (wp_inv _ _ _) Hw) as ([] & t' & E & H). by exists t'.
Qed.

Lemma run_test_replays_witness : ∃ t t', run_test sizes t = Ok (tt, t') ∧ slab_ok (t_slab t') ∅ ∅ ∧ allocation_ t' = allocation t'.
Proof.
  destruct demo_slab as (st & Hok & Hn). exists (mk_test st (replicate 1000 0) (replicate 1000 0)).
  apply (run_test_replays sizes (mk_test st (replicate 1000 0) (replicate 1000 0)) (page_num (bud st) - 2 ^ 10)).
  - exact Hok.
  - apply last_top; [exact (buddy_ok_region _ _ (slab_ok_buddy _ _ _ Hok))|]. rewrite Hn. vm_compute. congruence.
  - exact (length_replicate 1000 0).
  - exact (length_replicate 1000 0).
  - vm_compute. congruence.
  - exact sizes_ok.
  - exact sizes_few.
  - exact sizes_spare.
Defined.
