(* ===== verification/Printk.v ===== *)
(** * Formatted output: [lib/printk.c]

    Characters are bytes (0 to 255).  A C string is modelled by the list of its
    bytes; the format string keeps its terminating zero, so that reading past
    it is a fault.  The variadic arguments are a list of 64-bit slots, and the
    union [u] of [simple_vsprintf] is one 64-bit little-endian word of which a
    store through a narrow member changes only the low bits.  Characters go to
    the console, the interface [Console] that the UART driver implements, or,
    when [out] is given, to a buffer. *)

From S2P Require Import Prelude Macro Utils.

(** What [printk] needs from the console: [con_send], the driver's [uart_send], sends one byte. *)
Class Console (S : Type) : Type := {
  con_send : Z → M S unit;
  sent : S → list Z;
  con_ok : S → Prop;
  con_send_spec : ∀ s c, con_ok s → wp (con_send c) s (λ _ s', con_ok s' ∧ sent s' = sent s ++ [c])
}.

Definition PRINT_BUF_LEN : Z := 64.
Definition PAD_ZERO : Z := 1.
Definition PAD_RIGHT : Z := 2.

Record pstate (S : Type) : Type := mk_pstate {
  con : S;         (* the console *)
  obuf : list Z;   (* what was stored through [out] *)
  smem : bytes     (* where [%s] arguments live *)
}.
Arguments mk_pstate {S}.
Arguments con {S}.
Arguments obuf {S}.
Arguments smem {S}.

Definition s16 (x : Z) : Z := (x + 2 ^ 15) mod 2 ^ 16 - 2 ^ 15.
Definition s8 (x : Z) : Z := (x + 2 ^ 7) mod 2 ^ 8 - 2 ^ 7.

(** Characters *)
Definition c_minus : Z := 45.
Definition c_space : Z := 32.
Definition c_0 : Z := 48.
Definition c_a : Z := 97.
Definition c_A : Z := 65.
Definition c_pct : Z := 37.
Definition c_nl : Z := 10.
Definition c_cr : Z := 13.

Section printk.
Context {S : Type} `{!Console S}.
Notation PM := (M (pstate S)).

(** [out] is [true] when the pointer is not [NULL]. *)
Definition simple_outputchar (out : bool) (c : Z) : PM unit :=
  if out then modify (λ st, mk_pstate (con st) (obuf st ++ [c]) (smem st))
  else zoom con (λ s st, mk_pstate s (obuf st) (smem st)) (con_send c).

(** [for (; width > 0; --width) { simple_outputchar(out, c); ++pc; }] *)
Fixpoint output_pad (n : nat) (out : bool) (c : Z) : PM unit :=
  match n with
  | O => mret tt
  | Datatypes.S n' => simple_outputchar out c ;; output_pad n' out c
  end.

Fixpoint output_string (out : bool) (string : list Z) : PM unit :=
  match string with
  | [] => mret tt
  | c :: r => simple_outputchar out c ;; output_string out r
  end.

Definition prints (out : bool) (string : list Z) (width flags : Z) : PM Z :=
  let len := Z.of_nat (length string) in
  let padchar := if (width >? 0) && negb (Z.land flags PAD_ZERO =? 0) then c_0 else c_space in
  let width := if width >? 0 then (if len >=? width then 0 else width - len) else width in
  let n := Z.to_nat width in
  if Z.land flags PAD_RIGHT =? 0 then
    output_pad n out padchar ;;
    output_string out string ;;
    mret (Z.of_nat n + len)
  else
    output_string out string ;;
    output_pad n out padchar ;;
    mret (len + Z.of_nat n).

(** [*--s = c] in [print_buf], whose last byte is the terminator: [s] is the
    string from the pointer on, and there is room for 63 characters. *)
Definition push (c : Z) (s : list Z) : PM (list Z) :=
  if Z.of_nat (length s) >=? PRINT_BUF_LEN - 1 then stop HFault else mret (c :: s).

(** [while (u) { ... }]: a 64-bit [u] has at most 64 digits. *)
Fixpoint digit_loop (fuel : nat) (u base letbase : Z) (s : list Z) : PM (list Z) :=
  if u =? 0 then mret s
  else
    match fuel with
    | O => stop HFuel
    | Datatypes.S fuel' =>
        let t := u mod base in
        let t := if t >=? 10 then t + (letbase - c_0 - 10) else t in
        s ← push (t + c_0) s;
        digit_loop fuel' (u / base) base letbase s
    end.

Definition simple_outputi (out : bool) (i base sign width flags letbase : Z) : PM Z :=
  if i =? 0 then prints out [c_0] width flags
  else
    let neg := negb (sign =? 0) && (base =? 10) && (i <? 0) in
    let u := if neg then u64 (- i) else u64 i in
    s ← digit_loop 64 u base letbase [];
    if neg then
      if negb (width =? 0) && negb (Z.land flags PAD_ZERO =? 0) then
        simple_outputchar out c_minus ;;
        n ← prints out s (width - 1) flags;
        mret (1 + n)
      else
        s ← push c_minus s;
        prints out s width flags
    else prints out s width flags.

(** [*format] *)
Definition peek (f : list Z) : PM Z := match f with c :: _ => mret c | [] => stop HFault end.

(** [va_arg]: the next slot *)
Definition va_arg (ap : list Z) : PM (Z * list Z) := match ap with v :: r => mret (v, r) | [] => stop HFault end.

(** A store of [bits] bits of [v] into the union *)
Definition store (bits u v : Z) : Z := u - u mod 2 ^ bits + v mod 2 ^ bits.

(** The bytes of the string at [p], up to its terminator *)
Fixpoint get_string (fuel : nat) (p : Z) : M bytes (list Z) :=
  match fuel with
  | O => stop HFuel
  | Datatypes.S fuel' => c ← ld8 p; if c =? 0 then mret [] else r ← get_string fuel' (p + 1); mret (c :: r)
  end.
Definition string_at (p : Z) : PM (list Z) := zoom smem (λ m st, mk_pstate (con st) (obuf st) m) (fuel ← mem_fuel; get_string fuel p).

(** "(null)" *)
Definition null_string : list Z := [40; 110; 117; 108; 108; 41].

Fixpoint skip_zeros (f : list Z) (flags : Z) : list Z * Z :=
  match f with
  | c :: r => if c =? c_0 then skip_zeros r (Z.lor flags PAD_ZERO) else (f, flags)
  | [] => (f, flags)
  end.

Fixpoint width_digits (f : list Z) (width : Z) : list Z * Z :=
  match f with
  | c :: r => if (c_0 <=? c) && (c <=? c_0 + 9) then width_digits r (s32 (s32 (width * 10) + (c - c_0))) else (f, width)
  | [] => (f, width)
  end.

(** One integer conversion: the bits that [va_arg] stores into the union, the
    member that is printed (converted to [long]), base, sign and first letter. *)
Record conv : Type := mk_conv { cv_bits : Z; cv_read : Z → Z; cv_base : Z; cv_sign : Z; cv_let : Z }.

Definition u_u (u : Z) : Z := u mod 2 ^ 32.

(** [%d %b %u %p %x %X] *)
Definition conv_plain (c : Z) : option conv :=
  if c =? 100 then Some (mk_conv 32 s32 10 1 c_a)
  else if c =? 98 then Some (mk_conv 32 s32 2 1 c_a)
  else if c =? 117 then Some (mk_conv 32 u_u 10 0 c_a)
  else if c =? 112 then Some (mk_conv 64 s64 16 0 c_a)
  else if c =? 120 then Some (mk_conv 32 u_u 16 0 c_a)
  else if c =? 88 then Some (mk_conv 32 u_u 16 0 c_A)
  else None.
(** [%ld %lu %lx %lX], and the same after [%ll] *)
Definition conv_l (c : Z) : option conv :=
  if c =? 100 then Some (mk_conv 64 s64 10 1 c_a)
  else if c =? 117 then Some (mk_conv 64 s64 10 0 c_a)
  else if c =? 120 then Some (mk_conv 64 s64 16 0 c_a)
  else if c =? 88 then Some (mk_conv 64 s64 16 0 c_A)
  else None.
(** [%hd %hu %hx %hX]: the unsigned ones print [u.lli] *)
Definition conv_h (c : Z) : option conv :=
  if c =? 100 then Some (mk_conv 16 s16 10 1 c_a)
  else if c =? 117 then Some (mk_conv 16 s64 10 0 c_a)
  else if c =? 120 then Some (mk_conv 16 s64 16 0 c_a)
  else if c =? 88 then Some (mk_conv 16 s64 16 0 c_A)
  else None.
Definition conv_hh (c : Z) : option conv :=
  if c =? 100 then Some (mk_conv 8 s8 10 1 c_a)
  else if c =? 117 then Some (mk_conv 8 s64 10 0 c_a)
  else if c =? 120 then Some (mk_conv 8 s64 16 0 c_a)
  else if c =? 88 then Some (mk_conv 8 s64 16 0 c_A)
  else None.

(** The rest of the format from the last character of the directive on, the
    remaining arguments, the union and the number of characters. *)
Definition run_conv (out : bool) (k : option conv) (f ap : list Z) (u width flags : Z) : PM (list Z * list Z * Z * Z) :=
  match k with
  | None => mret (f, ap, u, 0)
  | Some k =>
      '(v, ap) ← va_arg ap;
      let u := store (cv_bits k) u v in
      n ← simple_outputi out (cv_read k u) (cv_base k) (cv_sign k) width flags (cv_let k);
      mret (f, ap, u, n)
  end.

(** [switch ( *format )] *)
Definition directive (out : bool) (f ap : list Z) (u width flags : Z) : PM (list Z * list Z * Z * Z) :=
  c ← peek f;
  if c =? 99 then
    '(v, ap) ← va_arg ap;
    let u := store 8 u v in
    let ch := u mod 2 ^ 8 in
    n ← prints out (if ch =? 0 then [] else [ch]) width flags;
    mret (f, ap, u, n)
  else if c =? 115 then
    '(v, ap) ← va_arg ap;
    let u := store 64 u v in
    s ← (if u =? NULL then mret null_string else string_at u);
    n ← prints out s width flags;
    mret (f, ap, u, n)
  else if c =? 108 then
    let f := tl f in
    c ← peek f;
    if c =? 108 then
      let f := tl f in
      c ← peek f;
      run_conv out (conv_l c) f ap u width flags
    else run_conv out (conv_l c) f ap u width flags
  else if c =? 104 then
    let f := tl f in
    c ← peek f;
    if c =? 104 then
      let f := tl f in
      c ← peek f;
      run_conv out (conv_hh c) f ap u width flags
    else run_conv out (conv_h c) f ap u width flags
  else run_conv out (conv_plain c) f ap u width flags.

Definition flush (out : bool) (pc : Z) : PM Z :=
  (if out then modify (λ st, mk_pstate (con st) (obuf st ++ [0]) (smem st)) else mret tt) ;; mret pc.

(** The [for] loop; every round moves the format pointer forward. *)
Fixpoint simple_vsprintf_loop (fuel : nat) (out : bool) (f ap : list Z) (u pc : Z) : PM Z :=
  match fuel with
  | O => stop HFuel
  | Datatypes.S fuel' =>
      c ← peek f;
      if c =? 0 then flush out pc
      else if c =? c_pct then
        let f := tl f in
        c ← peek f;
        if c =? 0 then flush out pc
        else if c =? c_pct then
          simple_outputchar out c ;;
          simple_vsprintf_loop fuel' out (tl f) ap u (pc + 1)
        else
          let '(f, flags) := if c =? c_minus then (tl f, PAD_RIGHT) else (f, 0) in
          let '(f, flags) := skip_zeros f flags in
          c ← peek f;
          '(f, ap, width) ← (if c =? 42 then
                               '(v, ap) ← va_arg ap;
                               mret (tl f, ap, s32 v)
                             else let '(f, width) := width_digits f 0 in mret (f, ap, width));
          '(f, ap, u, n) ← directive out f ap u width flags;
          simple_vsprintf_loop fuel' out (tl f) ap u (pc + n)
      else
        (if c =? c_nl then simple_outputchar out c_cr else mret tt) ;;
        simple_outputchar out c ;;
        simple_vsprintf_loop fuel' out (tl f) ap u (pc + 1)
  end.

Definition simple_vsprintf (out : bool) (format ap : list Z) (u0 : Z) : PM Z :=
  simple_vsprintf_loop (length format) out format ap u0 0.

(** [u0] is what the uninitialised union happens to hold. *)
Definition printk (fmt ap : list Z) (u0 : Z) : PM unit :=
  simple_vsprintf false fmt ap u0 ;; mret tt.
End printk.
