(* ===== verification/PrintkSpec.v ===== *)
(** * What [printk] prints

    Reference output for fields and integers, formats as lists of pieces, what
    such a format means ([renders], which does not refer to the printer's
    conversions), and the lemmas that the printer produces it. *)
From S2P Require Import Prelude Macro Utils Printk.

(** ** Reference output *)

(** A string in a field of [width] characters. *)
Definition padded (s : list Z) (width flags : Z) : list Z :=
  let n := Z.to_nat (width - Z.of_nat (length s)) in
  let fill := replicate n (if Z.land flags PAD_ZERO =? 0 then c_space else c_0) in
  if Z.land flags PAD_RIGHT =? 0 then fill ++ s else s ++ fill.

Definition digit_char (letbase t : Z) : Z := if t >=? 10 then t + (letbase - c_0 - 10) + c_0 else t + c_0.
Definition digit_value (letbase c : Z) : Z := if c >=? letbase then c - letbase + 10 else c - c_0.
(** The number a string of digits denotes. *)
Definition parse (base letbase : Z) (l : list Z) : Z := foldl (λ v c, v * base + digit_value letbase c) 0 l.

Fixpoint numeral_loop (fuel : nat) (base letbase u : Z) (acc : list Z) : list Z :=
  match fuel with
  | O => acc
  | S fuel' => if u =? 0 then acc else numeral_loop fuel' base letbase (u / base) (digit_char letbase (u mod base) :: acc)
  end.
Definition numeral (base letbase u : Z) : list Z := if u =? 0 then [c_0] else numeral_loop 64 base letbase u [].

(** What [simple_outputi] prints for [i]. *)
Definition int_string (i base sign width flags letbase : Z) : list Z :=
  let neg := negb (sign =? 0) && (base =? 10) && (i <? 0) in
  let ds := numeral base letbase (if neg then - i else u64 i) in
  if neg then
    if negb (width =? 0) && negb (Z.land flags PAD_ZERO =? 0) then c_minus :: padded ds (width - 1) flags
    else padded (c_minus :: ds) width flags
  else padded ds width flags.

(** ** Numerals *)
Section numerals.
Context (base letbase : Z) (Hbase : 2 ≤ base ≤ 36) (Hlet : letbase = c_a ∨ letbase = c_A).

Lemma digit_roundtrip t : 0 ≤ t < base → digit_value letbase (digit_char letbase t) = t.
Proof.
  intros Ht. unfold digit_char, digit_value, c_0. assert (letbase = 97 ∨ letbase = 65) as Hl by exact Hlet.
  rewrite !Z.geb_leb. destruct (Z.leb_spec 10 t) as [H1|H1]; case_cmp as H2; lia.
Qed.

Lemma numeral_loop_parse fuel u acc v0 : 0 ≤ u < base ^ Z.of_nat fuel → v0 = 0 →
  foldl (λ v c, v * base + digit_value letbase c) v0 (numeral_loop fuel base letbase u acc) =
  foldl (λ v c, v * base + digit_value letbase c) u acc.
Proof.
  intros Hu ->. revert u acc Hu. induction fuel as [|fuel IH]; intros u acc Hu; cbn [numeral_loop].
  { change (base ^ Z.of_nat 0) with 1 in Hu. by assert (u = 0) as -> by lia. }
  case_cmp as E; [by subst u|]. replace (Z.of_nat (S fuel)) with (Z.of_nat fuel + 1) in Hu by lia.
  rewrite Z.pow_add_r, Z.pow_1_r in Hu by lia. rewrite IH.
  - cbn [foldl]. rewrite digit_roundtrip by (apply Z.mod_pos_bound; lia). pose proof (Z.div_mod u base ltac:(lia)). f_equal. lia.
  - split; [apply Z.div_pos; lia|]. apply Z.div_lt_upper_bound; lia.
Qed.

Lemma numeral_loop_length fuel n u acc : 0 ≤ u < base ^ Z.of_nat n → (length (numeral_loop fuel base letbase u acc) ≤ length acc + n)%nat.
Proof.
  revert n u acc. induction fuel as [|fuel IH]; intros n u acc Hu; cbn [numeral_loop]; [lia|]. case_cmp as E; [lia|].
  destruct n as [|n]; [change (base ^ Z.of_nat 0) with 1 in Hu; lia|].
  replace (Z.of_nat (S n)) with (Z.of_nat n + 1) in Hu by lia. rewrite Z.pow_add_r, Z.pow_1_r in Hu by lia.
  specialize (IH n (u / base) (digit_char letbase (u mod base) :: acc)). simpl in IH. etrans; [apply IH|lia].
  split; [apply Z.div_pos; lia|]. apply Z.div_lt_upper_bound; lia.
Qed.

Lemma pow_64_le b : 2 ≤ b → 2 ^ 64 ≤ b ^ Z.of_nat 64.
Proof. intros. apply Z.pow_le_mono_l. lia. Qed.

Lemma parse_numeral u : 0 ≤ u < 2 ^ 64 → parse base letbase (numeral base letbase u) = u.
Proof.
  intros Hu. unfold parse, numeral. case_cmp as E.
  - subst u. cbn [foldl]. unfold digit_value, c_0. assert (letbase = 97 ∨ letbase = 65) as Hl by exact Hlet. case_cmp; lia.
  - rewrite numeral_loop_parse; [done| |done]. pose proof (pow_64_le base ltac:(lia)). lia.
Qed.

(** A numeral starts with a digit other than [0]. *)
Lemma numeral_loop_head fuel u acc c l : 0 ≤ u < base ^ Z.of_nat fuel → u ≠ 0 → numeral_loop fuel base letbase u acc = c :: l → c ≠ c_0.
Proof.
  revert u acc. induction fuel as [|fuel IH]; intros u acc Hu Hne; cbn [numeral_loop].
  { change (base ^ Z.of_nat 0) with 1 in Hu. lia. }
  rewrite (proj2 (Z.eqb_neq _ _)) by done. replace (Z.of_nat (S fuel)) with (Z.of_nat fuel + 1) in Hu by lia.
  rewrite Z.pow_add_r, Z.pow_1_r in Hu by lia. pose proof (Z.div_mod u base ltac:(lia)) as Hdm. pose proof (Z.mod_pos_bound u base ltac:(lia)) as Hm.
  destruct (decide (u / base = 0)) as [E|E].
  - rewrite E. intros Hn. assert (digit_char letbase (u mod base) :: acc = c :: l) as Hc by (by destruct fuel).
    injection Hc as <- _. unfold digit_char, c_0. assert (letbase = 97 ∨ letbase = 65) as Hl by exact Hlet. case_cmp; lia.
  - apply IH; [|done]. split; [apply Z.div_pos; lia|]. apply Z.div_lt_upper_bound; lia.
Qed.
End numerals.

Lemma u64_neg i : - 2 ^ 63 ≤ i < 0 → u64 i = i + 2 ^ 64.
Proof. intros. unfold u64. replace i with (i + 2 ^ 64 + (-1) * 2 ^ 64) at 1 by lia. by rewrite Z.mod_add, Z.mod_small by lia. Qed.

(** ** Running the printer *)
Section printk.
Context {S : Type} `{!Console S}.
Implicit Types (st : pstate S).

(** [l] was output and nothing else changed. *)
Definition shown (out : bool) (st : pstate S) (l : list Z) (st' : pstate S) : Prop :=
  con_ok (con st') ∧ smem st' = smem st ∧
  if out then con st' = con st ∧ obuf st' = obuf st ++ l
  else obuf st' = obuf st ∧ sent (con st') = sent (con st) ++ l.

Lemma shown_nil out st : con_ok (con st) → shown out st [] st.
Proof. intros H. unfold shown. rewrite !app_nil_r. by destruct out. Qed.

Lemma shown_trans out st1 st2 st3 l1 l2 : shown out st1 l1 st2 → shown out st2 l2 st3 → shown out st1 (l1 ++ l2) st3.
Proof. unfold shown. destruct out; intros (? & ? & ? & ?) (? & ? & ? & ?); split_and!; try congruence; rewrite app_assoc; congruence. Qed.

Lemma shown_ok out st l st' : shown out st l st' → con_ok (con st').
Proof. by intros []. Qed.

Lemma wp_outputchar out c st (Q : unit → pstate S → Prop) :
  con_ok (con st) → (∀ st', shown out st [c] st' → Q tt st') → wp (simple_outputchar out c) st Q.
Proof.
  intros Hok HQ. unfold simple_outputchar. destruct out.
  - apply wp_modify, HQ. by repeat split.
  - apply wp_zoom. eapply wp_mono; [|by apply con_send_spec]. intros [] s [Hs Hl]. by apply HQ.
Qed.

Lemma wp_output_string out l st (Q : unit → pstate S → Prop) :
  con_ok (con st) → (∀ st', shown out st l st' → Q tt st') → wp (output_string out l) st Q.
Proof.
  revert st Q. induction l as [|c l IH]; intros st Q Hok HQ; cbn [output_string]; [by apply wp_ret, HQ, shown_nil|].
  apply wp_bind, wp_outputchar; [done|]. intros st1 H1. apply IH; [by eapply shown_ok|]. intros st2 H2.
  apply HQ. change (c :: l) with ([c] ++ l). by eapply shown_trans.
Qed.

Lemma wp_output_pad out n c st (Q : unit → pstate S → Prop) :
  con_ok (con st) → (∀ st', shown out st (replicate n c) st' → Q tt st') → wp (output_pad n out c) st Q.
Proof.
  revert st Q. induction n as [|n IH]; intros st Q Hok HQ; cbn [output_pad]; [by apply wp_ret, HQ, shown_nil|].
  apply wp_bind, wp_outputchar; [done|]. intros st1 H1. apply IH; [by eapply shown_ok|]. intros st2 H2.
  apply HQ. change (replicate (Datatypes.S n) c) with ([c] ++ replicate n c). by eapply shown_trans.
Qed.

Lemma wp_prints out s width flags st (Q : Z → pstate S → Prop) :
  con_ok (con st) →
  (∀ st', shown out st (padded s width flags) st' → Q (Z.of_nat (length (padded s width flags))) st') →
  wp (prints out s width flags) st Q.
Proof.
  intros Hok HQ. unfold prints, padded in *. set (len := Z.of_nat (length s)) in *.
  set (pc := if (width >? 0) && _ then c_0 else c_space). set (n := Z.to_nat (if width >? 0 then _ else width)).
  assert (replicate n pc = replicate (Z.to_nat (width - len)) (if Z.land flags PAD_ZERO =? 0 then c_space else c_0)) as Hfill.
  { subst n pc. rewrite !Z.gtb_ltb, !Z.geb_leb. destruct (Z.ltb_spec 0 width) as [Hw|Hw]; cbn [andb].
    - destruct (Z.land flags PAD_ZERO =? 0); cbn [negb]; (destruct (Z.leb_spec width len); [|done]);
        by replace (Z.to_nat (width - len)) with 0%nat by lia.
    - by replace (Z.to_nat width) with 0%nat by lia; replace (Z.to_nat (width - len)) with 0%nat by lia. }
  assert (n = Z.to_nat (width - len)) as Hn by (apply (f_equal length) in Hfill; by rewrite !length_replicate in Hfill).
  rewrite <- Hfill in HQ. destruct (Z.land flags PAD_RIGHT =? 0).
  - apply wp_bind, wp_output_pad; [done|]. intros st1 H1. apply wp_bind, wp_output_string; [by eapply shown_ok|]. intros st2 H2.
    apply wp_ret. rewrite length_app, length_replicate, Nat2Z.inj_add in HQ. apply HQ. by eapply shown_trans.
  - apply wp_bind, wp_output_string; [done|]. intros st1 H1. apply wp_bind, wp_output_pad; [by eapply shown_ok|]. intros st2 H2.
    apply wp_ret. rewrite length_app, length_replicate, Nat2Z.inj_add in HQ. apply HQ. by eapply shown_trans.
Qed.

(** The digits fit the buffer when there are at most [n] of them. *)
Lemma wp_digit_loop fuel n u base letbase s st (Q : list Z → pstate S → Prop) :
  2 ≤ base → 0 ≤ u < base ^ Z.of_nat n → (n ≤ fuel)%nat → (length s + n ≤ 63)%nat →
  Q (numeral_loop fuel base letbase u s) st → wp (digit_loop fuel u base letbase s) st Q.
Proof.
  intros Hb. revert n u s. induction fuel as [|fuel IH]; intros n u s Hu Hn Hl HQ; cbn [digit_loop numeral_loop] in *.
  { assert (n = 0%nat) as -> by lia. change (base ^ Z.of_nat 0) with 1 in Hu. rewrite (proj2 (Z.eqb_eq u 0)) by lia. by apply wp_ret. }
  case_cmp as E; [by apply wp_ret|]. destruct n as [|n]; [change (base ^ Z.of_nat 0) with 1 in Hu; lia|].
  replace (Z.of_nat (Datatypes.S n)) with (Z.of_nat n + 1) in Hu by lia. rewrite Z.pow_add_r, Z.pow_1_r in Hu by lia.
  unfold push, PRINT_BUF_LEN. apply wp_bind. rewrite Z.geb_leb, (proj2 (Z.leb_gt _ _)) by lia. apply wp_ret.
  replace (_ + c_0) with (digit_char letbase (u mod base)) by (unfold digit_char; by destruct (u mod base >=? 10)).
  apply (IH n); [|lia|simpl; lia|done]. split; [apply Z.div_pos; lia|]. apply Z.div_lt_upper_bound; lia.
Qed.

(** ... and overflow it when there are more than 63. *)
Lemma digit_loop_overflow fuel n u base letbase s st :
  2 ≤ base → base ^ Z.of_nat n ≤ u → (n < fuel)%nat → (length s + n = 63)%nat →
  digit_loop fuel u base letbase s st = Halt HFault.
Proof.
  intros Hb. revert n u s. induction fuel as [|fuel IH]; intros n u s Hu Hn Hl; [lia|]. cbn [digit_loop].
  pose proof (Z.pow_pos_nonneg base (Z.of_nat n) ltac:(lia) ltac:(lia)). rewrite (proj2 (Z.eqb_neq _ _)) by lia.
  unfold push, PRINT_BUF_LEN, mbind, M_bind. rewrite Z.geb_leb. case_cmp as Hc; [done|]. cbn.
  destruct n as [|n]; [lia|]. replace (Z.of_nat (Datatypes.S n)) with (Z.of_nat n + 1) in Hu by lia.
  rewrite Z.pow_add_r, Z.pow_1_r in Hu by lia. apply (IH n); [|lia|simpl; lia]. apply Z.div_le_lower_bound; lia.
Qed.

(** The longest numeral of a base: 64 bits have at most 32 digits from base 4 on. *)
Lemma digits_of_base base u : 4 ≤ base → 0 ≤ u < 2 ^ 64 → 0 ≤ u < base ^ Z.of_nat 32.
Proof. intros Hb Hu. pose proof (Z.pow_le_mono_l 4 base (Z.of_nat 32) ltac:(lia)). change (4 ^ Z.of_nat 32) with (2 ^ 64) in *. lia. Qed.

Lemma wp_outputi out i base sign width flags letbase st (Q : Z → pstate S → Prop) :
  con_ok (con st) → 4 ≤ base ≤ 36 → - 2 ^ 63 ≤ i < 2 ^ 63 →
  (∀ st', shown out st (int_string i base sign width flags letbase) st' →
          Q (Z.of_nat (length (int_string i base sign width flags letbase))) st') →
  wp (simple_outputi out i base sign width flags letbase) st Q.
Proof.
  intros Hok Hb Hi HQ. unfold simple_outputi, int_string in *. destruct (Z.eqb_spec i 0) as [->|Hne].
  { rewrite andb_false_r in HQ. change (u64 0) with 0 in HQ. by apply wp_prints. }
  set (neg := negb (sign =? 0) && (base =? 10) && (i <? 0)) in *.
  assert ((if neg then u64 (- i) else u64 i) = (if neg then - i else u64 i)) as Eu.
  { subst neg. destruct (Z.ltb_spec i 0) as [Hlt|]; rewrite ?andb_false_r; [|done]. rewrite (u64_small (- i)) by lia. done. }
  rewrite Eu. set (u := if neg then - i else u64 i) in *.
  assert (0 < u < 2 ^ 64) as Hu.
  { subst u neg. destruct (Z.ltb_spec i 0) as [Hlt|]; rewrite ?andb_false_r, ?andb_true_r.
    - destruct (negb (sign =? 0) && (base =? 10)); cbv iota; [lia|]. rewrite u64_neg by lia. lia.
    - rewrite u64_small by lia. lia. }
  pose proof (digits_of_base base u ltac:(lia) ltac:(lia)) as H32.
  assert (numeral base letbase u = numeral_loop 64 base letbase u []) as En by (unfold numeral; by rewrite (proj2 (Z.eqb_neq _ _)) by lia).
  pose proof (numeral_loop_length base letbase ltac:(lia) 64 32 u [] H32) as Hlen. change (length [] + 32)%nat with 32%nat in Hlen. rewrite En in HQ.
  apply wp_bind. eapply (wp_digit_loop 64 32); [lia|exact H32|lia|cbn [length]; lia|]. set (ds := numeral_loop 64 base letbase u []) in *.
  destruct neg; [|by apply wp_prints]. destruct (negb (width =? 0) && negb (Z.land flags PAD_ZERO =? 0)).
  - apply wp_bind, wp_outputchar; [done|]. intros st1 H1. apply wp_bind, wp_prints; [by eapply shown_ok|]. intros st2 H2.
    apply wp_ret. cbn [length] in HQ. replace (1 + Z.of_nat (length (padded ds (width - 1) flags))) with
      (Z.of_nat (Datatypes.S (length (padded ds (width - 1) flags)))) by lia. apply HQ. by apply (shown_trans out st st1 st2 [c_minus]).
  - apply wp_bind. unfold push, PRINT_BUF_LEN. rewrite Z.geb_leb, (proj2 (Z.leb_gt _ _)) by lia. by apply wp_ret, wp_prints.
Qed.

(** In base 2 the numbers that are not negative fit. *)
Lemma wp_outputi_bin out i sign width flags letbase st (Q : Z → pstate S → Prop) :
  con_ok (con st) → 0 ≤ i < 2 ^ 63 →
  (∀ st', shown out st (int_string i 2 sign width flags letbase) st' →
          Q (Z.of_nat (length (int_string i 2 sign width flags letbase))) st') →
  wp (simple_outputi out i 2 sign width flags letbase) st Q.
Proof.
  intros Hok Hi HQ. unfold simple_outputi, int_string in *. change (2 =? 10) with false in *. rewrite andb_false_r in *. cbn [andb] in *. rewrite u64_small in * by lia.
  destruct (Z.eqb_spec i 0) as [->|Hne]; [by apply wp_prints|]. unfold numeral in HQ. rewrite (proj2 (Z.eqb_neq i 0)) in HQ by done.
  apply wp_bind. eapply (wp_digit_loop 64 63); [lia|change (Z.of_nat 63) with 63; lia|lia|cbn [length]; lia|]. by apply wp_prints.
Qed.
End printk.

(** ** Formats as lists of pieces *)

(** [-], [0] and a width in decimal digits. *)
Record field : Type := mk_field { f_right : bool; f_zero : bool; f_width : list Z }.
Definition no_field : field := mk_field false false [].

Inductive piece : Type :=
| Lit (c : Z)
| Percent
| Num (fl : field) (longs : nat) (c : Z)
| Str (fl : field)
| Chr (fl : field).

Definition enc_field (fl : field) : list Z :=
  (if f_right fl then [c_minus] else []) ++ (if f_zero fl then [c_0] else []) ++ f_width fl.
Definition enc_piece (p : piece) : list Z :=
  match p with
  | Lit c => [c]
  | Percent => [c_pct; c_pct]
  | Num fl longs c => c_pct :: enc_field fl ++ replicate longs 108 ++ [c]
  | Str fl => c_pct :: enc_field fl ++ [115]
  | Chr fl => c_pct :: enc_field fl ++ [99]
  end.
Definition enc_format (ps : list piece) : list Z := concat (enc_piece <$> ps) ++ [0].

Definition flags_of (fl : field) : Z := Z.lor (if f_right fl then PAD_RIGHT else 0) (if f_zero fl then PAD_ZERO else 0).
Definition width_of (fl : field) : Z := parse 10 c_a (f_width fl).

Definition field_ok (fl : field) : Prop :=
  Forall (λ c, c_0 ≤ c ≤ c_0 + 9) (f_width fl) ∧ head (f_width fl) ≠ Some c_0 ∧ width_of fl < 2 ^ 31.

Definition conv_of (longs : nat) (c : Z) : option conv := match longs with O => conv_plain c | _ => conv_l c end.
Definition conv_value (k : conv) (v : Z) : Z := cv_read k (v mod 2 ^ cv_bits k).

(** ** What a format means

    The meaning of a conversion, apart from the printer: how many bits of the
    argument count, whether they are signed, and how the value is written.  [d]
    is signed decimal, [u] unsigned decimal, [x] and [X] hexadecimal in lower
    and upper case, of an [int] (32 bits), or of 64 bits with one or two [l]; [p] is
    [x] of 64 bits; [b] is binary, of an [int] that is not negative. *)
Record num_spec : Type := mk_spec { ns_bits : Z; ns_signed : bool; ns_base : Z; ns_upper : bool }.

Definition spec_of (longs : nat) (c : Z) : option num_spec :=
  let w := if (longs =? 0)%nat then 32 else 64 in
  if c =? 100 then Some (mk_spec w true 10 false)
  else if c =? 117 then Some (mk_spec w false 10 false)
  else if c =? 120 then Some (mk_spec w false 16 false)
  else if c =? 88 then Some (mk_spec w false 16 true)
  else if (c =? 112) && (longs =? 0)%nat then Some (mk_spec 64 false 16 false)
  else if (c =? 98) && (longs =? 0)%nat then Some (mk_spec 32 true 2 false)
  else None.

(** The number that the low bits of an argument stand for (two's complement). *)
Definition spec_value (q : num_spec) (v : Z) : Z :=
  let x := v mod 2 ^ ns_bits q in if ns_signed q && (2 ^ (ns_bits q - 1) <=? x) then x - 2 ^ ns_bits q else x.

(** A string in a field: filled up with blanks or zeros, on the left or on the right. *)
Definition in_field (right zero : bool) (width : Z) (s : list Z) : list Z :=
  let fill := replicate (Z.to_nat (width - Z.of_nat (length s))) (if zero then 48 else 32) in
  if right then s ++ fill else fill ++ s.

(** A number in its field: the digits, after a minus sign for a negative one;
    when a width is filled with zeros the sign stands before them. *)
Definition num_text (q : num_spec) (v : Z) (fl : field) : list Z :=
  let x := spec_value q v in
  let w := width_of fl in
  let ds := numeral (ns_base q) (if ns_upper q then 65 else 97) (Z.abs x) in
  if x <? 0 then
    if f_zero fl && (0 <? w) then 45 :: in_field (f_right fl) true (w - 1) ds
    else in_field (f_right fl) (f_zero fl) w (45 :: ds)
  else in_field (f_right fl) (f_zero fl) w ds.

(** [renders m ps args text]: what the pieces stand for, strings in memory [m]. *)
Inductive renders (m : bytes) : list piece → list Z → list Z → Prop :=
| r_nil args : renders m [] args []
| r_lit c ps args o : c ≠ 0 → c ≠ c_pct → renders m ps args o →
    renders m (Lit c :: ps) args ((if c =? c_nl then [c_cr] else []) ++ [c] ++ o)
| r_percent ps args o : renders m ps args o → renders m (Percent :: ps) args ([c_pct] ++ o)
| r_num fl longs c q v ps args o : field_ok fl → (longs ≤ 2)%nat → spec_of longs c = Some q →
    (ns_base q = 2 → 0 ≤ spec_value q v) → 0 ≤ v < 2 ^ 64 → renders m ps args o →
    renders m (Num fl longs c :: ps) (v :: args) (num_text q v fl ++ o)
| r_str fl v l ps args o : field_ok fl → 0 < v < 2 ^ 64 → cstr m v l → renders m ps args o →
    renders m (Str fl :: ps) (v :: args) (in_field (f_right fl) (f_zero fl) (width_of fl) l ++ o)
| r_null fl ps args o : field_ok fl → renders m ps args o →
    renders m (Str fl :: ps) (NULL :: args) (in_field (f_right fl) (f_zero fl) (width_of fl) null_string ++ o)
| r_chr fl v ps args o : field_ok fl → 0 < v < 2 ^ 8 → renders m ps args o →
    renders m (Chr fl :: ps) (v :: args) (in_field (f_right fl) (f_zero fl) (width_of fl) [v] ++ o).

(** ** The printer's conversions are the ones that are meant *)
Lemma padded_field fl s w : padded s w (flags_of fl) = in_field (f_right fl) (f_zero fl) w s.
Proof. unfold padded, in_field, flags_of. by destruct (f_right fl), (f_zero fl). Qed.

Lemma foldl_digits_nonneg l v : 0 ≤ v → Forall (λ c, c_0 ≤ c ≤ c_0 + 9) l → 0 ≤ foldl (λ v c, v * 10 + digit_value c_a c) v l.
Proof.
  intros Hv Hl. revert v Hv. induction Hl as [|x l Hx _ IH]; intros v Hv; cbn [foldl]; [lia|]. apply IH. unfold c_0 in Hx.
  assert (0 ≤ digit_value c_a x) by (unfold digit_value, c_a, c_0; case_cmp; lia). lia.
Qed.

Lemma width_of_nonneg fl : field_ok fl → 0 ≤ width_of fl.
Proof. intros (Hd & _). by apply foldl_digits_nonneg. Qed.

Lemma s32_value v : s32 (v mod 2 ^ 32) = spec_value (mk_spec 32 true 10 false) v.
Proof.
  unfold spec_value. cbn [ns_bits ns_signed andb]. change (32 - 1) with 31. pose proof (Z.mod_pos_bound v (2 ^ 32) ltac:(lia)) as Hx.
  set (x := v mod 2 ^ 32) in *. unfold s32. destruct (Z.leb_spec (2 ^ 31) x); [|rewrite Z.mod_small; lia].
  rewrite <- (Z.mod_unique_pos (x + 2 ^ 31) (2 ^ 32) 1 (x - 2 ^ 31)); lia.
Qed.

Lemma s64_value v : s64 (v mod 2 ^ 64) = spec_value (mk_spec 64 true 10 false) v.
Proof.
  unfold spec_value. cbn [ns_bits ns_signed andb]. change (64 - 1) with 63. pose proof (Z.mod_pos_bound v (2 ^ 64) ltac:(lia)) as Hx.
  set (x := v mod 2 ^ 64) in *. unfold s64. destruct (Z.leb_spec (2 ^ 63) x); [|rewrite Z.mod_small; lia].
  rewrite <- (Z.mod_unique_pos (x + 2 ^ 63) (2 ^ 64) 1 (x - 2 ^ 63)); lia.
Qed.

Lemma signed_text w v fl : w = 32 ∨ w = 64 → field_ok fl →
  int_string (spec_value (mk_spec w true 10 false) v) 10 1 (width_of fl) (flags_of fl) c_a = num_text (mk_spec w true 10 false) v fl.
Proof.
  intros Hw Hf. pose proof (width_of_nonneg fl Hf) as Hwd. unfold num_text, int_string. cbn [ns_base ns_upper].
  assert (- 2 ^ 63 ≤ spec_value (mk_spec w true 10 false) v < 2 ^ 63) as Hx.
  { destruct Hw as [-> | -> ]; unfold spec_value; cbn [ns_bits ns_signed andb]; [pose proof (Z.mod_pos_bound v (2 ^ 32))|pose proof (Z.mod_pos_bound v (2 ^ 64))]; case_cmp; lia. }
  set (x := spec_value _ v) in *. cbn [negb Z.eqb andb]. change (10 =? 10) with true. cbn [andb]. rewrite !padded_field.
  destruct (Z.ltb_spec x 0); [|by rewrite u64_small, Z.abs_eq by lia]. rewrite Z.abs_neq by lia. unfold flags_of at 1.
  destruct (f_zero fl) eqn:Ez, (f_right fl); cbn; (destruct (Z.eqb_spec (width_of fl) 0), (Z.ltb_spec 0 (width_of fl)); try lia); done.
Qed.

Lemma unsigned_text w v b (up : bool) fl i : w = 32 ∨ w = 64 → u64 i = v mod 2 ^ w →
  int_string i b 0 (width_of fl) (flags_of fl) (if up then c_A else c_a) = num_text (mk_spec w false b up) v fl.
Proof.
  intros Hw Hi. unfold num_text, int_string, spec_value. cbn [ns_bits ns_signed ns_base ns_upper andb negb Z.eqb]. rewrite padded_field, Hi.
  assert (0 ≤ v mod 2 ^ w) as Hx by (destruct Hw as [-> | -> ]; apply Z.mod_pos_bound; lia).
  rewrite (proj2 (Z.ltb_ge _ _) Hx), Z.abs_eq by done. done.
Qed.

Lemma binary_text v fl : field_ok fl → 0 ≤ spec_value (mk_spec 32 true 2 false) v →
  int_string (spec_value (mk_spec 32 true 10 false) v) 2 1 (width_of fl) (flags_of fl) c_a = num_text (mk_spec 32 true 2 false) v fl.
Proof.
  intros Hf Hx. change (spec_value (mk_spec 32 true 10 false) v) with (spec_value (mk_spec 32 true 2 false) v). unfold num_text, int_string. cbn [ns_base ns_upper].
  assert (spec_value (mk_spec 32 true 2 false) v < 2 ^ 63) as Hb.
  { unfold spec_value. cbn [ns_bits ns_signed andb]. pose proof (Z.mod_pos_bound v (2 ^ 32)). case_cmp; lia. }
  set (x := spec_value _ v) in *. change (2 =? 10) with false. rewrite andb_false_r. cbn [andb]. rewrite padded_field.
  by rewrite (proj2 (Z.ltb_ge _ _) Hx), u64_small, Z.abs_eq by lia.
Qed.

Lemma u64_s64 x : u64 (s64 x) = x mod 2 ^ 64.
Proof. unfold u64, s64. rewrite Zminus_mod_idemp_l. f_equal. lia. Qed.

(** For every conversion with a meaning, the printer has a case that prints it. *)
Lemma conv_is_spec longs c q : spec_of longs c = Some q → ∃ k, conv_of longs c = Some k ∧ (cv_base k = 2 → ns_base q = 2 ∧ ∀ v, conv_value k v = spec_value q v) ∧
  ∀ v fl, 0 ≤ v < 2 ^ 64 → field_ok fl → (ns_base q = 2 → 0 ≤ spec_value q v) →
    int_string (conv_value k v) (cv_base k) (cv_sign k) (width_of fl) (flags_of fl) (cv_let k) = num_text q v fl.
Proof.
  unfold spec_of, conv_of, conv_plain, conv_l, conv_value.
  assert (∀ v, 0 ≤ v < 2 ^ 64 → u64 (u_u (v mod 2 ^ 32)) = v mod 2 ^ 32) as Hu.
  { intros v Hv. unfold u_u. pose proof (Z.mod_pos_bound v (2 ^ 32)). rewrite Z.mod_mod, u64_small by lia. done. }
  assert (∀ v, u64 (s64 (v mod 2 ^ 64)) = v mod 2 ^ 64) as Hs by (intros v; by rewrite u64_s64, Z.mod_mod by lia).
  destruct (Z.eqb_spec c 100) as [->|]; [intros [= <-]; destruct longs; eexists; (split; [reflexivity|split; [done|]]); intros v fl Hv Hf _; cbn [cv_bits cv_read cv_base cv_sign cv_let Nat.eqb];
    [rewrite s32_value|rewrite s64_value]; apply signed_text; tauto|].
  destruct (Z.eqb_spec c 117) as [->|]; [intros [= <-]; destruct longs; eexists; (split; [reflexivity|split; [done|]]); intros v fl Hv Hf _; cbn [cv_bits cv_read cv_base cv_sign cv_let Nat.eqb];
    apply (unsigned_text _ v 10 false); auto|].
  destruct (Z.eqb_spec c 120) as [->|]; [intros [= <-]; destruct longs; eexists; (split; [reflexivity|split; [done|]]); intros v fl Hv Hf _; cbn [cv_bits cv_read cv_base cv_sign cv_let Nat.eqb];
    apply (unsigned_text _ v 16 false); auto|].
  destruct (Z.eqb_spec c 88) as [->|]; [intros [= <-]; destruct longs; eexists; (split; [reflexivity|split; [done|]]); intros v fl Hv Hf _; cbn [cv_bits cv_read cv_base cv_sign cv_let Nat.eqb];
    apply (unsigned_text _ v 16 true); auto|].
  destruct longs; [|rewrite !andb_false_r; done].
  destruct (Z.eqb_spec c 112) as [->|]; [intros [= <-]; eexists; (split; [reflexivity|split; [done|]]); intros v fl Hv Hf _; cbn [cv_bits cv_read cv_base cv_sign cv_let];
    apply (unsigned_text 64 v 16 false); auto|].
  destruct (Z.eqb_spec c 98) as [->|]; [|done]. intros [= <-]. eexists. split; [reflexivity|]. cbn [cv_bits cv_read cv_base cv_sign cv_let ns_base].
  split; [intros _; split; [done|]; intros v; apply s32_value|]. intros v fl Hv Hf H2. rewrite s32_value. by apply binary_text; [|apply H2].
Qed.

Definition is_digit (c : Z) : Prop := c_0 ≤ c ≤ c_0 + 9.

Lemma width_digits_ok wd c r w :
  Forall is_digit wd → ¬ is_digit c → 0 ≤ w → foldl (λ v c, v * 10 + digit_value c_a c) w wd < 2 ^ 31 →
  width_digits (wd ++ c :: r) w = (c :: r, foldl (λ v c, v * 10 + digit_value c_a c) w wd).
Proof.
  unfold is_digit. intros Hd Hc. revert w. induction Hd as [|d wd Hd Hds IH]; intros w Hw Hb; cbn [app width_digits foldl].
  - destruct (Z.leb_spec c_0 c), (Z.leb_spec c (c_0 + 9)); try done. lia.
  - cbn [foldl] in Hb. assert (digit_value c_a d = d - c_0) as Ed.
    { unfold digit_value, c_a. unfold c_0 in Hd. rewrite Z.geb_leb, (proj2 (Z.leb_gt _ _)) by lia. done. }
    rewrite Ed in *. destruct (Z.leb_spec c_0 d), (Z.leb_spec d (c_0 + 9)); try lia. cbn [andb].
    assert (∀ l v, 0 ≤ v → Forall is_digit l → v ≤ foldl (λ v c, v * 10 + digit_value c_a c) v l) as Hmono.
    { clear. intros l v Hv Hl. revert v Hv. induction Hl as [|x l Hx _ IH]; intros v Hv; cbn [foldl]; [lia|]. unfold is_digit, c_0 in Hx.
      assert (0 ≤ digit_value c_a x) by (unfold digit_value, c_a, c_0; case_cmp; lia). etrans; [|apply IH; lia]. lia. }
    pose proof (Hmono wd (w * 10 + (d - c_0)) ltac:(lia) Hds) as Hm. rewrite (s32_small (w * 10)) by lia. rewrite s32_small by lia. apply IH; [lia|done].
Qed.

Lemma skip_zeros_stop c r flags : c ≠ c_0 → skip_zeros (c :: r) flags = (c :: r, flags).
Proof. intros H. cbn [skip_zeros]. by rewrite (proj2 (Z.eqb_neq _ _)). Qed.

Section formats.
Context {S : Type} `{!Console S}.
Implicit Types (st : pstate S).

(** After the [%] the flags and the width are read as they were meant. *)
Lemma wp_field fuel out fl d r ap u pc st (Q : Z → pstate S → Prop) :
  field_ok fl → ¬ is_digit d → d ≠ 0 → d ≠ c_pct → d ≠ c_minus → d ≠ 42 →
  wp (directive out (d :: r) ap u (width_of fl) (flags_of fl)) st
     (λ '(f, ap, u, n) st', wp (simple_vsprintf_loop fuel out (tl f) ap u (pc + n)) st' Q) →
  wp (simple_vsprintf_loop (Datatypes.S fuel) out (c_pct :: enc_field fl ++ d :: r) ap u pc) st Q.
Proof.
  intros (Hd & Hh & Hw) Hnd H0 Hp Hm Hs HQ. cbn [simple_vsprintf_loop peek]. apply wp_bind, wp_ret. change (c_pct =? 0) with false. rewrite Z.eqb_refl. cbv iota. cbn [tl].
  assert (∃ c l, f_width fl ++ d :: r = c :: l ∧ c ≠ c_0 ∧ c ≠ 0 ∧ c ≠ c_pct ∧ c ≠ c_minus ∧ c ≠ 42) as (c & l & Ec & Hc).
  { unfold is_digit in Hnd. destruct (f_width fl) as [|x wd]; simpl in *; [exists d, r; split_and!; try done; intros ->; apply Hnd; unfold c_0; lia|].
    exists x, (wd ++ d :: r). apply Forall_cons in Hd as [Hx _]. split_and!; try congruence; unfold c_0, c_pct, c_minus in *; lia. }
  assert (wp (c ← peek (f_width fl ++ d :: r);
     '(f, ap, width) ← (if c =? 42 then '(v, ap) ← va_arg ap; mret (tl (f_width fl ++ d :: r), ap, s32 v)
                        else let '(f, width) := width_digits (f_width fl ++ d :: r) 0 in mret (f, ap, width));
     '(f, ap, u, n) ← directive out f ap u width (flags_of fl);
     simple_vsprintf_loop fuel out (tl f) ap u (pc + n)) st Q) as HQ'.
  { rewrite Ec at 1. cbn [peek]. apply wp_bind, wp_ret. rewrite (proj2 (Z.eqb_neq c 42)) by tauto.
    rewrite (width_digits_ok (f_width fl) d r 0 Hd Hnd ltac:(lia) Hw). apply wp_bind, wp_ret, wp_bind.
    eapply wp_mono; [|exact HQ]. by intros [[[f' ap'] u'] n'] st'. }
  clear HQ. unfold enc_field, flags_of in *. rewrite <- !app_assoc.
  destruct (f_right fl), (f_zero fl); cbn [app peek]; rewrite ?Ec; apply wp_bind, wp_ret.
  all: rewrite ?(proj2 (Z.eqb_neq c 0)), ?(proj2 (Z.eqb_neq c c_pct)), ?(proj2 (Z.eqb_neq c c_minus)) by tauto.
  all: rewrite Ec in HQ'; change (c_0 =? 0) with false; change (c_0 =? c_pct) with false; change (c_0 =? c_minus) with false;
    change (c_minus =? 0) with false; change (c_minus =? c_pct) with false; rewrite ?Z.eqb_refl; cbn [tl].
  all: cbn [skip_zeros]; rewrite ?Z.eqb_refl; cbn [skip_zeros]; rewrite ?(proj2 (Z.eqb_neq c c_0)) by tauto; exact HQ'.
Qed.

(** ** Conversions *)
Lemma store_mod bits u v : 0 ≤ bits → store bits u v mod 2 ^ bits = v mod 2 ^ bits.
Proof.
  intros Hb. unfold store. pose proof (pow2_gt0 bits Hb). pose proof (Z.div_mod u (2 ^ bits) ltac:(lia)).
  replace (u - u mod 2 ^ bits + v mod 2 ^ bits) with (v mod 2 ^ bits + u / 2 ^ bits * 2 ^ bits) by lia.
  by rewrite Z.mod_add, Z.mod_mod by lia.
Qed.

Lemma store_range bits u v : 0 ≤ bits ≤ 64 → 0 ≤ u < 2 ^ 64 → 0 ≤ store bits u v < 2 ^ 64.
Proof.
  intros Hb Hu. unfold store. pose proof (pow2_gt0 bits ltac:(lia)). pose proof (Z.mod_pos_bound v (2 ^ bits) ltac:(lia)).
  pose proof (Z.mod_pos_bound u (2 ^ bits) ltac:(lia)). pose proof (Z.div_mod u (2 ^ bits) ltac:(lia)) as Hd.
  pose proof (Z.div_pos u (2 ^ bits) ltac:(lia) ltac:(lia)). rewrite (pow2_split bits 64) in * by lia. set (e := 2 ^ bits) in *.
  assert (u / e < 2 ^ (64 - bits)) by (apply Z.div_lt_upper_bound; lia). nia.
Qed.

Lemma signed_mod n x : 0 < n → (x mod 2 ^ n + 2 ^ (n - 1)) mod 2 ^ n - 2 ^ (n - 1) = (x + 2 ^ (n - 1)) mod 2 ^ n - 2 ^ (n - 1).
Proof. intros Hn. pose proof (pow2_gt0 n ltac:(lia)). by rewrite Zplus_mod_idemp_l. Qed.

(** A conversion of [int] or [long] prints the value of its argument. *)
Record conv_good (k : conv) : Prop := {
  cg_bits : cv_bits k = 32 ∨ cv_bits k = 64;
  cg_base : cv_base k = 2 ∨ cv_base k = 10 ∨ cv_base k = 16;
  cg_value : ∀ u v, cv_read k (store (cv_bits k) u v) = conv_value k v;
  cg_range : ∀ v, - 2 ^ 63 ≤ conv_value k v < 2 ^ 63
}.

Lemma s32_range x : - 2 ^ 31 ≤ s32 x < 2 ^ 31.
Proof. unfold s32. pose proof (Z.mod_pos_bound (x + 2 ^ 31) (2 ^ 32)). lia. Qed.
Lemma s64_range x : - 2 ^ 63 ≤ s64 x < 2 ^ 63.
Proof. unfold s64. pose proof (Z.mod_pos_bound (x + 2 ^ 63) (2 ^ 64)). lia. Qed.

Lemma conv_good_s32 b s l : b = 2 ∨ b = 10 ∨ b = 16 → conv_good (mk_conv 32 s32 b s l).
Proof.
  intros Hb. split; cbn [cv_bits cv_base cv_read]; [by left|done| |].
  - intros u v. unfold conv_value. cbn [cv_read cv_bits]. pose proof (signed_mod 32 (store 32 u v) ltac:(lia)) as E.
    rewrite (store_mod 32 u v ltac:(lia)) in E. symmetry. exact E.
  - intros v. pose proof (s32_range (v mod 2 ^ 32)). unfold conv_value. cbn [cv_read cv_bits]. lia.
Qed.

Lemma conv_good_u b s l : b = 2 ∨ b = 10 ∨ b = 16 → conv_good (mk_conv 32 u_u b s l).
Proof.
  intros Hb. split; cbn [cv_bits cv_base cv_read]; [by left|done| |].
  - intros u v. unfold conv_value, u_u. cbn [cv_read cv_bits]. by rewrite (store_mod 32 u v), Z.mod_mod by lia.
  - intros v. unfold conv_value, u_u. cbn [cv_read cv_bits]. pose proof (Z.mod_pos_bound (v mod 2 ^ 32) (2 ^ 32)). lia.
Qed.

Lemma conv_good_s64 b s l : b = 2 ∨ b = 10 ∨ b = 16 → conv_good (mk_conv 64 s64 b s l).
Proof.
  intros Hb. split; cbn [cv_bits cv_base cv_read]; [by right|done| |].
  - intros u v. unfold conv_value. cbn [cv_read cv_bits]. pose proof (signed_mod 64 (store 64 u v) ltac:(lia)) as E.
    rewrite (store_mod 64 u v ltac:(lia)) in E. symmetry. exact E.
  - intros v. pose proof (s64_range (v mod 2 ^ 64)). unfold conv_value. cbn [cv_read cv_bits]. lia.
Qed.

#[local] Hint Resolve conv_good_s32 conv_good_u conv_good_s64 : core.

(** What the letters are. *)
Lemma conv_plain_inv c k : conv_plain c = Some k → (c = 100 ∨ c = 98 ∨ c = 117 ∨ c = 112 ∨ c = 120 ∨ c = 88) ∧ conv_good k.
Proof. unfold conv_plain. repeat case_cmp; intros [= <-]; (split; [lia|]); first [apply conv_good_s32|apply conv_good_u|apply conv_good_s64]; lia. Qed.

Lemma conv_l_inv c k : conv_l c = Some k → (c = 100 ∨ c = 117 ∨ c = 120 ∨ c = 88) ∧ conv_good k.
Proof. unfold conv_l. repeat case_cmp; intros [= <-]; (split; [lia|]); apply conv_good_s64; lia. Qed.

Lemma wp_run_conv out k f v ap u w fl st (Q : list Z * list Z * Z * Z → pstate S → Prop) :
  con_ok (con st) → conv_good k → (cv_base k = 2 → 0 ≤ conv_value k v) →
  (∀ st' n, shown out st (int_string (conv_value k v) (cv_base k) (cv_sign k) w fl (cv_let k)) st' →
     Q (f, ap, store (cv_bits k) u v, n) st') →
  wp (run_conv out (Some k) f (v :: ap) u w fl) st Q.
Proof.
  intros Hok [_ Hb Hv Hr] H2 HQ. cbn [run_conv va_arg]. apply wp_bind, wp_ret, wp_bind. rewrite Hv.
  destruct (decide (cv_base k = 2)) as [E2|Hne].
  - specialize (H2 E2). rewrite E2 in *. apply wp_outputi_bin; [done|pose proof (Hr v); lia|]. intros st' Hs. apply wp_ret. by apply HQ.
  - apply wp_outputi; [done|lia|apply Hr|]. intros st' Hs. apply wp_ret. by apply HQ.
Qed.

Lemma wp_get_string m fuel p l (Q : list Z → bytes → Prop) : cstr m p l → (length l < fuel)%nat → Q l m → wp (get_string fuel p) m Q.
Proof.
  revert p l Q. induction fuel as [|fuel IH]; intros p l Q [Ha Hl] Hf HQ; [lia|]. cbn [get_string].
  destruct l as [|c l]; simpl in Ha; destruct Ha as [Hc Ha]; apply wp_bind; (eapply wp_ld8; [exact Hc|]).
  - simpl. by apply wp_ret.
  - apply Forall_cons in Hl as [Hc0 Hl]. rewrite (proj2 (Z.eqb_neq c 0)) by lia. simpl in Hf. apply wp_bind.
    eapply (IH _ l); [by split|lia|]. by apply wp_ret.
Qed.

Lemma wp_string_at p l st (Q : list Z → pstate S → Prop) : cstr (smem st) p l → Q l st → wp (string_at p) st Q.
Proof.
  intros Hs HQ. unfold string_at. apply wp_zoom, wp_bind, wp_gets. eapply wp_get_string; [exact Hs| |].
  - destruct Hs as [Ha _]. apply arr_size in Ha. rewrite length_app in Ha. simpl in Ha. lia.
  - by destruct st.
Qed.

(** The format loop prints [text] for the pieces [ps]. *)
Definition prints_text (m : bytes) (ps : list piece) (args text : list Z) : Prop :=
  ∀ fuel pc u st (Q : Z → pstate S → Prop),
  (length ps < fuel)%nat → 0 ≤ u < 2 ^ 64 → con_ok (con st) → smem st = m →
  (∀ n st', shown false st text st' → Q n st') →
  wp (simple_vsprintf_loop fuel false (enc_format ps) args u pc) st Q.

Lemma text_after m ps args o t fuel pc u st st1 (Q : Z → pstate S → Prop) :
  prints_text m ps args o → (length ps < fuel)%nat → 0 ≤ u < 2 ^ 64 → smem st = m → shown false st t st1 →
  (∀ n st', shown false st (t ++ o) st' → Q n st') →
  wp (simple_vsprintf_loop fuel false (enc_format ps) args u pc) st1 Q.
Proof.
  intros HP Hfu Hu Hm H1 HQ. apply HP; [done|done|by eapply shown_ok|destruct H1 as (_ & -> & _); done|].
  intros n st2 H2. apply (HQ n). by eapply shown_trans.
Qed.

Lemma text_lit m c ps args o : c ≠ 0 → c ≠ c_pct → prints_text m ps args o →
  prints_text m (Lit c :: ps) args ((if c =? c_nl then [c_cr] else []) ++ [c] ++ o).
Proof.
  intros Hc0 Hcp HP fuel pc u st Q Hfu Hu Hok Hm HQ. destruct fuel as [|fuel]; [simpl in Hfu; lia|]. cbn [length] in Hfu.
  unfold enc_format. cbn [fmap list_fmap concat enc_piece app simple_vsprintf_loop peek]. apply wp_bind, wp_ret.
  rewrite (proj2 (Z.eqb_neq c 0)), (proj2 (Z.eqb_neq c c_pct)) by done. cbn [tl]. apply wp_bind. fold (enc_format ps).
  assert (∀ st1, shown false st (if c =? c_nl then [c_cr] else []) st1 →
    wp (simple_outputchar false c ;; simple_vsprintf_loop fuel false (enc_format ps) args u (pc + 1)) st1 Q) as Hgo.
  { intros st1 H1. apply wp_bind, wp_outputchar; [by eapply shown_ok|]. intros st2 H2. pose proof (shown_trans _ _ _ _ _ _ H1 H2) as H12.
    eapply text_after; [done|lia|done|done|exact H12|]. intros n st3 H3. apply (HQ n). by rewrite app_assoc. }
  destruct (c =? c_nl); [apply wp_outputchar; [done|exact Hgo]|]. apply wp_ret, Hgo. by apply shown_nil.
Qed.

Lemma text_percent m ps args o : prints_text m ps args o → prints_text m (Percent :: ps) args ([c_pct] ++ o).
Proof.
  intros HP fuel pc u st Q Hfu Hu Hok Hm HQ. destruct fuel as [|fuel]; [simpl in Hfu; lia|]. cbn [length] in Hfu.
  unfold enc_format. cbn [fmap list_fmap concat enc_piece app simple_vsprintf_loop peek]. apply wp_bind, wp_ret. change (c_pct =? 0) with false.
  rewrite Z.eqb_refl. cbn [tl peek]. apply wp_bind, wp_ret. change (c_pct =? 0) with false. rewrite Z.eqb_refl. fold (enc_format ps).
  apply wp_bind, wp_outputchar; [done|]. intros st1 H1. eapply text_after; [done|lia|done|done|exact H1|done].
Qed.

(** A directive [d ds] that prints [t] for the argument [v]. *)
Lemma text_directive m p fl d ds v t ps args o :
  enc_piece p = c_pct :: enc_field fl ++ d :: ds →
  field_ok fl → ¬ is_digit d → d ≠ 0 → d ≠ c_pct → d ≠ c_minus → d ≠ 42 →
  (∀ u st r (Q : list Z * list Z * Z * Z → pstate S → Prop), 0 ≤ u < 2 ^ 64 → con_ok (con st) → smem st = m →
     (∀ f u' n st', tl f = r → 0 ≤ u' < 2 ^ 64 → shown false st t st' → Q (f, args, u', n) st') →
     wp (directive false (d :: ds ++ r) (v :: args) u (width_of fl) (flags_of fl)) st Q) →
  prints_text m ps args o → prints_text m (p :: ps) (v :: args) (t ++ o).
Proof.
  intros Ep Hf Hd H0 Hpc Hmi Hs Hdir HP fuel pc u st Q Hfu Hu Hok Hm HQ. destruct fuel as [|fuel]; [simpl in Hfu; lia|]. cbn [length] in Hfu.
  unfold enc_format. cbn [fmap list_fmap concat]. rewrite Ep. cbn [app]. rewrite <- !app_assoc. cbn [app]. apply wp_field; [done..|]. fold (enc_format ps).
  apply Hdir; [done|done|done|]. intros f u' n st' Hf' Hu' H1. rewrite Hf'. eapply text_after; [done|lia|done|done|exact H1|done].
Qed.

Lemma text_num m fl longs c k v ps args o : field_ok fl → (longs ≤ 2)%nat → conv_of longs c = Some k → (cv_base k = 2 → 0 ≤ conv_value k v) →
  prints_text m ps args o →
  prints_text m (Num fl longs c :: ps) (v :: args)
    (int_string (conv_value k v) (cv_base k) (cv_sign k) (width_of fl) (flags_of fl) (cv_let k) ++ o).
Proof.
  intros Hf Hlg Hk Hb HP. assert (conv_good k) as Hkg by (destruct longs; [by apply (conv_plain_inv c)|by apply (conv_l_inv c)]).
  assert (∀ u, 0 ≤ u < 2 ^ 64 → 0 ≤ store (cv_bits k) u v < 2 ^ 64) as Hst by (intros; apply store_range; [destruct (cg_bits _ Hkg); lia|done]).
  destruct longs as [|[|[|?]]]; [| | |lia]; cbn [conv_of] in Hk.
  - destruct (conv_plain_inv c k Hk) as [Hc _].
    apply (text_directive m _ fl c []); [done|done|unfold is_digit, c_0; lia|lia|unfold c_pct; lia|unfold c_minus; lia|lia| |done].
    intros u st r Q Hu Hok Hm HQ. cbn [directive peek app]. apply wp_bind, wp_ret. rewrite !(proj2 (Z.eqb_neq _ _)) by lia. rewrite Hk.
    apply wp_run_conv; [done|done|done|]. intros st1 n H1. apply HQ; [done|by apply Hst|done].
  - destruct (conv_l_inv c k Hk) as [Hc _]. apply (text_directive m _ fl 108 [c]); [done|done|unfold is_digit, c_0; lia|lia|done|done|lia| |done].
    intros u st r Q Hu Hok Hm HQ. cbn [directive peek app]. apply wp_bind, wp_ret. cbn [Z.eqb Pos.eqb tl peek]. apply wp_bind, wp_ret.
    rewrite (proj2 (Z.eqb_neq c 108)) by lia. rewrite Hk. apply wp_run_conv; [done|done|done|]. intros st1 n H1. apply HQ; [done|by apply Hst|done].
  - apply (text_directive m _ fl 108 [108; c]); [done|done|unfold is_digit, c_0; lia|lia|done|done|lia| |done].
    intros u st r Q Hu Hok Hm HQ. cbn [directive peek app]. do 2 (apply wp_bind, wp_ret; cbn [Z.eqb Pos.eqb tl peek]). apply wp_bind, wp_ret.
    rewrite Hk. apply wp_run_conv; [done|done|done|]. intros st1 n H1. apply HQ; [done|by apply Hst|done].
Qed.

Lemma store_64 u v : 0 ≤ u < 2 ^ 64 → 0 ≤ v < 2 ^ 64 → store 64 u v = v.
Proof. intros Hu Hv. unfold store. rewrite !Z.mod_small by lia. lia. Qed.

Lemma text_str m fl v l ps args o : field_ok fl → 0 ≤ v < 2 ^ 64 → (v = NULL ∧ l = null_string) ∨ (v ≠ NULL ∧ cstr m v l) →
  prints_text m ps args o → prints_text m (Str fl :: ps) (v :: args) (padded l (width_of fl) (flags_of fl) ++ o).
Proof.
  intros Hf Hv Hl HP. apply (text_directive m _ fl 115 []); [done|done|unfold is_digit, c_0; lia|lia|done|done|lia| |done].
  intros u st r Q Hu Hok Hm HQ. cbn [directive peek app]. apply wp_bind, wp_ret. cbn [Z.eqb Pos.eqb va_arg]. apply wp_bind, wp_ret.
  rewrite store_64 by done. apply wp_bind. assert (wp (prints false l (width_of fl) (flags_of fl)) st (λ n st', Q (115 :: r, args, v, n) st')) as Hpr.
  { apply wp_prints; [done|]. intros st' H1. by apply HQ. }
  assert (wp (if v =? NULL then mret null_string else string_at v) st (λ s st', s = l ∧ st' = st)) as Hs.
  { destruct Hl as [[-> ->]|[Hne Hc]]; [done|]. rewrite (proj2 (Z.eqb_neq _ _)) by done. by eapply wp_string_at; [rewrite Hm|]. }
  eapply wp_mono; [|exact Hs]. intros s st' [-> ->]. apply wp_bind. eapply wp_mono; [|exact Hpr]. intros n st' H. by apply wp_ret.
Qed.

Lemma text_chr m fl v ps args o : field_ok fl → 0 < v < 2 ^ 8 →
  prints_text m ps args o → prints_text m (Chr fl :: ps) (v :: args) (padded [v] (width_of fl) (flags_of fl) ++ o).
Proof.
  intros Hf Hv HP. apply (text_directive m _ fl 99 []); [done|done|unfold is_digit, c_0; lia|lia|done|done|lia| |done].
  intros u st r Q Hu Hok Hm HQ. cbn [directive peek app]. apply wp_bind, wp_ret. cbn [Z.eqb Pos.eqb va_arg]. apply wp_bind, wp_ret.
  rewrite (store_mod 8 u v ltac:(lia)), (Z.mod_small v (2 ^ 8)) by lia. rewrite (proj2 (Z.eqb_neq v 0)) by lia. apply wp_bind, wp_prints; [done|].
  intros st' H1. apply wp_ret, HQ; [done|by apply store_range|done].
Qed.

Lemma renders_prints m ps args text : renders m ps args text → prints_text m ps args text.
Proof.
  induction 1 as [args|c ps args o Hc0 Hcp Hr IH|ps args o Hr IH|fl longs c q v ps args o Hf Hlg Hk H2 Hv Hr IH
    |fl v l ps args o Hf Hv Hl Hr IH|fl ps args o Hf Hr IH|fl v ps args o Hf Hv Hr IH].
  - intros fuel pc u st Q Hfu Hu Hok Hm HQ. destruct fuel as [|fuel]; [simpl in Hfu; lia|]. simpl. apply wp_ret, (HQ pc). by apply shown_nil.
  - by apply text_lit.
  - by apply text_percent.
  - destruct (conv_is_spec _ _ _ Hk) as (k & Hck & Hb & <-); [|done..]. apply text_num; [done..| |done]. intros E. destruct (Hb E) as [E2 ->]. auto.
  - rewrite <- padded_field. apply text_str; [done|lia| |done]. right. split; [lia|done].
  - rewrite <- padded_field. apply text_str; [done|lia|by left|done].
  - rewrite <- padded_field. by apply text_chr.
Qed.

Lemma enc_length ps : (length ps < length (enc_format ps))%nat.
Proof.
  unfold enc_format. rewrite length_app. cbn [length]. induction ps as [|p ps IH]; [cbn; lia|]. rewrite fmap_cons. cbn [concat length]. rewrite length_app.
  assert (1 ≤ length (enc_piece p))%nat by (destruct p; simpl; lia). lia.
Qed.
End formats.
