(* ===== verification/Mmio.v ===== *)
(** * Device registers

    [put32] and [get32] (assembly) access memory-mapped registers.  A device is
    unknown code: [dev] gives the value that each register returns at each
    moment ([clock] counts the accesses), and every store of an [unsigned int] is
    recorded in [writes], oldest first.  A polling loop gives up after [patience] reads:
    the theorems assume a device that answers within that many reads, and
    prove that the loop then ends.

    Register addresses: [include/arch/aarch64/plat/raspi3/machine.h] and
    [arch/aarch64/plat/raspi3/uart/uart.h]. *)

From S2P Require Import Prelude Macro.

Record mmio : Type := mk_mmio {
  dev : Z → nat → Z;
  clock : nat;
  writes : list (Z * Z);
  patience : nat
}.

Definition get32 (addr : Z) : M mmio Z := λ s,
  Ok (u32 (dev s addr (clock s)), mk_mmio (dev s) (S (clock s)) (writes s) (patience s)).
Definition put32 (addr v : Z) : M mmio unit := λ s,
  Ok (tt, mk_mmio (dev s) (S (clock s)) (writes s ++ [(addr, v)]) (patience s)).

(** [while (busy(get32(addr))) ;] *)
Fixpoint poll_loop (fuel : nat) (addr : Z) (busy : Z → bool) : M mmio unit :=
  match fuel with
  | O => stop HFuel
  | S fuel' => v ← get32 addr; if busy v then poll_loop fuel' addr busy else mret tt
  end.
Definition poll (addr : Z) (busy : Z → bool) : M mmio unit := fuel ← gets patience; poll_loop fuel addr busy.

(** The register stops being busy within [patience] reads, whenever one looks. *)
Definition answers (addr : Z) (busy : Z → bool) (s : mmio) : Prop :=
  ∀ t, ∃ k, (k < patience s)%nat ∧ busy (u32 (dev s addr (t + k))) = false.

(** Two states of the same device. *)
Definition same_dev (s s' : mmio) : Prop := dev s' = dev s ∧ patience s' = patience s.
#[global] Instance same_dev_preorder : PreOrder same_dev.
Proof. split; [done|]. intros s1 s2 s3 [] []. split; congruence. Qed.

Lemma answers_same addr busy s s' : same_dev s s' → answers addr busy s → answers addr busy s'.
Proof. unfold answers. intros [-> ->]. done. Qed.

Lemma wp_poll_loop fuel addr busy s (Q : unit → mmio → Prop) :
  (∃ k, (k < fuel)%nat ∧ busy (u32 (dev s addr (clock s + k))) = false) →
  (∀ s', same_dev s s' → writes s' = writes s → (clock s < clock s')%nat → Q tt s') → wp (poll_loop fuel addr busy) s Q.
Proof.
  revert s. induction fuel as [|fuel IH]; intros s (k & Hk & Hb) HQ; [lia|]. cbn [poll_loop]. apply wp_bind.
  eapply wp_ok; [reflexivity|]. cbn beta. destruct (busy (u32 (dev s addr (clock s)))) eqn:E; [|by apply wp_ret, HQ; cbn; [..|lia]].
  apply IH.
  - destruct k as [|k]; [rewrite Nat.add_0_r in Hb; congruence|]. exists k. split; [lia|]. cbn [dev clock].
    by replace (S (clock s) + k)%nat with (clock s + S k)%nat by lia.
  - intros s' [H1 H2] H3 H4. apply HQ; [done|done|]. cbn in H4. lia.
Qed.

Lemma wp_poll_clock addr busy s (Q : unit → mmio → Prop) :
  answers addr busy s → (∀ s', same_dev s s' → writes s' = writes s → (clock s < clock s')%nat → Q tt s') → wp (poll addr busy) s Q.
Proof. intros Ha HQ. unfold poll. apply wp_bind, wp_gets. apply wp_poll_loop; [apply Ha|done]. Qed.

Lemma wp_poll addr busy s (Q : unit → mmio → Prop) :
  answers addr busy s → (∀ s', same_dev s s' → writes s' = writes s → Q tt s') → wp (poll addr busy) s Q.
Proof. intros Ha HQ. apply wp_poll_clock; [done|]. intros s' H1 H2 _. by apply HQ. Qed.

Lemma wp_put32 addr v s (Q : unit → mmio → Prop) :
  (∀ s', same_dev s s' → writes s' = writes s ++ [(addr, v)] → Q tt s') → wp (put32 addr v) s Q.
Proof. intros HQ. eapply wp_ok; [reflexivity|]. by apply HQ. Qed.

Lemma wp_get32 addr s (Q : Z → mmio → Prop) :
  (∀ s', same_dev s s' → writes s' = writes s → clock s' = S (clock s) → Q (u32 (dev s addr (clock s))) s') → wp (get32 addr) s Q.
Proof. intros HQ. eapply wp_ok; [reflexivity|]. by apply HQ. Qed.

(** ** The peripherals' addresses *)
Definition RPI_PERIPHERAL_BASE : Z := KBASE + 0x3F000000.
Definition BCM2835_BASE_INTC : Z := RPI_PERIPHERAL_BASE + 0xB200.
Definition BCM2835_IRQ_BASIC : Z := BCM2835_BASE_INTC + 0x00.
Definition BCM2835_IRQ_PENDING1 : Z := BCM2835_BASE_INTC + 0x04.
Definition BCM2835_IRQ_PENDING2 : Z := BCM2835_BASE_INTC + 0x08.
Definition BCM2835_IRQ_FIQ_CTRL : Z := BCM2835_BASE_INTC + 0x0C.
Definition BCM2835_IRQ_ENABLE1 : Z := BCM2835_BASE_INTC + 0x10.
Definition BCM2835_IRQ_ENABLE2 : Z := BCM2835_BASE_INTC + 0x14.
Definition BCM2835_IRQ_DISABLE1 : Z := BCM2835_BASE_INTC + 0x1C.
Definition BCM2835_IRQ_DISABLE2 : Z := BCM2835_BASE_INTC + 0x20.
Definition BCM2835_IRQ_DISABLE_BASIC : Z := BCM2835_BASE_INTC + 0x24.
Definition CORE_IRQ_BASE : Z := KBASE + 0x40000060.
Definition INT_SRC_TIMER1 : Z := 0x002.
Definition CORE_TIMER_IRQCNTL_BASE : Z := KBASE + 0x40000040.
Definition PLAT_CPU_NUM : Z := 4.

(** ** [plat_enable_irqno] and [plat_disable_irqno] of [irq.c]

    [1 << irq] is an [int] that is converted to [unsigned int]. *)
Definition plat_enable_irqno (irq : Z) : M mmio unit :=
  if irq <? 32 then put32 BCM2835_IRQ_ENABLE1 (u32 (Z.shiftl 1 irq))
  else if irq <? 64 then put32 BCM2835_IRQ_ENABLE2 (u32 (Z.shiftl 1 (irq - 32)))
  else mret tt.

Definition plat_disable_irqno (irq : Z) : M mmio unit :=
  if irq <? 32 then put32 BCM2835_IRQ_DISABLE1 (u32 (Z.shiftl 1 irq))
  else if irq <? 64 then put32 BCM2835_IRQ_DISABLE2 (u32 (Z.shiftl 1 (irq - 32)))
  else mret tt.
