(* ===== verification/Uart.v ===== *)
(** * The UART drivers

    [arch/aarch64/plat/raspi3/uart/uart.c]: the PL011 driver with its receive
    ring buffer (the one that is built) and the mini-UART driver; and the boot
    stage's transmit-only drivers of
    [arch/aarch64/boot/raspi3/peripherals/uart.c].  [delay] only passes time. *)

From S2P Require Import Prelude Macro Utils Printk Mmio.

(** ** Registers: offsets from the peripherals' base *)
Definition PHYSADDR_OFFSET : Z := KBASE + 0x3F000000.
Definition GPFSEL1 (base : Z) : Z := base + 0x00200004.
Definition GPPUD (base : Z) : Z := base + 0x00200094.
Definition GPPUDCLK0 (base : Z) : Z := base + 0x00200098.
Definition AUX_ENABLES (base : Z) : Z := base + 0x00215004.
Definition AUX_MU_IO_REG (base : Z) : Z := base + 0x00215040.
Definition AUX_MU_IER_REG (base : Z) : Z := base + 0x00215044.
Definition AUX_MU_LCR_REG (base : Z) : Z := base + 0x0021504C.
Definition AUX_MU_MCR_REG (base : Z) : Z := base + 0x00215050.
Definition AUX_MU_LSR_REG (base : Z) : Z := base + 0x00215054.
Definition AUX_MU_CNTL_REG (base : Z) : Z := base + 0x00215060.
Definition AUX_MU_BAUD_REG (base : Z) : Z := base + 0x00215068.
Definition RASPI3_PL011_BASE (base : Z) : Z := base + 0x201000.
Definition RASPI3_PL011_DR (base : Z) : Z := RASPI3_PL011_BASE base + 0x00.
Definition RASPI3_PL011_FR (base : Z) : Z := RASPI3_PL011_BASE base + 0x18.
Definition RASPI3_PL011_IBRD (base : Z) : Z := RASPI3_PL011_BASE base + 0x24.
Definition RASPI3_PL011_FBRD (base : Z) : Z := RASPI3_PL011_BASE base + 0x28.
Definition RASPI3_PL011_LCRH (base : Z) : Z := RASPI3_PL011_BASE base + 0x2C.
Definition RASPI3_PL011_CR (base : Z) : Z := RASPI3_PL011_BASE base + 0x30.
Definition RASPI3_PL011_IFLS (base : Z) : Z := RASPI3_PL011_BASE base + 0x34.
Definition RASPI3_PL011_IMSC (base : Z) : Z := RASPI3_PL011_BASE base + 0x38.
Definition RASPI3_PL011_ICR (base : Z) : Z := RASPI3_PL011_BASE base + 0x44.

Notation KP := PHYSADDR_OFFSET (only parsing).

(** [ra &= ~(7 << 12); ra |= f << 12; ra &= ~(7 << 15); ra |= f << 15;] on 32 bits *)
Definition gpio_function (f ra : Z) : Z :=
  let ra := Z.land ra (u32 (Z.lnot (Z.shiftl 7 12))) in
  let ra := Z.lor ra (Z.shiftl f 12) in
  let ra := Z.land ra (u32 (Z.lnot (Z.shiftl 7 15))) in
  Z.lor ra (Z.shiftl f 15).

(** The common start of the four [uart_init]s. *)
Definition gpio_init (base f : Z) : M mmio unit :=
  ra ← get32 (GPFSEL1 base);
  put32 (GPFSEL1 base) (gpio_function f ra) ;;
  put32 (GPPUD base) 0 ;;
  put32 (GPPUDCLK0 base) (Z.lor (Z.shiftl 1 14) (Z.shiftl 1 15)) ;;
  put32 (GPPUDCLK0 base) 0.

(** ** PL011 *)
Module PL011.
Definition UART_BUF_LEN : Z := 16.
(** [uart_buffer_t] *)
Record uart_buffer : Type := mk_buffer { buffer : list Z; read_pos : Z; put_pos : Z }.

Record ustate : Type := mk_ustate { io : mmio; pl011_buffer : uart_buffer }.
Definition on_io {A} (m : M mmio A) : M ustate A := zoom io (λ d s, mk_ustate d (pl011_buffer s)) m.
Definition set_ring (b : uart_buffer) : M ustate unit := modify (λ s, mk_ustate (io s) b).

Definition uart_fr : M mmio Z := get32 (RASPI3_PL011_FR KP).
Definition tx_full (fr : Z) : bool := negb (Z.land fr (Z.shiftl 1 5) =? 0).
Definition rx_empty (fr : Z) : bool := negb (Z.land fr (Z.shiftl 1 4) =? 0).

Definition uart_send (c : Z) : M mmio unit :=
  poll (RASPI3_PL011_FR KP) tx_full ;;
  put32 (RASPI3_PL011_DR KP) c.

Definition uart_recv : M mmio Z :=
  poll (RASPI3_PL011_FR KP) rx_empty ;;
  v ← get32 (RASPI3_PL011_DR KP);
  mret (Z.land v 0xFF).

Definition uart_init : M mmio unit :=
  gpio_init KP 4 ;;
  put32 (RASPI3_PL011_CR KP) 0 ;;
  put32 (RASPI3_PL011_IBRD KP) 26 ;;
  put32 (RASPI3_PL011_FBRD KP) 3 ;;
  put32 (RASPI3_PL011_LCRH KP) (Z.lor (Z.shiftl 0 4) (Z.shiftl 3 5)) ;;
  put32 (RASPI3_PL011_IMSC KP) 0 ;;
  put32 (RASPI3_PL011_CR KP) (Z.lor (Z.lor 1 (Z.shiftl 1 8)) (Z.shiftl 1 9)) ;;
  uart_send 12 ;;
  uart_send 27 ;;
  uart_send 91 ;;
  uart_send 50 ;;
  uart_send 74.

Definition enable_uart_irq (irq_num : Z) : M ustate unit :=
  on_io (put32 (RASPI3_PL011_ICR KP) 0x7ff) ;;
  on_io (put32 (RASPI3_PL011_IMSC KP) (Z.shiftl 1 4)) ;;
  on_io (put32 (RASPI3_PL011_IFLS KP) 0) ;;
  b ← gets pl011_buffer;
  set_ring (mk_buffer (buffer b) 0 0) ;;
  on_io (plat_enable_irqno irq_num).

(** [pos += 1; if (pos == UART_BUF_LEN) pos = 0;] *)
Definition next_pos (pos : Z) : Z := if pos + 1 =? UART_BUF_LEN then 0 else pos + 1.

Definition uart_irq_handler : M ustate unit :=
  v ← on_io (get32 (RASPI3_PL011_DR KP));
  let input := Z.land v 0xFF in
  on_io (uart_send input) ;;
  b ← gets pl011_buffer;
  if (put_pos b <? 0) || (put_pos b >=? UART_BUF_LEN) then stop HFault
  else
    let buf := <[Z.to_nat (put_pos b) := input]> (buffer b) in
    let put := next_pos (put_pos b) in
    let read := if read_pos b =? put then next_pos (read_pos b) else read_pos b in
    set_ring (mk_buffer buf read put).

(** [((char)-1)]: [char] is unsigned *)
Definition NB_UART_NRET : Z := 255.

Definition nb_uart_recv : M ustate Z :=
  b ← gets pl011_buffer;
  if read_pos b =? put_pos b then mret NB_UART_NRET
  else
    ch ← load (λ _, if read_pos b <? 0 then None else buffer b !! Z.to_nat (read_pos b));
    set_ring (mk_buffer (buffer b) (next_pos (read_pos b)) (put_pos b)) ;;
    mret ch.
End PL011.

(** ** mini-UART *)
Module MiniUart.
Definition uart_lsr : M mmio Z := get32 (AUX_MU_LSR_REG KP).
Definition no_data (lsr : Z) : bool := Z.land lsr 0x01 =? 0.
Definition not_ready (lsr : Z) : bool := Z.land lsr 0x20 =? 0.

Definition mini_uart_send (c : Z) : M mmio unit :=
  poll (AUX_MU_LSR_REG KP) not_ready ;;
  put32 (AUX_MU_IO_REG KP) c.

Definition mini_uart_recv : M mmio Z :=
  poll (AUX_MU_LSR_REG KP) no_data ;;
  v ← get32 (AUX_MU_IO_REG KP);
  mret (Z.land v 0xFF).

Definition mini_nb_uart_recv : M mmio Z :=
  lsr ← uart_lsr;
  if negb (Z.land lsr 0x01 =? 0) then v ← get32 (AUX_MU_IO_REG KP); mret (Z.land v 0xFF)
  else mret PL011.NB_UART_NRET.

Definition mini_uart_init : M mmio unit :=
  gpio_init KP 2 ;;
  put32 (AUX_ENABLES KP) 1 ;;
  put32 (AUX_MU_IER_REG KP) 0 ;;
  put32 (AUX_MU_CNTL_REG KP) 0 ;;
  put32 (AUX_MU_IER_REG KP) 0 ;;
  put32 (AUX_MU_LCR_REG KP) 3 ;;
  put32 (AUX_MU_MCR_REG KP) 0 ;;
  put32 (AUX_MU_BAUD_REG KP) 270 ;;
  put32 (AUX_MU_CNTL_REG KP) 3 ;;
  mini_uart_send 12 ;;
  mini_uart_send 27 ;;
  mini_uart_send 91 ;;
  mini_uart_send 50 ;;
  mini_uart_send 74.
End MiniUart.

(** ** The boot stage: physical addresses, before the MMU is on *)
Module EarlyUart.
Definition BOOT_PHYSADDR_OFFSET : Z := 0x3F000000.

Definition early_uart_init : M mmio unit :=
  gpio_init BOOT_PHYSADDR_OFFSET 4 ;;
  put32 (RASPI3_PL011_CR BOOT_PHYSADDR_OFFSET) 0 ;;
  put32 (RASPI3_PL011_IBRD BOOT_PHYSADDR_OFFSET) 26 ;;
  put32 (RASPI3_PL011_FBRD BOOT_PHYSADDR_OFFSET) 3 ;;
  put32 (RASPI3_PL011_LCRH BOOT_PHYSADDR_OFFSET) (Z.lor (Z.shiftl 1 4) (Z.shiftl 3 5)) ;;
  put32 (RASPI3_PL011_IMSC BOOT_PHYSADDR_OFFSET) 0 ;;
  put32 (RASPI3_PL011_CR BOOT_PHYSADDR_OFFSET) (Z.lor (Z.lor 1 (Z.shiftl 1 8)) (Z.shiftl 1 9)).

Definition early_uart_send (c : Z) : M mmio unit :=
  poll (RASPI3_PL011_FR BOOT_PHYSADDR_OFFSET) PL011.tx_full ;;
  put32 (RASPI3_PL011_DR BOOT_PHYSADDR_OFFSET) c.

(** The string without its terminator. *)
Fixpoint uart_send_string (str : list Z) : M mmio unit :=
  match str with
  | [] => mret tt
  | c :: r => early_uart_send c ;; uart_send_string r
  end.

(** The mini-UART variants *)
Definition mini_early_uart_init : M mmio unit :=
  gpio_init BOOT_PHYSADDR_OFFSET 2 ;;
  put32 (AUX_ENABLES BOOT_PHYSADDR_OFFSET) 1 ;;
  put32 (AUX_MU_IER_REG BOOT_PHYSADDR_OFFSET) 0 ;;
  put32 (AUX_MU_CNTL_REG BOOT_PHYSADDR_OFFSET) 0 ;;
  put32 (AUX_MU_IER_REG BOOT_PHYSADDR_OFFSET) 0 ;;
  put32 (AUX_MU_LCR_REG BOOT_PHYSADDR_OFFSET) 3 ;;
  put32 (AUX_MU_MCR_REG BOOT_PHYSADDR_OFFSET) 0 ;;
  put32 (AUX_MU_BAUD_REG BOOT_PHYSADDR_OFFSET) 270 ;;
  put32 (AUX_MU_CNTL_REG BOOT_PHYSADDR_OFFSET) 3.

Definition mini_early_uart_send (c : Z) : M mmio unit :=
  poll (AUX_MU_LSR_REG BOOT_PHYSADDR_OFFSET) MiniUart.not_ready ;;
  put32 (AUX_MU_IO_REG BOOT_PHYSADDR_OFFSET) c.
End EarlyUart.

(** ** The PL011 as the console of [printk] *)
Section console.
Import PL011.

(** The bytes sent: the stores to the data register. *)
Definition sent_bytes (s : mmio) : list Z := snd <$> filter (λ w, w.1 = RASPI3_PL011_DR KP) (writes s).
(** The transmitter accepts another byte within [patience] polls. *)
Definition tx_ready (s : mmio) : Prop := answers (RASPI3_PL011_FR KP) tx_full s.

Lemma wp_uart_send c s (Q : unit → mmio → Prop) :
  tx_ready s → (∀ s', same_dev s s' → writes s' = writes s ++ [(RASPI3_PL011_DR KP, c)] → Q tt s') → wp (uart_send c) s Q.
Proof.
  intros Ht HQ. unfold uart_send. apply wp_bind, wp_poll; [done|]. intros s1 H1 E1. apply wp_put32. intros s2 H2 E2.
  apply HQ; [by etrans|]. by rewrite E2, E1.
Qed.

Lemma sent_bytes_dr s s' c : writes s' = writes s ++ [(RASPI3_PL011_DR KP, c)] → sent_bytes s' = sent_bytes s ++ [c].
Proof. intros E. unfold sent_bytes. by rewrite E, filter_app, fmap_app, filter_cons_True, filter_nil by done. Qed.

Lemma uart_send_console s c : tx_ready s → wp (uart_send c) s (λ _ s', tx_ready s' ∧ sent_bytes s' = sent_bytes s ++ [c]).
Proof. intros Ht. apply wp_uart_send; [done|]. intros s' Hs E. split; [by eapply answers_same|by apply sent_bytes_dr]. Qed.

#[global] Instance pl011_console : Console mmio := {
  con_send := uart_send;
  sent := sent_bytes;
  con_ok := tx_ready;
  con_send_spec := uart_send_console
}.
End console.

(** ** The ring buffer *)
Section ring.
Import PL011.

(** [q] are the bytes received and not yet read, oldest first. *)
Definition ring_rep (b : uart_buffer) (q : list Z) : Prop :=
  length (buffer b) = 16%nat ∧ 0 ≤ read_pos b < 16 ∧ 0 ≤ put_pos b < 16 ∧
  Z.of_nat (length q) = (put_pos b - read_pos b) mod 16 ∧
  ∀ i c, q !! i = Some c → buffer b !! Z.to_nat ((read_pos b + Z.of_nat i) mod 16) = Some c.

(** A queue of at most 15 bytes that drops its oldest byte when it is full. *)
Definition enqueue (q : list Z) (c : Z) : list Z := if (length q =? 15)%nat then tl q ++ [c] else q ++ [c].

Lemma next_pos_mod p : 0 ≤ p < 16 → next_pos p = (p + 1) mod 16.
Proof.
  intros Hp. unfold next_pos, UART_BUF_LEN. case_cmp as E.
  - by replace (p + 1) with 16 by lia.
  - rewrite Z.mod_small by lia. done.
Qed.

Lemma ring_length b q : ring_rep b q → (length q ≤ 15)%nat.
Proof. intros (_ & _ & _ & Hl & _). pose proof (Z.mod_pos_bound (put_pos b - read_pos b) 16). lia. Qed.

(** Storing at [put_pos]. *)
Lemma ring_push b q c : ring_rep b q → (length q < 15)%nat →
  ring_rep (mk_buffer (<[Z.to_nat (put_pos b) := c]> (buffer b)) (read_pos b) (next_pos (put_pos b))) (q ++ [c]).
Proof.
  intros (Hb & Hr & Hp & Hl & Hq) Hlt. rewrite next_pos_mod by done.
  assert (Hput : put_pos b = (read_pos b + Z.of_nat (length q)) mod 16).
  { rewrite Hl, Zplus_mod_idemp_r. replace (read_pos b + (put_pos b - read_pos b)) with (put_pos b) by lia. by rewrite Z.mod_small. }
  split; cbn [buffer read_pos put_pos]; [by rewrite length_insert|]. split; [done|]. split; [apply Z.mod_pos_bound; lia|]. split.
  - rewrite length_app. simpl. rewrite Zminus_mod_idemp_l. replace (put_pos b + 1 - read_pos b) with (put_pos b - read_pos b + 1) by lia.
    rewrite <- Zplus_mod_idemp_l, <- Hl, Z.mod_small by lia. lia.
  - intros i x Hi. pose proof (Z.mod_pos_bound (read_pos b + Z.of_nat i) 16 ltac:(lia)).
    destruct (decide (i = length q)) as [->|Hne].
    + rewrite lookup_app_r, Nat.sub_diag in Hi by lia. simplify_eq/=. rewrite <- Hput. apply list_lookup_insert_eq. lia.
    + apply lookup_lt_Some in Hi as Hi'. rewrite length_app in Hi'. simpl in Hi'. rewrite lookup_app_l in Hi by lia.
      rewrite list_lookup_insert_ne; [by apply Hq|]. intros E. apply Z2Nat.inj in E; [|lia|lia]. rewrite Hput in E.
      rewrite (Z.mod_eq (read_pos b + Z.of_nat (length q)) 16), (Z.mod_eq (read_pos b + Z.of_nat i) 16) in E by lia. lia.
Qed.

(** Skipping the oldest byte. *)
Lemma ring_pop b q c : ring_rep b (c :: q) →
  buffer b !! Z.to_nat (read_pos b) = Some c ∧ ring_rep (mk_buffer (buffer b) (next_pos (read_pos b)) (put_pos b)) q.
Proof.
  intros (Hb & Hr & Hp & Hl & Hq). split.
  - specialize (Hq 0%nat c eq_refl). simpl in Hq. by rewrite Z.add_0_r, Z.mod_small in Hq.
  - rewrite next_pos_mod by done. split; cbn [buffer read_pos put_pos]; [done|]. split; [apply Z.mod_pos_bound; lia|]. split; [done|]. split.
    + cbn [length] in Hl. rewrite Zminus_mod_idemp_r. replace (put_pos b - (read_pos b + 1)) with (put_pos b - read_pos b + -1) by lia.
      rewrite <- Zplus_mod_idemp_l, <- Hl, Z.mod_small; [lia|]. pose proof (Z.mod_pos_bound (put_pos b - read_pos b) 16). lia.
    + intros i x Hi. specialize (Hq (S i) x Hi). rewrite Zplus_mod_idemp_l.
      by replace (read_pos b + 1 + Z.of_nat i) with (read_pos b + Z.of_nat (S i)) by lia.
Qed.
End ring.
