(* ===== verification/PrintkTheorems.v ===== *)
(** * The theorems about [printk] *)

From S2P Require Import Prelude Macro Utils Printk PrintkSpec Mmio Uart.

(** A UART that is always ready. *)
Definition ready_uart : mmio := mk_mmio (λ _ _, 0) 0 [] 1.
Definition demo_console (m : bytes) : pstate mmio := mk_pstate ready_uart [] m.

Lemma ready_uart_ready : tx_ready ready_uart.
Proof. intros t. exists 0%nat. split; [apply Nat.lt_0_1|reflexivity]. Qed.

Section claims.
Context {S : Type} `{!Console S}.

(** C24. [printk] prints what its format says, on every console that accepts
    characters: for a format made of literal text, [%%], [%s], [%c] and the
    [int], [long] and [long long] conversions [d u x X] (and [p], [b]), with [-],
    [0] and width, and with arguments of these types, it returns, having sent
    exactly the rendered text (a newline as CR LF).  The text is fixed by the
    format alone: [d] is the signed decimal, [u] the unsigned decimal, [x] and
    [X] the hexadecimal in lower and upper case of the argument's low 32 bits (64 with
    [l] or [ll], and for [p]), [b] the binary of an [int] that is not negative, without leading zeros, filled to the width. *)
Theorem printk_renders ps args text u0 (st : pstate S) :
  renders (smem st) ps args text → con_ok (con st) → 0 ≤ u0 < 2 ^ 64 →
  ∃ st', printk (enc_format ps) args u0 st = Ok (tt, st') ∧ sent (con st') = sent (con st) ++ text.
Proof.
  intros Hr Hok Hu. assert (wp (printk (enc_format ps) args u0) st (λ _ st', sent (con st') = sent (con st) ++ text)) as Hw.
  { unfold printk, simple_vsprintf. apply wp_bind. eapply renders_prints; [exact Hr|apply enc_length|done|done|done|].
    intros n st' (_ & _ & _ & Hs). by apply wp_ret. }
  apply wp_inv in Hw as ([] & st' & H). eauto.
Qed.

(** Integers are printed so that they can be read back: for every [long],
    every base from 4 to 36 and every field, [simple_outputi] stays inside
    its buffer, returns the number of characters, and the digits it prints
    denote the number (its absolute value after a minus sign for signed
    decimal, its unsigned value otherwise) without leading zeros. *)
Theorem simple_outputi_exact out i base sign width flags letbase (st : pstate S) :
  con_ok (con st) → 4 ≤ base ≤ 36 → letbase = c_a ∨ letbase = c_A → - 2 ^ 63 ≤ i < 2 ^ 63 →
  ∃ st' ds, simple_outputi out i base sign width flags letbase st =
              Ok (Z.of_nat (length (int_string i base sign width flags letbase)), st') ∧
    shown out st (int_string i base sign width flags letbase) st' ∧
    (let neg := negb (sign =? 0) && (base =? 10) && (i <? 0) in
     int_string i base sign width flags letbase =
       (if neg then
          if negb (width =? 0) && negb (Z.land flags PAD_ZERO =? 0) then c_minus :: padded ds (width - 1) flags
          else padded (c_minus :: ds) width flags
        else padded ds width flags) ∧
     parse base letbase ds = (if neg then Z.abs i else u64 i)) ∧
    (i ≠ 0 → head ds ≠ Some c_0).
Proof.
  intros Hok Hb Hlet Hi. set (neg := negb (sign =? 0) && (base =? 10) && (i <? 0)). set (u := if neg then - i else u64 i).
  assert (wp (simple_outputi out i base sign width flags letbase) st (λ n st',
    n = Z.of_nat (length (int_string i base sign width flags letbase)) ∧ shown out st (int_string i base sign width flags letbase) st')) as Hw.
  { apply wp_outputi; [done|done|done|]. intros st' Hs. done. }
  apply wp_inv in Hw as (n & st' & Hrun & -> & Hs). exists st', (numeral base letbase u).
  assert (0 ≤ u < 2 ^ 64 ∧ u = (if neg then Z.abs i else u64 i) ∧ (i ≠ 0 → u ≠ 0)) as (Hu & Eu & Hne).
  { subst u neg. destruct (Z.ltb_spec i 0) as [Hlt|]; rewrite ?andb_false_r, ?andb_true_r.
    - destruct (negb (sign =? 0) && (base =? 10)); cbv iota; [lia|]. rewrite u64_neg by lia. lia.
    - rewrite u64_small by lia. lia. }
  split_and!; [done|done| |].
  - cbv zeta. split; [done|]. fold neg. rewrite <- Eu. apply parse_numeral; [lia|done|done].
  - intros Hi0. unfold numeral. rewrite (proj2 (Z.eqb_neq _ _)) by auto. destruct (numeral_loop 64 base letbase u []) as [|c l] eqn:E; [done|].
    cbn [head]. intros [= Ec]. eapply numeral_loop_head; [..|exact E|exact Ec]; [lia|done|pose proof (pow_64_le base); lia|auto].
Qed.

(** The buffer of [simple_outputi] is one character too short: the 64
    binary digits of a negative number do not fit the 63 characters before the
    terminator, so [%b] of a negative [int] stores below the buffer. *)
Theorem outputi_binary_overflow out i sign width flags letbase (st : pstate S) :
  - 2 ^ 63 ≤ i < 0 → simple_outputi out i 2 sign width flags letbase st = Halt HFault.
Proof.
  intros Hi. unfold simple_outputi. rewrite (proj2 (Z.eqb_neq i 0)) by lia. change (2 =? 10) with false. rewrite andb_false_r. cbn [andb].
  rewrite u64_neg by lia. unfold mbind, M_bind. rewrite (digit_loop_overflow 64 63); [done|lia| |lia|done]. change (Z.of_nat 63) with 63. lia.
Qed.

(** [%hu] and the other unsigned [short] and [char] conversions print the
    whole union: the upper bits are what the previous argument left there. *)
Theorem short_unsigned_stale out c k v ap u w flags (st : pstate S) f :
  conv_h c = Some k → c ≠ 100 → con_ok (con st) →
  ∃ st', run_conv out (Some k) f (v :: ap) u w flags st =
           Ok (f, ap, u - u mod 2 ^ 16 + v mod 2 ^ 16, Z.of_nat (length (int_string (s64 (u - u mod 2 ^ 16 + v mod 2 ^ 16)) (cv_base k) 0 w flags (cv_let k))), st') ∧
         shown out st (int_string (s64 (u - u mod 2 ^ 16 + v mod 2 ^ 16)) (cv_base k) 0 w flags (cv_let k)) st'.
Proof.
  intros Hk Hc Hok. assert (cv_bits k = 16 ∧ cv_read k = s64 ∧ (cv_base k = 10 ∨ cv_base k = 16) ∧ cv_sign k = 0) as (E1 & E2 & E3 & E4).
  { revert Hk. unfold conv_h. repeat case_cmp; intros [= <-]; cbn [cv_bits cv_read cv_base cv_sign]; split_and!; try done; tauto || lia. }
  cbn [run_conv va_arg]. rewrite E1, E2, E4. unfold store, mbind, M_bind, mret, M_ret. cbv beta iota zeta. set (x := u - u mod 2 ^ 16 + v mod 2 ^ 16).
  set (text := int_string (s64 x) (cv_base k) 0 w flags (cv_let k)).
  assert (wp (simple_outputi out (s64 x) (cv_base k) 0 w flags (cv_let k)) st (λ n st', n = Z.of_nat (length text) ∧ shown out st text st')) as Hw.
  { apply wp_outputi; [done|lia|apply s64_range|done]. }
  apply wp_inv in Hw as (n & st' & Hrun & -> & Hs). exists st'. split; [|done]. by rewrite Hrun.
Qed.

(** A format that ends inside a directive makes [printk] read past the end
    of the string: after an incomplete directive the loop steps over the
    terminator. *)
Theorem incomplete_directive_overruns f args u0 (st : pstate S) :
  In f [[c_pct; 108; 0]; [c_pct; 104; 0]; [c_pct; 108; 108; 0]; [c_pct; 53; 0]; [c_pct; c_minus; 0]; [c_pct; c_0; 0]] →
  printk f args u0 st = Halt HFault.
Proof. intros Hf. repeat (destruct Hf as [<-|Hf]; [reflexivity|]). done. Qed.
End claims.

(** ** Instances: the PL011 console *)

(** [printk("n=%d %s %05lX\n", -5, "ab", 0xbeef)] *)
Definition demo_pieces : list piece :=
  [Lit 110; Lit 61; Num no_field 0 100; Lit 32; Str no_field; Lit 32; Num (mk_field false true [53]) 1 88; Lit 10].
Definition demo_mem : bytes := lay 4096 [97; 98; 0].

Lemma printk_renders_witness :
  ∃ text st', printk (enc_format demo_pieces) [u64 (-5); 4096; 0xbeef] 0 (demo_console demo_mem) = Ok (tt, st') ∧
    sent (con st') = [] ++ text ∧ text = [110; 61; 45; 53; 32; 97; 98; 32; 48; 66; 69; 69; 70; 13; 10].
Proof.
  assert (field_ok no_field) as Hf. { split; [constructor|]. split; [discriminate|]. reflexivity. }
  assert (field_ok (mk_field false true [53])) as Hf5. { split; [repeat constructor; discriminate|]. split; [discriminate|]. reflexivity. }
  eexists. destruct (printk_renders demo_pieces [u64 (-5); 4096; 0xbeef] [110; 61; 45; 53; 32; 97; 98; 32; 48; 66; 69; 69; 70; 13; 10] 0 (demo_console demo_mem)) as (st' & H1 & H2).
  - apply (r_lit _ 110 _ _ [61; 45; 53; 32; 97; 98; 32; 48; 66; 69; 69; 70; 13; 10]); [discriminate|discriminate|].
    apply (r_lit _ 61 _ _ [45; 53; 32; 97; 98; 32; 48; 66; 69; 69; 70; 13; 10]); [discriminate|discriminate|].
    apply (r_num demo_mem no_field 0 100 (mk_spec 32 true 10 false) (u64 (-5)) _ [4096; 0xbeef] [32; 97; 98; 32; 48; 66; 69; 69; 70; 13; 10]);
      [exact Hf|auto|reflexivity|discriminate|vm_compute; split; congruence|].
    apply (r_lit _ 32 _ _ [97; 98; 32; 48; 66; 69; 69; 70; 13; 10]); [discriminate|discriminate|].
    apply (r_str demo_mem no_field 4096 [97; 98] _ [0xbeef] [32; 48; 66; 69; 69; 70; 13; 10]); [exact Hf|lia|split; [repeat split; reflexivity|repeat constructor; lia]|].
    apply (r_lit _ 32 _ _ [48; 66; 69; 69; 70; 13; 10]); [discriminate|discriminate|].
    apply (r_num demo_mem (mk_field false true [53]) 1 88 (mk_spec 64 false 16 true) 0xbeef [Lit 10] [] [13; 10]); [exact Hf5|auto|reflexivity|discriminate|vm_compute; split; congruence|].
    apply (r_lit _ 10 _ _ []); [discriminate|discriminate|]. constructor.
  - exact ready_uart_ready.
  - lia.
  - exists st'. split; [exact H1|]. split; [exact H2|reflexivity].
Defined.

Lemma simple_outputi_exact_witness : ∃ st' ds,
  simple_outputi false (-42) 10 1 6 PAD_ZERO c_a (demo_console ∅) = Ok (Z.of_nat (length (int_string (-42) 10 1 6 PAD_ZERO c_a)), st') ∧
  shown false (demo_console ∅) (int_string (-42) 10 1 6 PAD_ZERO c_a) st' ∧
  (let neg := negb (1 =? 0) && (10 =? 10) && (-42 <? 0) in
     int_string (-42) 10 1 6 PAD_ZERO c_a =
       (if neg then
          if negb (6 =? 0) && negb (Z.land PAD_ZERO PAD_ZERO =? 0) then c_minus :: padded ds (6 - 1) PAD_ZERO
          else padded (c_minus :: ds) 6 PAD_ZERO
        else padded ds 6 PAD_ZERO) ∧
     parse 10 c_a ds = (if neg then Z.abs (-42) else u64 (-42))) ∧
  (-42 ≠ 0 → head ds ≠ Some c_0).
Proof.
  apply (simple_outputi_exact false (-42) 10 1 6 PAD_ZERO c_a (demo_console ∅)); [exact ready_uart_ready|lia|by left|lia].
Defined.

Lemma outputi_binary_overflow_witness : simple_outputi false (-1) 2 1 0 0 c_a (demo_console ∅) = Halt HFault.
Proof. apply (outputi_binary_overflow false (-1) 1 0 0 c_a (demo_console ∅)). lia. Defined.

(** After a 64-bit argument of [2^32], [%hu] of 5 prints 4294967301. *)
Lemma short_unsigned_stale_witness : ∃ st',
  run_conv false (Some (mk_conv 16 s64 10 0 c_a)) [117] [5] (2 ^ 32) 0 0 (demo_console ∅) =
    Ok ([117], [], 2 ^ 32 - 2 ^ 32 mod 2 ^ 16 + 5 mod 2 ^ 16,
        Z.of_nat (length (int_string (s64 (2 ^ 32 - 2 ^ 32 mod 2 ^ 16 + 5 mod 2 ^ 16)) 10 0 0 0 c_a)), st') ∧
  shown false (demo_console ∅) (int_string (s64 (2 ^ 32 - 2 ^ 32 mod 2 ^ 16 + 5 mod 2 ^ 16)) 10 0 0 0 c_a) st'.
Proof.
  apply (short_unsigned_stale false 117 (mk_conv 16 s64 10 0 c_a) 5 [] (2 ^ 32) 0 0 (demo_console ∅) [117]);
    [reflexivity|discriminate|exact ready_uart_ready].
Defined.

Lemma incomplete_directive_overruns_witness : printk [c_pct; 108; 0] [] 0 (demo_console ∅) = Halt HFault.
Proof. apply (incomplete_directive_overruns [c_pct; 108; 0] [] 0 (demo_console ∅)). by left. Defined.
