(* ===== verification/UartTheorems.v ===== *)
(** * The theorems about the UART drivers *)

From S2P Require Import Prelude Macro Utils Printk Mmio Uart.
Import PL011.

(** ** Lifting to the driver's state *)
Lemma wp_on_io {A} (m : M mmio A) s (Q : A → ustate → Prop) :
  wp m (io s) (λ a d, Q a (mk_ustate d (pl011_buffer s))) → wp (on_io m) s Q.
Proof. intros H. by apply wp_zoom. Qed.

Lemma wp_uart_irq_handler s q (Q : unit → ustate → Prop) :
  ring_rep (pl011_buffer s) q → tx_ready (io s) →
  (∀ s', let c := Z.land (u32 (dev (io s) (RASPI3_PL011_DR KP) (clock (io s)))) 0xFF in
     ring_rep (pl011_buffer s') (enqueue q c) → same_dev (io s) (io s') →
     writes (io s') = writes (io s) ++ [(RASPI3_PL011_DR KP, c)] → Q tt s') →
  wp uart_irq_handler s Q.
Proof.
  intros Hr Ht HQ. cbv zeta in HQ. unfold uart_irq_handler. apply wp_bind, wp_on_io, wp_get32. intros d1 Hd1 Ew1 _.
  set (c := Z.land _ 0xFF) in *. apply wp_bind, wp_on_io, wp_uart_send; [by eapply answers_same|]. intros d2 Hd2 Ew2. cbn [io pl011_buffer] in *.
  apply wp_bind, wp_gets. cbn [pl011_buffer]. pose proof Hr as (_ & Hrd & Hpt & Hl & _). set (b := pl011_buffer s) in *.
  rewrite Z.geb_leb. unfold UART_BUF_LEN. rewrite (proj2 (Z.ltb_ge _ _)), (proj2 (Z.leb_gt _ _)) by lia. cbn [orb].
  apply wp_modify, HQ; [|by etrans|by cbn; rewrite Ew2, Ew1]. cbn [pl011_buffer]. unfold enqueue. pose proof (ring_length _ _ Hr) as Hlen.
  rewrite (next_pos_mod (put_pos b)) by lia. destruct (Nat.eqb_spec (length q) 15) as [E|E].
  - destruct q as [|x q]; [done|]. cbn [length] in *. destruct (ring_pop _ _ _ Hr) as [_ Hpop].
    apply (ring_push _ _ c) in Hpop; [|lia]. cbn [buffer read_pos put_pos tl] in *. rewrite (next_pos_mod (put_pos b)) in Hpop by lia.
    destruct (Z.eqb_spec (read_pos b) ((put_pos b + 1) mod 16)) as [|Hne]; [done|]. exfalso. apply Hne.
    clear HQ Hpop. Z.to_euclidean_division_equations. lia.
  - apply (ring_push _ _ c) in Hr; [|lia]. rewrite (next_pos_mod (put_pos b)) in Hr by lia.
    destruct (Z.eqb_spec (read_pos b) ((put_pos b + 1) mod 16)) as [Heq|]; [|done]. exfalso. apply E.
    clear HQ Hr. Z.to_euclidean_division_equations. lia.
Qed.

Lemma wp_nb_uart_recv s q (Q : Z → ustate → Prop) :
  ring_rep (pl011_buffer s) q →
  (∀ s', io s' = io s → ring_rep (pl011_buffer s') (tl q) → Q (default NB_UART_NRET (head q)) s') →
  wp nb_uart_recv s Q.
Proof.
  intros Hr HQ. unfold nb_uart_recv. apply wp_bind, wp_gets. set (b := pl011_buffer s) in *.
  pose proof Hr as (_ & Hrd & Hpt & Hl & _). destruct q as [|c q].
  - simpl in Hl. assert (read_pos b = put_pos b) as -> by (clear HQ Hr; Z.to_euclidean_division_equations; lia).
    rewrite Z.eqb_refl. by apply wp_ret, HQ.
  - destruct (ring_pop _ _ _ Hr) as [Hc Hpop]. rewrite (proj2 (Z.eqb_neq _ _)).
    2:{ intros E. rewrite E, Z.sub_diag, Zmod_0_l in Hl. cbn [length] in Hl. lia. }
    apply wp_bind. eapply wp_load; [rewrite (proj2 (Z.ltb_ge _ _)) by lia; exact Hc|]. apply wp_bind, wp_modify, wp_ret. by apply HQ.
Qed.

(** ** The transmitter *)
Lemma wp_send_string l s (Q : unit → mmio → Prop) :
  answers (RASPI3_PL011_FR EarlyUart.BOOT_PHYSADDR_OFFSET) tx_full s →
  (∀ s', same_dev s s' → writes s' = writes s ++ ((λ c, (RASPI3_PL011_DR EarlyUart.BOOT_PHYSADDR_OFFSET, c)) <$> l) → Q tt s') →
  wp (EarlyUart.uart_send_string l) s Q.
Proof.
  revert s Q. induction l as [|c l IH]; intros s Q Ha HQ; cbn [EarlyUart.uart_send_string].
  { apply wp_ret, HQ; [done|]. by rewrite app_nil_r. }
  unfold EarlyUart.early_uart_send. apply wp_bind, wp_bind, wp_poll; [done|]. intros s1 H1 E1. apply wp_put32. intros s2 H2 E2.
  assert (same_dev s s2) as H12 by by etrans. apply IH; [by eapply answers_same|]. intros s3 H3 E3. apply HQ; [by etrans|].
  rewrite E3, E2, E1. simpl. by rewrite <- app_assoc.
Qed.

(** [gpio_function f] sets the function fields of pins 14 and 15 and nothing else. *)
Lemma gpio_function_bits f ra i : 0 ≤ f < 8 → 0 ≤ ra < 2 ^ 32 → 0 ≤ i →
  Z.testbit (gpio_function f ra) i =
  if (12 <=? i) && (i <? 15) then Z.testbit f (i - 12) else if (15 <=? i) && (i <? 18) then Z.testbit f (i - 15) else Z.testbit ra i.
Proof.
  intros Hf Hra Hi. unfold gpio_function, u32.
  assert (∀ k, 0 ≤ k ≤ 29 → Z.testbit (Z.lnot (Z.shiftl 7 k) mod 2 ^ 32) i = (i <? 32) && negb ((k <=? i) && (i <? k + 3))) as Hmask.
  { intros k Hk. rewrite <- Z.land_ones, Z.land_spec, Z.lnot_spec, Z.shiftl_spec, Z.testbit_ones_nonneg by lia. rewrite andb_comm. f_equal. f_equal.
    destruct (Z.leb_spec k i) as [Hk1|Hk1]; cbn [andb]; [|apply Z.testbit_neg_r; lia]. change 7 with (Z.ones 3). rewrite Z.testbit_ones_nonneg by lia.
    destruct (Z.ltb_spec (i - k) 3), (Z.ltb_spec i (k + 3)); lia || done. }
  assert (∀ j, 3 ≤ j → Z.testbit f j = false) as Hfhi.
  { intros j Hj. rewrite <- (Z.mod_small f (2 ^ 3)) by lia. by apply Z.mod_pow2_bits_high. }
  assert (32 ≤ i → Z.testbit ra i = false) as Hrahi.
  { intros Hj. rewrite <- (Z.mod_small ra (2 ^ 32)) by lia. by apply Z.mod_pow2_bits_high. }
  assert (∀ k, i < k → Z.testbit f (i - k) = false) as Hneg by (intros; apply Z.testbit_neg_r; lia).
  rewrite !Z.lor_spec, !Z.land_spec, !Z.lor_spec, !Z.land_spec, !Z.shiftl_spec, !Hmask by lia.
  destruct (Z.leb_spec 12 i), (Z.ltb_spec i 15), (Z.leb_spec 15 i), (Z.ltb_spec i 18), (Z.ltb_spec i (12 + 3)), (Z.ltb_spec i (15 + 3)), (Z.ltb_spec i 32);
    try lia; cbn [andb negb orb]; rewrite ?andb_true_r, ?andb_false_r, ?orb_false_r; cbn [orb];
    rewrite ?(Hfhi (i - 12)), ?(Hfhi (i - 15)), ?(Hneg 12), ?(Hneg 15), ?orb_false_r by lia; try done.
  all: rewrite ?orb_false_l; by rewrite ?Hrahi by lia.
Qed.

Lemma wp_gpio_init base f s (Q : unit → mmio → Prop) :
  (∀ s', same_dev s s' → writes s' = writes s ++
     [(GPFSEL1 base, gpio_function f (u32 (dev s (GPFSEL1 base) (clock s)))); (GPPUD base, 0);
      (GPPUDCLK0 base, 0xC000); (GPPUDCLK0 base, 0)] → Q tt s') → wp (gpio_init base f) s Q.
Proof.
  intros HQ. unfold gpio_init. apply wp_bind, wp_get32. intros s1 H1 E1 _. do 3 (apply wp_bind, wp_put32; intros ? ? ?). apply wp_put32. intros sf Hsf Ef.
  apply HQ; [by repeat (etrans; [eassumption|])|]. rewrite Ef. repeat match goal with E : writes ?s' = _ |- context [writes ?s'] => rewrite E end.
  by rewrite <- !app_assoc.
Qed.

(** ** Properties *)

(** C33. The PL011 receive path is a queue of 15 bytes: an interrupt appends
    the byte in the data register (dropping the oldest byte when 15 are
    waiting) and echoes it, never storing outside the buffer; [nb_uart_recv]
    returns the oldest byte and removes it, or returns [NB_UART_NRET] when
    there is none. *)
Theorem uart_ring_is_queue s q :
  ring_rep (pl011_buffer s) q → tx_ready (io s) →
  (∃ s', uart_irq_handler s = Ok (tt, s') ∧
     let c := Z.land (u32 (dev (io s) (RASPI3_PL011_DR KP) (clock (io s)))) 0xFF in
     ring_rep (pl011_buffer s') (if (length q =? 15)%nat then tl q ++ [c] else q ++ [c]) ∧ tx_ready (io s') ∧
     sent_bytes (io s') = sent_bytes (io s) ++ [c]) ∧
  (∃ s', nb_uart_recv s = Ok (default NB_UART_NRET (head q), s') ∧ io s' = io s ∧ ring_rep (pl011_buffer s') (tl q)).
Proof.
  intros Hr Ht. split.
  - assert (wp uart_irq_handler s (λ _ s', let c := Z.land (u32 (dev (io s) (RASPI3_PL011_DR KP) (clock (io s)))) 0xFF in
      ring_rep (pl011_buffer s') (enqueue q c) ∧ tx_ready (io s') ∧ sent_bytes (io s') = sent_bytes (io s) ++ [c])) as Hw.
    { eapply wp_uart_irq_handler; [exact Hr|done|]. intros s' c Hr' Hd Ew. split; [done|]. split; [by eapply answers_same|by apply sent_bytes_dr]. }
    apply wp_inv in Hw as ([] & s' & H). eauto.
  - assert (wp nb_uart_recv s (λ c s', c = default NB_UART_NRET (head q) ∧ io s' = io s ∧ ring_rep (pl011_buffer s') (tl q))) as Hw.
    { eapply wp_nb_uart_recv; [exact Hr|]. intros s' Hio Hr'. done. }
    apply wp_inv in Hw as (c & s' & Hc & -> & H). eauto.
Qed.

(** A device that presents the byte 65. *)
Definition demo_uart : ustate := mk_ustate (mk_mmio (λ a _, if a =? RASPI3_PL011_DR KP then 65 else 0) 0 [] 1) (mk_buffer (replicate 16 0) 15 1).

Lemma uart_ring_is_queue_witness :
  (∃ s', uart_irq_handler demo_uart = Ok (tt, s') ∧
     let c := Z.land (u32 (dev (io demo_uart) (RASPI3_PL011_DR KP) (clock (io demo_uart)))) 0xFF in
     ring_rep (pl011_buffer s') (if (length [0; 0] =? 15)%nat then tl [0; 0] ++ [c] else [0; 0] ++ [c]) ∧ tx_ready (io s') ∧
     sent_bytes (io s') = sent_bytes (io demo_uart) ++ [c]) ∧
  (∃ s', nb_uart_recv demo_uart = Ok (default NB_UART_NRET (head [0; 0]), s') ∧ io s' = io demo_uart ∧ ring_rep (pl011_buffer s') (tl [0; 0])).
Proof.
  apply (uart_ring_is_queue demo_uart [0; 0]).
  - split; [reflexivity|]. cbn [demo_uart pl011_buffer read_pos put_pos buffer length]. split; [lia|]. split; [lia|]. split; [reflexivity|].
    intros [|[|i]] c Hc; [|injection Hc as <-; reflexivity|discriminate]. injection Hc as <-. reflexivity.
  - intros t. exists 0%nat. split; [apply Nat.lt_0_1|reflexivity].
Defined.

(** [uart_init] configures the PL011: on a device whose transmitter becomes
    ready it returns, having stored, in this order, the pin functions, the
    pull-up clock, the baud rate divisors 26 and 3 between disabling and
    enabling the UART, no interrupt mask, and the bytes that clear the screen;
    in the pin function register exactly the fields of pins 14 and 15 change,
    to function 4 (ALT0). *)
Theorem uart_init_configures s :
  tx_ready s →
  let ra := u32 (dev s (GPFSEL1 KP) (clock s)) in
  ∃ s' ra', uart_init s = Ok (tt, s') ∧ tx_ready s' ∧
    writes s' = writes s ++
      [(GPFSEL1 KP, ra'); (GPPUD KP, 0); (GPPUDCLK0 KP, 0xC000); (GPPUDCLK0 KP, 0);
       (RASPI3_PL011_CR KP, 0); (RASPI3_PL011_IBRD KP, 26); (RASPI3_PL011_FBRD KP, 3); (RASPI3_PL011_LCRH KP, 0x60);
       (RASPI3_PL011_IMSC KP, 0); (RASPI3_PL011_CR KP, 0x301);
       (RASPI3_PL011_DR KP, 12); (RASPI3_PL011_DR KP, 27); (RASPI3_PL011_DR KP, 91); (RASPI3_PL011_DR KP, 50); (RASPI3_PL011_DR KP, 74)] ∧
    ∀ i, 0 ≤ i → Z.testbit ra' i =
      if (12 <=? i) && (i <? 15) then Z.testbit 4 (i - 12) else if (15 <=? i) && (i <? 18) then Z.testbit 4 (i - 15) else Z.testbit ra i.
Proof.
  intros Ht ra. assert (wp uart_init s (λ _ s', tx_ready s' ∧ writes s' = writes s ++
      [(GPFSEL1 KP, gpio_function 4 ra); (GPPUD KP, 0); (GPPUDCLK0 KP, 0xC000); (GPPUDCLK0 KP, 0);
       (RASPI3_PL011_CR KP, 0); (RASPI3_PL011_IBRD KP, 26); (RASPI3_PL011_FBRD KP, 3); (RASPI3_PL011_LCRH KP, 0x60);
       (RASPI3_PL011_IMSC KP, 0); (RASPI3_PL011_CR KP, 0x301);
       (RASPI3_PL011_DR KP, 12); (RASPI3_PL011_DR KP, 27); (RASPI3_PL011_DR KP, 91); (RASPI3_PL011_DR KP, 50); (RASPI3_PL011_DR KP, 74)])) as Hw.
  { unfold uart_init. apply wp_bind, wp_gpio_init. intros s1 H1 E1. do 6 (apply wp_bind, wp_put32; intros ? ? ?).
    do 4 (apply wp_bind, wp_uart_send; [unfold tx_ready; by repeat (eapply answers_same; [eassumption|])|]; intros ? ? ?).
    apply wp_uart_send; [unfold tx_ready; by repeat (eapply answers_same; [eassumption|])|]. intros sf Hsf Ef. split.
    - unfold tx_ready. by repeat (eapply answers_same; [eassumption|]).
    - rewrite Ef. repeat match goal with E : writes ?s' = _ |- context [writes ?s'] => rewrite E end. by rewrite <- !app_assoc. }
  destruct (proj1 (wp_inv _ _ _) Hw) as ([] & s' & Hrun & Ht' & Ew). exists s', (gpio_function 4 ra). split; [done|]. split; [done|]. split; [done|].
  intros i Hi. apply gpio_function_bits; [lia| |done]. subst ra. unfold u32. apply Z.mod_pos_bound. lia.
Qed.

Lemma uart_init_configures_witness :
  let s := mk_mmio (λ _ _, 0) 0 [] 1 in
  let ra := u32 (dev s (GPFSEL1 KP) (clock s)) in
  ∃ s' ra', uart_init s = Ok (tt, s') ∧ tx_ready s' ∧
    writes s' = writes s ++
      [(GPFSEL1 KP, ra'); (GPPUD KP, 0); (GPPUDCLK0 KP, 0xC000); (GPPUDCLK0 KP, 0);
       (RASPI3_PL011_CR KP, 0); (RASPI3_PL011_IBRD KP, 26); (RASPI3_PL011_FBRD KP, 3); (RASPI3_PL011_LCRH KP, 0x60);
       (RASPI3_PL011_IMSC KP, 0); (RASPI3_PL011_CR KP, 0x301);
       (RASPI3_PL011_DR KP, 12); (RASPI3_PL011_DR KP, 27); (RASPI3_PL011_DR KP, 91); (RASPI3_PL011_DR KP, 50); (RASPI3_PL011_DR KP, 74)] ∧
    ∀ i, 0 ≤ i → Z.testbit ra' i =
      if (12 <=? i) && (i <? 15) then Z.testbit 4 (i - 12) else if (15 <=? i) && (i <? 18) then Z.testbit 4 (i - 15) else Z.testbit ra i.
Proof.
  intros s. apply (uart_init_configures s). intros t. exists 0%nat. split; [apply Nat.lt_0_1|reflexivity].
Defined.
