(* ===== verification/Kprint.v ===== *)
(** * Kernel messages: [include/common/kprint.h]

    [kinfo], [kwarn] and [kdebug] call [printk] on the PL011 console, or expand
    to nothing, according to [LOG_LEVEL].  There are two builds
    ([toolchain.cmake] always selects one of them, and [CMakeLists.txt] sets the
    level by it): Debug, which the [Makefile] asks for, with level 2, and Release
    with level 1.  The build is a parameter of everything that prints.  [u0] is
    what the uninitialised union of [simple_vsprintf] holds. *)

From stdpp Require Import strings.
From S2P Require Import Prelude Macro Utils Printk PrintkSpec Mmio Uart.
Import PL011.

Definition WARNING : Z := 0.
Definition INFO : Z := 1.
Definition DEBUG : Z := 2.

Inductive build_type : Type := Release_build | Debug_build.
Existing Class build_type.

Section macros.
Context {b : build_type}.

Definition LOG_LEVEL : Z := match b with Release_build => 1 | Debug_build => 2 end.

(** The bytes of a string literal, without its terminator *)
Definition chars (s : string) : list Z := (λ a, Z.of_N (Ascii.N_of_ascii a)) <$> String.list_ascii_of_string s.

(** [printk] with the string arguments in [m] *)
Definition console_printk (m : bytes) (fmt args : list Z) (u0 : Z) : M mmio unit :=
  zoom (λ d, mk_pstate d [] m) (λ st _, con st) (printk fmt args u0).

Definition kinfo (fmt args : list Z) (u0 : Z) : M mmio unit :=
  if LOG_LEVEL >=? INFO then console_printk ∅ (chars "[INFO] " ++ fmt) args u0 else mret tt.

Definition kdebug (fmt args : list Z) (u0 : Z) : M mmio unit :=
  if LOG_LEVEL >=? DEBUG then console_printk ∅ (chars "[DEBUG] " ++ fmt) args u0 else mret tt.

(** [file] is the address of the literal [__FILE__], which is in [m]. *)
Definition kwarn (m : bytes) (file line : Z) (fmt args : list Z) (u0 : Z) : M mmio unit :=
  if LOG_LEVEL >=? WARNING then console_printk m (chars "[WARN] file: %s:%u " ++ fmt) (file :: line :: args) u0 else mret tt.

End macros.

(** ** The stores to the device that a message makes

    [printk] is proved for every console; this one watches the device from a
    given state on. *)
Definition dr_writes (l : list Z) : list (Z * Z) := pair (RASPI3_PL011_DR PHYSADDR_OFFSET) <$> l.

Section watched.
Variable d0 : mmio.

Definition watched_ok (d : mmio) : Prop := tx_ready d ∧ same_dev d0 d ∧ ∃ l, writes d = writes d0 ++ dr_writes l.
Definition watched_sent (d : mmio) : list Z := snd <$> drop (length (writes d0)) (writes d).

Lemma watched_sent_app d l : writes d = writes d0 ++ dr_writes l → watched_sent d = l.
Proof.
  intros E. unfold watched_sent. rewrite E, drop_app_length. unfold dr_writes. rewrite <- list_fmap_compose.
  by rewrite (list_fmap_ext _ id), list_fmap_id.
Qed.

Lemma watched_send d c : watched_ok d → wp (uart_send c) d (λ _ d', watched_ok d' ∧ watched_sent d' = watched_sent d ++ [c]).
Proof.
  intros (Ht & Hs & l & Hl). apply wp_uart_send; [done|]. intros d' Hd Hw.
  assert (writes d' = writes d0 ++ dr_writes (l ++ [c])) as Hw'. { unfold dr_writes in *. rewrite Hw, Hl, fmap_app, app_assoc. done. }
  split; [|by rewrite (watched_sent_app d l), (watched_sent_app d' (l ++ [c]))].
  split_and!; [by eapply answers_same|by etrans|eauto].
Qed.

Definition watched_console : Console mmio := {|
  con_send := uart_send; sent := watched_sent; con_ok := watched_ok; con_send_spec := watched_send |}.
End watched.

Lemma wp_console_printk m ps args text u0 d (Q : unit → mmio → Prop) :
  renders m ps args text → tx_ready d → 0 ≤ u0 < 2 ^ 64 →
  (∀ d', same_dev d d' → writes d' = writes d ++ dr_writes text → Q tt d') →
  wp (console_printk m (enc_format ps) args u0) d Q.
Proof.
  intros Hr Ht Hu HQ. apply wp_zoom.
  change (wp (@printk mmio (watched_console d) (enc_format ps) args u0) (mk_pstate d [] m) (λ a st, Q a (con st))).
  assert (watched_ok d d) as Hok. { split_and!; [done|done|]. exists []. by rewrite app_nil_r. }
  apply wp_bind. eapply (@renders_prints mmio (watched_console d)); [exact Hr|apply enc_length|done|exact Hok|done|].
  intros n st' ((_ & Hs & l & Hl) & _ & _ & Hsent). apply wp_ret, HQ; [done|]. rewrite Hl. f_equal. f_equal.
  cbn [sent watched_console con] in Hsent. rewrite (watched_sent_app d _ l Hl), (watched_sent_app d d []) in Hsent; [done|].
  by rewrite app_nil_r.
Qed.

(** Literal text without newlines. *)
Lemma renders_lits m l ps args o :
  Forall (λ c, c ≠ 0 ∧ c ≠ c_pct ∧ c ≠ c_nl) l → renders m ps args o → renders m ((Lit <$> l) ++ ps) args (l ++ o).
Proof.
  intros Hl Hr. induction Hl as [|c l (H0 & Hp & Hn) Hl IH]; [done|]. cbn [fmap list_fmap app].
  pose proof (r_lit m c _ _ _ H0 Hp IH) as Hx. by rewrite (proj2 (Z.eqb_neq _ _) Hn) in Hx.
Qed.
