(* ===== verification/KernelLog.v ===== *)
(** * Messages as text

    [renders] (in [PrintkSpec]) relates a format, cut into pieces, to the text
    that [printk] sends.  For the formats of the kernel's messages (literal
    text, [%%], and number conversions without flags) this file computes the
    pieces and the text: [parse_fmt] and [render], with the rules for [kinfo],
    [kdebug] and [printk] in terms of them. *)

From stdpp Require Import strings.
From S2P Require Import Prelude Macro Utils Printk PrintkSpec Mmio Uart Kprint.
Import PL011.

(** The pieces of a format; [longs] is 1 for a conversion with one [l]. *)
Fixpoint parse_fmt (f : list Z) : list piece :=
  match f with
  | [] => []
  | c :: r =>
      if c =? c_pct then
        match r with
        | [] => []
        | d :: r' =>
            if d =? c_pct then Percent :: parse_fmt r'
            else if d =? 108 then match r' with [] => [] | e :: r'' => Num no_field 1 e :: parse_fmt r'' end
            else Num no_field 0 d :: parse_fmt r'
        end
      else Lit c :: parse_fmt r
  end.

Fixpoint render (ps : list piece) (args : list Z) : list Z :=
  match ps with
  | [] => []
  | Lit c :: ps' => (if c =? c_nl then [c_cr] else []) ++ [c] ++ render ps' args
  | Percent :: ps' => [c_pct] ++ render ps' args
  | Num fl longs c :: ps' =>
      match args, spec_of longs c with
      | v :: args', Some q => num_text q v fl ++ render ps' args'
      | _, _ => []
      end
  | _ => []
  end.

(** Formats that [render] covers, with these arguments ([%b] wants one below [2^31]). *)
Fixpoint plain (ps : list piece) (args : list Z) : bool :=
  match ps with
  | [] => true
  | Lit c :: ps' => negb (c =? 0) && negb (c =? c_pct) && plain ps' args
  | Percent :: ps' => plain ps' args
  | Num (mk_field false false []) longs c :: ps' =>
      match args, spec_of longs c with
      | v :: args', Some q => (longs <=? 2)%nat && ((ns_base q >? 2) || (0 <=? spec_value q v)) && plain ps' args'
      | _, _ => false
      end
  | _ => false
  end.

Definition arg_ok (v : Z) : Prop := 0 ≤ v < 2 ^ 64.

Lemma render_ok ps args : plain ps args = true → Forall arg_ok args → renders ∅ ps args (render ps args).
Proof.
  revert args. induction ps as [|p ps IH]; intros args Hp Ha; [constructor|].
  destruct p as [c| |[[] [] []] longs c|fl|fl]; cbn [plain render] in *; try discriminate Hp.
  - rewrite !andb_true_iff, !negb_true_iff, !Z.eqb_neq in Hp. destruct Hp as [[H0 H1] H2]. apply r_lit; [done|done|auto].
  - apply r_percent. auto.
  - destruct args as [|v args]; [done|]. apply Forall_cons in Ha as [Hv Ha].
    destruct (spec_of longs c) as [k|] eqn:Ek; [|done]. rewrite !andb_true_iff, orb_true_iff, Z.gtb_ltb, Z.ltb_lt, Z.leb_le, Nat.leb_le in Hp.
    destruct Hp as [[Hl Hb] Hp]. apply r_num; [split; [by constructor|]; by split|done|done|lia|done|auto].
Qed.

(** The text of [printk(fmt, ...)] and of [kinfo(fmt, ...)] *)
Definition print_text (fmt args : list Z) : list Z := render (parse_fmt fmt) args.
Definition info_text (fmt args : list Z) : list Z := print_text (chars "[INFO] " ++ fmt) args.

(** The pieces stand for the format. *)
Definition fmt_ok (fmt args : list Z) : bool :=
  bool_decide (enc_format (parse_fmt fmt) = fmt ++ [0]) && plain (parse_fmt fmt) args.

Lemma wp_print_text fmt args u0 d (Q : unit → mmio → Prop) :
  fmt_ok fmt args = true → Forall arg_ok args → tx_ready d → arg_ok u0 →
  (∀ d', same_dev d d' → writes d' = writes d ++ dr_writes (print_text fmt args) → Q tt d') →
  wp (console_printk ∅ (fmt ++ [0]) args u0) d Q.
Proof.
  unfold fmt_ok. rewrite andb_true_iff, bool_decide_eq_true. intros [He Hp] Ha Ht Hu HQ. rewrite <- He.
  eapply wp_console_printk; [by apply render_ok|done|done|exact HQ].
Qed.

Section build.
Context {b : build_type}.

(** The text of [kdebug(fmt, ...)] *)
Definition debug_text (fmt args : list Z) : list Z :=
  match b with Release_build => [] | Debug_build => print_text (chars "[DEBUG] " ++ fmt) args end.

Lemma wp_info_text fmt args u0 d (Q : unit → mmio → Prop) :
  fmt_ok (chars "[INFO] " ++ fmt) args = true → Forall arg_ok args → tx_ready d → arg_ok u0 →
  (∀ d', same_dev d d' → writes d' = writes d ++ dr_writes (info_text fmt args) → Q tt d') →
  wp (kinfo (fmt ++ [0]) args u0) d Q.
Proof.
  intros Hf Ha Ht Hu HQ. unfold kinfo. assert (LOG_LEVEL >=? INFO = true) as -> by by destruct b.
  rewrite app_assoc. by apply wp_print_text.
Qed.

Lemma wp_debug_text fmt args u0 d (Q : unit → mmio → Prop) :
  fmt_ok (chars "[DEBUG] " ++ fmt) args = true → Forall arg_ok args → tx_ready d → arg_ok u0 →
  (∀ d', same_dev d d' → writes d' = writes d ++ dr_writes (debug_text fmt args) → Q tt d') →
  wp (kdebug (fmt ++ [0]) args u0) d Q.
Proof.
  intros Hf Ha Ht Hu HQ. unfold kdebug, debug_text in *. destruct b.
  - apply wp_ret, HQ; [done|]. by rewrite app_nil_r.
  - change (LOG_LEVEL >=? DEBUG) with true. cbv iota. rewrite app_assoc. by apply wp_print_text.
Qed.
End build.
