(* ===== verification/Bitops.v ===== *)
(** * Bit operations: [include/common/bitops.h]

    A bitmap is the array of [unsigned long] that [p] points to, here a list of
    64-bit words; an index outside it is a fault. *)

From S2P Require Import Prelude Macro.

Abbreviation bitmap := (list Z).

Definition BITS_PER_LONG : Z := 64.
Definition BITS_PER_INT : Z := 32.
Definition BITS_TO_LONGS (nr : Z) : Z := DIV_ROUND_UP nr BITS_PER_LONG.
Definition GENMASK_ULL (h l : Z) : Z :=
  Z.land (u64 (u64 (not64 0 - Z.shiftl 1 l) + 1)) (Z.shiftr (not64 0) (64 - 1 - h)).

Definition get_bit_in_slot (slot bit : Z) : Z := Z.land slot (u64 (Z.shiftl 1 bit)).
Definition clear_bit_in_slot (slot bit : Z) : Z := Z.land slot (not64 (u64 (Z.shiftl 1 bit))).
Definition set_bit_in_slot (slot bit : Z) : Z := Z.lor slot (u64 (Z.shiftl 1 bit)).

(** [p[i]] *)
Definition ld_long (i : Z) : M bitmap Z := load (λ p : bitmap, if i <? 0 then None else p !! Z.to_nat i).
Definition st_long (i v : Z) : M bitmap unit := modify (λ p : bitmap, <[Z.to_nat i := v]> p).

Definition set_bit (nr : Z) : M bitmap unit :=
  let nlongs := nr / BITS_PER_LONG in
  let ilongs := nr mod BITS_PER_LONG in
  v ← ld_long nlongs;
  st_long nlongs (Z.lor v (u64 (Z.shiftl 1 ilongs))).

Definition get_bit (nr : Z) : M bitmap Z :=
  let nlongs := nr / BITS_PER_LONG in
  let ilongs := nr mod BITS_PER_LONG in
  v ← ld_long nlongs;
  mret (Z.land (Z.shiftr v ilongs) 0x1).

Definition clear_bit (nr : Z) : M bitmap unit :=
  let nlongs := nr / BITS_PER_LONG in
  let ilongs := nr mod BITS_PER_LONG in
  v ← ld_long nlongs;
  st_long nlongs (Z.land v (not64 (u64 (Z.shiftl 1 ilongs)))).

(** [__builtin_ctzl]: the number of zero bits below the lowest one bit *)
Fixpoint ctz_loop (fuel : nat) (x i : Z) : Z :=
  match fuel with
  | O => i
  | S fuel' => if Z.testbit x i then i else ctz_loop fuel' x (i + 1)
  end.
Definition ctzl (x : Z) : Z := if x =? 0 then BITS_PER_LONG else ctz_loop 64 x 0.

(** [__builtin_clz(x)] is [31 - log2 x] for [x] other than 0 (and undefined for 0). *)
Definition bsr (x : Z) : Z := BITS_PER_INT - 1 - (31 - Z.log2 x).

(** The inner [for] loop over one word *)
Fixpoint scan_word (fuel : nat) (cur_elem_index cur_bit max_bit res : Z) (invert : bool) : M bitmap (option Z) :=
  match fuel with
  | O => stop HFuel
  | S fuel' =>
      if cur_bit <=? max_bit then
        v ← ld_long cur_elem_index;
        let cur_bit_value := get_bit_in_slot v cur_bit in
        if (if invert then cur_bit_value =? 0 else negb (cur_bit_value =? 0)) then mret (Some res)
        else scan_word fuel' cur_elem_index (cur_bit + 1) max_bit (res + 1) invert
      else mret None
  end.

(** The outer [while] loop *)
Fixpoint scan_words (fuel : nat) (size max_elem_index cur_elem_index cur_bit res : Z) (invert : bool) : M bitmap Z :=
  match fuel with
  | O => stop HFuel
  | S fuel' =>
      if cur_elem_index <=? max_elem_index then
        let max_bit := if cur_elem_index <? max_elem_index then BITS_PER_LONG - 1 else u64 (size - 1) mod BITS_PER_LONG in
        r ← scan_word 65 cur_elem_index cur_bit max_bit res invert;
        match r with
        | Some res => mret res
        | None =>
            (* the for loop left [res] one past the last bit it looked at *)
            scan_words fuel' size max_elem_index (cur_elem_index + 1) 0 (res + Z.max 0 (max_bit + 1 - cur_bit)) invert
        end
      else mret size
  end.

Definition find_next_bit_helper (size start : Z) (invert : bool) : M bitmap Z :=
  let max_elem_index := u64 (size - 1) / BITS_PER_LONG in
  let cur_elem_index := start / BITS_PER_LONG in
  let cur_bit := start mod BITS_PER_LONG in
  n ← gets (λ p : bitmap, length p);
  r ← scan_words (S (S n)) size max_elem_index cur_elem_index cur_bit start invert;
  mret (s32 r).

Definition find_next_zero_bit (size start : Z) : M bitmap Z := find_next_bit_helper size start true.
Definition find_next_bit (size start : Z) : M bitmap Z := find_next_bit_helper size start false.

(** ** Bits of a bitmap *)

(** Bit [i] of the bitmap. *)
Definition bit_at (p : bitmap) (i : Z) : bool := Z.testbit (nth (Z.to_nat (i / 64)) p 0) (i mod 64).

Lemma u64_pow2 b : 0 ≤ b < 64 → u64 (Z.shiftl 1 b) = 2 ^ b.
Proof.
  intros Hb. rewrite Z.shiftl_1_l. apply u64_small. pose proof (pow2_gt0 b). pose proof (Z.pow_lt_mono_r 2 b 64). lia.
Qed.

Lemma get_bit_in_slot_spec v b : 0 ≤ b < 64 → get_bit_in_slot v b = if Z.testbit v b then 2 ^ b else 0.
Proof.
  intros Hb. unfold get_bit_in_slot. rewrite u64_pow2 by done. apply Z.bits_inj'. intros i Hi. rewrite Z.land_spec.
  destruct (decide (i = b)) as [->|Hne].
  - rewrite Z.pow2_bits_true, andb_true_r by lia. destruct (Z.testbit v b); [by rewrite Z.pow2_bits_true by lia|by rewrite Z.testbit_0_l].
  - rewrite Z.pow2_bits_false, andb_false_r by lia. destruct (Z.testbit v b); [by rewrite Z.pow2_bits_false by lia|by rewrite Z.testbit_0_l].
Qed.

(** ** Searching *)
Section search.
Context (p : bitmap) (size : Z) (invert : bool) (Hsize : 0 < size ≤ 64 * Z.of_nat (length p)) (Hint : size < 2 ^ 31).

(** What the search looks for. *)
Definition hit (i : Z) : Prop := bit_at p i = negb invert.

Lemma word_at e : 0 ≤ e < Z.of_nat (length p) → p !! Z.to_nat e = Some (nth (Z.to_nat e) p 0).
Proof. intros He. destruct (lookup_lt_is_Some_2 p (Z.to_nat e)) as [v Hv]; [lia|]. by rewrite (nth_lookup_Some _ _ 0 _ Hv). Qed.

Lemma bit_at_word e b : 0 ≤ e → 0 ≤ b < 64 → bit_at p (64 * e + b) = Z.testbit (nth (Z.to_nat e) p 0) b.
Proof.
  intros He Hb. unfold bit_at. replace (64 * e + b) with (b + e * 64) by lia. rewrite Z.div_add, Z.mod_add, Z.div_small, Z.mod_small by lia. done.
Qed.

Lemma wp_scan_word fuel e b m (Q : option Z → bitmap → Prop) :
  0 ≤ e < Z.of_nat (length p) → 0 ≤ b → m < 64 → Z.max 0 (m + 1 - b) < Z.of_nat fuel →
  (∀ r, 64 * e + b ≤ r ≤ 64 * e + m → hit r → (∀ i, 64 * e + b ≤ i < r → ¬ hit i) → Q (Some r) p) →
  ((∀ i, 64 * e + b ≤ i ≤ 64 * e + m → ¬ hit i) → Q None p) →
  wp (scan_word fuel e b m (64 * e + b) invert) p Q.
Proof.
  intros He. revert b. induction fuel as [|fuel IH]; intros b Hb Hm Hf HQ1 HQ0; cbn [scan_word].
  { lia. }
  case_cmp as Hc; [|apply wp_ret, HQ0; lia]. apply wp_bind. unfold ld_long.
  eapply wp_load; [rewrite (proj2 (Z.ltb_ge e 0)) by lia; by apply word_at|]. rewrite get_bit_in_slot_spec, <- bit_at_word by lia.
  pose proof (pow2_gt0 b Hb). assert ((if invert then (if bit_at p (64 * e + b) then 2 ^ b else 0) =? 0
     else negb ((if bit_at p (64 * e + b) then 2 ^ b else 0) =? 0)) = bool_decide (hit (64 * e + b))) as ->.
  { unfold hit. destruct (bit_at p (64 * e + b)), invert; cbn [negb]; rewrite ?Z.eqb_refl, ?(proj2 (Z.eqb_neq (2 ^ b) 0)) by lia; done. }
  case_bool_decide as Hh.
  - apply wp_ret, HQ1; [lia|done|lia].
  - replace (64 * e + b + 1) with (64 * e + (b + 1)) by lia. apply IH; [lia|lia|lia| |].
    + intros r Hr Hhr Hlow. apply HQ1; [lia|done|]. intros i Hi. destruct (decide (i = 64 * e + b)) as [->|]; [done|]. apply Hlow. lia.
    + intros Hno. apply HQ0. intros i Hi. destruct (decide (i = 64 * e + b)) as [->|]; [done|]. apply Hno. lia.
Qed.

(** The first hit from [start] on below [size], or [size]. *)
Definition first_hit (start r : Z) : Prop :=
  (start ≤ r < size ∧ hit r ∧ ∀ i, start ≤ i < r → ¬ hit i) ∨ (r = size ∧ ∀ i, start ≤ i < size → ¬ hit i).

Lemma wp_scan_words fuel e b (Q : Z → bitmap → Prop) :
  0 ≤ e → 0 ≤ b < 64 → Z.max 0 ((size - 1) / 64 + 1 - e) < Z.of_nat fuel →
  (∀ r, first_hit (64 * e + b) r → Q r p) →
  wp (scan_words fuel size ((size - 1) / 64) e b (64 * e + b) invert) p Q.
Proof.
  revert e b. induction fuel as [|fuel IH]; intros e b He Hb Hf HQ; cbn [scan_words].
  { lia. }
  pose proof (Z.div_mod (size - 1) 64 ltac:(lia)) as Hdm. pose proof (Z.mod_pos_bound (size - 1) 64 ltac:(lia)) as Hmod.
  destruct (Z.leb_spec e ((size - 1) / 64)) as [Hc|Hc]; [|apply wp_ret, HQ; right; split; [done|lia]].
  unfold BITS_PER_LONG. rewrite (u64_small (size - 1)) by lia. set (m := if e <? _ then _ else _).
  assert (m < 64 ∧ 0 ≤ m ∧ (e < (size - 1) / 64 → m = 63) ∧ (e = (size - 1) / 64 → 64 * e + m = size - 1)) as (Hm & Hm0 & Hmi & Hml).
  { subst m. destruct (Z.ltb_spec e ((size - 1) / 64)); lia. }
  clearbody m. apply wp_bind, wp_scan_word; [lia|lia|done|lia| |].
  - intros r Hr Hh Hlow. apply wp_ret, HQ. left. split; [|done]. destruct (decide (e = (size - 1) / 64)); lia.
  - intros Hno. destruct (decide (e = (size - 1) / 64)) as [Ee|Ene].
    + destruct fuel as [|fuel']; [lia|]. cbn [scan_words]. rewrite (proj2 (Z.leb_gt _ _)) by lia. apply wp_ret, HQ. right. split; [done|].
      intros i Hi. apply Hno. lia.
    + rewrite Hmi in * by lia. replace (64 * e + b + Z.max 0 (63 + 1 - b)) with (64 * (e + 1) + 0) by lia. apply IH; [lia|lia|lia|].
      intros r Hr. apply HQ. destruct Hr as [(Hr & Hh & Hlow)|[-> Hlow]]; [left|right].
      * split; [lia|]. split; [done|]. intros i Hi. destruct (Z_lt_dec i (64 * (e + 1))); [apply Hno; lia|apply Hlow; lia].
      * split; [done|]. intros i Hi. destruct (Z_lt_dec i (64 * (e + 1))); [apply Hno; lia|apply Hlow; lia].
Qed.

Lemma wp_find_next start (Q : Z → bitmap → Prop) :
  0 ≤ start → (∀ r, first_hit start r → Q r p) → wp (find_next_bit_helper size start invert) p Q.
Proof.
  intros Hs HQ. unfold find_next_bit_helper, BITS_PER_LONG. rewrite (u64_small (size - 1)) by lia. apply wp_bind, wp_gets, wp_bind.
  pose proof (Z.div_mod start 64 ltac:(lia)) as Hdm. pose proof (Z.mod_pos_bound start 64 ltac:(lia)) as Hm.
  pose proof (Z.div_pos start 64 Hs ltac:(lia)). pose proof (Z.div_mod (size - 1) 64 ltac:(lia)). pose proof (Z.mod_pos_bound (size - 1) 64 ltac:(lia)).
  replace start with (64 * (start / 64) + start mod 64) at 3 by lia. apply wp_scan_words; [done|done|lia|].
  intros r Hr. apply wp_ret. replace (64 * (start / 64) + start mod 64) with start in Hr by lia.
  assert (0 ≤ r < 2 ^ 31) as Hr31 by (destruct Hr as [(? & _)|[-> _]]; lia). rewrite s32_small by lia. by apply HQ.
Qed.
End search.

(** ** Properties *)

(** [find_next_bit] and [find_next_zero_bit] find the first bit at or after
    [start] that is set (clear), and return [size] when there is none; they
    read no word outside the bitmap. *)
Theorem find_next_bit_first p size start :
  0 < size ≤ 64 * Z.of_nat (length p) → size < 2 ^ 31 → 0 ≤ start →
  (∃ r, find_next_bit size start p = Ok (r, p) ∧ first_hit p size false start r) ∧
  (∃ r, find_next_zero_bit size start p = Ok (r, p) ∧ first_hit p size true start r).
Proof.
  intros Hs Hi Hst. assert (∀ inv, ∃ r, find_next_bit_helper size start inv p = Ok (r, p) ∧ first_hit p size inv start r) as H.
  { intros inv. assert (wp (find_next_bit_helper size start inv) p (λ r p', p' = p ∧ first_hit p size inv start r)) as Hw.
    { apply wp_find_next; [done|done|done|]. done. }
    apply wp_inv in Hw as (r & p' & Hr & -> & H). eauto. }
  split; apply H.
Qed.

Lemma find_next_bit_first_witness :
  (∃ r, find_next_bit 100 3 [2; 4] = Ok (r, [2; 4]) ∧ first_hit [2; 4] 100 false 3 r) ∧
  (∃ r, find_next_zero_bit 100 3 [2; 4] = Ok (r, [2; 4]) ∧ first_hit [2; 4] 100 true 3 r).
Proof. apply (find_next_bit_first [2; 4] 100 3); simpl; lia. Defined.

(** ** Lowest set bit *)
Lemma ctz_loop_spec fuel x i : (∃ j, i ≤ j < i + Z.of_nat fuel ∧ Z.testbit x j = true) →
  let r := ctz_loop fuel x i in i ≤ r < i + Z.of_nat fuel ∧ Z.testbit x r = true ∧ ∀ j, i ≤ j < r → Z.testbit x j = false.
Proof.
  revert i. induction fuel as [|fuel IH]; intros i (j & Hj & Hx); [lia|]. cbn [ctz_loop]. destruct (Z.testbit x i) eqn:E.
  - cbv zeta. split; [lia|]. split; [done|lia].
  - destruct (IH (i + 1)) as (Hr & Ht & Hlow); [exists j; split; [destruct (decide (i = j)); [congruence|lia]|done]|].
    split; [lia|]. split; [done|]. intros j' Hj'. destruct (decide (j' = i)) as [->|]; [done|]. apply Hlow. lia.
Qed.

Lemma ctzl_spec x : 0 < x < 2 ^ 64 →
  0 ≤ ctzl x < 64 ∧ Z.testbit x (ctzl x) = true ∧ ∀ j, 0 ≤ j < ctzl x → Z.testbit x j = false.
Proof.
  intros Hx. unfold ctzl. rewrite (proj2 (Z.eqb_neq _ _)) by lia. apply (ctz_loop_spec 64 x 0).
  exists (Z.log2 x). split; [|apply Z.bit_log2; lia]. pose proof (Z.log2_nonneg x). pose proof (Z.log2_lt_pow2 x 64). lia.
Qed.
