(* ===== verification/Sync.v ===== *)
(** * Spin locks: [include/arch/aarch64/arch/sync.h], [include/common/lock.h]

    The instructions of [spin_lock] and [spin_unlock] interleaved on any number
    of CPUs.  The shared state is the lock word and, for each CPU, its
    exclusive monitor: [ldaxr] sets it, a store to the word by any CPU clears
    every monitor, and it may be lost at any time; [stxr] stores only when the
    CPU's monitor is still set, and may fail anyway.  Memory accesses happen
    one at a time (the acquire load and the release store order the rest). *)

From S2P Require Import Prelude.

(** Where a CPU is in the code. *)
Inductive lock_pc : Type :=
| Idle                 (* outside *)
| Ldaxr                (* 1: ldaxr w0, [lock] *)
| Cbnz1 (w0 : Z)       (* cbnz w0, 2f *)
| Stxr                 (* stxr w0, 1, [lock] *)
| Cbnz2 (w0 : Z)       (* cbnz w0, 1b *)
| Wfe                  (* 2: wfe; b 1b *)
| Critical             (* 3: the caller holds the lock *)
| Stlr.                (* stlr wzr, [lock] *)

#[global] Instance lock_pc_eq_dec : EqDecision lock_pc.
Proof. solve_decision. Defined.

Record lock_state : Type := mk_lock_state { word : Z; excl : gset nat; pcs : nat → lock_pc }.

Definition go {C : Type} (i : nat) (c : C) (f : nat → C) : nat → C := λ j, if decide (j = i) then c else f j.

(** [spin_lock_init] *)
Definition spin_lock_init : lock_state := mk_lock_state 0 ∅ (λ _, Idle).

(** One instruction of [spin_lock] on CPU [i]. *)
Inductive spin_lock (i : nat) : lock_state → lock_state → Prop :=
| sl_call w E f : f i = Idle → spin_lock i (mk_lock_state w E f) (mk_lock_state w E (go i Ldaxr f))
| sl_ldaxr w E f : f i = Ldaxr → spin_lock i (mk_lock_state w E f) (mk_lock_state w ({[i]} ∪ E) (go i (Cbnz1 w) f))
| sl_busy w E f v : f i = Cbnz1 v → v ≠ 0 → spin_lock i (mk_lock_state w E f) (mk_lock_state w E (go i Wfe f))
| sl_free w E f : f i = Cbnz1 0 → spin_lock i (mk_lock_state w E f) (mk_lock_state w E (go i Stxr f))
| sl_stxr w E f : f i = Stxr → i ∈ E → spin_lock i (mk_lock_state w E f) (mk_lock_state 1 ∅ (go i (Cbnz2 0) f))
| sl_stxr_fail w E f : f i = Stxr → spin_lock i (mk_lock_state w E f) (mk_lock_state w (E ∖ {[i]}) (go i (Cbnz2 1) f))
| sl_retry w E f v : f i = Cbnz2 v → v ≠ 0 → spin_lock i (mk_lock_state w E f) (mk_lock_state w E (go i Ldaxr f))
| sl_got w E f : f i = Cbnz2 0 → spin_lock i (mk_lock_state w E f) (mk_lock_state w E (go i Critical f))
| sl_wfe w E f : f i = Wfe → spin_lock i (mk_lock_state w E f) (mk_lock_state w E (go i Ldaxr f)).

(** One instruction of [spin_unlock], called by the holder. *)
Inductive spin_unlock (i : nat) : lock_state → lock_state → Prop :=
| su_call w E f : f i = Critical → spin_unlock i (mk_lock_state w E f) (mk_lock_state w E (go i Stlr f))
| su_stlr w E f : f i = Stlr → spin_unlock i (mk_lock_state w E f) (mk_lock_state 0 ∅ (go i Idle f)).

Inductive lock_step : lock_state → lock_state → Prop :=
| ls_lock i s s' : spin_lock i s s' → lock_step s s'
| ls_unlock i s s' : spin_unlock i s s' → lock_step s s'
| ls_lose_monitor i w E f : lock_step (mk_lock_state w E f) (mk_lock_state w (E ∖ {[i]}) f).

(** ** The invariant *)
Definition holds (c : lock_pc) : Prop := c = Cbnz2 0 ∨ c = Critical ∨ c = Stlr.

Record lock_inv (s : lock_state) : Prop := {
  li_word : word s = 0 ∨ word s = 1;
  li_one : ∀ i j, holds (pcs s i) → holds (pcs s j) → i = j;
  li_held : ∀ i, holds (pcs s i) → word s = 1;
  li_free : word s = 1 → ∃ i, holds (pcs s i);
  li_stxr : ∀ i, i ∈ excl s → pcs s i = Stxr → word s = 0;
  li_seen : ∀ i v, i ∈ excl s → pcs s i = Cbnz1 v → v = word s
}.

Lemma go_eq {C} i (c : C) f : go i c f i = c.
Proof. unfold go. by rewrite decide_True. Qed.
Lemma go_ne {C} i j (c : C) f : j ≠ i → go i c f j = f j.
Proof. intros. unfold go. by rewrite decide_False. Qed.

(** A move of CPU [i] that leaves the word alone and is about no holder. *)
Lemma inv_move i c w E E' f : lock_inv (mk_lock_state w E f) → ¬ holds (f i) → ¬ holds c → (∀ j, j ≠ i → j ∈ E' → j ∈ E) →
  (i ∈ E' → c = Stxr → w = 0) → (∀ v, i ∈ E' → c = Cbnz1 v → v = w) → lock_inv (mk_lock_state w E' (go i c f)).
Proof.
  intros [Hw H1 Hh Hf Hs Hv] Hni Hnc HE Hst Hse. cbn [word excl pcs] in *.
  assert (∀ j, holds (go i c f j) → j ≠ i ∧ holds (f j)) as Hgo.
  { intros j Hj. destruct (decide (j = i)) as [->|Hne]; [by rewrite go_eq in Hj|]. by rewrite go_ne in Hj. }
  split; cbn [word excl pcs]; [done| | | | |].
  - intros a b [_ Ha]%Hgo [_ Hb]%Hgo. by apply H1.
  - intros a [_ Ha]%Hgo. by eapply Hh.
  - intros E1. destruct (Hf E1) as [a Ha]. exists a. rewrite go_ne; [done|]. by intros ->.
  - intros a Ha. destruct (decide (a = i)) as [->|Hne]; [rewrite go_eq; auto|rewrite go_ne by done; apply Hs; auto].
  - intros a v Ha. destruct (decide (a = i)) as [->|Hne]; [rewrite go_eq; auto|rewrite go_ne by done; apply Hv; auto].
Qed.

(** A move of the holder. *)
Lemma inv_hold i c w E f : lock_inv (mk_lock_state w E f) → holds (f i) → holds c → lock_inv (mk_lock_state w E (go i c f)).
Proof.
  intros [Hw H1 Hh Hf Hs Hv] Hi Hc. cbn [word excl pcs] in *.
  assert (∀ j, holds (go i c f j) → j = i) as Hgo.
  { intros j Hj. destruct (decide (j = i)) as [|Hne]; [done|]. rewrite go_ne in Hj by done. by apply H1. }
  split; cbn [word excl pcs]; [done| | | | |].
  - intros a b Ha%Hgo Hb%Hgo. congruence.
  - intros a Ha. by eapply Hh.
  - intros _. exists i. by rewrite go_eq.
  - intros a Ha Hp. destruct (decide (a = i)) as [->|Hne]; [rewrite go_eq in Hp; subst c; by destruct Hc as [?|[?|?]]|rewrite go_ne in Hp by done; eauto].
  - intros a v Ha Hp. destruct (decide (a = i)) as [->|Hne]; [rewrite go_eq in Hp; subst c; by destruct Hc as [?|[?|?]]|rewrite go_ne in Hp by done; eauto].
Qed.

Lemma no_holds c : c = Idle ∨ c = Ldaxr ∨ (∃ v, c = Cbnz1 v) ∨ c = Stxr ∨ (∃ v, c = Cbnz2 v ∧ v ≠ 0) ∨ c = Wfe → ¬ holds c.
Proof. intros H [Hh|[Hh|Hh]]; naive_solver. Qed.
#[local] Hint Resolve no_holds : core.

Ltac move_ok HI Hp :=
  eapply inv_move; [exact HI|apply no_holds; rewrite Hp; naive_solver|apply no_holds; naive_solver|set_solver|naive_solver|naive_solver].

Lemma spin_lock_inv i s s' : spin_lock i s s' → lock_inv s → lock_inv s'.
Proof.
  intros Hst HI. destruct Hst as [w E f Hp|w E f Hp|w E f v Hp Hv|w E f Hp|w E f Hp Hin|w E f Hp|w E f v Hp Hv|w E f Hp|w E f Hp].
  - move_ok HI Hp.
  - move_ok HI Hp.
  - move_ok HI Hp.
  - pose proof (li_seen _ HI i 0) as Hseen. cbn [word excl pcs] in Hseen. move_ok HI Hp.
  - assert (w = 0) as -> by (eapply (li_stxr _ HI i); done).
    assert (∀ j, ¬ holds (f j)) as Hno by (intros j Hj; pose proof (li_held _ HI j Hj); done).
    split; cbn [word excl pcs]; [by right| | | |set_solver|set_solver].
    + intros a b Ha Hb. destruct (decide (a = i)), (decide (b = i)); [congruence|rewrite go_ne in Hb by done; by apply Hno in Hb|rewrite go_ne in Ha by done; by apply Hno in Ha..].
    + done.
    + intros _. exists i. rewrite go_eq. by left.
  - move_ok HI Hp.
  - move_ok HI Hp.
  - eapply inv_hold; [exact HI|rewrite Hp; by left|by right; left].
  - move_ok HI Hp.
Qed.

Lemma spin_unlock_inv i s s' : spin_unlock i s s' → lock_inv s → lock_inv s'.
Proof.
  intros Hst HI. destruct Hst as [w E f Hp|w E f Hp].
  - eapply inv_hold; [exact HI|rewrite Hp; by right; left|by right; right].
  - assert (holds (f i)) as Hi by (rewrite Hp; by right; right).
    assert (∀ j, ¬ holds (go i Idle f j)) as Hno.
    { intros j Hj. destruct (decide (j = i)) as [->|Hne]; [rewrite go_eq in Hj; by apply no_holds in Hj; [|left]|].
      rewrite go_ne in Hj by done. by apply Hne, (li_one _ HI). }
    split; cbn [word excl pcs]; [by left| | |done|set_solver|set_solver].
    + intros a b Ha. by apply Hno in Ha.
    + intros a Ha. by apply Hno in Ha.
Qed.

Lemma lock_step_inv s s' : lock_step s s' → lock_inv s → lock_inv s'.
Proof.
  intros [i ? ? Hs|i ? ? Hs|i w E f] HI; [by eapply spin_lock_inv|by eapply spin_unlock_inv|].
  destruct HI as [Hw H1 Hh Hf Hs Hv]. split; cbn [word excl pcs] in *; [done|done|done|done| |].
  - intros j Hj. apply Hs. set_solver.
  - intros j v Hj. apply Hv. set_solver.
Qed.

Lemma lock_reachable_inv s : rtc lock_step spin_lock_init s → lock_inv s.
Proof.
  intros Hr. apply (rtc_ind_r lock_inv spin_lock_init) in Hr; [done| |].
  - split; cbn [word excl pcs spin_lock_init]; [by left| | |done|set_solver|set_solver].
    + intros i j Hi. exfalso. revert Hi. apply no_holds. by left.
    + intros i Hi. exfalso. revert Hi. apply no_holds. by left.
  - intros s1 s2 _ Hst HI. by eapply lock_step_inv.
Qed.

(** ** Properties *)

(** C21. Mutual exclusion: however the instructions of any number of CPUs
    interleave, and whenever exclusive monitors are lost, two CPUs are never
    in the critical section at the same time, and the lock word is 1 for as
    long as one is. *)
Theorem spin_lock_mutual_exclusion s i j :
  rtc lock_step spin_lock_init s → pcs s i = Critical → pcs s j = Critical → i = j ∧ word s = 1.
Proof.
  intros Hr Hi Hj. pose proof (lock_reachable_inv _ Hr) as HI. split.
  - apply (li_one _ HI); [rewrite Hi|rewrite Hj]; by right; left.
  - apply (li_held _ HI i). rewrite Hi. by right; left.
Qed.

(** CPU 1 takes the lock. *)
Lemma lock_free_run i w E f : f i = Ldaxr → w = 0 →
  rtc lock_step (mk_lock_state w E f)
    (mk_lock_state 1 ∅ (go i Critical (go i (Cbnz2 0) (go i Stxr (go i (Cbnz1 w) f))))).
Proof.
  intros Hp ->. eapply rtc_l; [apply (ls_lock i), sl_ldaxr, Hp|]. eapply rtc_l; [apply (ls_lock i), sl_free, go_eq|].
  eapply rtc_l; [apply (ls_lock i), sl_stxr; [apply go_eq|set_solver]|]. eapply rtc_l; [apply (ls_lock i), sl_got, go_eq|]. apply rtc_refl.
Qed.

Definition demo_locked : lock_state :=
  mk_lock_state 1 ∅ (go 1 Critical (go 1 (Cbnz2 0) (go 1 Stxr (go 1 (Cbnz1 0) (go 1 Ldaxr (λ _, Idle)))))).

Lemma demo_locked_reachable : rtc lock_step spin_lock_init demo_locked.
Proof.
  eapply rtc_l; [apply (ls_lock 1), sl_call; reflexivity|]. apply lock_free_run; [apply go_eq|reflexivity].
Qed.

Lemma spin_lock_mutual_exclusion_witness : 1%nat = 1%nat ∧ word demo_locked = 1.
Proof. apply (spin_lock_mutual_exclusion demo_locked 1 1 demo_locked_reachable); apply go_eq. Defined.

(** CPU [i] can take the lock by its own steps. *)
Definition can_take (i : nat) (s : lock_state) : Prop := ∃ s', rtc (spin_lock i) s s' ∧ pcs s' i = Critical.

Lemma can_take_step i s s1 : spin_lock i s s1 → can_take i s1 → can_take i s.
Proof. intros H1 (s' & H2 & H3). exists s'. split; [by eapply rtc_l|done]. Qed.

Section free_lock.
Context (i : nat).
Implicit Types (E : gset nat) (f : nat → lock_pc).

Lemma take_got E f w : f i = Cbnz2 0 → can_take i (mk_lock_state w E f).
Proof. intros Hp. exists (mk_lock_state w E (go i Critical f)). split; [by apply rtc_once, sl_got|apply go_eq]. Qed.
Lemma take_stxr E f : f i = Stxr → i ∈ E → can_take i (mk_lock_state 0 E f).
Proof. intros Hp Hi. eapply can_take_step; [by apply sl_stxr|]. apply take_got, go_eq. Qed.
Lemma take_ldaxr E f : f i = Ldaxr → can_take i (mk_lock_state 0 E f).
Proof.
  intros Hp. eapply can_take_step; [by apply sl_ldaxr|]. eapply can_take_step; [apply sl_free, go_eq|]. apply take_stxr; [apply go_eq|set_solver].
Qed.
Lemma take_wfe E f : f i = Wfe → can_take i (mk_lock_state 0 E f).
Proof. intros Hp. eapply can_take_step; [by apply sl_wfe|]. apply take_ldaxr, go_eq. Qed.
Lemma take_retry E f v : f i = Cbnz2 v → v ≠ 0 → can_take i (mk_lock_state 0 E f).
Proof. intros Hp Hv. eapply can_take_step; [by eapply sl_retry|]. apply take_ldaxr, go_eq. Qed.
Lemma take_again E f : f i = Stxr → can_take i (mk_lock_state 0 E f).
Proof. intros Hp. eapply can_take_step; [by apply sl_stxr_fail|]. eapply take_retry; [apply go_eq|lia]. Qed.
Lemma take_cbnz1 E f v : f i = Cbnz1 v → can_take i (mk_lock_state 0 E f).
Proof.
  intros Hp. destruct (decide (v = 0)) as [->|Hv].
  - eapply can_take_step; [by apply sl_free|]. apply take_again, go_eq.
  - eapply can_take_step; [by eapply sl_busy|]. apply take_wfe, go_eq.
Qed.
End free_lock.

Lemma free_can_take i s : lock_inv s → (∀ j, ¬ holds (pcs s j)) → pcs s i ≠ Idle → can_take i s.
Proof.
  intros HI Hfree Hi. destruct s as [w E f]. cbn [pcs] in *.
  assert (w = 0) as -> by (destruct (li_word _ HI) as [?|Hw]; [done|]; destruct (li_free _ HI Hw) as [a Ha]; by apply Hfree in Ha).
  destruct (f i) as [| |v| |v| | |] eqn:Ep.
  - done.
  - by apply take_ldaxr.
  - by eapply take_cbnz1.
  - by apply take_again.
  - eapply take_retry; [done|]. intros ->. apply (Hfree i). rewrite Ep. by left.
  - by apply take_wfe.
  - exfalso. apply (Hfree i). rewrite Ep. by right; left.
  - exfalso. apply (Hfree i). rewrite Ep. by right; right.
Qed.

(** C31. No deadlock: in every reachable state in which no CPU holds the lock,
    any CPU that is trying to take it can take it by its own steps alone,
    whatever state the others are in. *)
Theorem spin_lock_progress s i :
  rtc lock_step spin_lock_init s → (∀ j, ¬ holds (pcs s j)) → pcs s i ≠ Idle →
  ∃ s', rtc (spin_lock i) s s' ∧ pcs s' i = Critical.
Proof. intros Hr. apply free_can_take. by apply lock_reachable_inv. Qed.

Definition demo_trying : lock_state := mk_lock_state 0 ∅ (go 2 Ldaxr (λ _, Idle)).

Lemma spin_lock_progress_witness : ∃ s', rtc (spin_lock 2) demo_trying s' ∧ pcs s' 2%nat = Critical.
Proof.
  apply (spin_lock_progress demo_trying 2).
  - apply rtc_once, (ls_lock 2), sl_call. reflexivity.
  - intros j. apply no_holds. cbn [demo_trying pcs]. unfold go. destruct (decide (j = 2%nat)); [right; by left|by left].
  - cbn [demo_trying pcs]. rewrite (go_eq 2 Ldaxr). discriminate.
Defined.
