(* ===== verification/Atomics.v ===== *)
(** * Atomic operations: the second half of [include/arch/aarch64/arch/sync.h]

    [atomic_cmpxchg_32/64], [atomic_exchange_64], [atomic_fetch_add_32/64] and
    [atomic_fetch_sub_32/64], instruction by instruction, on one word of [w]
    bits shared by any number of CPUs.  Exclusive monitors behave as in [Sync]:
    [ldaxr] sets the CPU's own, a successful [stlxr] clears all of them, and a
    monitor may be lost at any time.  The specification is an object whose
    operations happen in one step; the theorems are linearizability and, for
    counters, that no update is lost. *)

From S2P Require Import Prelude Sync.

Inductive atomic_op : Type :=
| CmpXchg (compare exchange : Z)
| Xchg (exchange : Z)
| FetchAdd (val : Z)
| FetchSub (val : Z).

(** The next instruction of a CPU, with the registers it needs. *)
Inductive atomic_pc : Type :=
| Outside
| Load (o : atomic_op)                                     (* 1: ldaxr oldval *)
| Compare (compare exchange oldval : Z)                    (* cmp oldval, compare *)
| BranchNe (compare exchange oldval : Z) (ne : bool)       (* b.ne 2f *)
| Arith (o : atomic_op) (oldval : Z)                       (* add/sub newval, oldval, val *)
| Store (o : atomic_op) (oldval newval : Z)                (* stlxr ret, newval *)
| Retry (o : atomic_op) (oldval ret : Z)                   (* cbnz ret, 1b *)
| Result (oldval : Z).                                     (* 2: *)

Inductive event : Type :=
| Call (i : nat) (o : atomic_op)
| Return (i : nat) (oldval : Z)
| Commit (i : nat) (o : atomic_op) (oldval : Z).

Record atomic_state : Type := mk_atomic { aword : Z; amon : gset nat; apcs : nat → atomic_pc }.

Section machine.
Context (w : Z).
Implicit Types (v old x c d : Z) (E : gset nat) (f : nat → atomic_pc).
(** A [w]-bit register *)
Definition reg v : Z := v mod 2 ^ w.

(** The instructions all of them share: the call, [ldaxr], [stlxr], [cbnz] and the result. *)
Inductive exclusive (i : nat) (o : atomic_op) (next : Z → atomic_pc) : atomic_state → option event → atomic_state → Prop :=
| ex_call v E f : f i = Outside →
    exclusive i o next (mk_atomic v E f) (Some (Call i o)) (mk_atomic v E (go i (Load o) f))
| ex_ldaxr v E f : f i = Load o →
    exclusive i o next (mk_atomic v E f) None (mk_atomic v ({[i]} ∪ E) (go i (next v) f))
| ex_stlxr v E f old new : f i = Store o old new → i ∈ E →
    exclusive i o next (mk_atomic v E f) None (mk_atomic new ∅ (go i (Retry o old 0) f))
| ex_stlxr_fail v E f old new : f i = Store o old new →
    exclusive i o next (mk_atomic v E f) None (mk_atomic v (E ∖ {[i]}) (go i (Retry o old 1) f))
| ex_retry v E f old ret : f i = Retry o old ret → ret ≠ 0 →
    exclusive i o next (mk_atomic v E f) None (mk_atomic v E (go i (Load o) f))
| ex_done v E f old : f i = Retry o old 0 →
    exclusive i o next (mk_atomic v E f) None (mk_atomic v E (go i (Result old) f)).

(** [__atomic_compare_exchange] *)
Inductive atomic_compare_exchange (i : nat) (compare exchange : Z) : atomic_state → option event → atomic_state → Prop :=
| cx_exclusive s l s' : exclusive i (CmpXchg compare exchange) (Compare compare exchange) s l s' →
    atomic_compare_exchange i compare exchange s l s'
| cx_cmp v E f old : f i = Compare compare exchange old →
    atomic_compare_exchange i compare exchange (mk_atomic v E f) None
      (mk_atomic v E (go i (BranchNe compare exchange old (negb (old =? reg compare))) f))
| cx_ne v E f old : f i = BranchNe compare exchange old true →
    atomic_compare_exchange i compare exchange (mk_atomic v E f) None (mk_atomic v E (go i (Result old) f))
| cx_eq v E f old : f i = BranchNe compare exchange old false →
    atomic_compare_exchange i compare exchange (mk_atomic v E f) None
      (mk_atomic v E (go i (Store (CmpXchg compare exchange) old (reg exchange)) f)).

(** [atomic_exchange_64] *)
Inductive atomic_exchange_64 (i : nat) (exchange : Z) : atomic_state → option event → atomic_state → Prop :=
| xc_exclusive s l s' : w = 64 → exclusive i (Xchg exchange) (λ old, Store (Xchg exchange) old (reg exchange)) s l s' →
    atomic_exchange_64 i exchange s l s'.

(** [__atomic_fetch_op], with [op] one of the instructions [add] and [sub] *)
Definition arith (o : atomic_op) (old : Z) : Z :=
  match o with
  | FetchAdd val => reg (old + val)
  | FetchSub val => reg (old - val)
  | _ => old
  end.
Definition fetch_op (o : atomic_op) : Prop := match o with FetchAdd _ | FetchSub _ => True | _ => False end.

Inductive atomic_fetch_op (i : nat) (o : atomic_op) : atomic_state → option event → atomic_state → Prop :=
| fo_exclusive s l s' : fetch_op o → exclusive i o (Arith o) s l s' → atomic_fetch_op i o s l s'
| fo_arith v E f old : f i = Arith o old →
    atomic_fetch_op i o (mk_atomic v E f) None (mk_atomic v E (go i (Store o old (arith o old)) f)).

(** The result goes back to the caller. *)
Inductive atomic_return (i : nat) : atomic_state → option event → atomic_state → Prop :=
| ar_return v E f old : f i = Result old →
    atomic_return i (mk_atomic v E f) (Some (Return i old)) (mk_atomic v E (go i Outside f)).

Inductive atomic_step : atomic_state → option event → atomic_state → Prop :=
| as_cmpxchg i c x s l s' : atomic_compare_exchange i c x s l s' → atomic_step s l s'
| as_xchg i x s l s' : atomic_exchange_64 i x s l s' → atomic_step s l s'
| as_fetch i o s l s' : atomic_fetch_op i o s l s' → atomic_step s l s'
| as_return i s l s' : atomic_return i s l s' → atomic_step s l s'
| as_lose i v E f : atomic_step (mk_atomic v E f) None (mk_atomic v (E ∖ {[i]}) f).

(** Runs and the calls and returns they show. *)
Inductive atomic_run : atomic_state → list event → atomic_state → Prop :=
| ar_nil s : atomic_run s [] s
| ar_cons s l s1 tr s2 : atomic_step s l s1 → atomic_run s1 tr s2 → atomic_run s (option_list l ++ tr) s2.

Definition atomic_init v : atomic_state := mk_atomic (reg v) ∅ (λ _, Outside).

(** ** The specification: an object with indivisible operations *)
Definition atomic_apply (o : atomic_op) (v : Z) : Z :=
  match o with
  | CmpXchg compare exchange => if v =? reg compare then reg exchange else v
  | Xchg exchange => reg exchange
  | FetchAdd val => reg (v + val)
  | FetchSub val => reg (v - val)
  end.

Inductive status : Type := SIdle | SPending (o : atomic_op) | SDone (oldval : Z).

Inductive spec_step : Z * (nat → status) → event → Z * (nat → status) → Prop :=
| sp_call v g i o : g i = SIdle → spec_step (v, g) (Call i o) (v, go i (SPending o) g)
| sp_commit v g i o : g i = SPending o → spec_step (v, g) (Commit i o v) (atomic_apply o v, go i (SDone v) g)
| sp_return v g i old : g i = SDone old → spec_step (v, g) (Return i old) (v, go i SIdle g).

Inductive spec_run : Z * (nat → status) → list event → Z * (nat → status) → Prop :=
| sr_nil a : spec_run a [] a
| sr_cons a e a1 tr a2 : spec_step a e a1 → spec_run a1 tr a2 → spec_run a (e :: tr) a2.

(** What the callers see of a run of the object. *)
Definition visible (e : event) : bool := match e with Commit _ _ _ => false | _ => true end.
Definition observe (tr : list event) : list event := List.filter visible tr.
End machine.

(** ** The simulation *)
Section simulation.
Context (w : Z).
Implicit Types (v old x c d : Z) (E : gset nat) (f : nat → atomic_pc) (o : atomic_op) (p : atomic_pc).
#[local] Notation reg := (reg w).

(** Where an operation stands: a failing comparison is decided by the load, the
    others by the successful store. *)
Definition abs_pc p : status :=
  match p with
  | Outside => SIdle
  | Load o => SPending o
  | Compare c x old => if old =? reg c then SPending (CmpXchg c x) else SDone old
  | BranchNe c x old ne => if ne then SDone old else SPending (CmpXchg c x)
  | Arith o old => SPending o
  | Store o old new => SPending o
  | Retry o old ret => if ret =? 0 then SDone old else SPending o
  | Result old => SDone old
  end.

(** The value a CPU has loaded and not yet replaced. *)
Definition loaded p : option Z :=
  match p with
  | Compare _ _ old | BranchNe _ _ old _ | Arith _ old | Store _ old _ => Some old
  | _ => None
  end.

Definition pc_ok p : Prop :=
  match p with
  | BranchNe c x old ne => ne = negb (old =? reg c)
  | Arith o old => fetch_op o
  | Store o old new => new = atomic_apply w o old
  | _ => True
  end.

Record atomic_inv (s : atomic_state) : Prop := {
  ai_pc : ∀ i, pc_ok (apcs s i);
  ai_mon : ∀ i old, i ∈ amon s → loaded (apcs s i) = Some old → old = aword s
}.

Definition related (s : atomic_state) (a : Z * (nat → status)) : Prop := a.1 = aword s ∧ ∀ i, a.2 i = abs_pc (apcs s i).

(** A CPU that moves to [p] without a store. *)
Lemma inv_goto i p v E E' f : atomic_inv (mk_atomic v E f) → pc_ok p → (∀ j, j ≠ i → j ∈ E' → j ∈ E) →
  (∀ old, i ∈ E' → loaded p = Some old → old = v) → atomic_inv (mk_atomic v E' (go i p f)).
Proof.
  intros [Hp Hm] Hok HE Hl. split; cbn [apcs amon aword] in *; intros j; (destruct (decide (j = i)) as [->|Hne]; [rewrite go_eq|rewrite go_ne by done]); eauto.
Qed.

(** A store by CPU [i] clears every monitor. *)
Lemma inv_store i p v v' E f : atomic_inv (mk_atomic v E f) → pc_ok p → atomic_inv (mk_atomic v' ∅ (go i p f)).
Proof.
  intros [Hp _] Hok. split; cbn [apcs amon] in *; [|set_solver]. intros j.
  destruct (decide (j = i)) as [->|Hne]; [by rewrite go_eq|by rewrite go_ne].
Qed.

Lemma related_goto i p v v' g E E' f : related (mk_atomic v E f) (v, g) → related (mk_atomic v' E' (go i p f)) (v', go i (abs_pc p) g).
Proof.
  intros [_ Hg]. split; [done|]. cbn [snd apcs] in *. intros j.
  destruct (decide (j = i)) as [->|Hne]; [by rewrite !go_eq|by rewrite !go_ne].
Qed.

Lemma related_silent i p v g E E' f : related (mk_atomic v E f) (v, g) → abs_pc p = abs_pc (f i) → related (mk_atomic v E' (go i p f)) (v, g).
Proof.
  intros [_ Hg] Hp. split; [done|]. cbn [snd apcs] in *. intros j.
  destruct (decide (j = i)) as [->|Hne]; [by rewrite go_eq, Hp|by rewrite go_ne].
Qed.

(** One step of the machine is no step, or one step, of the object, with the same visible event. *)
Definition simulated (a : Z * (nat → status)) (l : option event) (s' : atomic_state) : Prop :=
  atomic_inv s' ∧ ∃ tr a', spec_run w a tr a' ∧ observe tr = option_list l ∧ related s' a'.

Lemma sim_silent i p v g E E' f : atomic_inv (mk_atomic v E f) → related (mk_atomic v E f) (v, g) →
  pc_ok p → abs_pc p = abs_pc (f i) → (∀ j, j ≠ i → j ∈ E' → j ∈ E) → (∀ old, i ∈ E' → loaded p = Some old → old = v) →
  simulated (v, g) None (mk_atomic v E' (go i p f)).
Proof.
  intros HI HR Hp Ha HE Hl. split; [by eapply inv_goto|]. exists [], (v, g). split; [constructor|]. split; [done|]. by eapply related_silent.
Qed.

Lemma sim_one e i p v v' g E E' f : atomic_inv (mk_atomic v' E' (go i p f)) → related (mk_atomic v E f) (v, g) →
  spec_step w (v, g) e (v', go i (abs_pc p) g) → simulated (v, g) (if visible e then Some e else None) (mk_atomic v' E' (go i p f)).
Proof.
  intros HI HR Hs. split; [done|]. exists [e], (v', go i (abs_pc p) g). split; [by repeat econstructor|].
  split; [unfold observe; cbn; by destruct (visible e)|]. by eapply related_goto.
Qed.

(** The shared instructions; [next] is where the load leads. *)
Lemma sim_exclusive i o next v E f g l s' : exclusive i o next (mk_atomic v E f) l s' → atomic_inv (mk_atomic v E f) → related (mk_atomic v E f) (v, g) →
  (∀ old, pc_ok (next old) ∧ loaded (next old) = Some old ∧
     (abs_pc (next old) = SPending o ∨ abs_pc (next old) = SDone old ∧ atomic_apply w o old = old)) →
  simulated (v, g) l s'.
Proof.
  intros Hs HI HR Hnext. pose proof HR as [_ Hg]. cbn [snd apcs] in Hg. inversion Hs; subst; clear Hs.
  all: match goal with Hpc : ?h ?j = _, Hg : ∀ _, _ = abs_pc (?h _) |- _ => pose proof (Hg j) as Hgi; rewrite Hpc in Hgi; cbn [abs_pc] in Hgi end.
  - apply (sim_one (Call i o) i (Load o) v v g E); [eapply inv_goto; eauto; done|done|by constructor].
  - destruct (Hnext v) as (Hpc & Hl & [Ha|[Ha Happ]]).
    + eapply sim_silent; [done|done|done|by rewrite Ha, <- Hg|set_solver|congruence].
    + apply (sim_one (Commit i o v) i (next v) v v g E); [eapply inv_goto; [done|done|set_solver|congruence]|done|].
      rewrite Ha. pose proof (sp_commit w v g i o Hgi) as Hc. by rewrite Happ in Hc.
  - pose proof (ai_pc _ HI i) as Hok. pose proof (ai_mon _ HI i) as Hm. cbn [apcs amon aword] in *.
    match goal with Hpc : _ i = Store _ _ _ |- _ => rewrite Hpc in Hok, Hm end. cbn [pc_ok loaded] in *.
    rewrite Hok, (Hm _ ltac:(done) eq_refl).
    apply (sim_one (Commit i o v) i (Retry o v 0) v _ g E); [by eapply inv_store|done|by constructor].
  - eapply sim_silent; [done|done|done|by rewrite <- Hg, Hgi|set_solver|done].
  - eapply sim_silent; [done|done|done| |done|done]. rewrite <- Hg, Hgi. by rewrite (proj2 (Z.eqb_neq _ _)).
  - eapply sim_silent; [done|done|done|by rewrite <- Hg, Hgi|done|done].
Qed.

(** Rewrite with the instruction CPU [i] is at. *)
Ltac at_pc Hok Hm := match goal with Hpc : ?h ?j = _ |- _ => rewrite Hpc in Hok, Hm end.
Ltac here := match goal with Hpc : ?h ?j = _ |- _ = abs_pc (?h ?j) => rewrite Hpc end.

Lemma sim_cmpxchg i c x v E f g l s' : atomic_compare_exchange w i c x (mk_atomic v E f) l s' → atomic_inv (mk_atomic v E f) →
  related (mk_atomic v E f) (v, g) → simulated (v, g) l s'.
Proof.
  intros Hs HI HR. pose proof (ai_pc _ HI i) as Hok. pose proof (λ old, ai_mon _ HI i old) as Hm. cbn [apcs amon aword] in *. inversion Hs; subst; clear Hs.
  - eapply sim_exclusive; [done..|]. intros old. split_and!; [done|done|]. cbn. case_cmp; auto.
  - at_pc Hok Hm. eapply sim_silent; [done|done|done| |done|done]. here. cbn. by case_cmp.
  - at_pc Hok Hm. eapply sim_silent; [done|done|done| |done|done]. by here.
  - at_pc Hok Hm. eapply sim_silent; [done|done| | |done|done]; [|by here].
    cbn in *. destruct (old =? reg c); done.
Qed.

Lemma sim_fetch i o v E f g l s' : atomic_fetch_op w i o (mk_atomic v E f) l s' → atomic_inv (mk_atomic v E f) →
  related (mk_atomic v E f) (v, g) → simulated (v, g) l s'.
Proof.
  intros Hs HI HR. pose proof (ai_pc _ HI i) as Hok. pose proof (λ old, ai_mon _ HI i old) as Hm. cbn [apcs amon aword] in *. inversion Hs; subst; clear Hs.
  - eapply sim_exclusive; [done..|]. intros old. split_and!; [done|done|]. by left.
  - at_pc Hok Hm. eapply sim_silent; [done|done| | |done|done]; [|by here]. by destruct o.
Qed.

Lemma sim_step s l s' a : atomic_step w s l s' → atomic_inv s → related s a → simulated a l s'.
Proof.
  destruct s as [v E f], a as [v' g]. intros Hs HI HR. assert (v' = v) as -> by apply HR. inversion Hs; subst; clear Hs.
  - by eapply sim_cmpxchg.
  - inversion H; subst. eapply sim_exclusive; [done..|]. intros old. split_and!; [done|done|]. by left.
  - by eapply sim_fetch.
  - inversion H; subst; clear H. pose proof HR as [_ Hg]. cbn [snd apcs] in Hg. pose proof (Hg i) as Hgi.
    match goal with Hpc : ?h ?j = Result _ |- _ => rewrite Hpc in Hgi end. apply (sim_one (Return i old) i Outside v v g E); [eapply inv_goto; eauto; done|done|by constructor].
  - split; [|exists [], (v, g); split; [constructor|by split]]. destruct HI as [Hp Hm]. split; [done|]. cbn [apcs amon aword] in *.
    intros j old Hj. apply Hm. set_solver.
Qed.

Lemma spec_run_app a tr a1 tr1 a2 : spec_run w a tr a1 → spec_run w a1 tr1 a2 → spec_run w a (tr ++ tr1) a2.
Proof. induction 1; [done|]. intros. simpl. econstructor; eauto. Qed.

Lemma sim_run s tr s' a : atomic_run w s tr s' → atomic_inv s → related s a →
  atomic_inv s' ∧ ∃ tr' a', spec_run w a tr' a' ∧ observe tr' = tr ∧ related s' a'.
Proof.
  intros Hr. revert a. induction Hr as [s|s l s1 tr s2 Hs Hr IH]; intros a HI HR.
  - split; [done|]. exists [], a. by split; [constructor|].
  - destruct (sim_step _ _ _ _ Hs HI HR) as (HI1 & tr1 & a1 & Ha1 & Ho1 & HR1). destruct (IH a1 HI1 HR1) as (HI2 & tr2 & a2 & Ha2 & Ho2 & HR2).
    split; [done|]. exists (tr1 ++ tr2), a2. split; [by eapply spec_run_app|]. split; [|done].
    unfold observe in *. by rewrite List.filter_app, Ho1, Ho2.
Qed.

Lemma init_inv v : atomic_inv (atomic_init w v).
Proof. by split. Qed.
Lemma init_related v : related (atomic_init w v) (reg v, λ _, SIdle).
Proof. by split. Qed.
End simulation.

(** ** Counters *)
Definition delta (o : atomic_op) : Z := match o with FetchAdd val => val | FetchSub val => - val | _ => 0 end.
(** The sum of what the calls of a run add. *)
Definition called (e : event) : Z := match e with Call _ o => delta o | _ => 0 end.
Definition total (tr : list event) : Z := foldr (λ e n, called e + n) 0 tr.

Lemma callers_bound (tr : list event) : ∃ n, ∀ i o, Call i o ∈ tr → (i < n)%nat.
Proof.
  induction tr as [|e tr [n IH]]; [exists O; set_solver|]. exists (S (n `max` match e with Call i _ => i | _ => O end)).
  intros i o [<-|H]%elem_of_cons; [lia|]. specialize (IH i o H). lia.
Qed.

Section counter.
Context (w : Z) (Hw : 0 ≤ w).
#[local] Notation reg := (reg w).
Implicit Types (g : nat → status).

Definition outstanding (a : status) : Z := match a with SPending o => delta o | _ => 0 end.
Fixpoint pending (n : nat) g : Z := match n with O => 0 | S n' => pending n' g + outstanding (g n') end.

Lemma pending_go n i a g : (i < n)%nat → pending n (go i a g) = pending n g - outstanding (g i) + outstanding a.
Proof.
  assert (∀ m, (m ≤ i)%nat → pending m (go i a g) = pending m g) as Hlow.
  { intros m. induction m as [|m IH]; intros Hm; [done|]. cbn [pending]. by rewrite IH, go_ne by lia. }
  induction n as [|n IH]; intros Hi; [lia|]. cbn [pending]. destruct (decide (n = i)) as [->|Hne].
  - rewrite Hlow, go_eq by lia. lia.
  - rewrite IH, go_ne by lia. lia.
Qed.

Lemma reg_reg_add x y : reg (reg x + y) = reg (x + y).
Proof. unfold Atomics.reg. apply Z.add_mod_idemp_l. pose proof (pow2_gt0 w Hw). lia. Qed.

(** CPUs below [n] with only additions and subtractions under way. *)
Definition counting (n : nat) g : Prop := ∀ i, (∀ o, g i = SPending o → fetch_op o) ∧ (g i ≠ SIdle → (i < n)%nat).
Definition counts (n : nat) (e : event) : Prop := ∀ i o, e = Call i o → (i < n)%nat ∧ fetch_op o.

Lemma counting_go n i a g : counting n g → (∀ o, a = SPending o → fetch_op o) → (i < n)%nat → counting n (go i a g).
Proof.
  intros Hg Ha Hi j. destruct (decide (j = i)) as [->|Hne]; [rewrite go_eq; by split|rewrite go_ne by done; apply Hg].
Qed.

(** The word and what is outstanding always add up to what was called for. *)
Lemma count_step n v g e v' g' : spec_step w (v, g) e (v', g') → counting n g → counts n e →
  counting n g' ∧ reg (v' + pending n g') = reg (v + pending n g + called e).
Proof.
  intros Hs Hg He. inversion Hs; subst; clear Hs.
  - destruct (He i o eq_refl) as [Hi Ho]. split; [apply counting_go; [done|by intros ? [= <-]|done]|].
    rewrite pending_go by done. match goal with Hpc : g i = _ |- _ => rewrite Hpc end. cbn. f_equal. lia.
  - match goal with Hpc : g i = _ |- _ => rename Hpc into Hgi end. destruct (Hg i) as [Ho Hi]. specialize (Ho o Hgi). rewrite Hgi in Hi. specialize (Hi ltac:(done)).
    split; [by apply counting_go|]. rewrite pending_go, Hgi by done. cbn [outstanding called].
    destruct o; try done; cbn [atomic_apply delta]; rewrite reg_reg_add; f_equal; lia.
  - match goal with Hpc : g i = _ |- _ => rename Hpc into Hgi end. destruct (Hg i) as [_ Hi]. rewrite Hgi in Hi. specialize (Hi ltac:(done)).
    split; [by apply counting_go|]. rewrite pending_go, Hgi by done. cbn. f_equal. lia.
Qed.

Lemma count_run n v g tr v' g' : spec_run w (v, g) tr (v', g') → counting n g → Forall (counts n) tr →
  reg (v' + pending n g') = reg (v + pending n g + total tr).
Proof.
  intros Hr. remember (v, g) as a eqn:Ea. remember (v', g') as b eqn:Eb. revert v g Ea. induction Hr as [a|a e [v1 g1] tr b Hs Hr IH]; intros v g -> Hg Htr.
  - injection Eb as -> ->. cbn. f_equal. lia.
  - apply Forall_cons in Htr as [He Htr]. destruct (count_step _ _ _ _ _ _ Hs Hg He) as [Hg1 E1]. rewrite (IH Eb v1 g1 eq_refl Hg1 Htr).
    rewrite <- reg_reg_add, E1, reg_reg_add. unfold total. cbn [foldr]. f_equal. lia.
Qed.

Lemma observe_total tr : total (observe tr) = total tr.
Proof. induction tr as [|e tr IH]; [done|]. unfold observe, total in *. cbn [List.filter foldr]. destruct e; cbn [visible foldr called]; rewrite IH; lia. Qed.

Lemma observe_calls tr i o : Call i o ∈ tr → Call i o ∈ observe tr.
Proof. intros H. apply list_elem_of_In. apply List.filter_In. split; [by apply list_elem_of_In|done]. Qed.

Lemma pending_idle n g : (∀ i, g i = SIdle) → pending n g = 0.
Proof. intros Hg. induction n as [|n IH]; [done|]. cbn [pending]. by rewrite IH, Hg. Qed.

Lemma reg_idemp x : reg (reg x) = reg x.
Proof. pose proof (reg_reg_add x 0) as H. by rewrite !Z.add_0_r in H. Qed.

Lemma spec_run_reg v g tr v' g' : spec_run w (v, g) tr (v', g') → reg v = v → reg v' = v'.
Proof.
  intros Hr. remember (v, g) as a eqn:Ea. remember (v', g') as b eqn:Eb. revert v g Ea. induction Hr as [a|a e [v1 g1] tr b Hs Hr IH]; intros v g -> Hv.
  - by injection Eb as -> ->.
  - apply (IH Eb v1 g1 eq_refl). inversion Hs; subst; try done. destruct o; cbn [atomic_apply]; try case_cmp; by rewrite ?reg_idemp.
Qed.
End counter.

(** ** Properties *)

(** C23. The atomic operations are linearizable: however the instructions of
    compare-and-exchange, exchange, fetch-and-add and fetch-and-sub of any
    number of CPUs interleave, with monitors lost at any time, the calls and
    returns are those of an object on which each operation takes effect in one
    indivisible step between its call and its return, yielding the value from
    just before it; and the word holds that object's value. *)
Theorem atomics_linearizable w v tr s : atomic_run w (atomic_init w v) tr s →
  ∃ tr' g, spec_run w (reg w v, λ _, SIdle) tr' (aword s, g) ∧ observe tr' = tr.
Proof.
  intros Hr. destruct (sim_run w _ _ _ _ Hr (init_inv w v) (init_related w v)) as (_ & tr' & [v' g] & Hs & Ho & [Hv _]).
  cbn in Hv. subst v'. eauto.
Qed.

(** C32. No update of a shared counter is lost: when only [atomic_fetch_add] and
    [atomic_fetch_sub] were called on a word and every call has returned, the
    word is its initial value plus everything added and minus everything
    subtracted, modulo the width of the word, whatever the interleaving. *)
Theorem fetch_add_exact w v tr s : 0 ≤ w → atomic_run w (atomic_init w v) tr s →
  (∀ i o, Call i o ∈ tr → fetch_op o) → (∀ i, apcs s i = Outside) →
  aword s = reg w (v + total tr).
Proof.
  intros Hw Hr Hf Hend. destruct (sim_run w _ _ _ _ Hr (init_inv w v) (init_related w v)) as (_ & tr' & [v' g] & Hs & Ho & [Hv Hg]).
  cbn in Hv, Hg. subst v' tr. destruct (callers_bound tr') as [n Hn].
  assert (∀ i, g i = SIdle) as Hidle by (intros i; by rewrite Hg, Hend).
  pose proof (count_run w Hw n _ _ _ _ _ Hs) as Hc. rewrite !pending_idle, !Z.add_0_r, reg_reg_add in Hc by done.
  rewrite observe_total, <- Hc.
  - symmetry. eapply spec_run_reg; [done|done|by apply reg_idemp].
  - by split.
  - apply Forall_forall. intros e He i o ->. split; [by eapply Hn|]. by apply (Hf i), observe_calls.
Qed.

(** Two CPUs add to one counter; the second loses its monitor to the first and tries again. *)
Ltac astep k := eapply ar_cons; [k; first [reflexivity | set_solver | done]|].
Ltac fetch_i i o := eapply (as_fetch _ i o); eapply fo_exclusive; [done|].

Lemma two_adders : ∃ s, atomic_run 32 (atomic_init 32 (2 ^ 32 - 1))
    [Call 0 (FetchAdd 5); Call 1 (FetchSub 2); Return 0 (2 ^ 32 - 1); Return 1 4] s ∧ ∀ i, apcs s i = Outside.
Proof.
  eexists. split.
  - change [Call 0 (FetchAdd 5); Call 1 (FetchSub 2); Return 0 (2 ^ 32 - 1); Return 1 4] with
      (option_list (Some (Call 0 (FetchAdd 5))) ++ option_list (Some (Call 1 (FetchSub 2))) ++ option_list None ++ option_list None ++ option_list None ++
       option_list None ++ option_list None ++ option_list None ++ option_list None ++ option_list (Some (Return 0 (2 ^ 32 - 1))) ++ option_list None ++
       option_list None ++ option_list None ++ option_list None ++ option_list None ++ option_list (Some (Return 1 4)) ++ []).
    astep ltac:(fetch_i 0%nat (FetchAdd 5); eapply ex_call).
    astep ltac:(fetch_i 1%nat (FetchSub 2); eapply ex_call).
    astep ltac:(fetch_i 0%nat (FetchAdd 5); eapply ex_ldaxr).
    astep ltac:(fetch_i 1%nat (FetchSub 2); eapply ex_ldaxr).
    astep ltac:(eapply (as_fetch _ 0%nat (FetchAdd 5)); eapply fo_arith).
    astep ltac:(eapply (as_fetch _ 1%nat (FetchSub 2)); eapply fo_arith).
    astep ltac:(fetch_i 0%nat (FetchAdd 5); eapply ex_stlxr).
    astep ltac:(fetch_i 1%nat (FetchSub 2); eapply ex_stlxr_fail).
    astep ltac:(fetch_i 0%nat (FetchAdd 5); eapply ex_done).
    astep ltac:(eapply (as_return _ 0%nat); eapply ar_return).
    astep ltac:(fetch_i 1%nat (FetchSub 2); eapply ex_retry).
    astep ltac:(fetch_i 1%nat (FetchSub 2); eapply ex_ldaxr).
    astep ltac:(eapply (as_fetch _ 1%nat (FetchSub 2)); eapply fo_arith).
    astep ltac:(fetch_i 1%nat (FetchSub 2); eapply ex_stlxr).
    astep ltac:(fetch_i 1%nat (FetchSub 2); eapply ex_done).
    eapply ar_cons; [eapply (as_return _ 1%nat); eapply (ar_return 1%nat _ _ _ 4); reflexivity|]. apply ar_nil.
  - intros [|[|i]]; reflexivity.
Qed.

Lemma atomics_linearizable_witness : ∃ s tr' g, spec_run 32 (reg 32 (2 ^ 32 - 1), λ _, SIdle) tr' (aword s, g) ∧
  observe tr' = [Call 0 (FetchAdd 5); Call 1 (FetchSub 2); Return 0 (2 ^ 32 - 1); Return 1 4].
Proof.
  destruct two_adders as (s & Hr & _). destruct (atomics_linearizable 32 (2 ^ 32 - 1) _ s Hr) as (tr' & g & H). exists s, tr', g. exact H.
Defined.

Lemma fetch_add_exact_witness : ∃ s, atomic_run 32 (atomic_init 32 (2 ^ 32 - 1))
    [Call 0 (FetchAdd 5); Call 1 (FetchSub 2); Return 0 (2 ^ 32 - 1); Return 1 4] s ∧ aword s = 2.
Proof.
  destruct two_adders as (s & Hr & Hend). exists s. split; [exact Hr|].
  refine (fetch_add_exact 32 (2 ^ 32 - 1) _ s _ Hr _ Hend); [lia|].
  intros i o H. repeat (apply elem_of_cons in H as [H|H]; [inversion H; subst; exact I|]). by apply not_elem_of_nil in H.
Defined.
