(* ===== verification/Locked.v ===== *)
(** * An object behind a spin lock, used by any number of CPUs

    The kernel protects the free lists of the page allocator by a spin lock:
    every entry point takes the lock, works on the shared memory and releases
    it.  This file composes the instructions of [Sync] with the memory accesses
    of the protected code and runs the result on any number of CPUs.

    A critical section is a [prog]: a tree of accesses, each of which reads or
    writes the shared memory once and then goes on; [denote] runs it without
    interruption.  [object] lists the operations of a component that works this
    way, [object_laws] what it promises about one uninterrupted run.  The
    section [machine] interleaves the calls of all CPUs and shows that, seen
    from outside, every call takes effect at one instant ([traces_atomic]),
    that no CPU halts ([no_halt]) and that every call can return
    ([can_return]). *)

From S2P Require Import Prelude Sync.

(** ** Programs that can be interrupted after every access *)
Inductive prog (St A : Type) : Type :=
| Ret (a : A)
| Act (m : St → res (prog St A * St)).
Arguments Ret {St A} a.
Arguments Act {St A} m.

Fixpoint denote {St A : Type} (p : prog St A) : M St A :=
  match p with
  | Ret a => mret a
  | Act m => λ s, match m s with Ok (p', s') => denote p' s' | Halt h => Halt h end
  end.

#[global] Instance prog_ret {St : Type} : MRet (prog St) := λ A a, Ret a.
#[global] Instance prog_bind {St : Type} : MBind (prog St) := λ A B f,
  fix go (p : prog St A) : prog St B :=
    match p with
    | Ret a => f a
    | Act m => Act (λ s, match m s with Ok (p', s') => Ok (go p', s') | Halt h => Halt h end)
    end.

(** One access. *)
Definition act {St A : Type} (m : M St A) : prog St A :=
  Act (λ s, match m s with Ok (a, s') => Ok (Ret a, s') | Halt h => Halt h end).
Definition pstop {St A : Type} (h : halt) : prog St A := Act (λ _, Halt h).

Section prog.
Context {St : Type}.

Lemma prog_tree_ind {A} (P : prog St A → Prop) :
  (∀ a, P (Ret a)) → (∀ m, (∀ s p s', m s = Ok (p, s') → P p) → P (Act m)) → ∀ p, P p.
Proof.
  intros HR HA. fix F 1. intros [a|m]; [apply HR|]. apply HA. intros s p s'.
  destruct (m s) as [[q t]|h]; [|discriminate]. intros [= <- _]. apply F.
Qed.

Lemma denote_bind {A B} (p : prog St A) (f : A → prog St B) s : denote (p ≫= f) s = (a ← denote p; denote (f a)) s.
Proof.
  revert s. induction p as [a|m IH] using prog_tree_ind; intros s; [done|].
  unfold mbind, prog_bind, M_bind. cbn [denote]. destruct (m s) as [[p s']|h] eqn:Em; [|done]. by apply (IH s p s').
Qed.

Lemma denote_act {A} (m : M St A) s : denote (act m) s = m s.
Proof. cbn [denote act]. by destruct (m s) as [[a s']|h]. Qed.

(** Every access of the program keeps the value of [w]. *)
Inductive keeps (w : St → Z) {A} : prog St A → Prop :=
| keeps_ret a : keeps w (Ret a)
| keeps_step m : (∀ s p s', m s = Ok (p, s') → w s' = w s) → (∀ s p s', m s = Ok (p, s') → keeps w p) → keeps w (Act m).

Definition keeps_access (w : St → Z) {A} (m : M St A) : Prop := ∀ s a s', m s = Ok (a, s') → w s' = w s.

Lemma keeps_act w {A} (m : M St A) : keeps_access w m → keeps w (act m).
Proof.
  intros Hm. apply keeps_step; intros s p s'; (destruct (m s) as [[a t]|h] eqn:Em; [|done]); intros [= <- <-];
    [by eapply Hm|apply keeps_ret].
Qed.

Lemma keeps_seq w {A B} (p : prog St A) (f : A → prog St B) : keeps w p → (∀ a, keeps w (f a)) → keeps w (p ≫= f).
Proof.
  intros Hp Hf. induction Hp as [a|m Hw _ IH]; [apply Hf|].
  apply keeps_step; intros s p s'; (destruct (m s) as [[q t]|h] eqn:Em; [|done]); intros [= <- <-];
    [by eapply Hw|by eapply IH].
Qed.

Lemma keeps_stop w {A} h : keeps w (pstop (A := A) h).
Proof. by apply keeps_step. Qed.
End prog.

(** ** What a component behind a lock is, and what it promises *)
Record object (St : Type) : Type := mk_object {
  ob_op : Type;                        (* its entry points, with their arguments *)
  ob_val : Type;                       (* what they return *)
  ob_word : St → Z;                    (* the lock word in the shared memory *)
  ob_set_word : Z → St → St;
  ob_body : ob_op → prog St ob_val;    (* the code between [lock] and [unlock] *)
  ob_args : ob_op → Prop;              (* arguments a caller may pass ... *)
  ob_uses : ob_op → gset Z;            (* ... and the pointers it must own and gives away *)
  ob_makes : ob_op → ob_val → gset Z;  (* the pointers it gets back *)
  ob_abs : Type;                       (* abstract states *)
  ob_spec : ob_abs → ob_op → ob_val → ob_abs → Prop;
  ob_owned : ob_abs → gset Z;          (* the pointers clients own in an abstract state *)
  ob_ok : St → ob_abs → Prop           (* the memory, lock free, represents an abstract state *)
}.
Arguments ob_op {St}. Arguments ob_val {St}. Arguments ob_word {St}. Arguments ob_set_word {St}.
Arguments ob_body {St}. Arguments ob_args {St}. Arguments ob_uses {St}. Arguments ob_makes {St}.
Arguments ob_abs {St}. Arguments ob_spec {St}. Arguments ob_owned {St}. Arguments ob_ok {St}.

Class object_laws {St : Type} (O : object St) : Prop := {
  ol_word : ∀ v s, ob_word O (ob_set_word O v s) = v;
  ol_set : ∀ v w s, ob_set_word O v (ob_set_word O w s) = ob_set_word O v s;
  ol_same : ∀ s, ob_set_word O (ob_word O s) s = s;
  ol_free : ∀ s a, ob_ok O s a → ob_word O s = 0;
  ol_keeps : ∀ c, keeps (ob_word O) (ob_body O c);
  (** one uninterrupted run *)
  ol_body : ∀ s a c, ob_ok O s a → ob_args O c → ob_uses O c ⊆ ob_owned O a →
    wp (denote (ob_body O c)) (ob_set_word O 1 s)
       (λ v s', ∃ a', ob_spec O a c v a' ∧ ob_ok O (ob_set_word O 0 s') a');
  ol_owned : ∀ a c v a', ob_spec O a c v a' → ob_uses O c ⊆ ob_owned O a →
    ob_owned O a ∖ ob_uses O c ⊆ ob_owned O a' ∧ ob_makes O c v ⊆ ob_owned O a' ∧
    ob_makes O c v ## ob_owned O a ∖ ob_uses O c
}.

(** ** Instructions on the lock, seen from the CPU that runs them *)
Lemma lock_inv_ext w E f g : (∀ i, f i = g i) → lock_inv (mk_lock_state w E f) → lock_inv (mk_lock_state w E g).
Proof.
  intros Hfg [Hw H1 Hh Hf Hs Hv]. split; cbn [word excl pcs] in *; [done|..].
  - intros i j. rewrite <- !Hfg. apply H1.
  - intros i. rewrite <- Hfg. apply Hh.
  - intros E1. destruct (Hf E1) as [i Hi]. exists i. by rewrite <- Hfg.
  - intros i. rewrite <- Hfg. apply Hs.
  - intros i v. rewrite <- Hfg. apply Hv.
Qed.

(** Taking the lock: the CPU goes on waiting, wins, or enters. *)
Definition lock_outcome (w : Z) (pc : lock_pc) (w' : Z) (pc' : lock_pc) : Prop :=
  (¬ holds pc ∧ ¬ holds pc' ∧ w' = w) ∨ (pc = Stxr ∧ pc' = Cbnz2 0 ∧ w = 0 ∧ w' = 1) ∨
  (pc = Cbnz2 0 ∧ pc' = Critical ∧ w' = w).

Lemma spin_lock_outcome i w E f L : lock_inv (mk_lock_state w E f) → spin_lock i (mk_lock_state w E f) L →
  pcs L = go i (pcs L i) f ∧ lock_outcome w (f i) (word L) (pcs L i).
Proof.
  intros HI Hst. pose proof (li_stxr _ HI i) as Hx. cbn [word excl pcs] in Hx. unfold lock_outcome.
  inversion Hst; subst; cbn [word excl pcs]; rewrite go_eq; (split; [done|]);
    try (left; split_and!; [apply no_holds; naive_solver..|done]).
  - right; left. split_and!; auto.
  - right; right. done.
Qed.

(** Instructions depend on the other CPUs only through the word and the monitors. *)
Lemma spin_lock_ext i w E f g L : (∀ j, f j = g j) → spin_lock i (mk_lock_state w E f) L →
  spin_lock i (mk_lock_state w E g) (mk_lock_state (word L) (excl L) (go i (pcs L i) g)).
Proof.
  intros Hfg Hst. pose proof (Hfg i) as Hi. inversion Hst; subst; cbn [word excl pcs]; rewrite go_eq.
  - apply sl_call. congruence.
  - apply sl_ldaxr. congruence.
  - eapply sl_busy; [|done]. congruence.
  - apply sl_free. congruence.
  - apply sl_stxr; [congruence|done].
  - apply sl_stxr_fail. congruence.
  - eapply sl_retry; [|done]. congruence.
  - apply sl_got. congruence.
  - apply sl_wfe. congruence.
Qed.

(** Runs of a machine with events: internal steps leave no trace. *)
Inductive run {X E : Type} (R : X → option E → X → Prop) (x : X) : list E → X → Prop :=
| run_nil : run R x [] x
| run_tau t y z : run R x t y → R y None z → run R x t z
| run_event t y e z : run R x t y → R y (Some e) z → run R x (t ++ [e]) z.

Section machine.
Context {St : Type} (O : object St).

(** Events: a client calls the object, a call returns. *)
Inductive event : Type :=
| Call (i : nat) (c : ob_op O)
| Return (i : nat) (c : ob_op O) (v : ob_val O).

(** ** The CPUs *)
Inductive cpu : Type :=
| Out                                              (* not in a call *)
| Locking (c : ob_op O) (pc : lock_pc)             (* in [spin_lock] *)
| Inside (c : ob_op O) (p : prog St (ob_val O))    (* in the critical section, [p] is left *)
| Releasing (c : ob_op O) (v : ob_val O)           (* in [spin_unlock] *)
| Back (c : ob_op O) (v : ob_val O).               (* about to return *)

Definition pc_of (x : cpu) : lock_pc :=
  match x with Out | Back _ _ => Idle | Locking _ pc => pc | Inside _ _ => Critical | Releasing _ _ => Stlr end.

(** The shared memory (the lock word is part of it), the exclusive monitors,
    the CPUs, and the pointers the clients own. *)
Record sys : Type := mk_sys { mem : St; mon : gset nat; cpus : nat → cpu; client : gset Z }.

Definition view (s : sys) : lock_state := mk_lock_state (ob_word O (mem s)) (mon s) (λ i, pc_of (cpus s i)).

(** The effect of one instruction on the lock. *)
Definition on_lock (s : sys) (i : nat) (L : lock_state) (x : cpu) : sys :=
  mk_sys (ob_set_word O (word L) (mem s)) (excl L) (go i x (cpus s)) (client s).

Definition enter (c : ob_op O) (pc : lock_pc) : cpu :=
  match pc with Critical => Inside c (ob_body O c) | _ => Locking c pc end.

Inductive step : sys → option event → sys → Prop :=
| st_call i c s : cpus s i = Out → ob_args O c → ob_uses O c ⊆ client s →
    step s (Some (Call i c)) (mk_sys (mem s) (mon s) (go i (Locking c Idle) (cpus s)) (client s ∖ ob_uses O c))
| st_lock i c pc s L : cpus s i = Locking c pc → spin_lock i (view s) L →
    step s None (on_lock s i L (enter c (pcs L i)))
| st_access i c m s p m' : cpus s i = Inside c (Act m) → m (mem s) = Ok (p, m') →
    step s None (mk_sys m' (mon s) (go i (Inside c p) (cpus s)) (client s))
| st_unlock i c v s L : cpus s i = Inside c (Ret v) → spin_unlock i (view s) L →
    step s None (on_lock s i L (Releasing c v))
| st_stlr i c v s L : cpus s i = Releasing c v → spin_unlock i (view s) L →
    step s None (on_lock s i L (Back c v))
| st_return i c v s : cpus s i = Back c v →
    step s (Some (Return i c v)) (mk_sys (mem s) (mon s) (go i Out (cpus s)) (client s ∪ ob_makes O c v))
| st_lose_monitor i s : step s None (mk_sys (mem s) (mon s ∖ {[i]}) (cpus s) (client s)).

Definition sys_init (m : St) (cl : gset Z) : sys := mk_sys m ∅ (λ _, Out) cl.

(** ** The same calls, each taking effect at once *)
Inductive acpu : Type :=
| AOut
| ACalled (c : ob_op O)
| ADone (c : ob_op O) (v : ob_val O).

Record asys : Type := mk_asys { astate : ob_abs O; acpus : nat → acpu; aclient : gset Z }.

Inductive astep : asys → option event → asys → Prop :=
| as_call i c s : acpus s i = AOut → ob_args O c → ob_uses O c ⊆ aclient s →
    astep s (Some (Call i c)) (mk_asys (astate s) (go i (ACalled c) (acpus s)) (aclient s ∖ ob_uses O c))
| as_effect i c v s a' : acpus s i = ACalled c → ob_spec O (astate s) c v a' →
    astep s None (mk_asys a' (go i (ADone c v) (acpus s)) (aclient s))
| as_return i c v s : acpus s i = ADone c v →
    astep s (Some (Return i c v)) (mk_asys (astate s) (go i AOut (acpus s)) (aclient s ∪ ob_makes O c v)).

Definition asys_init (a : ob_abs O) (cl : gset Z) : asys := mk_asys a (λ _, AOut) cl.

(** ** The simulation *)
Definition call_of (x : cpu) : acpu :=
  match x with
  | Out => AOut
  | Locking c _ | Inside c _ | Releasing c _ => ACalled c
  | Back c v => ADone c v
  end.

(** The pointers in the hands of a call. *)
Definition flight (x : cpu) : gset Z :=
  match x with
  | Out => ∅
  | Locking c _ | Inside c _ | Releasing c _ => ob_uses O c
  | Back c v => ob_makes O c v
  end.

(** What has been done so far leads to the specification. *)
Definition section_ok (x : cpu) (m : St) (a : ob_abs O) : Prop :=
  match x with
  | Out | Back _ _ => True
  | Locking c pc =>
      ob_args O c ∧
      match pc with Cbnz2 v => v = 0 → ob_ok O (ob_set_word O 0 m) a | Critical | Stlr => False | _ => True end
  | Inside c p =>
      keeps (ob_word O) p ∧ wp (denote p) m (λ v m', ∃ a', ob_spec O a c v a' ∧ ob_ok O (ob_set_word O 0 m') a')
  | Releasing c v => ∃ a', ob_spec O a c v a' ∧ ob_ok O (ob_set_word O 0 m) a'
  end.

Record sim (s : sys) (a : asys) : Prop := {
  sm_lock : lock_inv (view s);
  sm_calls : ∀ i, acpus a i = call_of (cpus s i);
  sm_client : client s = aclient a;
  sm_free : ob_word O (mem s) = 0 → ob_ok O (mem s) (astate a);
  sm_section : ∀ i, section_ok (cpus s i) (mem s) (astate a);
  sm_owned : client s ⊆ ob_owned O (astate a);
  sm_flight : ∀ i, flight (cpus s i) ⊆ ob_owned O (astate a) ∖ client s;
  sm_apart : ∀ i j, i ≠ j → flight (cpus s i) ## flight (cpus s j)
}.

Context `{HL : !object_laws O}.

Lemma idle_section x m a m' a' : ¬ holds (pc_of x) → section_ok x m a → section_ok x m' a'.
Proof.
  destruct x as [|c pc|c p|c v|c v]; cbn [pc_of section_ok]; intros Hn Hs; [done| |by destruct Hn; right; left|by destruct Hn; right; right|done].
  destruct Hs as [Ha Hs]. split; [done|]. destruct pc as [| |v| |v| | |]; try done. intros ->. by destruct Hn; left.
Qed.

(** The CPUs other than the holder are not in the critical section. *)
Lemma others_idle s a i j : sim s a → holds (pc_of (cpus s i)) → j ≠ i → ¬ holds (pc_of (cpus s j)).
Proof. intros Hs Hi Hj Hh. by apply Hj, (li_one _ (sm_lock _ _ Hs)). Qed.

Lemma others_section s a i j m' a' : sim s a → holds (pc_of (cpus s i)) → j ≠ i → section_ok (cpus s j) m' a'.
Proof. intros Hs Hi Hj. eapply idle_section; [by eapply others_idle|apply (sm_section _ _ Hs)]. Qed.

(** One CPU moves. *)
Lemma sim_update i x m' E' cl' s a a' :
  sim s a → lock_inv (view (mk_sys m' E' (go i x (cpus s)) cl')) →
  (∀ j, acpus a' j = go i (call_of x) (acpus a) j) → cl' = aclient a' →
  (ob_word O m' = 0 → ob_ok O m' (astate a')) →
  section_ok x m' (astate a') → (∀ j, j ≠ i → section_ok (cpus s j) m' (astate a')) →
  cl' ⊆ ob_owned O (astate a') → flight x ⊆ ob_owned O (astate a') ∖ cl' →
  (∀ j, j ≠ i → flight (cpus s j) ⊆ ob_owned O (astate a') ∖ cl' ∧ flight x ## flight (cpus s j)) →
  sim (mk_sys m' E' (go i x (cpus s)) cl') a'.
Proof.
  intros Hs Hlk Hcalls Hcl Hfree Hsec Hsecs Hown Hfl Hfls. split; cbn [mem mon cpus client]; [done| |done|done| |done| |].
  - intros j. rewrite Hcalls. unfold go. case_decide; [done|]. apply (sm_calls _ _ Hs).
  - intros j. unfold go. case_decide; [done|]. by apply Hsecs.
  - intros j. unfold go. case_decide; [done|]. by apply Hfls.
  - intros j k Hjk. unfold go. repeat case_decide; subst; [done|by apply Hfls|symmetry; by apply Hfls|by apply (sm_apart _ _ Hs)].
Qed.

(** One CPU moves inside its call. *)
Lemma sim_internal i x m' E' s a :
  sim s a → lock_inv (view (mk_sys m' E' (go i x (cpus s)) (client s))) →
  call_of x = call_of (cpus s i) → flight x = flight (cpus s i) →
  (ob_word O m' = 0 → ob_ok O m' (astate a)) →
  section_ok x m' (astate a) → (∀ j, j ≠ i → section_ok (cpus s j) m' (astate a)) →
  sim (mk_sys m' E' (go i x (cpus s)) (client s)) a.
Proof.
  intros Hs Hlk Hc Hf Hfree Hsec Hsecs. apply (sim_update i x m' E' (client s) s a a); try done.
  - intros j. unfold go. case_decide; [|done]. subst. rewrite Hc. apply (sm_calls _ _ Hs).
  - apply (sm_client _ _ Hs).
  - apply (sm_owned _ _ Hs).
  - rewrite Hf. apply (sm_flight _ _ Hs).
  - intros j Hj. split; [apply (sm_flight _ _ Hs)|rewrite Hf; by apply (sm_apart _ _ Hs)].
Qed.

Lemma view_go s i L x : lock_inv L → word L = ob_word O (ob_set_word O (word L) (mem s)) →
  (∀ j, pcs L j = go i (pc_of x) (λ j, pc_of (cpus s j)) j) → lock_inv (view (on_lock s i L x)).
Proof.
  intros HI Hw Hp. unfold view, on_lock. cbn [mem mon cpus]. rewrite <- Hw. destruct L as [w E f].
  cbn [word excl pcs] in *. apply (lock_inv_ext w E f); [|done]. intros j. rewrite Hp. unfold go. by case_decide.
Qed.

Lemma pc_enter c pc : pc_of (enter c pc) = pc.
Proof. by destruct pc. Qed.
Lemma call_enter c pc : call_of (enter c pc) = ACalled c.
Proof. by destruct pc. Qed.
Lemma flight_enter c pc : flight (enter c pc) = ob_uses O c.
Proof. by destruct pc. Qed.

(** An instruction of [spin_lock]. *)
Lemma sim_lock i c pc s a L : sim s a → cpus s i = Locking c pc → spin_lock i (view s) L →
  sim (on_lock s i L (enter c (pcs L i))) a.
Proof.
  intros Hs Hi Hst. pose proof (sm_lock _ _ Hs) as HI. pose proof (sm_section _ _ Hs i) as Hsec. rewrite Hi in Hsec.
  destruct (spin_lock_outcome _ _ _ _ _ HI Hst) as [Hp Ho]. cbn [word excl pcs] in Hp, Ho. rewrite Hi in Ho. cbn [pc_of] in Ho.
  apply sim_internal; [done| |by rewrite call_enter, Hi|by rewrite flight_enter, Hi|..].
  { apply (view_go s i L); [by eapply spin_lock_inv|by rewrite ol_word|]. intros j. rewrite pc_enter. exact (f_equal (λ f, f j) Hp). }
  all: destruct Ho as [(Hn & Hn' & Hw)|[(-> & Hc & Hw & Hw')|(-> & Hc & Hw)]].
  - rewrite Hw, ol_same. apply (sm_free _ _ Hs).
  - rewrite Hw', ol_word. lia.
  - rewrite Hw, ol_same. apply (sm_free _ _ Hs).
  - rewrite Hw, ol_same. destruct Hsec as [Ha _]. eapply (idle_section _ (mem s) (astate a)); [by rewrite pc_enter|].
    destruct (pcs L i) as [| |v| |v| | |]; try (by split); try (by destruct Hn'; right; auto).
    split; [done|]. intros ->. by destruct Hn'; left.
  - rewrite Hc, Hw'. destruct Hsec as [Ha _]. split; [done|]. intros _. rewrite ol_set.
    rewrite <- Hw, ol_same. by apply (sm_free _ _ Hs).
  - rewrite Hc, Hw, ol_same. destruct Hsec as [Ha Hok]. specialize (Hok eq_refl).
    assert (ob_word O (mem s) = 1) as Hw1 by (apply (li_held _ HI i); cbn [view pcs]; rewrite Hi; by left).
    split; [apply ol_keeps|]. rewrite <- (ol_same (mem s)), Hw1, <- (ol_set 1 0). apply ol_body; [done|done|].
    pose proof (sm_flight _ _ Hs i) as Hf. rewrite Hi in Hf. set_solver.
  - intros j Hj. rewrite Hw, ol_same. apply (sm_section _ _ Hs).
  - intros j Hj. eapply idle_section; [|apply (sm_section _ _ Hs)]. intros Hh.
    pose proof (li_held _ HI j Hh) as Hw1. cbn [view word] in Hw1. lia.
  - intros j Hj. rewrite Hw, ol_same. apply (sm_section _ _ Hs).
Qed.

(** A memory access in the critical section. *)
Lemma sim_access i c m s a p m' : sim s a → cpus s i = Inside c (Act m) → m (mem s) = Ok (p, m') →
  sim (mk_sys m' (mon s) (go i (Inside c p) (cpus s)) (client s)) a.
Proof.
  intros Hs Hi Hm. pose proof (sm_lock _ _ Hs) as HI. pose proof (sm_section _ _ Hs i) as Hsec. rewrite Hi in Hsec.
  assert (holds (pc_of (cpus s i))) as Hh by (rewrite Hi; by right; left).
  destruct Hsec as [Hk Hw]. inversion Hk as [|? Hkw Hkp]; subst.
  unfold wp in Hw. cbn [denote] in Hw. rewrite Hm in Hw.
  apply sim_internal; [done| |by rewrite Hi|by rewrite Hi|..].
  - unfold view. cbn [mem mon cpus]. rewrite (Hkw _ _ _ Hm). eapply lock_inv_ext; [|exact HI].
    intros j. unfold go. case_decide; [by subst; rewrite Hi|done].
  - pose proof (li_held _ HI i Hh) as H1. cbn [view word] in H1. rewrite (Hkw _ _ _ Hm). lia.
  - split; [by eapply Hkp|exact Hw].
  - intros j Hj. by eapply others_section.
Qed.

(** The call of [spin_unlock]. *)
Lemma sim_unlock i c v s a L : sim s a → cpus s i = Inside c (Ret v) → spin_unlock i (view s) L →
  sim (on_lock s i L (Releasing c v)) a.
Proof.
  intros Hs Hi Hst. pose proof (sm_lock _ _ Hs) as HI. pose proof (sm_section _ _ Hs i) as Hsec. rewrite Hi in Hsec.
  assert (holds (pc_of (cpus s i))) as Hh by (rewrite Hi; by right; left).
  pose proof (spin_unlock_inv _ _ _ Hst HI) as HI'. pose proof (li_held _ HI i Hh) as H1. cbn [view word] in H1.
  inversion Hst as [w E f Hp|w E f Hp]; subst; [|by rewrite Hi in Hp].
  assert (ob_set_word O (ob_word O (mem s)) (mem s) = mem s) as Hsame by apply ol_same.
  apply sim_internal; [done| |by rewrite Hi|by rewrite Hi|cbn [word]; rewrite Hsame..].
  - apply (view_go s i _ (Releasing c v)); [done|by rewrite ol_word|done].
  - lia.
  - destruct Hsec as [_ Hw]. exact Hw.
  - intros j Hj. by eapply others_section.
Qed.

(** The store that releases the lock: here the call takes effect. *)
Lemma sim_stlr i c v s a L : sim s a → cpus s i = Releasing c v → spin_unlock i (view s) L →
  ∃ a', astep a None a' ∧ sim (on_lock s i L (Back c v)) a'.
Proof.
  intros Hs Hi Hst. pose proof (sm_lock _ _ Hs) as HI. pose proof (sm_section _ _ Hs i) as Hsec. rewrite Hi in Hsec.
  assert (holds (pc_of (cpus s i))) as Hh by (rewrite Hi; by right; right).
  pose proof (spin_unlock_inv _ _ _ Hst HI) as HI'.
  inversion Hst as [w E f Hp|w E f Hp]; subst; [by rewrite Hi in Hp|].
  destruct Hsec as (a1 & Hspec & Hok). exists (mk_asys a1 (go i (ADone c v) (acpus a)) (aclient a)).
  split; [apply as_effect with (c := c); [by rewrite (sm_calls _ _ Hs), Hi|done]|].
  pose proof (sm_flight _ _ Hs) as Hfl. pose proof (Hfl i) as Hfi. rewrite Hi in Hfi. cbn [flight] in Hfi.
  destruct (ol_owned _ _ _ _ Hspec) as (Hk & Hm & Hd); [set_solver|]. pose proof (sm_owned _ _ Hs) as Ho.
  apply (sim_update i) with (a := a); cbn [astate acpus aclient word]; [done| |done|apply (sm_client _ _ Hs)|done|done| |set_solver|set_solver|].
  - apply (view_go s i (mk_lock_state 0 ∅ (go i Idle (λ i, pc_of (cpus s i)))) (Back c v)); [done|by rewrite ol_word|done].
  - intros j Hj. by eapply others_section.
  - intros j Hj. pose proof (sm_apart _ _ Hs i j (not_eq_sym Hj)) as Hij. rewrite Hi in Hij. cbn [flight] in Hij |- *.
    specialize (Hfl j). set_solver.
Qed.

Lemma sim_call i c s a : sim s a → cpus s i = Out → ob_args O c → ob_uses O c ⊆ client s →
  ∃ a', astep a (Some (Call i c)) a' ∧
        sim (mk_sys (mem s) (mon s) (go i (Locking c Idle) (cpus s)) (client s ∖ ob_uses O c)) a'.
Proof.
  intros Hs Hi Ha Hu. pose proof (sm_client _ _ Hs) as Hcl. pose proof (sm_owned _ _ Hs) as Ho.
  exists (mk_asys (astate a) (go i (ACalled c) (acpus a)) (aclient a ∖ ob_uses O c)).
  split; [apply as_call; [by rewrite (sm_calls _ _ Hs), Hi|done|by rewrite <- Hcl]|].
  apply (sim_update i) with (a := a); cbn [astate acpus aclient flight]; [done| |done|by rewrite Hcl|apply (sm_free _ _ Hs)|done| |set_solver|set_solver|].
  - unfold view. cbn [mem mon cpus]. eapply lock_inv_ext; [|exact (sm_lock _ _ Hs)].
    intros j. unfold go. case_decide; [by subst; rewrite Hi|done].
  - intros j Hj. apply (sm_section _ _ Hs).
  - intros j Hj. pose proof (sm_flight _ _ Hs j). set_solver.
Qed.

Lemma sim_return i c v s a : sim s a → cpus s i = Back c v →
  ∃ a', astep a (Some (Return i c v)) a' ∧ sim (mk_sys (mem s) (mon s) (go i Out (cpus s)) (client s ∪ ob_makes O c v)) a'.
Proof.
  intros Hs Hi. pose proof (sm_client _ _ Hs) as Hcl. pose proof (sm_owned _ _ Hs) as Ho. pose proof (sm_flight _ _ Hs i) as Hfi.
  rewrite Hi in Hfi. cbn [flight] in Hfi.
  exists (mk_asys (astate a) (go i AOut (acpus a)) (aclient a ∪ ob_makes O c v)).
  split; [apply as_return; by rewrite (sm_calls _ _ Hs), Hi|].
  apply (sim_update i) with (a := a); cbn [astate acpus aclient flight]; [done| |done|by rewrite Hcl|apply (sm_free _ _ Hs)|done| |set_solver|set_solver|].
  - unfold view. cbn [mem mon cpus]. eapply lock_inv_ext; [|exact (sm_lock _ _ Hs)].
    intros j. unfold go. case_decide; [by subst; rewrite Hi|done].
  - intros j Hj. apply (sm_section _ _ Hs).
  - intros j Hj. pose proof (sm_apart _ _ Hs i j (not_eq_sym Hj)) as Hij. rewrite Hi in Hij. cbn [flight] in Hij.
    pose proof (sm_flight _ _ Hs j). set_solver.
Qed.

Lemma sim_lose i s a : sim s a → sim (mk_sys (mem s) (mon s ∖ {[i]}) (cpus s) (client s)) a.
Proof.
  intros Hs. split; cbn [mem mon cpus client]; try apply Hs.
  unfold view. cbn [mem mon cpus]. eapply lock_step_inv; [|exact (sm_lock _ _ Hs)]. apply ls_lose_monitor.
Qed.

(** Forward simulation: a step of the CPUs is matched by zero or one step of
    the atomic object with the same event. *)
Lemma machine_sim_step s e s' a : sim s a → step s e s' → ∃ a', (e = None ∧ a' = a ∨ astep a e a') ∧ sim s' a'.
Proof.
  intros Hs Hst. destruct Hst as [i c s Hi Ha Hu|i c pc s L Hi Hl|i c m s p m' Hi Hm|i c v s L Hi Hl|i c v s L Hi Hl|i c v s Hi|i s].
  - destruct (sim_call i c s a Hs Hi Ha Hu) as (a' & ? & ?). eauto.
  - exists a. split; [by left|by eapply sim_lock].
  - exists a. split; [by left|by eapply sim_access].
  - exists a. split; [by left|by eapply sim_unlock].
  - destruct (sim_stlr i c v s a L Hs Hi Hl) as (a' & ? & ?). eauto.
  - destruct (sim_return i c v s a Hs Hi) as (a' & ? & ?). eauto.
  - exists a. split; [by left|by apply sim_lose].
Qed.

Lemma sim_init m a cl : ob_ok O m a → cl ⊆ ob_owned O a → sim (sys_init m cl) (asys_init a cl).
Proof.
  intros Hok Hcl. split; cbn [sys_init asys_init mem mon cpus client acpus astate aclient flight section_ok]; try done.
  pose proof (lock_reachable_inv spin_lock_init (rtc_refl _ _)) as HI. unfold view. cbn [sys_init mem mon cpus pc_of].
  by rewrite (ol_free _ _ Hok).
Qed.

Lemma machine_sim_run s0 a0 t s : sim s0 a0 → run step s0 t s → ∃ a, run astep a0 t a ∧ sim s a.
Proof.
  intros H0 Hr. induction Hr as [|t y z _ (a & Ha & Hs) Hst|t y e z _ (a & Ha & Hs) Hst].
  - exists a0. split; [apply run_nil|done].
  - destruct (machine_sim_step _ _ _ _ Hs Hst) as (a' & [[_ ->]|Hst'] & Hs'); [by exists a|].
    exists a'. split; [by eapply run_tau|done].
  - destruct (machine_sim_step _ _ _ _ Hs Hst) as (a' & [[? _]|Hst'] & Hs'); [done|].
    exists a'. split; [by eapply run_event|done].
Qed.

(** Every history of calls and returns is one of the atomic object. *)
Lemma traces_atomic m a cl t s : ob_ok O m a → cl ⊆ ob_owned O a →
  run step (sys_init m cl) t s → ∃ b, run astep (asys_init a cl) t b ∧ sim s b.
Proof. intros Hok Hcl Hr. eapply machine_sim_run; [by apply sim_init|done]. Qed.

(** No access in a critical section halts. *)
Lemma no_halt s a i c m : sim s a → cpus s i = Inside c (Act m) → ∃ p m', m (mem s) = Ok (p, m').
Proof.
  intros Hs Hi. pose proof (sm_section _ _ Hs i) as Hsec. rewrite Hi in Hsec. destruct Hsec as [_ Hw].
  unfold wp in Hw. cbn [denote] in Hw. destruct (m (mem s)) as [[p m']|h]; [eauto|done].
Qed.

(** ** Every call can return

    [quiet s s']: internal steps lead from [s] to [s']. *)
Definition tau (s s' : sys) : Prop := step s None s'.
Definition quiet : sys → sys → Prop := rtc tau.

Lemma quiet_sim s s' a : quiet s s' → sim s a → ∃ a', sim s' a'.
Proof.
  intros Hq. revert a. induction Hq as [|x y z Hxy _ IH]; intros a Hs; [eauto|].
  destruct (machine_sim_step _ _ _ _ Hs Hxy) as (a' & _ & Hs'). eauto.
Qed.

Lemma quiet_run s0 t s s' : run step s0 t s → quiet s s' → run step s0 t s'.
Proof. intros Hr Hq. induction Hq as [|x y z Hxy _ IH]; [done|]. apply IH. by eapply run_tau. Qed.

Lemma run_call s0 t s i c : run step s0 t s → cpus s i = Out → ob_args O c → ob_uses O c ⊆ client s →
  ∃ s', run step s0 (t ++ [Call i c]) s' ∧ cpus s' = go i (Locking c Idle) (cpus s).
Proof. intros Hr Hi Ha Hu. eexists. split; [eapply run_event; [exact Hr|by apply st_call]|done]. Qed.

(** The holder leaves the critical section by its own steps. *)
Lemma leaves_inside i c p s a : sim s a → cpus s i = Inside c p →
  ∃ s' v, quiet s s' ∧ cpus s' i = Back c v ∧ ∀ j, j ≠ i → cpus s' j = cpus s j.
Proof.
  revert s. induction p as [v|m IH] using prog_tree_ind; intros s Hs Hi.
  - set (L1 := mk_lock_state (ob_word O (mem s)) (mon s) (go i Stlr (λ j, pc_of (cpus s j)))).
    set (s1 := on_lock s i L1 (Releasing c v)).
    assert (tau s s1) as H1 by (eapply st_unlock; [exact Hi|apply su_call; by rewrite Hi]).
    set (L2 := mk_lock_state 0 ∅ (go i Idle (λ j, pc_of (cpus s1 j)))).
    assert (tau s1 (on_lock s1 i L2 (Back c v))) as H2.
    { eapply st_stlr; [apply go_eq|]. apply su_stlr. unfold s1, on_lock. cbn [cpus]. by rewrite go_eq. }
    exists (on_lock s1 i L2 (Back c v)), v. split; [eapply rtc_l; [exact H1|by apply rtc_once]|].
    split; [apply go_eq|]. intros j Hj. unfold s1, on_lock. cbn [cpus]. by rewrite !go_ne by done.
  - destruct (no_halt _ _ _ _ _ Hs Hi) as (p & m' & Hm).
    pose proof (sim_access _ _ _ _ _ _ _ Hs Hi Hm) as Hs1.
    destruct (IH _ _ _ Hm _ Hs1 (go_eq _ _ _)) as (s' & v & Hq & Hb & Ho).
    exists s', v. split; [|split; [done|]].
    + eapply rtc_l; [by eapply st_access|exact Hq].
    + intros j Hj. rewrite Ho by done. cbn [cpus]. by apply go_ne.
Qed.

Lemma leaves i s a : sim s a → holds (pc_of (cpus s i)) →
  ∃ s' c v, call_of (cpus s i) = ACalled c ∧ quiet s s' ∧ cpus s' i = Back c v ∧ ∀ j, j ≠ i → cpus s' j = cpus s j.
Proof.
  intros Hs Hh. pose proof (sm_section _ _ Hs i) as Hsec.
  destruct (cpus s i) as [|c pc|c p|c v|c v] eqn:Hi; cbn [pc_of section_ok] in *.
  - by apply no_holds in Hh; [|left].
  - destruct Hsec as [_ Hsec]. destruct Hh as [-> | [-> | ->]]; [|done..].
    set (L := mk_lock_state (ob_word O (mem s)) (mon s) (go i Critical (λ j, pc_of (cpus s j)))).
    assert (spin_lock i (view s) L) as Hl by (apply sl_got; by rewrite Hi).
    assert (pcs L i = Critical) as Hc by apply go_eq.
    pose proof (sim_lock _ _ _ _ _ _ Hs Hi Hl) as Hs1. rewrite Hc in Hs1.
    assert (cpus (on_lock s i L (enter c Critical)) i = Inside c (ob_body O c)) as Hi1 by apply go_eq.
    destruct (leaves_inside _ _ _ _ _ Hs1 Hi1) as (s' & v & Hq & Hb & Ho).
    exists s', c, v. split; [done|]. split; [|split; [done|]].
    + eapply rtc_l; [|exact Hq]. rewrite <- Hc. by eapply st_lock.
    + intros j Hj. rewrite Ho by done. by apply go_ne.
  - destruct (leaves_inside _ _ _ _ _ Hs Hi) as (s' & v & H). exists s', c, v. by split.
  - set (L := mk_lock_state 0 ∅ (go i Idle (λ j, pc_of (cpus s j)))).
    exists (on_lock s i L (Back c v)), c, v. split; [done|]. split; [|split; [apply go_eq|intros j Hj; by apply go_ne]].
    apply rtc_once. eapply st_stlr; [exact Hi|]. apply su_stlr. by rewrite Hi.
  - by apply no_holds in Hh; [|left].
Qed.

(** The instructions that take the free lock, run inside the machine. *)
Lemma lift_spin i c L L' : rtc (spin_lock i) L L' → pcs L' i = Critical →
  ∀ s a pc, sim s a → cpus s i = Locking c pc →
  word L = ob_word O (mem s) → excl L = mon s → (∀ j, pcs L j = pc_of (cpus s j)) →
  ∃ s' a' p, quiet s s' ∧ sim s' a' ∧ cpus s' i = Inside c p.
Proof.
  intros Hr Hend. induction Hr as [L|L L1 L' Hst _ IH]; intros s a pc Hs Hi Hw HE Hp.
  - pose proof (sm_section _ _ Hs i) as Hsec. rewrite Hi in Hsec. rewrite Hp, Hi in Hend. cbn [pc_of] in Hend. subst pc.
    by destruct Hsec.
  - destruct L as [w E f]. cbn [word excl pcs] in *. subst w E.
    assert (lock_inv (mk_lock_state (ob_word O (mem s)) (mon s) f)) as HI by (eapply lock_inv_ext; [|exact (sm_lock _ _ Hs)]; done).
    destruct (spin_lock_outcome _ _ _ _ _ HI Hst) as [Hp1 _].
    pose proof (spin_lock_ext _ _ _ _ _ _ Hp Hst) as Hl. fold (view s) in Hl.
    set (L1' := mk_lock_state (word L1) (excl L1) (go i (pcs L1 i) (λ j, pc_of (cpus s j)))) in *.
    assert (pcs L1' i = pcs L1 i) as Hpi by apply go_eq.
    pose proof (sim_lock _ _ _ _ _ _ Hs Hi Hl) as Hs1. pose proof (st_lock _ _ _ _ _ Hi Hl) as Ht. rewrite Hpi in Hs1, Ht.
    set (s1 := on_lock s i L1' (enter c (pcs L1 i))) in *.
    assert (cpus s1 i = enter c (pcs L1 i)) as Hi1 by apply go_eq.
    destruct (decide (pcs L1 i = Critical)) as [Hc|Hc].
    + exists s1, a, (ob_body O c). rewrite Hc in Hi1. split; [by apply rtc_once|]. by split.
    + destruct (IH Hend s1 a (pcs L1 i)) as (s' & a' & p & Hq & H); [done|by rewrite Hi1; destruct (pcs L1 i)|by cbn; rewrite ol_word|done| |].
      * intros j. transitivity (go i (pcs L1 i) f j); [exact (f_equal (λ f, f j) Hp1)|].
        unfold s1, on_lock. cbn [cpus]. unfold go. case_decide; [by rewrite pc_enter|apply Hp].
      * exists s', a', p. split; [by eapply rtc_l|done].
Qed.

Lemma takes_free_lock i c pc s a : sim s a → (∀ j, ¬ holds (pc_of (cpus s j))) → cpus s i = Locking c pc →
  ∃ s' v, quiet s s' ∧ cpus s' i = Back c v.
Proof.
  intros Hs Hfree Hi.
  assert (∃ s1 a1 pc1, quiet s s1 ∧ sim s1 a1 ∧ cpus s1 i = Locking c pc1 ∧ pc1 ≠ Idle ∧ ∀ j, ¬ holds (pc_of (cpus s1 j)))
    as (s1 & a1 & pc1 & Hq1 & Hs1 & Hi1 & Hne & Hfree1).
  { destruct (decide (pc = Idle)) as [->|Hne]; [|exists s, a, pc; split; [apply rtc_refl|done]].
    set (L := mk_lock_state (ob_word O (mem s)) (mon s) (go i Ldaxr (λ j, pc_of (cpus s j)))).
    assert (spin_lock i (view s) L) as Hl by (apply sl_call; by rewrite Hi).
    assert (pcs L i = Ldaxr) as Hc by apply go_eq.
    pose proof (sim_lock _ _ _ _ _ _ Hs Hi Hl) as Hs1. pose proof (st_lock _ _ _ _ _ Hi Hl) as Ht. rewrite Hc in Hs1, Ht.
    eexists _, a, Ldaxr. split; [by apply rtc_once|]. split; [exact Hs1|]. split; [apply go_eq|]. split; [done|].
    intros j. cbn [on_lock cpus]. unfold go. case_decide; [apply no_holds; naive_solver|apply Hfree]. }
  destruct (free_can_take i (view s1)) as (L & Hr & Hend); [apply (sm_lock _ _ Hs1)|done|cbn [view pcs]; by rewrite Hi1|].
  destruct (lift_spin i c _ _ Hr Hend s1 a1 pc1) as (s2 & a2 & p & Hq2 & Hs2 & Hi2); [done..|].
  destruct (leaves_inside _ _ _ _ _ Hs2 Hi2) as (s3 & v & Hq3 & Hb & _).
  exists s3, v. split; [|done]. by do 2 (etrans; [eassumption|]).
Qed.

(** A CPU that is in a call can return from it, whoever holds the lock. *)
Lemma can_return i c s a : sim s a → call_of (cpus s i) = ACalled c → ∃ s' v, quiet s s' ∧ cpus s' i = Back c v.
Proof.
  intros Hs Hc.
  destruct (decide (ob_word O (mem s) = 0)) as [Hw|Hw].
  - assert (∀ j, ¬ holds (pc_of (cpus s j))) as Hfree.
    { intros j Hj. pose proof (li_held _ (sm_lock _ _ Hs) j Hj) as H1. cbn [view word] in H1. lia. }
    destruct (cpus s i) as [|c1 pc|c1 p|c1 v|c1 v] eqn:Hi; try done.
    + injection Hc as ->. by eapply takes_free_lock.
    + destruct (Hfree i). rewrite Hi. by right; left.
    + destruct (Hfree i). rewrite Hi. by right; right.
  - destruct (li_word _ (sm_lock _ _ Hs)) as [?|H1]; [done|]. destruct (li_free _ (sm_lock _ _ Hs) H1) as [k Hk].
    destruct (leaves k s a Hs Hk) as (s1 & c1 & v1 & Hc1 & Hq & Hb & Ho). cbn [view pcs] in Hk.
    destruct (decide (k = i)) as [->|Hki].
    { exists s1, v1. split; [done|]. rewrite Hc in Hc1. by injection Hc1 as <-. }
    destruct (quiet_sim _ _ _ Hq Hs) as [a1 Hs1]. rewrite <- (Ho i) in Hc by done.
    assert (∀ j, ¬ holds (pc_of (cpus s1 j))) as Hfree.
    { intros j Hj. destruct (decide (j = k)) as [->|Hjk]; [rewrite Hb in Hj; by apply no_holds in Hj; [|left]|].
      rewrite Ho in Hj by done. by apply (others_idle s a k j). }
    destruct (cpus s1 i) as [|c2 pc|c2 p|c2 v|c2 v] eqn:Hi; try done.
    + injection Hc as ->. destruct (takes_free_lock i c pc s1 a1) as (s2 & v & Hq2 & Hb2); [done..|].
      exists s2, v. split; [by etrans|done].
    + destruct (Hfree i). rewrite Hi. by right; left.
    + destruct (Hfree i). rewrite Hi. by right; right.
Qed.
End machine.
Arguments mem {St O} _. Arguments mon {St O} _. Arguments cpus {St O} _. Arguments client {St O} _.
Arguments astate {St O} _. Arguments acpus {St O} _. Arguments aclient {St O} _.
Arguments Call {St O}. Arguments Return {St O}.
Arguments Out {St O}. Arguments Locking {St O}. Arguments Inside {St O}. Arguments Releasing {St O}. Arguments Back {St O}.
Arguments AOut {St O}. Arguments ACalled {St O}. Arguments ADone {St O}.
Arguments call_of {St O} _.
