(* ===== verification/BuddySmp.v ===== *)
(** * The page allocator on several CPUs: [mm/buddy.c] access by access

    The code between [lock] and [unlock] of [buddy_get_pages] and
    [buddy_free_pages], as programs that make one memory access at a time (see
    [Locked]): a field of a list node, a counter, a [struct page].  The fields of
    [memory_region_g] that never change after boot are read together, and the
    bound of the list walk is no access of the code.  [denote] of each program is
    the routine of [Buddy].  The allocator is an
    [object]: its lock word is [free_lists_lock], its abstract state the map of
    allocated blocks, its pointers the pages the clients own. *)

From S2P Require Import Prelude Macro ListHead Buddy Chunks BuddyInv BuddyOps BuddySpec BuddyTheorems Sync Locked.

(** ** Programs and the routines they are *)
Abbreviation bprog := (prog bstate).

Definition sem {A} (p : bprog A) (m : M bstate A) : Prop := ∀ s, denote p s = m s.

Definition node_access {A} (m : M nheap A) : bprog A := act (on_nodes m).
Definition pBUG_ON (b : bool) : bprog unit := if b then pstop HBug else mret tt.

(** [list.h] *)
Definition plist_del (node : Z) : bprog unit :=
  p ← node_access (rd_prev node);
  n ← node_access (rd_next node);
  node_access (wr_next p n) ;;
  n' ← node_access (rd_next node);
  p' ← node_access (rd_prev node);
  node_access (wr_prev n' p').
Definition plist_add (new head : Z) : bprog unit :=
  hn ← node_access (rd_next head);
  node_access (wr_next new hn) ;;
  node_access (wr_prev new head) ;;
  hn' ← node_access (rd_next head);
  node_access (wr_prev hn' new) ;;
  node_access (wr_next head new).
Definition plist_empty (head : Z) : bprog bool := n ← node_access (rd_next head); mret (n =? head).
Fixpoint plist_find (fuel : nat) (elem head target : Z) : bprog bool :=
  match fuel with
  | O => pstop HFuel
  | S fuel' =>
      if elem =? head then mret false
      else if elem =? target then mret true
      else (n ← node_access (rd_next elem); plist_find fuel' n head target)
  end.

(** [buddy.c] *)
Definition ppage_in_list (page list : Z) : bprog bool :=
  if (page =? NULL) || (list =? NULL) then mret false
  else
    e ← plist_empty list;
    if (e : bool) then mret false
    else
      fuel ← act (gets (λ s, Datatypes.S (base.size (nodes s))));
      n ← node_access (rd_next list);
      plist_find fuel n list page.

Definition pfl_del (o chunk : Z) : bprog unit :=
  plist_del chunk ;;
  n ← act (get_nr_free o);
  act (set_nr_free o (u64 (n - 1))).
Definition pfl_add (o chunk : Z) : bprog unit :=
  h ← act (gets (λ s, fl_addr s o));
  plist_add chunk h ;;
  n ← act (get_nr_free o);
  act (set_nr_free o (u64 (n + 1))).
Definition pfl_pop (o : Z) : bprog Z :=
  h ← act (gets (λ s, fl_addr s o));
  chunk ← node_access (rd_next h);
  pBUG_ON (chunk =? NULL) ;;
  pfl_del o chunk ;;
  mret chunk.

Fixpoint psplit_chunk (fuel : nat) (o : Z) : bprog Z :=
  match fuel with
  | O => pstop HFuel
  | S fuel' =>
      if (o <? 1) || (o >=? BUDDY_MAX_ORDER) then mret NULL
      else
        nf ← act (get_nr_free o);
        chunk ← (if nf =? 0 then psplit_chunk fuel' (o + 1) else pfl_pop o);
        if chunk =? NULL then mret NULL
        else
          let o' := o - 1 in
          let chunk_buddy := chunk + BUDDY_CHUNK_PAGES_COUNT o' * sizeof_page in
          act (set_order chunk o') ;;
          act (set_order chunk_buddy o') ;;
          pfl_add o' chunk_buddy ;;
          mret chunk
  end.

Fixpoint pmerge_chunk (fuel : nat) (chunk_origin : Z) : bprog Z :=
  match fuel with
  | O => pstop HFuel
  | S fuel' =>
      pBUG_ON (chunk_origin =? NULL) ;;
      p ← act (ld_page chunk_origin);
      nf ← act (get_nr_free (order p));
      if (nf =? 0) || (order p =? BUDDY_MAX_ORDER - 1) then mret chunk_origin
      else
        s ← act (gets id);
        let chunk_merge :=
          virt_to_page s (ROUND_DOWN (page_to_virt s chunk_origin) (BUDDY_CHUNK_SIZE (order p + 1))) in
        let chunk_buddy :=
          if chunk_merge =? chunk_origin
          then chunk_origin + BUDDY_CHUNK_PAGES_COUNT (order p) * sizeof_page
          else chunk_merge in
        if chunk_buddy =? NULL then mret chunk_origin
        else
          b ← act (ld_page chunk_buddy);
          if (allocated b =? 1) || negb (order b =? order p) then mret chunk_origin
          else
            inl ← ppage_in_list chunk_buddy (fl_addr s (order p));
            pBUG_ON (negb inl) ;;
            pfl_del (order p) chunk_buddy ;;
            act (set_order chunk_merge (order p + 1)) ;;
            pmerge_chunk fuel' chunk_merge
  end.

(** Between [lock] and [unlock]. *)
Definition free_pages_section (page : Z) : bprog Z :=
  act (set_allocated page 0) ;;
  merge_page ← pmerge_chunk 12 page;
  m ← act (ld_page merge_page);
  pfl_add (order m) merge_page ;;
  mret 0.

Definition get_pages_section (o : Z) : bprog Z :=
  nf ← act (get_nr_free o);
  page ← (if nf =? 0 then psplit_chunk 12 (o + 1) else pfl_pop o);
  if page =? NULL then mret NULL
  else
    p ← act (ld_page page);
    if allocated p =? 1 then pstop HKerror
    else
      pBUG_ON (allocated p =? 1) ;;
      pBUG_ON (negb (order p =? o)) ;;
      act (set_allocated page 1) ;;
      mret page.

(** Programs compose like the routines they are. *)
Section sem_rules.
Lemma sem_ret {A} (a : A) : sem (mret a) (mret a).
Proof. done. Qed.
Lemma sem_act {A} (m : M bstate A) : sem (act m) m.
Proof. intros s. apply denote_act. Qed.
Lemma sem_stop {A} h : sem (pstop (A := A) h) (stop h).
Proof. done. Qed.
Lemma sem_bind {A B} (p : bprog A) (m : M bstate A) (f : A → bprog B) (g : A → M bstate B) :
  sem p m → (∀ a, sem (f a) (g a)) → sem (p ≫= f) (m ≫= g).
Proof.
  intros Hp Hf s. rewrite denote_bind. unfold mbind, M_bind. rewrite Hp. destruct (m s) as [[a s']|h]; [apply Hf|done].
Qed.
Lemma sem_if {A} (b : bool) (p q : bprog A) m n : sem p m → sem q n → sem (if b then p else q) (if b then m else n).
Proof. by destruct b. Qed.
Lemma sem_BUG_ON b : sem (pBUG_ON b) (BUG_ON b).
Proof. by destruct b. Qed.
End sem_rules.
Ltac sem_go := repeat lazymatch goal with
  | |- ∀ _, _ => intros ?
  | |- sem (mret _) _ => apply sem_ret
  | |- sem (act _) _ => apply sem_act
  | |- sem (node_access _) _ => apply sem_act
  | |- sem (pstop _) _ => apply sem_stop
  | |- sem (pBUG_ON _) _ => apply sem_BUG_ON
  | |- sem (mbind _ _) (mbind _ _) => apply sem_bind
  | |- sem (if _ then _ else _) _ => apply sem_if
  end.

(** The same for routines on the list nodes. *)
Section node_rules.
Lemma sem_nodes {A} (m : M nheap A) : sem (node_access m) (on_nodes m).
Proof. apply sem_act. Qed.
Lemma sem_nodes_ret {A} (a : A) : sem (mret a) (on_nodes (mret a)).
Proof. intros s. by destruct s. Qed.
Lemma sem_nodes_bind {A B} (p : bprog A) (m : M nheap A) (f : A → bprog B) (g : A → M nheap B) :
  sem p (on_nodes m) → (∀ a, sem (f a) (on_nodes (g a))) → sem (p ≫= f) (on_nodes (m ≫= g)).
Proof.
  intros Hp Hf s. rewrite denote_bind. unfold mbind, M_bind. rewrite Hp. unfold on_nodes, zoom.
  destruct (m (nodes s)) as [[a h]|?]; [|done]. rewrite Hf. unfold on_nodes, zoom.
  change (nodes (set_nodes h s)) with h. by destruct (g a h) as [[b h']|?].
Qed.
Lemma sem_nodes_if {A} (b : bool) (p q : bprog A) m n :
  sem p (on_nodes m) → sem q (on_nodes n) → sem (if b then p else q) (on_nodes (if b then m else n)).
Proof. by destruct b. Qed.
Lemma sem_nodes_stop {A} h : sem (pstop (A := A) h) (on_nodes (stop h)).
Proof. done. Qed.
End node_rules.
Ltac sem_nodes_go := repeat lazymatch goal with
  | |- ∀ _, _ => intros ?
  | |- sem (mret _) _ => apply sem_nodes_ret
  | |- sem (node_access _) _ => apply sem_nodes
  | |- sem (pstop _) _ => apply sem_nodes_stop
  | |- sem (mbind _ _) _ => apply sem_nodes_bind
  | |- sem (if _ then _ else _) _ => apply sem_nodes_if
  end.

(** Accesses keep the lock word. *)
Abbreviation kept := (keeps free_lists_lock).
Lemma kept_act {A} (m : M bstate A) : keeps_access free_lists_lock m → kept (act m).
Proof. apply keeps_act. Qed.
Lemma kept_load {A} (f : bstate → option A) : keeps_access free_lists_lock (load f).
Proof. intros s a s'. unfold load. destruct (f s); [|done]. by intros [= _ <-]. Qed.
Lemma kept_gets {A} (f : bstate → A) : keeps_access free_lists_lock (gets f).
Proof. by intros s a s' [= _ <-]. Qed.
Lemma kept_nodes {A} (m : M nheap A) : kept (node_access m).
Proof. apply keeps_act. intros s a s'. unfold on_nodes, zoom. destruct (m (nodes s)) as [[b h]|?]; [|done]. by intros [= _ <-]. Qed.
Lemma kept_update p (f : page → page) : keeps_access free_lists_lock (v ← ld_page p; st_page p (f v)).
Proof.
  intros s a s'. unfold mbind, M_bind, ld_page, load. destruct (pages s !! p); [|done]. by intros [= _ <-].
Qed.
Lemma kept_nr o v : keeps_access free_lists_lock (set_nr_free o v).
Proof. by intros s a s' [= _ <-]. Qed.
Lemma kept_if {A} (b : bool) (p q : bprog A) : kept p → kept q → kept (if b then p else q).
Proof. by destruct b. Qed.
Lemma kept_BUG_ON b : kept (pBUG_ON b).
Proof. destruct b; [apply keeps_stop|apply keeps_ret]. Qed.
Ltac kept_go := repeat lazymatch goal with
  | |- ∀ _, _ => intros ?
  | |- keeps _ (mret _) => apply keeps_ret
  | |- keeps _ (pstop _) => apply keeps_stop
  | |- keeps _ (pBUG_ON _) => apply kept_BUG_ON
  | |- keeps _ (node_access _) => apply kept_nodes
  | |- keeps _ (mbind _ _) => apply keeps_seq
  | |- keeps _ (if _ then _ else _) => apply kept_if
  | |- keeps _ (act _) => apply keeps_act; first [apply kept_load|apply kept_gets|apply kept_nr|apply kept_update]
  end.

(** ** The programs are the routines *)
Lemma sem_list_del node : sem (plist_del node) (on_nodes (list_del node)).
Proof. unfold plist_del, list_del. sem_nodes_go. Qed.
Lemma sem_list_add new head : sem (plist_add new head) (on_nodes (list_add new head)).
Proof. unfold plist_add, list_add. sem_nodes_go. Qed.
Lemma sem_list_empty head : sem (plist_empty head) (on_nodes (list_empty head)).
Proof. unfold plist_empty, list_empty. sem_nodes_go. Qed.
Lemma sem_list_find fuel elem head target : sem (plist_find fuel elem head target) (on_nodes (list_find fuel elem head target)).
Proof. revert elem. induction fuel as [|fuel IH]; intros elem; cbn [plist_find list_find]; sem_nodes_go. apply IH. Qed.

Lemma sem_page_in_list page list : sem (ppage_in_list page list) (page_in_list page list).
Proof.
  unfold ppage_in_list, page_in_list. sem_go; [apply sem_list_empty|]. sem_nodes_go. apply sem_list_find.
Qed.
Lemma sem_fl_del o chunk : sem (pfl_del o chunk) (fl_del o chunk).
Proof. unfold pfl_del, fl_del, dec_nr_free. sem_go. apply sem_list_del. Qed.
Lemma sem_fl_add o chunk : sem (pfl_add o chunk) (fl_add o chunk).
Proof. unfold pfl_add, fl_add, inc_nr_free. sem_go. apply sem_list_add. Qed.
Lemma sem_fl_pop o : sem (pfl_pop o) (fl_pop o).
Proof. unfold pfl_pop, fl_pop. sem_go. apply sem_fl_del. Qed.
Lemma sem_split_chunk fuel o : sem (psplit_chunk fuel o) (split_chunk_rec fuel o).
Proof.
  revert o. induction fuel as [|fuel IH]; intros o; cbn [psplit_chunk split_chunk_rec]; sem_go; [apply IH|apply sem_fl_pop|apply sem_fl_add].
Qed.
Lemma sem_merge_chunk fuel c : sem (pmerge_chunk fuel c) (merge_chunk_rec fuel c).
Proof.
  revert c. induction fuel as [|fuel IH]; intros c; cbn [pmerge_chunk merge_chunk_rec]; sem_go;
    [apply sem_page_in_list|apply sem_fl_del|apply IH].
Qed.

Lemma kept_list_del node : kept (plist_del node).
Proof. unfold plist_del. kept_go. Qed.
Lemma kept_fl_del o chunk : kept (pfl_del o chunk).
Proof. unfold pfl_del. kept_go. apply kept_list_del. Qed.
Lemma kept_fl_add o chunk : kept (pfl_add o chunk).
Proof. unfold pfl_add, plist_add. kept_go. Qed.
Lemma kept_fl_pop o : kept (pfl_pop o).
Proof. unfold pfl_pop. kept_go. apply kept_fl_del. Qed.
Lemma kept_list_find fuel elem head target : kept (plist_find fuel elem head target).
Proof. revert elem. induction fuel as [|fuel IH]; intros elem; cbn [plist_find]; kept_go. apply IH. Qed.
Lemma kept_page_in_list page list : kept (ppage_in_list page list).
Proof. unfold ppage_in_list, plist_empty. kept_go. apply kept_list_find. Qed.
Lemma kept_split_chunk fuel o : kept (psplit_chunk fuel o).
Proof. revert o. induction fuel as [|fuel IH]; intros o; cbn [psplit_chunk]; kept_go; [apply IH|apply kept_fl_pop|apply kept_fl_add]. Qed.
Lemma kept_merge_chunk fuel c : kept (pmerge_chunk fuel c).
Proof.
  revert c. induction fuel as [|fuel IH]; intros c; cbn [pmerge_chunk]; kept_go; [apply kept_page_in_list|apply kept_fl_del|apply IH].
Qed.
Lemma kept_get_pages o : kept (get_pages_section o).
Proof. unfold get_pages_section. kept_go; [apply kept_split_chunk|apply kept_fl_pop]. Qed.
Lemma kept_free_pages page : kept (free_pages_section page).
Proof. unfold free_pages_section. kept_go; [apply kept_merge_chunk|apply kept_fl_add]. Qed.

(** A call without interruption: take the free lock, run the section, release. *)
Definition locked {A} (m : M bstate A) : M bstate A := lock_free_lists ;; a ← m; unlock_free_lists ;; mret a.

Lemma get_pages_is o s : buddy_get_pages o s = locked (denote (get_pages_section o)) s.
Proof.
  assert (sem (get_pages_section o) (nf ← get_nr_free o; page ← (if nf =? 0 then split_chunk (o + 1) else fl_pop o);
    if page =? NULL then mret NULL else
    p ← ld_page page; if allocated p =? 1 then stop HKerror else
    BUG_ON (allocated p =? 1) ;; BUG_ON (negb (order p =? o)) ;; set_allocated page 1 ;; mret page)) as Hsem.
  { unfold get_pages_section. sem_go; [apply sem_split_chunk|apply sem_fl_pop]. }
  unfold buddy_get_pages, locked. unfold mbind, M_bind. destruct (lock_free_lists s) as [[[] s1]|h]; [|done].
  rewrite Hsem. unfold mbind, M_bind. destruct (get_nr_free o s1) as [[nf s2]|h]; [|done].
  destruct ((if nf =? 0 then split_chunk (o + 1) else fl_pop o) s2) as [[page s3]|h]; [|done]. destruct (page =? NULL) eqn:Ep; [by apply Z.eqb_eq in Ep; subst|].
  destruct (ld_page page s3) as [[p s4]|h]; [|done]. destruct (allocated p =? 1); [done|].
  destruct (BUG_ON false s4) as [[[] s5]|h]; [|done]. destruct (BUG_ON (negb (order p =? o)) s5) as [[[] s6]|h]; [|done].
  by destruct (set_allocated page 1 s6) as [[[] s7]|h].
Qed.

Lemma free_pages_is page s : (buddy_free_pages page ;; mret 0) s = locked (denote (free_pages_section page)) s.
Proof.
  assert (sem (free_pages_section page) (set_allocated page 0 ;; merge_page ← merge_chunk page; m ← ld_page merge_page;
    fl_add (order m) merge_page ;; mret 0)) as Hsem.
  { unfold free_pages_section. sem_go; [apply sem_merge_chunk|apply sem_fl_add]. }
  unfold buddy_free_pages, locked. unfold mbind, M_bind. destruct (lock_free_lists s) as [[[] s1]|h]; [|done].
  rewrite Hsem. unfold mbind, M_bind. destruct (set_allocated page 0 s1) as [[[] s2]|h]; [|done].
  destruct (merge_chunk page s2) as [[c s3]|h]; [|done]. destruct (ld_page c s3) as [[p s4]|h]; [|done].
  by destruct (fl_add (order p) c s4) as [[[] s5]|h].
Qed.

Lemma wp_section {A} (m : M bstate A) s (Q : A → bstate → Prop) :
  free_lists_lock s = 0 → wp (locked m) s Q → wp m (set_lock 1 s) (λ a s', Q a (set_lock 0 s')).
Proof.
  intros Hl. unfold wp, locked, lock_free_lists, mbind, M_bind, gets. rewrite Hl. change (0 =? 0) with true. cbn [modify].
  by destruct (m (set_lock 1 s)) as [[a s']|h].
Qed.

(** ** The allocator as an object behind its lock *)
Inductive buddy_op : Type := GetPages (o : Z) | FreePages (page : Z).

Section object.
(** [s0]: the allocator after boot; what never changes is read off it. *)
Context (s0 : bstate).

(** What clients are promised: a block that was available, or [NULL] when there is none. *)
Definition buddy_spec (U : gmap Z Z) (c : buddy_op) (v : Z) (U' : gmap Z Z) : Prop :=
  match c with
  | GetPages o =>
      (v = NULL ∧ U' = U ∧ ∀ c, ¬ block_avail s0 U c o) ∨
      ∃ c, v = pfn_to_page s0 c ∧ v ≠ NULL ∧ block_avail s0 U c o ∧ U !! c = None ∧ U' = <[c := o]> U
  | FreePages page => ∃ c o, page = pfn_to_page s0 c ∧ U !! c = Some o ∧ U' = delete c U
  end.

Definition buddy_object : object bstate := {|
  ob_op := buddy_op;
  ob_val := Z;
  ob_word := free_lists_lock;
  ob_set_word := set_lock;
  ob_body := λ c, match c with GetPages o => get_pages_section o | FreePages page => free_pages_section page end;
  ob_args := λ c, match c with GetPages o => 0 ≤ o ≤ 10 | FreePages _ => True end;
  ob_uses := λ c, match c with GetPages _ => ∅ | FreePages page => {[page]} end;
  ob_makes := λ c v, match c with GetPages _ => if v =? NULL then ∅ else {[v]} | FreePages _ => ∅ end;
  ob_abs := gmap Z Z;
  ob_spec := buddy_spec;
  ob_owned := λ U, set_map (pfn_to_page s0) (dom U);
  ob_ok := λ s U, buddy_ok s U ∧ frame s0 s
|}.

Lemma avail_boot s U c o : frame s0 s → block_avail s U c o ↔ block_avail s0 U c o.
Proof.
  intros Hf. pose proof (frame_base _ _ Hf) as Hb. pose proof (fr_num _ _ Hf) as Hn.
  split; intros [Hl Hh Ha Hd]; split; try done; congruence.
Qed.

Lemma avail_new s U c o : buddy_ok s U → 0 ≤ o → block_avail s U c o → U !! c = None.
Proof.
  intros Hok Ho [_ _ _ Hd]. destruct (U !! c) as [k|] eqn:Hc; [|done].
  destruct (used_block _ _ _ _ Hok Hc) as (_ & Hk & _). pose proof (pow2_gt0 k ltac:(lia)). pose proof (pow2_gt0 o Ho).
  destruct (Hd _ _ Hc); lia.
Qed.

Lemma section_get s U o : buddy_ok s U → frame s0 s → 0 ≤ o ≤ 10 →
  wp (denote (get_pages_section o)) (set_lock 1 s)
     (λ v s', ∃ U', buddy_spec U (GetPages o) v U' ∧ buddy_ok (set_lock 0 s') U' ∧ frame s0 (set_lock 0 s')).
Proof.
  intros Hok Hf Ho. assert (free_lists_lock s = 0) as Hl by (by destruct Hok as (? & ? & _ & _ & _ & ? & _)).
  apply (wp_section _ _ (λ v s', ∃ U', buddy_spec U (GetPages o) v U' ∧ buddy_ok s' U' ∧ frame s0 s') Hl).
  unfold wp. rewrite <- get_pages_is. apply (wp_buddy_get_pages _ _ _ _ Hok Ho).
  - intros Hno. exists U. split; [|done]. left. split_and!; [done|done|]. intros c. by rewrite <- avail_boot.
  - intros c s' Hav Hf' Hok'. exists (<[c := o]> U). split; [|split; [done|by etrans]]. right. exists c.
    split_and!; [by rewrite (frame_pfn _ _ _ Hf)| |by rewrite <- avail_boot|apply (avail_new s U c o Hok); [lia|done]|done].
    eapply ok_pfn_ne_null; [exact Hok|]. by destruct Hav.
Qed.

Lemma section_free s U page : buddy_ok s U → frame s0 s → page ∈ (set_map (pfn_to_page s0) (dom U) : gset Z) →
  wp (denote (free_pages_section page)) (set_lock 1 s)
     (λ v s', ∃ U', buddy_spec U (FreePages page) v U' ∧ buddy_ok (set_lock 0 s') U' ∧ frame s0 (set_lock 0 s')).
Proof.
  intros Hok Hf (c & -> & [o Hc]%elem_of_dom)%elem_of_map.
  assert (free_lists_lock s = 0) as Hl by (by destruct Hok as (? & ? & _ & _ & _ & ? & _)).
  apply (wp_section _ _ (λ v s', ∃ U', buddy_spec U (FreePages _) v U' ∧ buddy_ok s' U' ∧ frame s0 s') Hl).
  unfold wp. rewrite <- free_pages_is, <- (frame_pfn _ _ _ Hf). apply wp_bind, (wp_buddy_free_pages _ _ _ _ _ Hok Hc).
  intros s' Hf' Hok'. apply wp_ret. exists (delete c U). split; [|split; [done|by etrans]].
  exists c, o. split_and!; [by rewrite (frame_pfn _ _ _ Hf)|done|done].
Qed.

#[global] Instance buddy_laws : object_laws buddy_object.
Proof.
  split.
  - done.
  - done.
  - by intros [].
  - intros s a [(? & ? & _ & _ & _ & Hl & _) _]. exact Hl.
  - intros [o|page]; [apply kept_get_pages|apply kept_free_pages].
  - intros s a [o|page] [Hok Hf] Ha Hu; [by apply section_get|apply section_free; [done|done|]]. cbn in Hu. set_solver.
  - intros a [o|page] v a'; cbn [ob_spec buddy_object buddy_spec ob_owned ob_uses ob_makes].
    + intros [(-> & -> & _)|(c & -> & Hne & _ & Hc & ->)] _; [set_solver|].
      rewrite (proj2 (Z.eqb_neq _ _)) by done. rewrite dom_insert_L. split_and!; [set_solver|set_solver|].
      intros x Hx%elem_of_singleton Hx'. subst. apply elem_of_difference in Hx' as [(d & Hd & Hd')%elem_of_map _].
      apply pfn_to_page_inj in Hd as <-. by apply not_elem_of_dom in Hc.
    + intros (c & o & -> & Hc & ->) _. rewrite dom_delete_L. split_and!; [|set_solver|set_solver].
      intros x [(d & -> & Hd)%elem_of_map Hx]%elem_of_difference. apply elem_of_map. exists d. split; [done|]. set_solver.
Qed.
End object.

(** ** Blocks of the abstract allocator *)
Section blocks.
Context (s0 : bstate) (Hboot : buddy_ok s0 ∅).
Abbreviation bo := (buddy_object s0).

Record blocks_ok (U : gmap Z Z) : Prop := {
  bk_inside : ∀ c o, U !! c = Some o → 0 ≤ c ∧ 0 ≤ o ≤ 10 ∧ c + 2 ^ o ≤ page_num s0;
  bk_apart : ∀ c o d k, U !! c = Some o → U !! d = Some k → c ≠ d → c + 2 ^ o ≤ d ∨ d + 2 ^ k ≤ c
}.

Lemma blocks_add U c o : blocks_ok U → 0 ≤ o ≤ 10 → block_avail s0 U c o → blocks_ok (<[c := o]> U).
Proof.
  intros [Hin Hap] Ho [Hl Hh _ Hd]. split.
  - intros d k. rewrite lookup_insert. case_decide; [intros [= <-]; subst; lia|apply Hin].
  - intros d k e j. rewrite !lookup_insert. repeat case_decide; intros; simplify_eq; [|eauto..].
    destruct (Hd e j); [done|lia|lia].
Qed.

Lemma blocks_delete U c : blocks_ok U → blocks_ok (delete c U).
Proof.
  intros [Hin Hap]. split; [intros d k [_ Hk]%lookup_delete_Some; by apply Hin|].
  intros d k e j [_ Hk]%lookup_delete_Some [_ Hj]%lookup_delete_Some. by apply Hap.
Qed.

Definition abstract_ok (a : asys bo) : Prop := blocks_ok (astate a) ∧ ∀ i c, acpus a i = ACalled c → ob_args bo c.

Lemma abstract_step a e a' : astep bo a e a' → abstract_ok a → abstract_ok a'.
Proof.
  intros Hst [Hb Ha]. destruct Hst as [i c a Hi Hargs Hu|i c v a U' Hi Hsp|i c v a Hi]; split; cbn [astate acpus].
  - done.
  - intros j d. unfold go. case_decide; [by intros [= <-]|apply Ha].
  - destruct c as [o|page]; [destruct Hsp as [(_ & -> & _)|(c & _ & _ & Hav & _ & ->)]|destruct Hsp as (c & o & _ & _ & ->)].
    + done.
    + apply blocks_add; [done|exact (Ha i _ Hi)|done].
    + by apply blocks_delete.
  - intros j d. unfold go. case_decide; [done|apply Ha].
  - done.
  - intros j d. unfold go. case_decide; [done|apply Ha].
Qed.

Lemma abstract_run t a : run (astep bo) (asys_init bo ∅ ∅) t a → abstract_ok a.
Proof.
  intros Hr. induction Hr as [|t y z _ IH Hst|t y e z _ IH Hst]; [|by eapply abstract_step..].
  split; [|done]. split; [intros c o [=]|intros c o d k [=]].
Qed.

Lemma smp_run t s : run (step bo) (sys_init bo s0 ∅) t s →
  ∃ a, run (astep bo) (asys_init bo ∅ ∅) t a ∧ sim bo s a ∧ abstract_ok a.
Proof.
  intros Hr. destruct (traces_atomic bo s0 (∅ : gmap Z Z) ∅ t s) as (a & Ha & Hs); [done|set_solver|done|].
  exists a. split_and!; [done|done|by eapply abstract_run].
Qed.
End blocks.

(** ** Properties *)

(** C5. The page allocator is linearizable.  Any number of CPUs call
    [buddy_get_pages] and [buddy_free_pages] (freeing pages that some client
    owns), and their instructions interleave in any order: the spin lock
    instruction by instruction, the code it protects one memory access at a
    time, exclusive monitors lost at any moment.  Every sequence of calls and
    returns that can be observed is one of the abstract allocator, in which
    each call takes effect at a single instant between its call and its
    return. *)
Theorem buddy_smp_linearizable s0 t s :
  buddy_ok s0 ∅ → run (step (buddy_object s0)) (sys_init (buddy_object s0) s0 ∅) t s →
  ∃ a, run (astep (buddy_object s0)) (asys_init (buddy_object s0) ∅ ∅) t a ∧ client s = aclient a ∧
       ∀ i, acpus a i = call_of (cpus s i).
Proof.
  intros Hok Hr. destruct (smp_run s0 Hok t s Hr) as (a & Ha & Hs & _). exists a.
  split_and!; [done|apply (sm_client _ _ _ Hs)|apply (sm_calls _ _ _ Hs)].
Qed.

(** CPUs 0 and 1 ask for pages at the same time, CPU 0 gets them. *)
Section demo.
Context (s0 : bstate) (Hok : buddy_ok s0 ∅).
Definition demo_get (o : Z) : ob_op (buddy_object s0) := GetPages o.
Definition demo_calls : list (event (buddy_object s0)) := [Call 0 (demo_get 2); Call 1 (demo_get 3)].
Definition demo_trace (v : Z) : list (event (buddy_object s0)) := demo_calls ++ [Return 0 (demo_get 2) v].

Lemma demo_called : ∃ s, run (step (buddy_object s0)) (sys_init (buddy_object s0) s0 ∅) demo_calls s ∧
  call_of (cpus s 0%nat) = ACalled (demo_get 2) ∧ call_of (cpus s 1%nat) = ACalled (demo_get 3).
Proof.
  destruct (run_call (buddy_object s0) (sys_init _ s0 ∅) [] (sys_init _ s0 ∅) 0 (demo_get 2)) as (s1 & Hr1 & Hc1);
    [apply run_nil|done|cbn; lia|apply empty_subseteq|].
  destruct (run_call (buddy_object s0) (sys_init _ s0 ∅) [Call 0 (demo_get 2)] s1 1 (demo_get 3)) as (s2 & Hr2 & Hc2);
    [exact Hr1|by rewrite Hc1|cbn; lia|apply empty_subseteq|].
  exists s2. split; [exact Hr2|]. by rewrite Hc2, Hc1.
Qed.

Lemma demo_returned : ∃ v s, run (step (buddy_object s0)) (sys_init (buddy_object s0) s0 ∅) (demo_trace v) s.
Proof.
  destruct demo_called as (s & Hr & H0 & _). destruct (smp_run s0 Hok _ _ Hr) as (a & _ & Hs & _).
  destruct (can_return (buddy_object s0) 0 (demo_get 2) _ a Hs H0) as (s' & v & Hq & Hb).
  exists v. eexists. eapply (run_event _ _ demo_calls); [by eapply quiet_run|by apply st_return].
Qed.
End demo.

Lemma demo_smp : ∃ s0 v s, buddy_ok s0 ∅ ∧ run (step (buddy_object s0)) (sys_init (buddy_object s0) s0 ∅) (demo_trace s0 v) s.
Proof.
  destruct demo_boot as (s0 & _ & Hok & _). destruct (demo_returned s0 Hok) as (v & s & Hr). eauto.
Qed.

Lemma buddy_smp_linearizable_witness : ∃ s0 v s a, buddy_ok s0 ∅ ∧
  run (astep (buddy_object s0)) (asys_init (buddy_object s0) ∅ ∅) (demo_trace s0 v) a ∧ client s = aclient a ∧
  ∀ i, acpus a i = call_of (cpus s i).
Proof.
  destruct demo_smp as (s0 & v & s & Hok & Hr). destruct (buddy_smp_linearizable s0 _ s Hok Hr) as (a & H).
  exists s0, v, s, a. split; [exact Hok|exact H].
Defined.

(** C6. Safety on several CPUs.  In every state the CPUs can reach there are
    allocated blocks [U], inside the region and pairwise disjoint, such that
    every page a client owns is the first page of one of them; whenever the
    lock word is 0 the memory represents exactly [U] (free lists, counters and
    page array are consistent, nothing is lost); and no CPU in a critical
    section is about to halt in [BUG_ON], [kerror] or a bad access. *)
Theorem buddy_smp_safe s0 t s :
  buddy_ok s0 ∅ → run (step (buddy_object s0)) (sys_init (buddy_object s0) s0 ∅) t s →
  ∃ U, blocks_ok s0 U ∧
    (∀ page, page ∈ client s → ∃ c o, page = pfn_to_page s0 c ∧ U !! c = Some o) ∧
    (free_lists_lock (mem s) = 0 → buddy_ok (mem s) U ∧ frame s0 (mem s)) ∧
    ∀ i c m, cpus s i = Inside c (Act m) → ∃ p m', m (mem s) = Ok (p, m').
Proof.
  intros Hok Hr. destruct (smp_run s0 Hok t s Hr) as (a & Ha & Hs & Hb & _). exists (astate a). split_and!.
  - exact Hb.
  - intros page Hp%(sm_owned _ _ _ Hs). apply elem_of_map in Hp as (c & -> & [o Ho]%elem_of_dom). eauto.
  - exact (sm_free _ _ _ Hs).
  - intros i c m. by apply (no_halt _ s a).
Qed.

Lemma buddy_smp_safe_witness : ∃ s0 v s, run (step (buddy_object s0)) (sys_init (buddy_object s0) s0 ∅) (demo_trace s0 v) s ∧
  ∃ U, blocks_ok s0 U ∧
    (∀ page, page ∈ client s → ∃ c o, page = pfn_to_page s0 c ∧ U !! c = Some o) ∧
    (free_lists_lock (mem s) = 0 → buddy_ok (mem s) U ∧ frame s0 (mem s)) ∧
    ∀ i c m, cpus s i = Inside c (Act m) → ∃ p m', m (mem s) = Ok (p, m').
Proof.
  destruct demo_smp as (s0 & v & s & Hok & Hr). exists s0, v, s. split; [exact Hr|]. exact (buddy_smp_safe s0 _ s Hok Hr).
Defined.

(** C22. Every call can return: from every reachable state in which CPU [i] is
    in a call, whoever holds the lock and wherever the others are, there are
    steps (the holder leaves its critical section, then CPU [i] takes the
    lock, runs and releases it) after which the call of CPU [i] is done. *)
Theorem buddy_smp_returns s0 t s i c :
  buddy_ok s0 ∅ → run (step (buddy_object s0)) (sys_init (buddy_object s0) s0 ∅) t s →
  call_of (cpus s i) = ACalled c → ∃ s' v, quiet (buddy_object s0) s s' ∧ cpus s' i = Back c v.
Proof. intros Hok Hr. destruct (smp_run s0 Hok t s Hr) as (a & _ & Hs & _). by apply (can_return _ _ _ _ a). Qed.

Lemma buddy_smp_returns_witness : ∃ s0 s s' v, call_of (cpus s 1%nat) = ACalled (demo_get s0 3) ∧
  quiet (buddy_object s0) s s' ∧ cpus s' 1%nat = Back (demo_get s0 3) v.
Proof.
  destruct demo_boot as (s0 & _ & Hok & _). destruct (demo_called s0) as (s & Hr & _ & H1).
  destruct (buddy_smp_returns s0 _ s 1 (demo_get s0 3) Hok Hr H1) as (s' & v & H).
  exists s0, s, s', v. split; [exact H1|exact H].
Defined.
