(* ===== verification/Boot.v ===== *)
(** * The boot stage: [arch/aarch64/boot/raspi3/init/mmu.c] and [init.c]

    [init_kernel_pt] fills six page-table pages that the linker places;
    [boot_addrs] are the physical addresses of the four that other tables
    point to.  A table is a map from indices to descriptors; an absent index is
    a zero descriptor (the tables are in [.bss]). *)

From S2P Require Import Prelude Macro Utils Mmio Uart.

Abbreviation table := (gmap Z Z).

Definition KERNEL_VADDR : Z := 0xffffff0000000000.
Definition TEXT_OFFSET : Z := 0x80000.
Definition PHYSMEM_START : Z := 0x0.
Definition PERIPHERAL_BASE : Z := 0x3F000000.
Definition SHARED_PERIPHERAL_END : Z := 0x40000000.
Definition PHYSMEM_END : Z := 0xFFFFFFFF.

Definition IS_VALID : Z := Z.shiftl 1 0.
Definition IS_TABLE : Z := Z.shiftl 1 1.
Definition UXN : Z := Z.shiftl 0x1 54.
Definition ACCESSED : Z := Z.shiftl 0x1 10.
Definition NG : Z := Z.shiftl 0x1 11.
Definition INNER_SHARABLE : Z := Z.shiftl 0x3 8.
Definition NORMAL_MEMORY : Z := Z.shiftl 0x4 2.
Definition DEVICE_MEMORY : Z := Z.shiftl 0x0 2.
Definition SIZE_2M : Z := 2 * 1024 * 1024.
Definition SIZE_1G : Z := 1024 * 1024 * 1024.

Definition GET_L0_INDEX (x : Z) : Z := Z.land (Z.shiftr x (12 + 9 + 9 + 9)) 0x1ff.
Definition GET_L1_INDEX (x : Z) : Z := Z.land (Z.shiftr x (12 + 9 + 9)) 0x1ff.
Definition GET_L2_INDEX (x : Z) : Z := Z.land (Z.shiftr x (12 + 9)) 0x1ff.
Definition GET_L3_INDEX (x : Z) : Z := Z.land (Z.shiftr x 12) 0x1ff.

Record boot_addrs : Type := mk_addrs { a_ttbr0_l1 : Z; a_ttbr0_l2 : Z; a_ttbr1_l1 : Z; a_ttbr1_l2 : Z }.
Record boot_tables : Type := mk_tables {
  boot_ttbr0_l0 : table; boot_ttbr0_l1 : table; boot_ttbr0_l2 : table;
  boot_ttbr1_l0 : table; boot_ttbr1_l1 : table; boot_ttbr1_l2 : table
}.
Definition bss_tables : boot_tables := mk_tables ∅ ∅ ∅ ∅ ∅ ∅.

(** [for (; vaddr < last; vaddr += step) t[index(vaddr)] = entry(vaddr);]: the
    table and the final [vaddr].  No loop here runs more than 512 times. *)
Fixpoint fill (fuel : nat) (last step : Z) (index entry : Z → Z) (t : table) (vaddr : Z) : table * Z :=
  match fuel with
  | O => (t, vaddr)
  | S fuel' =>
      if vaddr <? last then fill fuel' last step index entry (<[index vaddr := entry vaddr]> t) (u64 (vaddr + step))
      else (t, vaddr)
  end.

Definition lors (l : list Z) : Z := foldl Z.lor 0 l.

Definition init_kernel_pt (A : boot_addrs) (T : boot_tables) : boot_tables :=
  let vaddr := PHYSMEM_START in
  let hi (x : Z) := u64 (x + KERNEL_VADDR) in
  (* ttbr1 *)
  let t1_l0 := <[GET_L0_INDEX (hi vaddr) := lors [a_ttbr1_l1 A; IS_TABLE; IS_VALID; NG]]> (boot_ttbr1_l0 T) in
  let t1_l1 := <[GET_L1_INDEX (hi vaddr) := lors [a_ttbr1_l2 A; IS_TABLE; IS_VALID; NG]]> (boot_ttbr1_l1 T) in
  let '(t1_l2, vaddr) :=
    fill 512 PERIPHERAL_BASE SIZE_2M (λ v, GET_L2_INDEX (hi v))
      (λ v, lors [v; UXN; ACCESSED; NG; INNER_SHARABLE; NORMAL_MEMORY; IS_VALID]) (boot_ttbr1_l2 T) vaddr in
  let '(t1_l2, vaddr) :=
    fill 512 SHARED_PERIPHERAL_END SIZE_2M (λ v, GET_L2_INDEX (hi v))
      (λ v, lors [v; UXN; ACCESSED; NG; INNER_SHARABLE; DEVICE_MEMORY; IS_VALID]) t1_l2 vaddr in
  let '(t1_l1, vaddr) :=
    fill 512 PHYSMEM_END SIZE_1G (λ v, GET_L1_INDEX (hi v))
      (λ v, lors [v; UXN; ACCESSED; NG; DEVICE_MEMORY; IS_VALID]) t1_l1 vaddr in
  (* ttbr0 *)
  let vaddr := PHYSMEM_START in
  let t0_l0 := <[GET_L0_INDEX vaddr := lors [a_ttbr0_l1 A; IS_TABLE; IS_VALID; NG]]> (boot_ttbr0_l0 T) in
  let t0_l1 := <[GET_L1_INDEX vaddr := lors [a_ttbr0_l2 A; IS_TABLE; IS_VALID; NG]]> (boot_ttbr0_l1 T) in
  let '(t0_l2, vaddr) :=
    fill 512 SIZE_2M SIZE_2M GET_L2_INDEX
      (λ v, lors [v; UXN; ACCESSED; NG; INNER_SHARABLE; NORMAL_MEMORY; IS_VALID]) (boot_ttbr0_l2 T) vaddr in
  let '(t0_l2, vaddr) :=
    fill 512 SHARED_PERIPHERAL_END SIZE_2M GET_L2_INDEX
      (λ v, lors [v; UXN; ACCESSED; NG; INNER_SHARABLE; DEVICE_MEMORY; IS_VALID]) t0_l2 vaddr in
  mk_tables t0_l0 t0_l1 t0_l2 t1_l0 t1_l1 t1_l2.

(** [clear_bss]: [for (i = bss_start; i < bss_end; ++i) *(char * )i = 0;] *)
Definition clear_bss (bss_start bss_end : Z) : M bytes unit :=
  for_up (Z.to_nat (bss_end - bss_start)) bss_start (λ i, st8 i 0).

(** ** The translation that the hardware makes of the tables

    A walk with 4 KB granules: [ttbr] is a level-0 table whose entries must lead
    to the level-1 page at [a1] and from there to the level-2 page at [a2], or
    to a block of 1 GB or 2 MB.  The result is the physical address and the
    memory-attribute index; [None] is a translation fault. *)
Definition descr (t : table) (i : Z) : Z := default 0 (t !! i).
Definition d_valid (e : Z) : bool := Z.testbit e 0.
Definition d_table (e : Z) : bool := Z.testbit e 1.
Definition d_accessed (e : Z) : bool := Z.testbit e 10.
Definition d_attr (e : Z) : Z := Z.land (Z.shiftr e 2) 7.
(** The output address, bits 47 to [k]. *)
Definition d_addr (k e : Z) : Z := Z.shiftl (Z.land (Z.shiftr e k) (Z.ones (48 - k))) k.

Definition hw_translate (l0 : table) (a1 : Z) (l1 : table) (a2 : Z) (l2 : table) (va : Z) : option (Z * Z) :=
  let e0 := descr l0 (GET_L0_INDEX va) in
  if d_valid e0 && d_table e0 && (d_addr 12 e0 =? a1) then
    let e1 := descr l1 (GET_L1_INDEX va) in
    if d_valid e1 && d_table e1 && (d_addr 12 e1 =? a2) then
      let e2 := descr l2 (GET_L2_INDEX va) in
      if d_valid e2 && negb (d_table e2) && d_accessed e2 then Some (d_addr 21 e2 + va mod SIZE_2M, d_attr e2) else None
    else if d_valid e1 && negb (d_table e1) && d_accessed e1 then Some (d_addr 30 e1 + va mod SIZE_1G, d_attr e1)
    else None
  else None.

(** A table page: 4 KB aligned, below [2^48]. *)
Definition table_addr (a : Z) : Prop := a mod 2 ^ 12 = 0 ∧ 0 ≤ a < 2 ^ 48.

(** ** Facts *)

(** A table descriptor points where it should. *)
Lemma table_descr a : table_addr a → let e := lors [a; IS_TABLE; IS_VALID; NG] in d_valid e = true ∧ d_table e = true ∧ d_addr 12 e = a.
Proof.
  intros [Hal Hr]. cbv zeta. set (e := lors _). assert (e = a + (2 ^ 11 + 3)) as He.
  { subst e. unfold lors. cbn [foldl]. rewrite <- !Z.lor_assoc. change (Z.lor IS_TABLE (Z.lor IS_VALID NG)) with (2 ^ 11 + 3). rewrite Z.lor_0_l.
    apply Z.mod_divide in Hal as [q ->]; [|lia]. symmetry. apply Z.add_nocarry_lor. apply Z.bits_inj'. intros i Hi.
    rewrite Z.land_spec, Z.testbit_0_l. destruct (Z_lt_dec i 12).
    - by rewrite Z.mul_pow2_bits_low by lia.
    - rewrite <- (Z.mod_small (2 ^ 11 + 3) (2 ^ 12)) by lia. by rewrite (Z.mod_pow2_bits_high _ 12), andb_false_r by lia. }
  apply Z.mod_divide in Hal as [q Hq]; [|lia]. unfold d_valid, d_table, d_addr. rewrite He, Hq. split_and!.
  - rewrite Z.bit0_odd, Z.odd_add. replace (q * 2 ^ 12) with (2 * (q * 2 ^ 11)) by lia. by rewrite Z.odd_mul.
  - rewrite (Z.testbit_odd _ 1), Z.shiftr_div_pow2 by lia. replace (q * 2 ^ 12 + (2 ^ 11 + 3)) with (2 ^ 11 + 3 + (q * 2 ^ 11) * 2 ^ 1) by lia.
    rewrite Z.div_add, Z.odd_add by lia. replace (q * 2 ^ 11) with (2 * (q * 2 ^ 10)) by lia. by rewrite Z.odd_mul.
  - rewrite Z.shiftr_div_pow2 by lia. replace (q * 2 ^ 12 + (2 ^ 11 + 3)) with (2 ^ 11 + 3 + q * 2 ^ 12) by lia. rewrite Z.div_add by lia.
    change ((2 ^ 11 + 3) / 2 ^ 12 + q) with q. rewrite Z.land_ones, Z.mod_small, Z.shiftl_mul_pow2 by lia. done.
Qed.

Lemma index_low x k : 0 ≤ k → Z.land (Z.shiftr x k) 0x1ff = (x / 2 ^ k) mod 512.
Proof. intros Hk. change 0x1ff with (Z.ones 9). rewrite Z.land_ones, Z.shiftr_div_pow2 by lia. done. Qed.

(** The indices of [KERNEL_VADDR + a]. *)
Lemma hi_div a k : 0 ≤ a < 2 ^ 39 → 0 ≤ k ≤ 39 → u64 (a + KERNEL_VADDR) / 2 ^ k = a / 2 ^ k + (2 ^ 24 - 1) * 2 ^ (40 - k).
Proof.
  intros Ha Hk. change KERNEL_VADDR with ((2 ^ 24 - 1) * 2 ^ 40). rewrite u64_small by lia.
  rewrite (pow2_split k 40), Z.mul_assoc, Z.div_add by (try (pose proof (pow2_gt0 k)); lia). done.
Qed.

(** The finished level-2 tables: every entry is a valid 2 MB block at its own
    address, normal memory or device memory. *)
Definition l2_good (t : table) (normal_end : Z) : bool :=
  forallb (λ i, let e := descr t i in
    d_valid e && negb (d_table e) && d_accessed e && (d_addr 21 e =? i * SIZE_2M) &&
    (d_attr e =? if i * SIZE_2M <? normal_end then 4 else 0)) (seqZ 0 512).

Lemma l2_entry t normal_end i : l2_good t normal_end = true → 0 ≤ i < 512 →
  let e := descr t i in d_valid e = true ∧ d_table e = false ∧ d_accessed e = true ∧ d_addr 21 e = i * SIZE_2M ∧
    d_attr e = if i * SIZE_2M <? normal_end then 4 else 0.
Proof.
  intros Hg Hi. unfold l2_good in Hg. rewrite forallb_forall in Hg. specialize (Hg i). cbv zeta in Hg.
  rewrite !andb_true_iff, negb_true_iff, !Z.eqb_eq in Hg. cbv zeta. apply and_assoc. assert (In i (seqZ 0 512)) as Hin by (apply list_elem_of_In, elem_of_seqZ; lia).
  destruct (Hg Hin) as ((((? & ?) & ?) & ?) & ?). tauto.
Qed.

Lemma hi_l2_good A : l2_good (boot_ttbr1_l2 (init_kernel_pt A bss_tables)) PERIPHERAL_BASE = true.
Proof. vm_compute. reflexivity. Qed.
Lemma lo_l2_good A : l2_good (boot_ttbr0_l2 (init_kernel_pt A bss_tables)) SIZE_2M = true.
Proof. vm_compute. reflexivity. Qed.

Definition block_1g (i : Z) : Z := lors [i * SIZE_1G; UXN; ACCESSED; NG; DEVICE_MEMORY; IS_VALID].

Section tables.
Context (A : boot_addrs).
Notation T := (init_kernel_pt A bss_tables).

Lemma hi_l0 : boot_ttbr1_l0 T = {[510 := lors [a_ttbr1_l1 A; IS_TABLE; IS_VALID; NG]]}.
Proof. reflexivity. Qed.
Lemma hi_l1 : boot_ttbr1_l1 T =
  <[3 := block_1g 3]> (<[2 := block_1g 2]> (<[1 := block_1g 1]> {[0 := lors [a_ttbr1_l2 A; IS_TABLE; IS_VALID; NG]]})).
Proof. reflexivity. Qed.
Lemma lo_l0 : boot_ttbr0_l0 T = {[0 := lors [a_ttbr0_l1 A; IS_TABLE; IS_VALID; NG]]}.
Proof. reflexivity. Qed.
Lemma lo_l1 : boot_ttbr0_l1 T = {[0 := lors [a_ttbr0_l2 A; IS_TABLE; IS_VALID; NG]]}.
Proof. reflexivity. Qed.
End tables.

(** ** Walks *)
Section walk.
Context (A : boot_addrs) (H01 : table_addr (a_ttbr0_l1 A)) (H02 : table_addr (a_ttbr0_l2 A)) (H11 : table_addr (a_ttbr1_l1 A)) (H12 : table_addr (a_ttbr1_l2 A)).
Notation T := (init_kernel_pt A bss_tables).
Definition high (va : Z) : option (Z * Z) := hw_translate (boot_ttbr1_l0 T) (a_ttbr1_l1 A) (boot_ttbr1_l1 T) (a_ttbr1_l2 A) (boot_ttbr1_l2 T) va.
Definition low (va : Z) : option (Z * Z) := hw_translate (boot_ttbr0_l0 T) (a_ttbr0_l1 A) (boot_ttbr0_l1 T) (a_ttbr0_l2 A) (boot_ttbr0_l2 T) va.

Lemma descr_table a l0 i : l0 = {[i := lors [a; IS_TABLE; IS_VALID; NG]]} → table_addr a →
  d_valid (descr l0 i) && d_table (descr l0 i) && (d_addr 12 (descr l0 i) =? a) = true.
Proof.
  intros -> Ha. unfold descr. rewrite lookup_singleton_eq. cbn [default]. destruct (table_descr a Ha) as (H1 & H2 & H3).
  cbv zeta in *. cbn [from_option id]. by rewrite H1, H2, H3, Z.eqb_refl.
Qed.

(** A walk that ends in a level-2 block. *)
Lemma walk_l2 l0 l1 l2 a1 a2 va i0 i1 i2 normal_end :
  GET_L0_INDEX va = i0 → GET_L1_INDEX va = i1 → GET_L2_INDEX va = i2 → 0 ≤ i2 < 512 →
  d_valid (descr l0 i0) && d_table (descr l0 i0) && (d_addr 12 (descr l0 i0) =? a1) = true →
  d_valid (descr l1 i1) && d_table (descr l1 i1) && (d_addr 12 (descr l1 i1) =? a2) = true →
  l2_good l2 normal_end = true →
  hw_translate l0 a1 l1 a2 l2 va = Some (i2 * SIZE_2M + va mod SIZE_2M, if i2 * SIZE_2M <? normal_end then 4 else 0).
Proof.
  intros E0 E1 E2 Hi2 H0 H1 Hg. unfold hw_translate. rewrite E0, E1, E2, H0, H1.
  destruct (l2_entry _ _ _ Hg Hi2) as (Hv & Ht & Ha & Ho & Hat). by rewrite Hv, Ht, Ha, Ho, Hat.
Qed.

Lemma low_index a : 0 ≤ a < 2 ^ 48 → GET_L0_INDEX a = a / 2 ^ 39 ∧ GET_L1_INDEX a = (a / 2 ^ 30) mod 512 ∧ GET_L2_INDEX a = (a / 2 ^ 21) mod 512.
Proof.
  intros Ha. unfold GET_L0_INDEX, GET_L1_INDEX, GET_L2_INDEX. rewrite !index_low by lia. split_and!; [|done|done].
  apply Z.mod_small. split; [apply Z.div_pos; lia|apply Z.div_lt_upper_bound; lia].
Qed.

Lemma high_index a : 0 ≤ a < 2 ^ 39 → let va := u64 (a + KERNEL_VADDR) in
  GET_L0_INDEX va = 510 ∧ GET_L1_INDEX va = (a / 2 ^ 30) mod 512 ∧ GET_L2_INDEX va = (a / 2 ^ 21) mod 512 ∧
  va mod SIZE_2M = a mod SIZE_2M ∧ va mod SIZE_1G = a mod SIZE_1G.
Proof.
  intros Ha. cbv zeta. unfold GET_L0_INDEX, GET_L1_INDEX, GET_L2_INDEX. rewrite !index_low, !hi_div by lia. split_and!.
  - rewrite Z.div_small by lia. done.
  - replace ((2 ^ 24 - 1) * 2 ^ (40 - (12 + 9 + 9))) with ((2 ^ 24 - 1) * 2 * 512) by lia. by rewrite Z.mod_add by lia.
  - replace ((2 ^ 24 - 1) * 2 ^ (40 - (12 + 9))) with ((2 ^ 24 - 1) * 2 ^ 10 * 512) by lia. by rewrite Z.mod_add by lia.
  - change KERNEL_VADDR with ((2 ^ 24 - 1) * 2 ^ 40). rewrite u64_small by lia. change SIZE_2M with (2 ^ 21).
    replace (a + (2 ^ 24 - 1) * 2 ^ 40) with (a + (2 ^ 24 - 1) * 2 ^ 19 * 2 ^ 21) by lia. by rewrite Z.mod_add by lia.
  - change KERNEL_VADDR with ((2 ^ 24 - 1) * 2 ^ 40). rewrite u64_small by lia. change SIZE_1G with (2 ^ 30).
    replace (a + (2 ^ 24 - 1) * 2 ^ 40) with (a + (2 ^ 24 - 1) * 2 ^ 10 * 2 ^ 30) by lia. by rewrite Z.mod_add by lia.
Qed.

(** The address of a block is recovered, and the boundary of normal memory is
    a multiple of 2 MB. *)
Lemma block_2m a n : 0 ≤ a < 2 ^ 30 → n mod SIZE_2M = 0 →
  (a / 2 ^ 21) mod 512 * SIZE_2M + a mod SIZE_2M = a ∧ ((a / 2 ^ 21) mod 512 * SIZE_2M <? n) = (a <? n).
Proof.
  intros Ha Hn. change SIZE_2M with (2 ^ 21) in *. rewrite (Z.mod_small (a / 2 ^ 21)) by (split; [apply Z.div_pos; lia|apply Z.div_lt_upper_bound; lia]).
  pose proof (Z.div_mod a (2 ^ 21) ltac:(lia)). pose proof (Z.mod_pos_bound a (2 ^ 21) ltac:(lia)). apply Z.mod_divide in Hn as [q ->]; [|lia].
  split; [lia|]. destruct (Z.ltb_spec (a / 2 ^ 21 * 2 ^ 21) (q * 2 ^ 21)), (Z.ltb_spec a (q * 2 ^ 21)); lia.
Qed.

Lemma low_correct a : 0 ≤ a < 2 ^ 30 → low a = Some (a, if a <? SIZE_2M then 4 else 0).
Proof.
  intros Ha. destruct (low_index a ltac:(lia)) as (E0 & E1 & E2). rewrite Z.div_small in E0, E1 by lia.
  unfold low. rewrite (walk_l2 _ _ _ _ _ a 0 0 _ SIZE_2M E0 E1 E2).
  - destruct (block_2m a SIZE_2M Ha eq_refl) as [-> ->]. done.
  - apply Z.mod_pos_bound. lia.
  - apply descr_table; [apply lo_l0|done].
  - apply descr_table; [apply lo_l1|done].
  - apply lo_l2_good.
Qed.

Lemma high_l1_table : d_valid (descr (boot_ttbr1_l1 T) 0) && d_table (descr (boot_ttbr1_l1 T) 0) && (d_addr 12 (descr (boot_ttbr1_l1 T) 0) =? a_ttbr1_l2 A) = true.
Proof.
  rewrite hi_l1. destruct (table_descr _ H12) as (H1 & H2 & H3). cbv zeta in *. unfold descr.
  rewrite !lookup_insert_ne, lookup_singleton_eq by done. cbn [from_option id]. by rewrite H1, H2, H3, Z.eqb_refl.
Qed.

Lemma high_correct a : 0 ≤ a < 2 ^ 32 → high (u64 (a + KERNEL_VADDR)) = Some (a, if a <? PERIPHERAL_BASE then 4 else 0).
Proof.
  intros Ha. destruct (high_index a ltac:(lia)) as (E0 & E1 & E2 & Em2 & Em1). unfold high.
  destruct (Z_lt_dec a (2 ^ 30)) as [Hlt|Hge].
  - rewrite (Z.div_small a (2 ^ 30)) in E1 by lia. rewrite (walk_l2 _ _ _ _ _ _ 510 0 _ PERIPHERAL_BASE E0 E1 E2).
    + rewrite Em2. destruct (block_2m a PERIPHERAL_BASE ltac:(lia) eq_refl) as [-> ->]. done.
    + apply Z.mod_pos_bound. lia.
    + apply descr_table; [apply hi_l0|done].
    + apply high_l1_table.
    + apply hi_l2_good.
  - set (i := a / 2 ^ 30) in *. pose proof (Z.div_mod a (2 ^ 30) ltac:(lia)) as Hdm. pose proof (Z.mod_pos_bound a (2 ^ 30) ltac:(lia)) as Hm. fold i in Hdm.
    assert (1 ≤ i ≤ 3) as Hi by lia. rewrite Z.mod_small in E1 by lia. unfold hw_translate. rewrite E0, E1, Em1.
    rewrite (descr_table (a_ttbr1_l1 A) _ 510 (hi_l0 A) H11). assert (a <? PERIPHERAL_BASE = false) as -> by (apply Z.ltb_ge; unfold PERIPHERAL_BASE; lia).
    assert (descr (boot_ttbr1_l1 T) i = block_1g i ∧ d_table (block_1g i) = false ∧ d_valid (block_1g i) = true ∧ d_accessed (block_1g i) = true ∧
      d_addr 30 (block_1g i) = i * SIZE_1G ∧ d_attr (block_1g i) = 0) as (-> & Ht & Hv & Hac & Had & Hat).
    { rewrite hi_l1. assert (i = 1 ∨ i = 2 ∨ i = 3) as [-> | [-> | -> ]] by lia; split_and!; reflexivity. }
    rewrite Ht, Hv, Hac, Had, Hat. cbn [andb negb]. do 2 f_equal. change SIZE_1G with (2 ^ 30). lia.
Qed.

Lemma descr_singleton i j v : i ≠ j → descr {[i := v]} j = 0.
Proof. intros H. unfold descr. by rewrite lookup_singleton_ne. Qed.

Lemma high_unmapped a : 2 ^ 32 ≤ a < 2 ^ 39 → high (u64 (a + KERNEL_VADDR)) = None.
Proof.
  intros Ha. destruct (high_index a ltac:(lia)) as (E0 & E1 & _). unfold high, hw_translate. rewrite E0, E1.
  rewrite (descr_table (a_ttbr1_l1 A) _ 510 (hi_l0 A) H11). assert (4 ≤ (a / 2 ^ 30) mod 512) as Hi.
  { rewrite Z.mod_small; [apply Z.div_le_lower_bound; lia|]. split; [apply Z.div_pos; lia|apply Z.div_lt_upper_bound; lia]. }
  assert (descr (boot_ttbr1_l1 T) ((a / 2 ^ 30) mod 512) = 0) as ->.
  { rewrite hi_l1. unfold descr. rewrite !lookup_insert_ne, lookup_singleton_ne by lia. done. }
  done.
Qed.

Lemma low_unmapped a : 2 ^ 30 ≤ a < 2 ^ 48 → low a = None.
Proof.
  intros Ha. destruct (low_index a ltac:(lia)) as (E0 & E1 & _). unfold low, hw_translate. rewrite E0, E1, lo_l0, lo_l1.
  destruct (decide (a / 2 ^ 39 = 0)) as [Ez|Hne]; [|by rewrite (descr_singleton 0 (a / 2 ^ 39)) by done].
  rewrite Ez, (descr_table (a_ttbr0_l1 A) _ 0 eq_refl H01). assert (a < 2 ^ 39) as Hlt by (pose proof (Z.div_mod a (2 ^ 39)); pose proof (Z.mod_pos_bound a (2 ^ 39)); lia).
  rewrite descr_singleton; [done|]. rewrite Z.mod_small; [|split; [apply Z.div_pos; lia|apply Z.div_lt_upper_bound; lia]].
  assert (1 ≤ a / 2 ^ 30) by (apply Z.div_le_lower_bound; lia). lia.
Qed.
End walk.

(** ** Properties *)

(** C28. The page tables that [init_kernel_pt] builds, walked by the hardware,
    translate exactly as intended, wherever the linker placed them: the 4 GB of
    physical addresses appear at [KERNEL_VADDR], the RAM below [0x3F000000] as
    normal memory and everything above as device memory, with a fault beyond
    them; and the low gigabyte is mapped to itself while the MMU is switched
    on, the first 2 MB as normal memory, again with a fault beyond it. *)
Theorem init_kernel_pt_maps A a :
  table_addr (a_ttbr0_l1 A) → table_addr (a_ttbr0_l2 A) → table_addr (a_ttbr1_l1 A) → table_addr (a_ttbr1_l2 A) →
  (0 ≤ a < 2 ^ 32 → high A (u64 (a + KERNEL_VADDR)) = Some (a, if a <? PERIPHERAL_BASE then 4 else 0)) ∧
  (2 ^ 32 ≤ a < 2 ^ 39 → high A (u64 (a + KERNEL_VADDR)) = None) ∧
  (0 ≤ a < 2 ^ 30 → low A a = Some (a, if a <? SIZE_2M then 4 else 0)) ∧
  (2 ^ 30 ≤ a < 2 ^ 48 → low A a = None).
Proof.
  intros H1 H2 H3 H4. split_and!; [by apply high_correct|by apply high_unmapped|by apply low_correct|by apply low_unmapped].
Qed.

Definition demo_addrs : boot_addrs := mk_addrs 0x90000 0x91000 0x93000 0x94000.

Lemma init_kernel_pt_maps_witness :
  (0 ≤ 0x3F201000 < 2 ^ 32 → high demo_addrs (u64 (0x3F201000 + KERNEL_VADDR)) = Some (0x3F201000, if 0x3F201000 <? PERIPHERAL_BASE then 4 else 0)) ∧
  (2 ^ 32 ≤ 0x3F201000 < 2 ^ 39 → high demo_addrs (u64 (0x3F201000 + KERNEL_VADDR)) = None) ∧
  (0 ≤ 0x3F201000 < 2 ^ 30 → low demo_addrs 0x3F201000 = Some (0x3F201000, if 0x3F201000 <? SIZE_2M then 4 else 0)) ∧
  (2 ^ 30 ≤ 0x3F201000 < 2 ^ 48 → low demo_addrs 0x3F201000 = None).
Proof.
  apply (init_kernel_pt_maps demo_addrs 0x3F201000); (split; [reflexivity|cbn [demo_addrs a_ttbr0_l1 a_ttbr0_l2 a_ttbr1_l1 a_ttbr1_l2]; lia]).
Defined.
