(* ===== verification/BootInit.v ===== *)
(** * The boot stage from its entry to the kernel: [init] of [arch/aarch64/boot/raspi3/init/init.c]

    [init] and [secondary_init] call the routines of [Boot] and [Uart] in turn.
    What leaves C is an event: [sev], [el1_mmu_activate] and the jump into the
    kernel, from which neither returns.  Each event is recorded with what the
    rest of the machine finds at that moment: memory, the release addresses,
    the page tables and what the serial port was sent. *)

From stdpp Require Import strings.
From S2P Require Import Prelude Macro Utils Mmio Uart UartTheorems Printk Kprint Boot.
Import EarlyUart.

Inductive boot_event : Type :=
| Sev
| El1_mmu_activate
| Start_kernel (boot_flag : Z)
| Secondary_cpu_boot (cpuid : Z).

(** What an event finds *)
Record boot_view : Type := mk_view { v_mem : bytes; v_writes : list (Z * Z); v_release : gmap Z Z; v_tables : boot_tables }.

(** Memory by bytes, the serial port, the release addresses of the other cores,
    the page tables and the events so far *)
Record boot_state : Type := mk_boot {
  b_mem : bytes; b_io : mmio; b_release : gmap Z Z; b_tables : boot_tables; b_events : list (boot_event * boot_view)
}.
Definition set_b_mem m s := mk_boot m (b_io s) (b_release s) (b_tables s) (b_events s).
Definition set_b_io d s := mk_boot (b_mem s) d (b_release s) (b_tables s) (b_events s).
Definition set_b_release r s := mk_boot (b_mem s) (b_io s) r (b_tables s) (b_events s).
Definition set_b_tables T s := mk_boot (b_mem s) (b_io s) (b_release s) T (b_events s).
Definition view (s : boot_state) : boot_view := mk_view (b_mem s) (writes (b_io s)) (b_release s) (b_tables s).
Definition emit (e : boot_event) : M boot_state unit :=
  modify (λ s, mk_boot (b_mem s) (b_io s) (b_release s) (b_tables s) (b_events s ++ [(e, view s)])).

(** [*addr = v] for a release address *)
Definition st_release (addr v : Z) : M boot_state unit := modify (λ s, set_b_release (<[addr := v]> (b_release s)) s).

Definition wakeup_other_cores : M boot_state unit :=
  st_release 0xe0 TEXT_OFFSET ;;
  st_release 0xe8 TEXT_OFFSET ;;
  st_release 0xf0 TEXT_OFFSET ;;
  emit Sev.

Definition boot_print (msg : string) : M boot_state unit :=
  zoom b_io set_b_io (uart_send_string (chars msg ++ [c_cr; c_nl])).

(** [A]: where the tables are; [bss_start], [bss_end]: the kernel's [.bss]; [flag]: [secondary_boot_flag] *)
Definition init (A : boot_addrs) (bss_start bss_end flag : Z) : M boot_state unit :=
  zoom b_mem set_b_mem (clear_bss bss_start bss_end) ;;
  zoom b_io set_b_io early_uart_init ;;
  wakeup_other_cores ;;
  boot_print "[BOOT] Wake up other cores" ;;
  modify (λ s, set_b_tables (init_kernel_pt A (b_tables s)) s) ;;
  boot_print "[BOOT] Install kernel page table" ;;
  emit El1_mmu_activate ;;
  boot_print "[BOOT] Enable el1 MMU" ;;
  boot_print "[BOOT] Jump to kernel main" ;;
  emit (Start_kernel flag).

Definition secondary_init (cpuid : Z) : M boot_state unit :=
  emit El1_mmu_activate ;;
  emit (Secondary_cpu_boot cpuid).

(** ** Facts *)
Definition BP : Z := BOOT_PHYSADDR_OFFSET.
Definition serial_ready (d : mmio) : Prop := answers (RASPI3_PL011_FR BP) PL011.tx_full d.
Definition serial (l : list Z) : list (Z * Z) := pair (RASPI3_PL011_DR BP) <$> l.
Definition line (msg : string) : list Z := chars msg ++ [c_cr; c_nl].

(** The stores of [early_uart_init]; [ra] is what the pin function register held. *)
Definition early_setup (ra : Z) : list (Z * Z) :=
  [(GPFSEL1 BP, gpio_function 4 ra); (GPPUD BP, 0); (GPPUDCLK0 BP, 0xC000); (GPPUDCLK0 BP, 0);
   (RASPI3_PL011_CR BP, 0); (RASPI3_PL011_IBRD BP, 26); (RASPI3_PL011_FBRD BP, 3); (RASPI3_PL011_LCRH BP, 0x70);
   (RASPI3_PL011_IMSC BP, 0); (RASPI3_PL011_CR BP, 0x301)].

Lemma wp_early_uart_init d (Q : unit → mmio → Prop) :
  (∀ d', same_dev d d' → writes d' = writes d ++ early_setup (u32 (dev d (GPFSEL1 BP) (clock d))) → Q tt d') → wp early_uart_init d Q.
Proof.
  intros HQ. unfold early_uart_init. apply wp_bind, wp_gpio_init. intros d1 H1 E1. do 5 (apply wp_bind, wp_put32; intros ? ? ?).
  apply wp_put32. intros df Hf Ef. apply HQ; [by repeat (etrans; [eassumption|])|].
  rewrite Ef. repeat match goal with E : writes ?x = _ |- context [writes ?x] => rewrite E end. by rewrite <- !app_assoc.
Qed.

Lemma wp_boot_print msg s (Q : unit → boot_state → Prop) : serial_ready (b_io s) →
  (∀ d', same_dev (b_io s) d' → writes d' = writes (b_io s) ++ serial (line msg) → Q tt (set_b_io d' s)) → wp (boot_print msg) s Q.
Proof. intros Hr HQ. apply wp_zoom, wp_send_string; [done|]. intros d' Hs E. by apply HQ. Qed.

Lemma wp_clear_bss a b m (Q : unit → bytes → Prop) : (∀ x, a ≤ x < b → is_Some (m !! x)) →
  (∀ m', (∀ x, a ≤ x < b → m' !! x = Some 0) → (∀ x, ¬ (a ≤ x < b) → m' !! x = m !! x) → Q tt m') → wp (clear_bss a b) m Q.
Proof.
  intros Hm HQ. unfold clear_bss. apply (wp_for_up (λ i m', (∀ x, a ≤ x < i → m' !! x = Some 0) ∧ ∀ x, ¬ (a ≤ x < i) → m' !! x = m !! x)).
  - split; [lia|done].
  - intros i m' Hi [H1 H2]. apply wp_st8; [rewrite H2 by lia; apply Hm; lia|]. split; intros x Hx; rewrite lookup_insert; case_decide; [done|apply H1; lia|lia|apply H2; lia].
  - intros m' [H1 H2]. apply HQ; intros x Hx; [apply H1; lia|apply H2; lia].
Qed.

Definition boot_log1 : list Z := line "[BOOT] Wake up other cores" ++ line "[BOOT] Install kernel page table".
Definition boot_log2 : list Z := line "[BOOT] Enable el1 MMU" ++ line "[BOOT] Jump to kernel main".

(** The memory of a state in which the bytes from [a] to [b] are zeroed and no others changed *)
Definition zeroed (a b : Z) (m m' : bytes) : Prop := ∀ x, m' !! x = if decide (a ≤ x < b) then Some 0 else m !! x.
(** The three release addresses hold the entry of the other cores. *)
Definition released (r : gmap Z Z) : gmap Z Z := <[0xf0 := 0x80000]> (<[0xe8 := 0x80000]> (<[0xe0 := 0x80000]> r)).

#[local] Opaque init_kernel_pt.

Lemma wp_init A bss_start bss_end flag s :
  (∀ x, bss_start ≤ x < bss_end → is_Some (b_mem s !! x)) → serial_ready (b_io s) →
  wp (init A bss_start bss_end flag) s (λ _ s', ∃ m,
    let w0 := writes (b_io s) ++ early_setup (u32 (dev (b_io s) (GPFSEL1 BP) (clock (b_io s)))) in
    let r := released (b_release s) in let T := init_kernel_pt A (b_tables s) in
    let v3 := mk_view m (w0 ++ serial (boot_log1 ++ boot_log2)) r T in
    zeroed bss_start bss_end (b_mem s) m ∧ view s' = v3 ∧
    b_events s' = b_events s ++ [(Sev, mk_view m w0 r (b_tables s)); (El1_mmu_activate, mk_view m (w0 ++ serial boot_log1) r T); (Start_kernel flag, v3)]).
Proof.
  intros Hm Hr. unfold init. apply wp_bind, wp_zoom, wp_clear_bss; [done|]. intros m' Hin Hout.
  apply wp_bind, wp_zoom, wp_early_uart_init. intros d1 Hs1 E1. cbn [b_io set_b_mem] in Hs1, E1.
  apply wp_bind. do 3 (apply wp_bind, wp_modify). apply wp_modify.
  apply wp_bind, wp_boot_print; [by eapply answers_same|]. intros d2 Hs2 E2. cbn in Hs2, E2. apply wp_bind, wp_modify.
  apply wp_bind, wp_boot_print; [by do 2 (eapply answers_same; [eassumption|])|]. intros d3 Hs3 E3. cbn in Hs3, E3. apply wp_bind, wp_modify.
  apply wp_bind, wp_boot_print; [by do 3 (eapply answers_same; [eassumption|])|]. intros d4 Hs4 E4. cbn in Hs4, E4.
  apply wp_bind, wp_boot_print; [by do 4 (eapply answers_same; [eassumption|])|]. intros d5 Hs5 E5. cbn in Hs5, E5. apply wp_modify.
  exists m'. cbv zeta. unfold view. cbn [b_mem b_io b_release b_tables b_events set_b_io set_b_tables set_b_release set_b_mem].
  rewrite E5, E4, E3, E2, E1. unfold boot_log1, boot_log2, serial. rewrite !fmap_app, <- !app_assoc. split_and!; [|reflexivity..].
  intros x. case_decide; [by apply Hin|by apply Hout].
Qed.

(** ** The property *)

(** C16. The boot stage reaches the kernel, and in the right order.  On a serial
    port that accepts data, [init] makes exactly three events, and each finds
    the machine ready for it: when the other cores are woken, the kernel's
    [.bss] is zeroed (and nothing else of memory is changed), the port is set up
    and the three release addresses already hold the entry address 0x80000;
    when the MMU is switched on, the first two messages are sent and the page
    tables are finished, which the hardware walks as [Boot] describes (the 4 GB of the high half
    are mapped and the code that is running stays mapped at its own address);
    when the kernel is entered, all four messages are sent, and nothing
    happens after it. *)
Theorem boot_reaches_kernel A bss_start bss_end flag s :
  (∀ x, bss_start ≤ x < bss_end → is_Some (b_mem s !! x)) → serial_ready (b_io s) → b_tables s = bss_tables →
  table_addr (a_ttbr0_l1 A) → table_addr (a_ttbr0_l2 A) → table_addr (a_ttbr1_l1 A) → table_addr (a_ttbr1_l2 A) →
  ∃ s' v1 v2 v3, init A bss_start bss_end flag s = Ok (tt, s') ∧
    b_events s' = b_events s ++ [(Sev, v1); (El1_mmu_activate, v2); (Start_kernel flag, v3)] ∧
    (∀ v, v ∈ [v1; v2; v3] → zeroed bss_start bss_end (b_mem s) (v_mem v) ∧ v_release v = released (b_release s)) ∧
    v_writes v1 = writes (b_io s) ++ early_setup (u32 (dev (b_io s) (GPFSEL1 BP) (clock (b_io s)))) ∧
    v_writes v2 = v_writes v1 ++ serial boot_log1 ∧
    v_writes v3 = v_writes v2 ++ serial boot_log2 ∧
    view s' = v3 ∧ v_tables v3 = v_tables v2 ∧
    let T := v_tables v2 in
    ∀ a, 0 ≤ a < 2 ^ 32 →
      hw_translate (boot_ttbr1_l0 T) (a_ttbr1_l1 A) (boot_ttbr1_l1 T) (a_ttbr1_l2 A) (boot_ttbr1_l2 T) (u64 (a + KERNEL_VADDR))
        = Some (a, if a <? PERIPHERAL_BASE then 4 else 0) ∧
      (a < SIZE_2M → hw_translate (boot_ttbr0_l0 T) (a_ttbr0_l1 A) (boot_ttbr0_l1 T) (a_ttbr0_l2 A) (boot_ttbr0_l2 T) a = Some (a, 4)).
Proof.
  intros Hm Hr HT H1 H2 H3 H4. pose proof (wp_init A bss_start bss_end flag s Hm Hr) as Hw.
  destruct (proj1 (wp_inv _ _ _) Hw) as ([] & s' & E & m & Hz & Hv & Hev). clear Hw. eexists s', _, _, _. split; [exact E|]. split; [exact Hev|].
  split; [intros v [-> | [-> | [-> | []%elem_of_nil]%elem_of_cons]%elem_of_cons]%elem_of_cons; (split; [exact Hz|reflexivity])|].
  cbn [v_writes v_tables]. split; [reflexivity|]. split; [reflexivity|]. split; [unfold serial; by rewrite fmap_app, app_assoc|].
  split; [exact Hv|]. split; [reflexivity|]. cbv zeta. rewrite HT. intros a Ha. split.
  - pose proof (high_correct A H3 H4 a Ha) as Hh. unfold high in Hh. exact Hh.
  - intros Ha2. assert (0 ≤ a < 2 ^ 30) as Hlt by (unfold SIZE_2M in Ha2; lia). pose proof (low_correct A H1 H2 a Hlt) as Hh.
    rewrite (proj2 (Z.ltb_lt a SIZE_2M) Ha2) in Hh. unfold low in Hh. exact Hh.
Qed.

Definition demo_boot_state : boot_state :=
  mk_boot (list_to_map ((λ i, (i, 7)) <$> seqZ 0x100000 16)) (mk_mmio (λ _ _, 0) 0 [] 1) ∅ bss_tables [].

Lemma boot_reaches_kernel_witness :
  ∃ s' v1 v2 v3, init demo_addrs 0x100000 0x100010 0x98000 demo_boot_state = Ok (tt, s') ∧
    b_events s' = [(Sev, v1); (El1_mmu_activate, v2); (Start_kernel 0x98000, v3)] ∧
    v_mem v1 !! 0x100008 = Some 0 ∧ v_release v1 !! 0xe8 = Some 0x80000 ∧ view s' = v3.
Proof.
  destruct (boot_reaches_kernel demo_addrs 0x100000 0x100010 0x98000 demo_boot_state) as (s' & v1 & v2 & v3 & E & Hev & Hz & _ & _ & _ & Hv & _).
  - intros x Hx. exists 7. apply elem_of_list_to_map_1'; [by intros y (j & [= _ ->] & _)%list_elem_of_fmap|].
    apply list_elem_of_fmap. exists x. split; [reflexivity|]. apply elem_of_seqZ. lia.
  - intros t. exists 0%nat. split; [apply Nat.lt_0_1|reflexivity].
  - reflexivity.
  - split; [reflexivity|cbn [demo_addrs a_ttbr0_l1]; lia].
  - split; [reflexivity|cbn [demo_addrs a_ttbr0_l2]; lia].
  - split; [reflexivity|cbn [demo_addrs a_ttbr1_l1]; lia].
  - split; [reflexivity|cbn [demo_addrs a_ttbr1_l2]; lia].
  - destruct (Hz v1 ltac:(left)) as [Hm Hr]. exists s', v1, v2, v3. split; [exact E|]. split; [exact Hev|].
    split; [exact (Hm 0x100008)|]. split; [rewrite Hr; reflexivity|exact Hv].
Defined.
