(* ===== verification/BootAsm.v ===== *)
(** * The start of a core: [start.S] and [tools.S] of the boot stage

    [arm64_elX_to_el1] brings a core from whatever exception level the firmware
    left it at to EL1, [_start] gives it a stack, [el1_mmu_activate] programs the
    translation registers; [flush_dcache_area] of the kernel's [tools.S] walks a
    range by cache lines.  Only the registers that the code reads or writes are
    in the state.  The theorems say what the C code and the page table model take
    for granted: EL1 with interrupts masked, stacks that do not overlap,
    48-bit addresses, and memory attributes as [page_table.h] numbers them. *)

From S2P Require Import Prelude Macro PageTable PageTableInv Boot.

(** ** Bits *)
Definition CURRENTEL_EL1 : Z := Z.shiftl 1 2.
Definition CURRENTEL_EL2 : Z := Z.shiftl 2 2.
Definition CURRENTEL_EL3 : Z := Z.shiftl 3 2.
Definition CPACR_EL1_FPEN : Z := Z.shiftl 3 20.
Definition ID_AA64PFR0_EL1_GIC : Z := Z.shiftl 15 24.
Definition CNTHCTL_EL2_EL1PCEN : Z := Z.shiftl 1 1.
Definition CNTHCTL_EL2_EL1PCTEN : Z := Z.shiftl 1 0.
Definition CPTR_EL2_RES1 : Z := 0x33ff.
Definition HCR_EL2_RW : Z := Z.shiftl 1 31.
Definition ICC_SRE_EL2_SRE : Z := Z.shiftl 1 0.
Definition ICC_SRE_EL2_ENABLE : Z := Z.shiftl 1 3.
Definition SCR_EL3_NS : Z := Z.shiftl 1 0.
Definition SCR_EL3_HCE : Z := Z.shiftl 1 8.
Definition SCR_EL3_RW : Z := Z.shiftl 1 10.
Definition SPSR_ELX_DAIF : Z := Z.shiftl 15 6.
Definition SPSR_ELX_EL1H : Z := 5.

(** ** A core in the boot stage *)
Record bcpu : Type := mk_bcpu {
  current_el : Z; b_pc : Z; b_lr : Z; b_pstate : Z;
  scr_el3 : Z; elr_el3 : Z; spsr_el3 : Z;
  elr_el2 : Z; spsr_el2 : Z; hcr_el2 : Z; cnthctl_el2 : Z; cntvoff_el2 : Z; vttbr_el2 : Z; cptr_el2 : Z;
  cpacr_el1 : Z; id_aa64pfr0_el1 : Z; icc_sre_el2 : Z; ich_hcr_el2 : Z
}.

(** [.Lin_el2] up to [isb], with [.Ltarget] at [target] *)
Definition setup_el2 (target : Z) (s : bcpu) : bcpu :=
  let gic := negb (Z.land (id_aa64pfr0_el1 s) ID_AA64PFR0_EL1_GIC =? 0) in
  mk_bcpu (current_el s) (b_pc s) (b_lr s) (b_pstate s) (scr_el3 s) (elr_el3 s) (spsr_el3 s)
    target (Z.lor SPSR_ELX_DAIF SPSR_ELX_EL1H) HCR_EL2_RW
    (Z.lor (cnthctl_el2 s) (Z.lor CNTHCTL_EL2_EL1PCEN CNTHCTL_EL2_EL1PCTEN)) 0 0 CPTR_EL2_RES1
    CPACR_EL1_FPEN (id_aa64pfr0_el1 s)
    (if gic then Z.lor (icc_sre_el2 s) (Z.lor ICC_SRE_EL2_ENABLE ICC_SRE_EL2_SRE) else icc_sre_el2 s)
    (if gic then 0 else ich_hcr_el2 s).

(** The part for EL3 before it *)
Definition setup_el3 (target : Z) (s : bcpu) : bcpu :=
  mk_bcpu (current_el s) (b_pc s) (b_lr s) (b_pstate s)
    (Z.lor (scr_el3 s) (Z.lor SCR_EL3_NS (Z.lor SCR_EL3_HCE SCR_EL3_RW))) target (Z.lor SPSR_ELX_DAIF SPSR_ELX_EL1H)
    (elr_el2 s) (spsr_el2 s) (hcr_el2 s) (cnthctl_el2 s) (cntvoff_el2 s) (vttbr_el2 s) (cptr_el2 s)
    (cpacr_el1 s) (id_aa64pfr0_el1 s) (icc_sre_el2 s) (ich_hcr_el2 s).

(** [eret]: the level and the state come from [SPSR] of the current level. *)
Definition b_eret (s : bcpu) : bcpu :=
  let '(elr, spsr) := if current_el s =? CURRENTEL_EL3 then (elr_el3 s, spsr_el3 s) else (elr_el2 s, spsr_el2 s) in
  mk_bcpu (Z.land spsr 0xc) elr (b_lr s) spsr (scr_el3 s) (elr_el3 s) (spsr_el3 s)
    (elr_el2 s) (spsr_el2 s) (hcr_el2 s) (cnthctl_el2 s) (cntvoff_el2 s) (vttbr_el2 s) (cptr_el2 s)
    (cpacr_el1 s) (id_aa64pfr0_el1 s) (icc_sre_el2 s) (ich_hcr_el2 s).
Definition b_ret (s : bcpu) : bcpu :=
  mk_bcpu (current_el s) (b_lr s) (b_lr s) (b_pstate s) (scr_el3 s) (elr_el3 s) (spsr_el3 s)
    (elr_el2 s) (spsr_el2 s) (hcr_el2 s) (cnthctl_el2 s) (cntvoff_el2 s) (vttbr_el2 s) (cptr_el2 s)
    (cpacr_el1 s) (id_aa64pfr0_el1 s) (icc_sre_el2 s) (ich_hcr_el2 s).

Definition arm64_elX_to_el1 (target : Z) (s : bcpu) : bcpu :=
  let x9 := Z.land (current_el s) 0xc in
  if x9 =? CURRENTEL_EL1 then b_ret s
  else if x9 =? CURRENTEL_EL2 then b_ret (b_eret (setup_el2 target s))
  else b_ret (b_eret (setup_el2 target (setup_el3 target s))).

(** From any level, the caller goes on at EL1 with its stack pointer selected
    and, when the level changed, with debug, SError, IRQ and FIQ masked; EL2 no
    longer traps timers, floating point or memory accesses of EL1. *)
Theorem elX_to_el1 target s :
  current_el s = CURRENTEL_EL1 ∨ current_el s = CURRENTEL_EL2 ∨ current_el s = CURRENTEL_EL3 →
  let s' := arm64_elX_to_el1 target s in
  current_el s' = CURRENTEL_EL1 ∧ b_pc s' = b_lr s ∧
  (current_el s ≠ CURRENTEL_EL1 →
    b_pstate s' = 0x3c5 ∧ hcr_el2 s' = HCR_EL2_RW ∧ vttbr_el2 s' = 0 ∧ cntvoff_el2 s' = 0 ∧
    Z.testbit (cnthctl_el2 s') 0 = true ∧ Z.testbit (cnthctl_el2 s') 1 = true).
Proof.
  intros Hel s'. subst s'. unfold arm64_elX_to_el1. destruct s as [el ? ? ? ? ? ? ? ? ? cnt ? ? ? ? ? ? ?]. cbn [current_el] in Hel.
  destruct Hel as [-> | [-> | ->]]; (split; [reflexivity|split; [reflexivity|]]); [by intros []|..];
    intros _; repeat (split; [reflexivity|]);
    match goal with |- context [Z.testbit ?x] => change x with (Z.lor cnt 3) end; rewrite !Z.lor_spec; split; apply orb_true_r.
Qed.

(** ** Stacks of [_start] *)
Definition INIT_STACK_SIZE : Z := 0x1000.
(** The stack pointer of core [id] (the low byte of [mpidr_el1]) *)
Definition start_sp (boot_cpu_stack mpidr : Z) : Z :=
  let x8 := Z.land mpidr 0xFF in
  if x8 =? 0 then boot_cpu_stack + INIT_STACK_SIZE
  else boot_cpu_stack + x8 * INIT_STACK_SIZE + INIT_STACK_SIZE.

(** Each core has its own row of [boot_cpu_stack]. *)
Lemma start_stacks base mpidr : 0 ≤ mpidr mod 256 < 4 →
  start_sp base mpidr - INIT_STACK_SIZE = base + (mpidr mod 256) * INIT_STACK_SIZE ∧
  base < start_sp base mpidr ≤ base + 4 * INIT_STACK_SIZE.
Proof.
  intros Hid. unfold start_sp, INIT_STACK_SIZE. change 0xFF with (2 ^ 8 - 1). rewrite land_ones_mod by lia. change (2 ^ 8) with 256.
  case_cmp; lia.
Qed.

(** ** [el1_mmu_activate] *)
Definition MMU_MAIR_ATTR0 : Z := Z.shiftl 0x00 (8 * 0).
Definition MMU_MAIR_ATTR1 : Z := Z.shiftl 0x04 (8 * 1).
Definition MMU_MAIR_ATTR2 : Z := Z.shiftl 0x0c (8 * 2).
Definition MMU_MAIR_ATTR3 : Z := Z.shiftl 0x44 (8 * 3).
Definition MMU_MAIR_ATTR4 : Z := Z.shiftl 0xff (8 * 4).
Definition mair_value : Z := Z.lor MMU_MAIR_ATTR0 (Z.lor MMU_MAIR_ATTR1 (Z.lor MMU_MAIR_ATTR2 (Z.lor MMU_MAIR_ATTR3 MMU_MAIR_ATTR4))).

Definition MMU_TCR_FLAGS1 : Z := Z.lor (Z.shiftl 0 14) (Z.lor (Z.shiftl 3 28) (Z.lor (Z.shiftl 1 26) (Z.lor (Z.shiftl 1 24) (Z.shiftl (64 - 48) 16)))).
Definition MMU_TCR_FLAGS0 : Z := Z.lor (Z.shiftl 0 30) (Z.lor (Z.shiftl 3 12) (Z.lor (Z.shiftl 1 10) (Z.lor (Z.shiftl 1 8) (Z.shiftl (64 - 48) 0)))).
Definition MMU_TCR_IPS : Z := Z.shiftl 5 32.
Definition MMU_TCR_AS : Z := Z.shiftl 1 36.
Definition tcr_value : Z := Z.lor MMU_TCR_FLAGS1 (Z.lor MMU_TCR_FLAGS0 (Z.lor MMU_TCR_IPS MMU_TCR_AS)).

Definition SCTLR_EL1_WXN : Z := BIT 19.
Definition SCTLR_EL1_I : Z := BIT 12.
Definition SCTLR_EL1_nAA : Z := BIT 6.
Definition SCTLR_EL1_SA0 : Z := BIT 4.
Definition SCTLR_EL1_SA : Z := BIT 3.
Definition SCTLR_EL1_C : Z := BIT 2.
Definition SCTLR_EL1_A : Z := BIT 1.
Definition SCTLR_EL1_M : Z := BIT 0.

Record mmu_regs : Type := mk_mmu { mair_el1 : Z; tcr_el1 : Z; ttbr0_el1 : Z; ttbr1_el1 : Z; sctlr_el1 : Z }.

(** [l0] and [l1] are the pages of [boot_ttbr0_l0] and [boot_ttbr1_l0]. *)
Definition el1_mmu_activate (l0 l1 : Z) (s : mmu_regs) : mmu_regs :=
  let x8 := sctlr_el1 s in
  let x8 := Z.lor x8 SCTLR_EL1_M in
  let x8 := Z.ldiff x8 SCTLR_EL1_A in
  let x8 := Z.ldiff x8 SCTLR_EL1_SA0 in
  let x8 := Z.ldiff x8 SCTLR_EL1_SA in
  let x8 := Z.lor x8 SCTLR_EL1_nAA in
  let x8 := Z.lor x8 SCTLR_EL1_C in
  let x8 := Z.lor x8 SCTLR_EL1_I in
  mk_mmu mair_value tcr_value l0 l1 x8.

(** The registers describe the tables that [Boot] and [PageTable] build: two
    48-bit halves of 4 KB pages, attribute 4 write-back memory, 3 uncached
    memory, 0 strongly ordered device memory; the MMU and the caches are on. *)
Theorem mmu_activated l0 l1 s : let s' := el1_mmu_activate l0 l1 s in
  get_field (8 * PageTable.NORMAL_MEMORY) 8 (mair_el1 s') = 0xff ∧
  get_field (8 * NORMAL_MEMORY_NOCACHE) 8 (mair_el1 s') = 0x44 ∧
  get_field (8 * PageTable.DEVICE_MEMORY) 8 (mair_el1 s') = 0 ∧
  64 - get_field 0 6 (tcr_el1 s') = 48 ∧ 64 - get_field 16 6 (tcr_el1 s') = 48 ∧
  ttbr0_el1 s' = l0 ∧ ttbr1_el1 s' = l1 ∧
  ∀ i, 0 ≤ i → Z.testbit (sctlr_el1 s') i =
    if decide (i ∈ [0; 2; 6; 12]) then true else if decide (i ∈ [1; 3; 4]) then false else Z.testbit (sctlr_el1 s) i.
Proof.
  intros s'. do 7 (split; [reflexivity|]).
  intros i Hi. cbn [sctlr_el1 el1_mmu_activate s']. rewrite !Z.lor_spec, !Z.ldiff_spec, !Z.lor_spec.
    change SCTLR_EL1_M with (2 ^ 0). change SCTLR_EL1_A with (2 ^ 1). change SCTLR_EL1_SA0 with (2 ^ 4). change SCTLR_EL1_SA with (2 ^ 3).
    change SCTLR_EL1_nAA with (2 ^ 6). change SCTLR_EL1_C with (2 ^ 2). change SCTLR_EL1_I with (2 ^ 12). rewrite !Z.pow2_bits_eqb by lia.
    destruct (decide (i ∈ [0; 2; 6; 12])) as [Hin|Hout].
    + repeat (apply elem_of_cons in Hin as [->|Hin]; [by destruct (Z.testbit (sctlr_el1 s) _)|]). by apply not_elem_of_nil in Hin.
    + destruct (decide (i ∈ [1; 3; 4])) as [Hin|Hout'].
      * repeat (apply elem_of_cons in Hin as [->|Hin]; [by destruct (Z.testbit (sctlr_el1 s) _)|]). by apply not_elem_of_nil in Hin.
      * assert (i ≠ 0 ∧ i ≠ 2 ∧ i ≠ 6 ∧ i ≠ 12 ∧ i ≠ 1 ∧ i ≠ 3 ∧ i ≠ 4) as (? & ? & ? & ? & ? & ? & ?).
        { split_and!; intros ->; first [apply Hout; by repeat (apply list_elem_of_here || apply list_elem_of_further)
            |apply Hout'; by repeat (apply list_elem_of_here || apply list_elem_of_further)]. }
        rewrite (proj2 (Z.eqb_neq 0 i)), (proj2 (Z.eqb_neq 1 i)), (proj2 (Z.eqb_neq 2 i)), (proj2 (Z.eqb_neq 3 i)),
          (proj2 (Z.eqb_neq 4 i)), (proj2 (Z.eqb_neq 6 i)), (proj2 (Z.eqb_neq 12 i)) by congruence.
        by rewrite !orb_false_r, !andb_true_r.
Qed.

(** ** [flush_dcache_area] *)

(** [dc civac] on line after line, until the end of the range *)
Fixpoint flush_loop (fuel : nat) (x0 x1 x2 : Z) : option (list Z) :=
  match fuel with
  | O => None
  | S fuel' =>
      let next := u64 (x0 + x2) in
      if next <? x1 then cons x0 <$> flush_loop fuel' next x1 x2 else Some [x0]
  end.

Definition line_size (ctr_el0 : Z) : Z := Z.shiftl 4 (Z.land (Z.shiftr ctr_el0 16) 0xf).
Definition flush_dcache_area (fuel : nat) (ctr_el0 addr size : Z) : option (list Z) :=
  let x2 := line_size ctr_el0 in
  let x1 := u64 (addr + size) in
  let x0 := Z.ldiff addr (x2 - 1) in
  flush_loop fuel x0 x1 x2.

Lemma line_size_pow ctr : ∃ k, 2 ≤ k ≤ 17 ∧ line_size ctr = 2 ^ k.
Proof.
  unfold line_size. change 0xf with (2 ^ 4 - 1). rewrite land_ones_mod, Z.shiftl_mul_pow2 by (try apply Z.mod_pos_bound; lia).
  pose proof (Z.mod_pos_bound (Z.shiftr ctr 16) (2 ^ 4) ltac:(lia)) as Hm. set (j := _ mod _) in *.
  exists (2 + j). split; [lia|]. rewrite Z.pow_add_r by lia. done.
Qed.

Lemma flush_loop_lines fuel x0 x1 n : 0 < n → 0 ≤ x0 < x1 → x1 + n ≤ 2 ^ 64 → x1 - x0 < n * Z.of_nat fuel →
  ∃ l, flush_loop fuel x0 x1 n = Some l ∧ ∀ a, a ∈ l ↔ ∃ i, 0 ≤ i ∧ a = x0 + i * n ∧ a < x1.
Proof.
  intros Hn. revert x0. induction fuel as [|fuel IH]; intros x0 H0 H1 Hf; [lia|]. cbn [flush_loop]. rewrite u64_small by lia.
  destruct (Z.ltb_spec (x0 + n) x1) as [Hlt|Hge].
  - destruct (IH (x0 + n)) as (l & -> & Hl); [lia..|]. exists (x0 :: l). split; [done|]. intros a. rewrite elem_of_cons, Hl. split.
    + intros [->|(i & Hi & -> & Ha)]; [exists 0; lia|]. exists (i + 1). lia.
    + intros (i & Hi & -> & Ha). destruct (decide (i = 0)) as [->|]; [left; lia|]. right. exists (i - 1). lia.
  - exists [x0]. split; [done|]. intros a. rewrite list_elem_of_singleton. split.
    + intros ->. exists 0. lia.
    + intros (i & Hi & -> & Ha). destruct (decide (i = 0)) as [->|]; [lia|]. nia.
Qed.

(** Exactly the cache lines that overlap the range are cleaned, and the loop ends. *)
Theorem flush_dcache_covers ctr addr size : let n := line_size ctr in
  0 ≤ addr → 0 < size → addr + size + n ≤ 2 ^ 64 →
  ∃ l, flush_dcache_area (S (Z.to_nat (size / n + 1))) ctr addr size = Some l ∧
    ∀ a, a ∈ l ↔ a mod n = 0 ∧ ∃ b, addr ≤ b < addr + size ∧ a ≤ b < a + n.
Proof.
  intros n Ha Hs Hend. destruct (line_size_pow ctr) as (k & Hk & En). fold n in En. pose proof (pow2_gt0 k ltac:(lia)) as Hp.
  unfold flush_dcache_area. fold n. rewrite u64_small by lia.
  assert (Z.ldiff addr (n - 1) = addr - addr mod n) as E0.
  { rewrite En. replace (2 ^ k - 1) with (Z.ones k) by (rewrite Z.ones_equiv; lia). rewrite Z.ldiff_ones_r, Z.shiftl_mul_pow2, Z.shiftr_div_pow2 by lia.
    pose proof (Z.div_mod addr (2 ^ k)). lia. }
  rewrite E0. pose proof (Z.mod_pos_bound addr n ltac:(lia)) as Hm.
  assert (0 ≤ addr - addr mod n) as Hlow by (pose proof (Z.mod_le addr n ltac:(lia) ltac:(lia)); lia).
  assert ((addr - addr mod n) mod n = 0) as Hal by (by rewrite Zminus_mod_idemp_r, Z.sub_diag).
  destruct (flush_loop_lines (S (Z.to_nat (size / n + 1))) (addr - addr mod n) (addr + size) n) as (l & -> & Hl); [lia|lia|lia| |].
  { pose proof (Z.div_mod size n ltac:(lia)). pose proof (Z.mod_pos_bound size n ltac:(lia)). pose proof (Z.div_pos size n ltac:(lia) ltac:(lia)).
    rewrite Nat2Z.inj_succ, Z2Nat.id by lia. nia. }
  exists l. split; [done|]. intros a. rewrite Hl. split.
  - intros (i & Hi & -> & Hlt). split; [rewrite Z.mod_add, Hal by lia; done|].
    exists (Z.max addr (addr - addr mod n + i * n)). nia.
  - intros (Hmod & b & Hb & Hab). exists ((a - (addr - addr mod n)) / n).
    assert ((a - (addr - addr mod n)) mod n = 0) as Hd by (rewrite Zminus_mod, Hmod, Hal; done).
    pose proof (Z.div_mod (a - (addr - addr mod n)) n ltac:(lia)) as Hdm. nia.
Qed.
