(* ===== verification/CacheAsm.v ===== *)
(** * Cache invalidation: [invalidate_cache_all] of the boot stage's [tools.S]

    The three nested loops over cache levels, ways and sets, with registers at
    their width: [w] registers hold 32 bits, the way counter is subtracted as a
    64-bit [x] register, and [b.ge]/[b.gt] compare as signed numbers.  What
    [clidr_el1] and, for a selected level, [ccsidr_el1] say about the caches are
    inputs; the result is the list of operands of [dc isw], in order. *)

From S2P Require Import Prelude.

(** [ubfx w, w, #lsb, #width] *)
Definition ubfx (x lsb width : Z) : Z := Z.land (Z.shiftr x lsb) (2 ^ width - 1).
(** [clz w, w] *)
Definition clz32 (x : Z) : Z := if x =? 0 then 32 else 31 - Z.log2 x.
(** [lsl w, w, w]: the shift counts modulo 32 *)
Definition lsl32 (x n : Z) : Z := u32 (Z.shiftl x (n mod 32)).

(** [.Lloop3_inv_cache]: sets *)
Fixpoint inv_sets (fuel : nat) (w10 w9 w7 w13 : Z) : option (list Z) :=
  match fuel with
  | O => None
  | S fuel' =>
      let w11 := Z.lor (Z.lor w10 w9) w7 in
      if s32 w7 >=? s32 w13 then cons w11 <$> inv_sets fuel' w10 w9 (u32 (w7 - w13)) w13 else Some [w11]
  end.

(** [.Lloop2_inv_cache]: ways *)
Fixpoint inv_ways (fuel : nat) (w1 w2 w10 x9 x12 : Z) : option (list Z) :=
  match fuel with
  | O => None
  | S fuel' =>
      let w7 := ubfx w1 13 15 in
      let w7' := lsl32 w7 w2 in
      let w13 := lsl32 1 w2 in
      l ← inv_sets (S (Z.to_nat w7)) w10 (u32 x9) w7' w13;
      if s64 x9 >=? s64 x12 then app l <$> inv_ways fuel' w1 w2 w10 (u64 (x9 - x12)) x12 else Some l
  end.

(** One level; [ccsidr] answers for the level in [csselr_el1] *)
Definition inv_level (w0 : Z) (ccsidr : Z → Z) (w10 : Z) : option (list Z) :=
  let w2 := u32 (w10 + Z.shiftr w10 1) in
  let w1 := Z.land (Z.shiftr w0 (w2 mod 32)) 7 in
  if w1 <? 2 then Some []
  else
    let w1 := u32 (ccsidr w10) in
    let w2 := Z.land w1 7 + 4 in
    let w4 := ubfx w1 3 10 in
    let w5 := clz32 w4 in
    let w9 := lsl32 w4 w5 in
    let w12 := lsl32 1 w5 in
    inv_ways (S (Z.to_nat w4)) w1 w2 w10 w9 w12.

(** [.Lloop1_inv_cache]: levels *)
Fixpoint inv_levels (fuel : nat) (w0 w3 : Z) (ccsidr : Z → Z) (w10 : Z) : option (list Z) :=
  match fuel with
  | O => None
  | S fuel' =>
      l ← inv_level w0 ccsidr w10;
      let w10 := u32 (w10 + 2) in
      if s32 w3 >? s32 w10 then app l <$> inv_levels fuel' w0 w3 ccsidr w10 else Some l
  end.

Definition invalidate_cache_all (clidr : Z) (ccsidr : Z → Z) : option (list Z) :=
  let w0 := u32 clidr in
  let w3 := Z.shiftr (Z.land w0 0x07000000) 23 in
  if w3 =? 0 then Some [] else inv_levels 8 w0 w3 ccsidr 0.

(** ** What should be invalidated

    [n], ..., 1, 0 *)
Fixpoint downto (n : nat) : list Z := match n with O => [0] | S n' => Z.of_nat n :: downto n' end.

(** The geometry of the cache of a level *)
Definition max_set (c : Z) : Z := ubfx (u32 c) 13 15.
Definition max_way (c : Z) : Z := ubfx (u32 c) 3 10.
Definition line_shift (c : Z) : Z := Z.land (u32 c) 7 + 4.
(** Ways are numbered in the upper bits of the operand. *)
Definition way_shift (c : Z) : Z := clz32 (max_way c) mod 32.
Definition set_way (level way set c : Z) : Z :=
  Z.lor (Z.lor (2 * level) (way * 2 ^ way_shift c)) (set * 2 ^ line_shift c).
Definition cache_lines (level c : Z) : list Z :=
  way ← downto (Z.to_nat (max_way c)); (λ set, set_way level way set c) <$> downto (Z.to_nat (max_set c)).

(** Levels below the level of coherence; [Ctype] 2 and up has a data cache. *)
Definition coherence_level (clidr : Z) : Z := ubfx clidr 24 3.
Definition ctype (clidr level : Z) : Z := ubfx clidr (3 * level) 3.
Definition level_lines (clidr : Z) (ccsidr : Z → Z) (level : Z) : list Z :=
  if ctype clidr level <? 2 then [] else cache_lines level (ccsidr (2 * level)).

(** ** The loops *)
Section loops.
Lemma geb_true a b : b ≤ a → (a >=? b) = true.
Proof. rewrite Z.geb_leb. apply Z.leb_le. Qed.
Lemma geb_false a b : a < b → (a >=? b) = false.
Proof. rewrite Z.geb_leb. apply Z.leb_gt. Qed.
Lemma ubfx_mod x lsb width : 0 ≤ width → ubfx x lsb width = Z.shiftr x lsb mod 2 ^ width.
Proof. intros. by apply land_ones_mod. Qed.
Lemma ubfx_range x lsb width : 0 ≤ width → 0 ≤ ubfx x lsb width < 2 ^ width.
Proof. intros. rewrite ubfx_mod by done. apply Z.mod_pos_bound, pow2_gt0. done. Qed.

Lemma clz32_range x : 0 ≤ x < 2 ^ 32 → x ≠ 0 → 0 ≤ clz32 x < 32 ∧ x * 2 ^ clz32 x < 2 ^ 32.
Proof.
  intros Hx Hne. unfold clz32. rewrite (proj2 (Z.eqb_neq _ _)) by done.
  pose proof (Z.log2_spec x ltac:(lia)) as [_ Hl]. pose proof (Z.log2_nonneg x). assert (Z.log2 x < 32) by (apply Z.log2_lt_pow2; lia).
  split; [lia|].
  assert (2 ^ 32 = 2 ^ Z.succ (Z.log2 x) * 2 ^ (31 - Z.log2 x)) as -> by (rewrite <- Z.pow_add_r by lia; f_equal; lia).
  apply Z.mul_lt_mono_pos_r; [apply pow2_gt0; lia|done].
Qed.

Lemma lsl32_small x n : 0 ≤ n < 32 → 0 ≤ x * 2 ^ n < 2 ^ 32 → lsl32 x n = x * 2 ^ n.
Proof. intros Hn Hx. unfold lsl32. rewrite (Z.mod_small n 32), Z.shiftl_mul_pow2 by lia. by apply u32_small. Qed.

(** The loop over the sets counts down to 0. *)
Lemma inv_sets_down n w10 w9 step : 0 < step → Z.of_nat n * step < 2 ^ 31 →
  step < 2 ^ 31 → inv_sets (S n) w10 w9 (Z.of_nat n * step) step = Some ((λ i, Z.lor (Z.lor w10 w9) (i * step)) <$> downto n).
Proof.
  intros Hs. induction n as [|n IH]; intros Hn Hst.
  - cbn [inv_sets downto fmap list_fmap]. rewrite (s32_small step), (s32_small (Z.of_nat 0 * step)) by lia. by rewrite geb_false by lia.
  - remember (S n) as m eqn:Em. cbn [inv_sets]. rewrite (s32_small step), (s32_small (Z.of_nat m * step)) by lia.
    rewrite geb_true by nia. rewrite u32_small by nia.
    replace (Z.of_nat m * step - step) with (Z.of_nat n * step) by nia. subst m. rewrite IH by nia. done.
Qed.

Lemma line_shift_range c : 4 ≤ line_shift c ≤ 11.
Proof.
  unfold line_shift. change 7 with (2 ^ 3 - 1). rewrite land_ones_mod by lia. pose proof (Z.mod_pos_bound (u32 c) (2 ^ 3) ltac:(lia)). lia.
Qed.

Lemma inv_sets_all c w10 w9 :
  inv_sets (S (Z.to_nat (max_set c))) w10 w9 (lsl32 (max_set c) (line_shift c)) (lsl32 1 (line_shift c)) =
  Some ((λ set, Z.lor (Z.lor w10 w9) (set * 2 ^ line_shift c)) <$> downto (Z.to_nat (max_set c))).
Proof.
  pose proof (line_shift_range c) as Hl. pose proof (ubfx_range (u32 c) 13 15 ltac:(lia)) as Hm. fold (max_set c) in Hm.
  pose proof (pow2_gt0 (line_shift c) ltac:(lia)). pose proof (pow2_le (line_shift c) 11 ltac:(lia)) as Hp.
  assert (max_set c * 2 ^ line_shift c < 2 ^ 31) as Hb.
  { apply Z.le_lt_trans with (2 ^ 15 * 2 ^ 11); [apply Z.mul_le_mono_nonneg; lia|done]. }
  rewrite !lsl32_small by lia. rewrite Z.mul_1_l. rewrite <- (Z2Nat.id (max_set c)) at 2 by lia.
  apply inv_sets_down; [lia|by rewrite Z2Nat.id by lia|lia].
Qed.

Lemma inv_ways_down c n w10 step : 0 < step → Z.of_nat n * step < 2 ^ 32 → step < 2 ^ 32 →
  inv_ways (S n) (u32 c) (line_shift c) w10 (Z.of_nat n * step) step =
  Some (way ← downto n; (λ set, Z.lor (Z.lor w10 (way * step)) (set * 2 ^ line_shift c)) <$> downto (Z.to_nat (max_set c))).
Proof.
  intros Hs. induction n as [|n IH]; intros Hn Hst.
  - cbn [inv_ways]. fold (max_set c). rewrite inv_sets_all. cbn [mbind option_bind].
    rewrite (s64_small step), (s64_small (Z.of_nat 0 * step)), geb_false by lia.
    cbn [downto mbind list_bind]. by rewrite app_nil_r.
  - remember (S n) as m eqn:Em. cbn [inv_ways]. fold (max_set c). rewrite inv_sets_all. cbn [mbind option_bind].
    rewrite (s64_small step), (s64_small (Z.of_nat m * step)), geb_true by nia. rewrite u64_small by nia.
    replace (Z.of_nat m * step - step) with (Z.of_nat n * step) by nia. subst m. rewrite IH by nia.
    cbn [fmap option_fmap option_map downto mbind list_bind]. by rewrite u32_small by nia.
Qed.

Lemma inv_ways_all c level :
  inv_ways (S (Z.to_nat (max_way c))) (u32 c) (line_shift c) (2 * level)
    (lsl32 (max_way c) (clz32 (max_way c))) (lsl32 1 (clz32 (max_way c))) = Some (cache_lines level c).
Proof.
  pose proof (ubfx_range (u32 c) 3 10 ltac:(lia)) as Hm. fold (max_way c) in Hm. unfold cache_lines, set_way, way_shift.
  destruct (decide (max_way c = 0)) as [E|Hne].
  - rewrite E. apply (inv_ways_down c 0 (2 * level) 1); lia.
  - destruct (clz32_range (max_way c)) as [Hc Hw]; [lia|done|]. pose proof (pow2_gt0 (clz32 (max_way c)) ltac:(lia)).
    rewrite !lsl32_small by nia. rewrite Z.mul_1_l, (Z.mod_small (clz32 _) 32) by lia.
    rewrite <- (Z2Nat.id (max_way c)) at 2 by lia. apply inv_ways_down; [lia|by rewrite Z2Nat.id by lia|nia].
Qed.

(** A field of the lower half *)
Lemma ubfx_u32 x lsb width : 0 ≤ lsb → 0 ≤ width → lsb + width ≤ 32 → ubfx (u32 x) lsb width = ubfx x lsb width.
Proof.
  intros Hl Hw Hlw. unfold ubfx. replace (2 ^ width - 1) with (Z.ones width) by (rewrite Z.ones_equiv; lia).
  apply Z.bits_inj'. intros i Hi. rewrite !Z.land_spec, !Z.shiftr_spec, Z.testbit_ones_nonneg by lia.
  destruct (Z.ltb_spec i width); [|by rewrite !andb_false_r]. unfold u32. by rewrite Z.mod_pow2_bits_low by lia.
Qed.

Lemma inv_level_all clidr ccsidr k : 0 ≤ k ≤ 6 → inv_level (u32 clidr) ccsidr (2 * k) = Some (level_lines clidr ccsidr k).
Proof.
  intros Hk. assert (2 * k + Z.shiftr (2 * k) 1 = 3 * k) as E3
    by (rewrite Z.shiftr_div_pow2 by lia; change (2 ^ 1) with 2; rewrite (Z.mul_comm 2 k), Z.div_mul by lia; lia).
  assert (Z.land (Z.shiftr (u32 clidr) (3 * k)) 7 = ctype clidr k) as Et by (apply (ubfx_u32 clidr (3 * k) 3); lia).
  unfold inv_level, level_lines. rewrite E3, (u32_small (3 * k)), (Z.mod_small (3 * k)), Et by lia.
  destruct (ctype clidr k <? 2); [done|].
  fold (line_shift (ccsidr (2 * k))). fold (max_way (ccsidr (2 * k))). apply inv_ways_all.
Qed.

(** The loop over the levels goes from [k] up to the level of coherence. *)
Lemma inv_levels_up fuel k clidr ccsidr loc : 0 ≤ k < loc → loc ≤ 7 → loc - k ≤ Z.of_nat fuel →
  inv_levels fuel (u32 clidr) (2 * loc) ccsidr (2 * k) = Some (level ← seqZ k (loc - k); level_lines clidr ccsidr level).
Proof.
  revert k. induction fuel as [|fuel IH]; intros k Hk H7 Hf; [lia|]. cbn [inv_levels]. rewrite inv_level_all by lia. cbn [mbind option_bind].
  rewrite (u32_small (2 * k + 2)), !s32_small by lia. rewrite (seqZ_cons k) by lia. cbn [mbind list_bind].
  replace (Z.pred (loc - k)) with (loc - (k + 1)) by lia. replace (Z.succ k) with (k + 1) by lia.
  destruct (Z.gtb_spec (2 * loc) (2 * k + 2)) as [Hgt|Hle].
  - replace (2 * k + 2) with (2 * (k + 1)) by lia. rewrite IH by lia. done.
  - rewrite (seqZ_nil (k + 1)) by lia. cbn [mbind list_bind]. by rewrite app_nil_r.
Qed.

Lemma elem_of_downto n i : i ∈ downto n ↔ 0 ≤ i ≤ Z.of_nat n.
Proof.
  induction n as [|n IH]; cbn [downto]; [rewrite list_elem_of_singleton; lia|]. rewrite elem_of_cons, IH. lia.
Qed.
End loops.

(** ** Properties *)

(** C17. [invalidate_cache_all] terminates whatever the caches look like, and
    issues [dc isw] for exactly the lines of the data and unified caches: every
    level below the level of coherence that has one, every way and every set of
    it, in descending order of ways and sets, and nothing else. *)
Theorem invalidate_covers clidr ccsidr :
  ∃ l, invalidate_cache_all clidr ccsidr = Some l ∧
    l = (level ← seqZ 0 (coherence_level clidr); level_lines clidr ccsidr level) ∧
    ∀ x, x ∈ l ↔ ∃ level way set, let c := ccsidr (2 * level) in
      0 ≤ level < coherence_level clidr ∧ 2 ≤ ctype clidr level ∧
      0 ≤ way ≤ max_way c ∧ 0 ≤ set ≤ max_set c ∧ x = set_way level way set c.
Proof.
  exists (level ← seqZ 0 (coherence_level clidr); level_lines clidr ccsidr level). split_and!; [|done|].
  - unfold invalidate_cache_all. pose proof (ubfx_range clidr 24 3 ltac:(lia)) as Hr. fold (coherence_level clidr) in Hr.
    assert (Z.shiftr (Z.land (u32 clidr) 0x07000000) 23 = 2 * coherence_level clidr) as ->.
    { unfold coherence_level. rewrite <- (ubfx_u32 clidr 24 3) by lia. unfold ubfx.
      change 0x07000000 with (Z.shiftl 7 24). change (2 ^ 3 - 1) with 7. set (w := u32 clidr).
      replace (2 * Z.land (Z.shiftr w 24) 7) with (Z.shiftl (Z.land (Z.shiftr w 24) 7) 1) by (rewrite Z.shiftl_mul_pow2 by lia; lia).
      apply Z.bits_inj'. intros i Hi. rewrite Z.shiftr_spec, Z.land_spec, Z.shiftl_spec by lia.
      destruct (decide (i = 0)) as [->|Hne].
      + rewrite (Z.testbit_neg_r 7 (0 + 23 - 24)), (Z.shiftl_spec_low) by lia. by rewrite andb_false_r.
      + rewrite Z.shiftl_spec, Z.land_spec, Z.shiftr_spec by lia. f_equal; f_equal; lia. }
    destruct (Z.eqb_spec (2 * coherence_level clidr) 0) as [E|Hne].
    + by rewrite seqZ_nil by lia.
    + rewrite <- (Z.sub_0_r (coherence_level clidr)) at 2. apply (inv_levels_up 8 0); lia.
  - intros x. rewrite list_elem_of_bind. split.
    + intros (level & Hx & Hlv%elem_of_seqZ). unfold level_lines in Hx. destruct (Z.ltb_spec (ctype clidr level) 2); [by apply not_elem_of_nil in Hx|].
      apply list_elem_of_bind in Hx as (way & (set & -> & Hset%elem_of_downto)%list_elem_of_fmap & Hway%elem_of_downto).
      exists level, way, set.
      pose proof (ubfx_range (u32 (ccsidr (2 * level))) 13 15 ltac:(lia)). pose proof (ubfx_range (u32 (ccsidr (2 * level))) 3 10 ltac:(lia)).
      unfold max_set, max_way in *. split_and!; try lia; done.
    + intros (level & way & set & Hlv & Ht & Hway & Hset & ->). exists level. split; [|apply elem_of_seqZ; lia].
      unfold level_lines. rewrite (proj2 (Z.ltb_ge (ctype clidr level) 2)) by done.
      apply list_elem_of_bind. exists way. split; [|apply elem_of_downto; lia]. apply list_elem_of_fmap. exists set. split; [done|apply elem_of_downto; lia].
Qed.

(** A single cache of two sets of two ways, lines of 64 bytes. *)
Example invalidate_small : invalidate_cache_all 0x01000004 (λ _, 0x200A) = Some [0x80000040; 0x80000000; 0x40; 0].
Proof. reflexivity. Qed.
