(* ===== verification/KernelAsm.v ===== *)
(** * Entering the kernel: [head.S], [irq.S], [page_table.S], [tools.S] of the
    kernel and the wait loop of [start.S]

    The boot stage jumps to [start_kernel] on the first core and to
    [secondary_cpu_boot] on the others, with the MMU on.  Both choose a stack,
    take the low half of the address space away and call C code.  A core's state
    is the registers involved, the words of its stack and the translations of
    the low half that its TLB holds. *)

From S2P Require Import Prelude Macro.

Record kcore : Type := mk_kcore {
  k_x0 : Z; k_x1 : Z; k_x19 : Z; k_sp : Z;
  k_ttbr0 : Z; k_vbar : Z; k_daif : Z;
  k_tlb : gmap Z Z;            (* cached low pages -> frames *)
  k_stack : gmap Z Z;          (* 64-bit words *)
  k_calls : list (Z * Z * Z)   (* C functions called: address, first two arguments *)
}.

Definition set_k_x (x0 x1 x19 : Z) (s : kcore) : kcore :=
  mk_kcore x0 x1 x19 (k_sp s) (k_ttbr0 s) (k_vbar s) (k_daif s) (k_tlb s) (k_stack s) (k_calls s).
Definition set_k_sp (sp : Z) (s : kcore) : kcore :=
  mk_kcore (k_x0 s) (k_x1 s) (k_x19 s) sp (k_ttbr0 s) (k_vbar s) (k_daif s) (k_tlb s) (k_stack s) (k_calls s).
Definition set_k_stack (m : gmap Z Z) (s : kcore) : kcore :=
  mk_kcore (k_x0 s) (k_x1 s) (k_x19 s) (k_sp s) (k_ttbr0 s) (k_vbar s) (k_daif s) (k_tlb s) m (k_calls s).
Definition set_k_ttbr0 (v : Z) (s : kcore) : kcore :=
  mk_kcore (k_x0 s) (k_x1 s) (k_x19 s) (k_sp s) v (k_vbar s) (k_daif s) (k_tlb s) (k_stack s) (k_calls s).
Definition set_k_tlb (t : gmap Z Z) (s : kcore) : kcore :=
  mk_kcore (k_x0 s) (k_x1 s) (k_x19 s) (k_sp s) (k_ttbr0 s) (k_vbar s) (k_daif s) t (k_stack s) (k_calls s).
Definition set_k_mask (vbar daif : Z) (s : kcore) : kcore :=
  mk_kcore (k_x0 s) (k_x1 s) (k_x19 s) (k_sp s) (k_ttbr0 s) vbar daif (k_tlb s) (k_stack s) (k_calls s).
Definition call_c (f : Z) : M kcore unit := modify (λ s,
  mk_kcore (k_x0 s) (k_x1 s) (k_x19 s) (k_sp s) (k_ttbr0 s) (k_vbar s) (k_daif s) (k_tlb s) (k_stack s) (k_calls s ++ [(f, k_x0 s, k_x1 s)])).

(** [adrp]: the page of a symbol *)
Definition adrp (a : Z) : Z := Z.ldiff a 0xfff.

(** [tools.S] *)
Definition flush_tlb_all : M kcore unit := modify (set_k_tlb ∅).

(** [page_table.S] and [set_page_table] of [page_table.c] *)
Definition set_ttbr0_el1 (x0 : Z) : M kcore unit := modify (set_k_ttbr0 x0).
Definition set_page_table (pgtbl : Z) : M kcore unit := set_ttbr0_el1 pgtbl.

(** [irq.S]; in [daif] the mask of IRQs is bit 1 of the immediate *)
Definition set_exception_vector (el1_vector : Z) : M kcore unit := modify (λ s, set_k_mask el1_vector (k_daif s) s).
Definition enable_irq : M kcore unit := modify (λ s, set_k_mask (k_vbar s) (Z.ldiff (k_daif s) 2) s).
Definition disable_irq : M kcore unit := modify (λ s, set_k_mask (k_vbar s) (Z.lor (k_daif s) 2) s).

(** [stp x0, x1, [sp, #-16]!] and [ldp x0, x1, [sp], #16] *)
Definition push01 : M kcore unit := modify (λ s,
  let sp := u64 (k_sp s - 16) in
  set_k_sp sp (set_k_stack (<[u64 (sp + 8) := k_x1 s]> (<[sp := k_x0 s]> (k_stack s))) s)).
Definition pop01 : M kcore unit :=
  x0 ← load (λ s, k_stack s !! k_sp s);
  x1 ← load (λ s, k_stack s !! u64 (k_sp s + 8));
  modify (λ s, set_k_sp (u64 (k_sp s + 16)) (set_k_x x0 x1 (k_x19 s) s)).

Section entry.
(** Addresses of [cpu_stacks], [empty_page], [main] and [secondary_start] *)
Context (cpu_stacks empty_page main secondary_start : Z).

(** [start_kernel] up to the call of [main] *)
Definition start_kernel : M kcore unit :=
  modify (set_k_sp (u64 (cpu_stacks + Z.shiftl 1 12))) ;;
  push01 ;;
  modify (set_k_ttbr0 (adrp empty_page)) ;;
  flush_tlb_all ;;
  pop01 ;;
  call_c main.

Definition secondary_cpu_boot : M kcore unit :=
  modify (λ s, set_k_x (k_x0 s) 0x1000 (k_x0 s) s) ;;
  modify (λ s, set_k_sp (u64 (u64 (u64 (k_x0 s * k_x1 s) + cpu_stacks) + Z.shiftl 1 12)) s) ;;
  modify (set_k_ttbr0 (adrp empty_page)) ;;
  flush_tlb_all ;;
  modify (λ s, set_k_x (k_x19 s) (k_x1 s) (k_x19 s) s) ;;
  call_c secondary_start.

(** The first core calls [main] with the arguments of the boot stage, on the
    first stack, and no translation of the low half is left in its TLB. *)
Theorem start_kernel_enters s : 0 ≤ cpu_stacks → cpu_stacks + 4 * CPU_STACK_SIZE < 2 ^ 64 →
  wp start_kernel s (λ _ s', k_calls s' = k_calls s ++ [(main, k_x0 s, k_x1 s)] ∧
    k_sp s' = cpu_stacks + CPU_STACK_SIZE ∧ k_tlb s' = ∅ ∧ k_ttbr0 s' = adrp empty_page ∧ k_daif s' = k_daif s).
Proof.
  intros H0 H1. unfold CPU_STACK_SIZE in *. unfold start_kernel, push01, flush_tlb_all, pop01, call_c.
  change (Z.shiftl 1 12) with 4096. rewrite (u64_small (cpu_stacks + 4096)) by lia.
  repeat (first [apply wp_bind|apply wp_modify]; cbn beta). cbn [k_sp set_k_sp k_x0 k_x1 k_stack].
  rewrite (u64_small (cpu_stacks + 4096 - 16)), (u64_small (cpu_stacks + 4096 - 16 + 8)) by lia.
  eapply wp_load; [cbn; rewrite lookup_insert_ne by lia; by rewrite lookup_insert_eq|].
  apply wp_bind. eapply wp_load; [cbn; rewrite u64_small by lia; by rewrite lookup_insert_eq|].
  do 2 first [apply wp_bind, wp_modify|apply wp_modify]. cbn.
  rewrite (u64_small (cpu_stacks + 4096 - 16 + 16)) by lia. split_and!; try done; lia.
Qed.

(** The others: each on its own row of [cpu_stacks]. *)
Theorem secondary_cpu_boot_enters s : 0 ≤ cpu_stacks → cpu_stacks + 4 * CPU_STACK_SIZE < 2 ^ 64 → 0 ≤ k_x0 s < 4 →
  wp secondary_cpu_boot s (λ _ s', k_calls s' = k_calls s ++ [(secondary_start, k_x0 s, 0x1000)] ∧
    k_sp s' = cpu_stacks + (k_x0 s + 1) * CPU_STACK_SIZE ∧ k_tlb s' = ∅ ∧ k_ttbr0 s' = adrp empty_page).
Proof.
  intros H0 H1 Hid. unfold CPU_STACK_SIZE in *. unfold secondary_cpu_boot, flush_tlb_all, call_c.
  change (Z.shiftl 1 12) with 4096. repeat first [apply wp_bind, wp_modify|apply wp_modify]. cbn.
  rewrite (u64_small (k_x0 s * 4096)), (u64_small (_ + cpu_stacks)), u64_small by lia. split_and!; try done; lia.
Qed.
End entry.

(** ** What [ttbr0_el1] means: the ASID and the physical address of the table *)
Definition ttbr_asid (v : Z) : Z := Z.shiftr v 48.
Definition ttbr_baddr (v : Z) : Z := Z.land v (2 ^ 48 - 1).

(** The empty table is named by its kernel virtual address: what the MMU takes
    for the physical address of the table lies [KBASE mod 2^48] too high, and
    the upper bits become the ASID. *)
Theorem ttbr0_gets_virtual_address pa : 0 ≤ pa < 2 ^ 30 → pa mod 4096 = 0 →
  let v := adrp (phys_to_virt pa) in
  ttbr_baddr v = pa + 0xFF0000000000 ∧ ttbr_baddr v ≠ pa ∧ ttbr_asid v = 0xFFFF.
Proof.
  intros Hpa Hal v.
  assert (v = pa + KBASE) as ->.
  { unfold v, adrp. rewrite phys_to_virt_eq by lia. change 0xfff with (Z.ones 12). rewrite Z.ldiff_ones_r by lia.
    rewrite Z.shiftl_mul_pow2, Z.shiftr_div_pow2 by lia. pose proof (Z.div_mod (pa + KBASE) (2 ^ 12) ltac:(lia)).
    assert ((pa + KBASE) mod 2 ^ 12 = 0) by (unfold KBASE; change (2 ^ 12) with 4096; rewrite Z.add_mod, Hal by lia; done). lia. }
  assert (ttbr_baddr (pa + KBASE) = pa + 0xFF0000000000) as E.
  { unfold ttbr_baddr. rewrite land_ones_mod by lia. unfold KBASE.
    replace (pa + 0xFFFFFF0000000000) with (pa + 0xFF0000000000 + 0xFFFF * 2 ^ 48) by lia. rewrite Z.mod_add by lia. apply Z.mod_small. lia. }
  split_and!; [done|lia|]. unfold ttbr_asid. rewrite Z.shiftr_div_pow2 by lia. unfold KBASE.
  replace (pa + 0xFFFFFF0000000000) with (pa + 0xFF0000000000 + 0xFFFF * 2 ^ 48) by lia. rewrite Z.div_add by lia. rewrite Z.div_small; lia.
Qed.

(** Switching the page table keeps what the TLB has cached; only
    [flush_tlb_all] removes it. *)
Lemma set_page_table_keeps_tlb pgtbl s :
  wp (set_page_table pgtbl) s (λ _ s', k_ttbr0 s' = pgtbl ∧ k_tlb s' = k_tlb s) ∧
  wp (set_page_table pgtbl ;; flush_tlb_all) s (λ _ s', k_ttbr0 s' = pgtbl ∧ k_tlb s' = ∅).
Proof. done. Qed.

(** Masking and unmasking IRQs leaves the other masks alone. *)
Lemma irq_mask_roundtrip s : Z.testbit (k_daif s) 1 = true →
  wp (enable_irq ;; disable_irq) s (λ _ s', s' = s).
Proof.
  intros Hm. unfold enable_irq, disable_irq. apply wp_bind, wp_modify, wp_modify. destruct s as [? ? ? ? ? ? d ? ? ?]. cbn [k_daif] in Hm. unfold set_k_mask. cbn [k_x0 k_x1 k_x19 k_sp k_ttbr0 k_vbar k_daif k_tlb k_stack k_calls]. f_equal.
  apply Z.bits_inj'. intros i Hi. rewrite Z.lor_spec, Z.ldiff_spec. change 2 with (2 ^ 1). rewrite Z.pow2_bits_eqb by lia.
  destruct (Z.eqb_spec 1 i) as [<-|]; [by rewrite Hm|by destruct (Z.testbit d i)].
Qed.

(** ** Waiting for the kernel: [wait_until_smp_enabled] *)
Inductive phase : Type := Waiting | Starting.
(** [secondary_boot_flag]: one [long] per core *)
Definition secondary_boot_flag (base : Z) : gmap Z Z := <[base := 0xFFFF]> (list_to_map ((λ i, (base + 8 * i, 0)) <$> seqZ 1 3)).

Record parking : Type := mk_parking { flags : gmap Z Z; phases : Z → phase }.
(** One round of core [x8] *)
Definition wait_until_smp_enabled (base x8 : Z) (s : parking) : option parking :=
  x3 ← flags s !! u64 (base + u64 (x8 * 8));
  Some (if x3 =? 0 then s else mk_parking (flags s) (λ i, if i =? x8 then Starting else phases s i)).

Inductive parking_step (base : Z) : parking → parking → Prop :=
| pk_wait id s s' : 1 ≤ id ≤ 3 → phases s id = Waiting → wait_until_smp_enabled base id s = Some s' → parking_step base s s'.

(** Nothing sets the flags of cores 1 to 3, so these cores wait for ever, and
    every look at their flag is at a word of the array. *)
Theorem secondaries_parked base s : 0 ≤ base → base + 32 ≤ 2 ^ 64 →
  rtc (parking_step base) (mk_parking (secondary_boot_flag base) (λ _, Waiting)) s →
  ∀ id, 1 ≤ id ≤ 3 → phases s id = Waiting ∧ wait_until_smp_enabled base id s = Some s.
Proof.
  intros H0 H1 Hr.
  assert (∀ id t, 1 ≤ id ≤ 3 → flags t = secondary_boot_flag base → wait_until_smp_enabled base id t = Some t) as Hw.
  { intros id t Hid Ht. unfold wait_until_smp_enabled. rewrite Ht, (u64_small (id * 8)), u64_small by lia.
    assert (secondary_boot_flag base !! (base + id * 8) = Some 0) as ->; [|done].
    unfold secondary_boot_flag. rewrite lookup_insert_ne by lia.
    apply elem_of_list_to_map_1; [|apply list_elem_of_fmap; exists id; split; [f_equal; lia|apply elem_of_seqZ; lia]].
    rewrite <- list_fmap_compose. apply NoDup_fmap_2; [intros i j; cbn; lia|apply NoDup_seqZ]. }
  apply (rtc_ind_r (λ t, flags t = secondary_boot_flag base ∧ ∀ id, phases t id = Waiting) _) in Hr as [Hf Hp].
  - intros id Hid. split; [apply Hp|by apply Hw].
  - done.
  - intros x y _ Hst [Hf Hp]. destruct Hst as [id t t' Hid _ Ht]. rewrite Hw in Ht by done. by injection Ht as <-.
Qed.
