(* ===== verification/KernelMap.v ===== *)
(** * The kernel stack in the kernel's page table

    [main] ([arch/aarch64/main.c]) maps the boot CPU's stack at [KSTACKx_ADDR(0)]
    in the table that the boot stage built ([Boot]), with table pages from the
    allocator that [mm_init] set up ([Mm]).  Here the tables of [init_kernel_pt]
    become the memory that [PageTable] walks. *)

From S2P Require Import Prelude Macro ListHead Buddy Chunks BuddyInv BuddyOps BuddySpec BuddyCount BuddyInit BuddyTheorems.
From S2P Require Import Slab SlabInv SlabOps SlabSpec SlabTheorems Kmalloc KmallocTheorems Mm Boot.
From S2P Require Import PageTable PageTableInv PageTableOps Pages PageTableTheorems.

(** [map_range_in_pgtbl_kernel(boot_ttbr1_l0 + KBASE, KSTACKx_ADDR(0), cpu_stacks[0] - KBASE, CPU_STACK_SIZE, VMR_READ | VMR_WRITE)],
    with [boot_ttbr1_l0] at the physical address [a0] and [cpu_stacks] at the virtual address [stacks] *)
Definition map_kernel_stack {A : Type} `{!PageSource A} (a0 stacks : Z) : M (ptstate A) Z :=
  map_range_in_pgtbl_kernel (u64 (a0 + KBASE)) (KSTACKx_ADDR 0) (u64 (stacks - KBASE)) CPU_STACK_SIZE (Z.lor VMR_READ VMR_WRITE).

(** ** The tables of the boot stage as memory *)

(** Every entry is a 2 MB block at its own address. *)
Definition blocks_2m (t : table) : bool :=
  forallb (λ i, let d := descr t i in negb (IS_PTE_INVALID d) && negb (IS_PTE_TABLE d) && (GET_PADDR_IN_PTE d =? i * 2 ^ 21)) (seqZ 0 512).

Lemma blocks_2m_entry t i : blocks_2m t = true → 0 ≤ i < 512 → let d := descr t i in
  IS_PTE_INVALID d = false ∧ IS_PTE_TABLE d = false ∧ GET_NEXT_PTP d = phys_to_virt (i * 2 ^ 21).
Proof.
  intros Hg Hi. unfold blocks_2m in Hg. rewrite forallb_forall in Hg. specialize (Hg i). cbv zeta in *.
  rewrite !andb_true_iff, !negb_true_iff, Z.eqb_eq in Hg. destruct Hg as ((-> & ->) & Ha).
  - apply list_elem_of_In, elem_of_seqZ. lia.
  - split_and!; [done|done|]. unfold GET_NEXT_PTP. by rewrite Ha.
Qed.

Section boot.
Context (A : boot_addrs) (a0 e : Z).
Notation B := (init_kernel_pt A bss_tables).
Notation a1 := (a_ttbr1_l1 A).
Notation a2 := (a_ttbr1_l2 A).

(** The three table pages are different and lie in the kernel image, which ends at [e]. *)
Record boot_pages : Prop := {
  bp_end : e ≤ PHYS_MEM_END;
  bp_l0 : a0 mod 2 ^ 12 = 0 ∧ 0 ≤ a0 ∧ a0 < e;
  bp_l1 : a1 mod 2 ^ 12 = 0 ∧ 0 ≤ a1 ∧ a1 < e;
  bp_l2 : a2 mod 2 ^ 12 = 0 ∧ 0 ≤ a2 ∧ a2 < e;
  bp_01 : a0 ≠ a1;
  bp_02 : a0 ≠ a2;
  bp_12 : a1 ≠ a2
}.

(** What [init_kernel_pt] left at the addresses of the high half's tables. *)
Definition boot_mem : gmap Z Z :=
  page_mem (phys_to_virt a0) (descr (boot_ttbr1_l0 B)) ∪
  (page_mem (phys_to_virt a1) (descr (boot_ttbr1_l1 B)) ∪ page_mem (phys_to_virt a2) (descr (boot_ttbr1_l2 B))).

Definition boot_levels : gmap Z (Z * Z) :=
  <[phys_to_virt a0 := (0, 0)]> (<[phys_to_virt a1 := (1, 510)]> {[phys_to_virt a2 := (2, 510 * 512)]}).

Definition boot_set : gset Z := dom boot_levels.

Context (HB : boot_pages).

Lemma page_virt a : a mod 2 ^ 12 = 0 ∧ 0 ≤ a ∧ a < e → direct_page (phys_to_virt a) ∧ phys_to_virt a = a + KBASE ∧ table_addr a.
Proof.
  intros (Hal & H0 & H1). pose proof (bp_end HB) as He. unfold PHYS_MEM_END in He. rewrite phys_to_virt_eq by lia.
  split; [|split; [done|split; [done|lia]]]. split; [|unfold KBASE; lia].
  rewrite Z.add_mod, Hal by lia. reflexivity.
Qed.

Lemma boot_level p l pre : boot_levels !! p = Some (l, pre) →
  (p = phys_to_virt a0 ∧ l = 0 ∧ pre = 0) ∨ (p = phys_to_virt a1 ∧ l = 1 ∧ pre = 510) ∨ (p = phys_to_virt a2 ∧ l = 2 ∧ pre = 510 * 512).
Proof.
  unfold boot_levels. rewrite !lookup_insert_Some, lookup_singleton_Some. naive_solver.
Qed.

Lemma virt_ne a b : a mod 2 ^ 12 = 0 ∧ 0 ≤ a ∧ a < e → b mod 2 ^ 12 = 0 ∧ 0 ≤ b ∧ b < e → a ≠ b → phys_to_virt a ≠ phys_to_virt b.
Proof. intros Ha Hb Hne. destruct (page_virt a Ha) as (_ & -> & _), (page_virt b Hb) as (_ & -> & _). lia. Qed.

Lemma boot_lookup_l0 i : 0 ≤ i < 512 → boot_mem !! (phys_to_virt a0 + 8 * i) = Some (descr (boot_ttbr1_l0 B) i).
Proof. intros Hi. apply lookup_union_Some_l. by rewrite lookup_page_mem. Qed.

Lemma boot_lookup_l1 i : 0 ≤ i < 512 → boot_mem !! (phys_to_virt a1 + 8 * i) = Some (descr (boot_ttbr1_l1 B) i).
Proof.
  intros Hi. destruct HB. unfold boot_mem. rewrite lookup_union_r.
  - apply lookup_union_Some_l. by rewrite lookup_page_mem.
  - apply lookup_page_mem_other; [by apply page_virt|by apply page_virt|by apply virt_ne|done].
Qed.

Lemma boot_lookup_l2 i : 0 ≤ i < 512 → boot_mem !! (phys_to_virt a2 + 8 * i) = Some (descr (boot_ttbr1_l2 B) i).
Proof.
  intros Hi. destruct HB. unfold boot_mem. rewrite !lookup_union_r.
  - by rewrite lookup_page_mem.
  - apply lookup_page_mem_other; [by apply page_virt|by apply page_virt|by apply virt_ne|done].
  - apply lookup_page_mem_other; [by apply page_virt|by apply page_virt|by apply virt_ne|done].
Qed.

(** The two views of a descriptor. *)
Lemma invalid_descr d : IS_PTE_INVALID d = negb (d_valid d).
Proof. apply IS_PTE_INVALID_bit. Qed.
Lemma table_descr_bit d : IS_PTE_TABLE d = d_table d.
Proof. apply IS_PTE_TABLE_bit. Qed.
Lemma next_descr d : GET_NEXT_PTP d = phys_to_virt (u64 (d_addr 12 d)).
Proof. reflexivity. Qed.

(** A table descriptor seen by the page table code. *)
Lemma boot_next a : a mod 2 ^ 12 = 0 ∧ 0 ≤ a ∧ a < e → let d := lors [a; IS_TABLE; IS_VALID; NG] in
  IS_PTE_INVALID d = false ∧ IS_PTE_TABLE d = true ∧ GET_NEXT_PTP d = phys_to_virt a.
Proof.
  intros Ha. destruct (page_virt a Ha) as (_ & _ & Ht). destruct (table_descr a Ht) as (H1 & H2 & H3). cbv zeta in *.
  rewrite invalid_descr, table_descr_bit, next_descr, H1, H2, H3. split_and!; [done|done|].
  f_equal. apply u64_small. destruct Ht. lia.
Qed.

Lemma l0_descr i : descr (boot_ttbr1_l0 B) i = if decide (i = 510) then lors [a1; IS_TABLE; IS_VALID; NG] else 0.
Proof.
  rewrite hi_l0. unfold descr. case_decide as Hi; [subst; by rewrite lookup_singleton_eq|by rewrite lookup_singleton_ne].
Qed.

Lemma l1_descr i : descr (boot_ttbr1_l1 B) i =
  if decide (i = 0) then lors [a2; IS_TABLE; IS_VALID; NG] else if decide (1 ≤ i ≤ 3) then block_1g i else 0.
Proof.
  rewrite hi_l1. unfold descr. case_decide as H0; [by subst|]. case_decide as H3.
  - assert (i = 1 ∨ i = 2 ∨ i = 3) as [-> | [-> | -> ]] by lia; reflexivity.
  - by rewrite !lookup_insert_ne, lookup_singleton_ne by lia.
Qed.

Lemma block_1g_bits i : 1 ≤ i ≤ 3 → IS_PTE_INVALID (block_1g i) = false ∧ IS_PTE_TABLE (block_1g i) = false ∧
  GET_NEXT_PTP (block_1g i) = phys_to_virt (i * 2 ^ 30).
Proof. intros Hi. assert (i = 1 ∨ i = 2 ∨ i = 3) as [-> | [-> | -> ]] by lia; split_and!; reflexivity. Qed.

Lemma l2_bits_good : blocks_2m (boot_ttbr1_l2 B) = true.
Proof. vm_compute. reflexivity. Qed.

#[local] Opaque init_kernel_pt.

Lemma l2_bits i : 0 ≤ i < 512 → let d := descr (boot_ttbr1_l2 B) i in
  IS_PTE_INVALID d = false ∧ IS_PTE_TABLE d = false ∧ GET_NEXT_PTP d = phys_to_virt (i * 2 ^ 21).
Proof. apply blocks_2m_entry, l2_bits_good. Qed.

(** The tables of the boot stage are a well-formed tree. *)
Lemma boot_pt_ok : pt_ok boot_mem (phys_to_virt a0) boot_levels boot_set.
Proof.
  pose proof HB as [_ H0 H1 H2 _ H02 H12]. assert (phys_to_virt a1 ≠ phys_to_virt a0) as N10 by (destruct HB; by apply virt_ne).
  split.
  - apply lookup_insert_eq.
  - intros p l pre Hp. assert (p ∈ boot_set) by (by apply elem_of_dom; eexists).
    apply boot_level in Hp as [(-> & -> & _)|[(-> & -> & _)|(-> & -> & _)]]; (split; [by apply page_virt|split; [done|lia]]).
  - intros p l pre i [(-> & _)|[(-> & _)|(-> & _)]]%boot_level Hi; [rewrite boot_lookup_l0|rewrite boot_lookup_l1|rewrite boot_lookup_l2]; eauto.
  - intros p l pre i d [(-> & -> & ->)|[(-> & -> & ->)|(-> & -> & ->)]]%boot_level _ Hi.
    + rewrite boot_lookup_l0, l0_descr by done. case_decide as Hd; [|by intros [= <-]]. intros [= <-] _ _. subst i.
      destruct (boot_next a1 H1) as (_ & _ & ->). unfold boot_levels. by rewrite lookup_insert_ne, lookup_insert_eq.
    + rewrite boot_lookup_l1, l1_descr by done. case_decide as Hd.
      * intros [= <-] _ _. subst i. destruct (boot_next a2 H2) as (_ & _ & ->). unfold boot_levels.
        rewrite !lookup_insert_ne by by apply virt_ne. by rewrite lookup_singleton_eq.
      * case_decide as H3; intros [= <-] Hv Ht; [|done]. destruct (block_1g_bits i H3) as (_ & Hb & _). by rewrite Hb in Ht.
    + rewrite boot_lookup_l2 by done. intros Hd _ Ht. apply (inj Some) in Hd as <-. destruct (l2_bits i Hi) as (_ & Hb & _). cbv zeta in Hb. rewrite Hb in Ht. discriminate Ht.
  - intros p pre i d [(-> & _)|[(_ & ? & _)|(_ & ? & _)]]%boot_level Hi; [|done|done].
    rewrite boot_lookup_l0, l0_descr by done. case_decide; intros [= <-] Hv; [|done]. by destruct (boot_next a1 H1) as (_ & -> & _).
Qed.

(** *** What the code's walk sees *)
Lemma idx_boot va : idx 0 (vpn_of va) = Boot.GET_L0_INDEX va ∧ idx 1 (vpn_of va) = Boot.GET_L1_INDEX va ∧ idx 2 (vpn_of va) = Boot.GET_L2_INDEX va.
Proof. split_and!; symmetry; [apply (get_index va 0)|apply (get_index va 1)|apply (get_index va 2)]; lia. Qed.

(** The direct map: the 4 GB from [KBASE] on. *)
Lemma boot_walk a : 0 ≤ a < 2 ^ 32 → ∃ w, walk 3 boot_mem (phys_to_virt a0) 0 (vpn_of (a + KBASE)) = Some w ∧ leaf_pa (a + KBASE) w = a.
Proof.
  intros Ha. pose proof HB as [_ H0 H1 H2 _ _ _]. assert (u64 (a + KERNEL_VADDR) = a + KBASE) as Eva by (apply u64_small; unfold KERNEL_VADDR, KBASE; lia).
  destruct (high_index a ltac:(lia)) as (E0 & E1 & E2 & Em2 & Em1). rewrite Eva in E0, E1, E2, Em2, Em1. destruct (idx_boot (a + KBASE)) as (I0 & I1 & I2).
  set (va := a + KBASE) in *. cbn [walk]. change (0 + 1) with 1. change (1 + 1) with 2.
  rewrite I0, E0, boot_lookup_l0, l0_descr, decide_True by (done || lia). destruct (boot_next a1 H1) as (-> & -> & ->).
  rewrite I1, E1, boot_lookup_l1, l1_descr by (apply Z.mod_pos_bound; lia).
  pose proof (Z.div_mod a (2 ^ 30) ltac:(lia)) as Hdm. pose proof (Z.mod_pos_bound a (2 ^ 30) ltac:(lia)) as Hm.
  set (i := a / 2 ^ 30) in *. assert (0 ≤ i ≤ 3) as Hi by lia. rewrite (Z.mod_small i) by lia. case_decide as Hi0.
  - destruct (boot_next a2 H2) as (-> & -> & ->). rewrite I2, E2, boot_lookup_l2 by (apply Z.mod_pos_bound; lia).
    destruct (l2_bits ((a / 2 ^ 21) mod 512)) as (-> & -> & Hn); [apply Z.mod_pos_bound; lia|]. eexists. split; [done|].
    unfold leaf_pa. cbn [fst snd]. rewrite Hn. change (12 + 9 * (3 - 2)) with 21. change SIZE_2M with (2 ^ 21) in Em2. rewrite Em2.
    destruct (block_2m a 0 ltac:(lia) eq_refl) as [Hb _]. change SIZE_2M with (2 ^ 21) in Hb.
    pose proof (Z.mod_pos_bound (a / 2 ^ 21) 512). pose proof (Z.mod_pos_bound a (2 ^ 21)).
    rewrite virt_phys_virt, u64_small by lia. lia.
  - rewrite decide_True by lia. destruct (block_1g_bits i ltac:(lia)) as (-> & -> & Hn). eexists. split; [done|].
    unfold leaf_pa. cbn [fst snd]. rewrite Hn. change (12 + 9 * (3 - 1)) with 30. change SIZE_1G with (2 ^ 30) in Em1. rewrite Em1.
    rewrite virt_phys_virt, u64_small by lia. lia.
Qed.

(** Nothing else of the high half is mapped. *)
Lemma boot_walk_top vpn : idx 0 vpn = 511 → walk 3 boot_mem (phys_to_virt a0) 0 vpn = None.
Proof. intros Hi. cbn [walk]. rewrite Hi, boot_lookup_l0, l0_descr, decide_False by lia. done. Qed.

(** The table pages are outside the region of the buddy allocator, whatever is allocated there. *)
Lemma boot_pages_in_use b U : phys_to_virt e ≤ start_addr b → 0 < e → pages_in_use b U boot_set.
Proof.
  intros Hst He p Hp Hpr. exfalso. unfold boot_set in Hp. apply elem_of_dom in Hp as [[l pre] Hp]. pose proof HB as [Hend H0 H1 H2 _ _ _].
  unfold PHYS_MEM_END in Hend. rewrite phys_to_virt_eq in Hst by lia.
  apply boot_level in Hp as [(-> & _)|[(-> & _)|(-> & _)]];
    [destruct (page_virt a0 H0) as (_ & ? & _)|destruct (page_virt a1 H1) as (_ & ? & _)|destruct (page_virt a2 H2) as (_ & ? & _)]; lia.
Qed.

Lemma boot_map_pre (b : bstate) U stk : buddy_ok b U → region_direct b → used_pages U + 3 ≤ page_num b → phys_to_virt e ≤ start_addr b → 0 < e →
  0 ≤ stk ≤ 2 ^ 48 - 2 ^ 12 → map_pre (mk_pt b boot_mem None) (phys_to_virt a0) (KSTACKx_ADDR 0) stk CPU_STACK_SIZE boot_levels boot_set 3.
Proof.
  intros Hok Hd Hn Hst He Hs. change CPU_STACK_SIZE with (2 ^ 12). assert (page_count (2 ^ 12) = 1) as Hc by reflexivity.
  assert (vpn_of (KSTACKx_ADDR 0) = 0xFFFF00000 ∧ KSTACKx_ADDR 0 mod 2 ^ 12 = 0) as [Hv Hm] by (split; reflexivity).
  split; rewrite ?Hv, ?Hc; [|lia|exact Hm|lia|lia|lia|lia|].
  - split; [apply boot_pt_ok| |done]. exists U. split_and!; [done|done|exact Hn|by apply boot_pages_in_use].
  - intros i Hi. assert (i = 0) as -> by lia. intros w. rewrite boot_walk_top by reflexivity. discriminate.
Qed.
End boot.

(** ** After [mm_init] *)

(** The region of the allocator after [mm_init] is in the direct map, above the image. *)
Lemma booted_region e b0 b : 0 < e → e + 2 ^ 23 ≤ PHYS_MEM_END → init_layout e b0 → geo b0 b →
  region_direct b ∧ 3 ≤ page_num b ∧ phys_to_virt e ≤ start_addr b.
Proof.
  intros He Hroom (Hst & Hsz & _ & Hn & _) Hg. destruct (layout_ok e) as (Hps & _ & Hn0 & Hest & Hfs & Hfa & Hnp); [unfold PHYS_MEM_END in *; lia|].
  unfold region_direct. rewrite (ge_start _ _ Hg), (ge_size _ _ Hg), (ge_num _ _ Hg), Hst, Hsz, Hn. unfold PHYS_MEM_END in *.
  rewrite !phys_to_virt_eq by lia. split_and!; lia.
Qed.

Lemma vpn_stack o : 0 ≤ o < 2 ^ 12 → vpn_of (KSTACKx_ADDR 0 + o) = vpn_of (KSTACKx_ADDR 0) ∧ (KSTACKx_ADDR 0 + o) mod 2 ^ 12 = o.
Proof.
  intros Ho. change (KSTACKx_ADDR 0) with (0xFFFFFFFF00000 * 2 ^ 12). unfold vpn_of. rewrite Z.div_add_l, (Z.div_small o), Z.add_0_r by lia.
  split; [by rewrite Z.div_mul by lia|]. rewrite Z.add_comm, Z.mod_add, Z.mod_small by lia. done.
Qed.

(** The run of [map_kernel_stack] in terms of walks. *)
Lemma map_kernel_stack_run A a0 e b U stk : boot_pages A a0 e → 0 < e → buddy_ok b U → region_direct b → used_pages U + 3 ≤ page_num b →
  phys_to_virt e ≤ start_addr b → KBASE ≤ stk → stk < KBASE + 2 ^ 40 →
  ∃ s' T' H' n', map_kernel_stack a0 stk (mk_pt b (boot_mem A a0) None) = Ok (0, s') ∧ pts s' (phys_to_virt a0) T' H' n' ∧
    mapped (phys_to_virt a0) (vpn_of (KSTACKx_ADDR 0)) (stk - KBASE) 1 (Z.lor VMR_READ VMR_WRITE) KERNEL_PTE
      (mk_pt b (boot_mem A a0) None) (boot_levels A a0) s' T'.
Proof.
  intros HB He Hok Hd Hn Hst Hs1 Hs2. unfold KBASE in Hs1, Hs2. unfold map_kernel_stack. rewrite (u64_small (stk - KBASE)) by (unfold KBASE; lia).
  fold (phys_to_virt a0).
  pose proof (boot_map_pre A a0 e HB b U (stk - KBASE) Hok Hd Hn Hst He ltac:(unfold KBASE; lia)) as Hpre.
  pose proof (wp_map_range _ _ _ _ _ (Z.lor VMR_READ VMR_WRITE) KERNEL_PTE _ _ _ Hpre (or_intror eq_refl)) as Hw.
  destruct (proj1 (wp_inv _ _ _) Hw) as (r & s' & E & -> & T' & H' & n' & HP & HM).
  exists s', T', H', n'. split_and!; [|done|done]. unfold map_range_in_pgtbl_kernel, mbind, M_bind, gets, modify, mret, M_ret.
  change (set_rss None (mk_pt b (boot_mem A a0) None)) with (mk_pt b (boot_mem A a0) None). rewrite E. cbn [rss].
  pose proof (mp_rss _ _ _ _ _ _ _ _ _ _ HM) as Hr. cbn in Hr. do 2 f_equal. destruct s' as [b' m' r']. cbn in Hr. by subst.
Qed.

(** The entry of the stack: readable and writable, from EL0 too, and never executable. *)
Lemma stack_pte pa : let pte := l3_val pa (Z.lor VMR_READ VMR_WRITE) KERNEL_PTE in
  get_field 6 2 pte = AARCH64_MMU_ATTR_PAGE_AP_HIGH_RW_EL0_RW ∧ get_field 53 1 pte = 1 ∧ get_field 54 1 pte = 1.
Proof.
  cbv zeta. change (Z.lor VMR_READ VMR_WRITE) with 3.
  assert (has_flag 3 VMR_EXEC = false ∧ has_flag 3 VMR_DEVICE = false ∧ has_flag 3 VMR_NOCACHE = false) as (E1 & E2 & E3) by done.
  unfold l3_val, pte_flags. rewrite E1, E2, E3. split_and!; pte_fields 0; reflexivity.
Qed.

(** The stack of the first CPU as the page table [p] shows it: mapped at
    [KSTACKx_ADDR(0)], nothing else in the top 512 GB, the direct map intact. *)
Definition stack_view (a0 stk : Z) (p : ptstate bstate) : Prop :=
  (∀ o, 0 ≤ o < CPU_STACK_SIZE → ∃ ent pte,
     query_in_pgtbl (phys_to_virt a0) (KSTACKx_ADDR 0 + o) p = Ok (inr ((stk - KBASE) / PAGE_SIZE * PAGE_SIZE + o, ent), p) ∧
     mem p !! ent = Some pte ∧ get_field 6 2 pte = AARCH64_MMU_ATTR_PAGE_AP_HIGH_RW_EL0_RW ∧ get_field 53 1 pte = 1 ∧ get_field 54 1 pte = 1) ∧
  (∀ x, idx 0 (vpn_of x) = 511 → vpn_of x ≠ vpn_of (KSTACKx_ADDR 0) → query_in_pgtbl (phys_to_virt a0) x p = Ok (inl (- ENOMEM), p)) ∧
  (∀ a, 0 ≤ a < 2 ^ 32 → ∃ ent, query_in_pgtbl (phys_to_virt a0) (a + KBASE) p = Ok (inr (a, ent), p)).

Lemma map_kernel_stack_view A a0 e b U stk : boot_pages A a0 e → 0 < e → buddy_ok b U → region_direct b → used_pages U + 3 ≤ page_num b →
  phys_to_virt e ≤ start_addr b → KBASE ≤ stk → stk < KBASE + 2 ^ 40 →
  ∃ s', map_kernel_stack a0 stk (mk_pt b (boot_mem A a0) None) = Ok (0, s') ∧ stack_view a0 stk s'.
Proof.
  intros HB He Hok Hd Hn Hst Hs1 Hs2. destruct (map_kernel_stack_run A a0 e b U stk) as (s' & T' & H' & n' & Em & HP & HM); [done..|].
  exists s'. split; [done|]. unfold stack_view. change CPU_STACK_SIZE with (2 ^ 12). change PAGE_SIZE with (2 ^ 12). split_and!.
  - intros o Ho. destruct (vpn_stack o Ho) as [Hv Ho']. destruct (mp_in _ _ _ _ _ _ _ _ _ _ HM 0 ltac:(lia)) as [ent Hw].
    rewrite Z.add_0_r, Z.mul_0_l, Z.add_0_r in Hw. exists ent, (l3_val (stk - KBASE) (Z.lor VMR_READ VMR_WRITE) KERNEL_PTE).
    rewrite (query_walk _ _ _ _ _ (pts_tree _ _ _ _ _ HP)), Hv, Hw. rewrite leaf_pa_l3, Ho' by (unfold KBASE in *; lia).
    split; [done|]. split; [by apply walk_entry in Hw as [? _]|]. apply stack_pte.
  - intros x Hx Hne. rewrite (query_walk _ _ _ _ _ (pts_tree _ _ _ _ _ HP)), (mp_out _ _ _ _ _ _ _ _ _ _ HM) by (apply vpn_range || lia).
    cbn [mem]. by rewrite (boot_walk_top A a0).
  - intros a Ha. destruct (boot_walk A a0 e HB a Ha) as (w & Hw & Hlp).
    rewrite (query_walk _ _ _ _ _ (pts_tree _ _ _ _ _ HP)), (mp_out _ _ _ _ _ _ _ _ _ _ HM); [|apply vpn_range|].
    + cbn [mem]. rewrite Hw, Hlp. eauto.
    + intros Hc. destruct (high_index a ltac:(lia)) as (E0 & _). destruct (idx_boot (a + KBASE)) as (I0 & _).
      assert (vpn_of (a + KBASE) = vpn_of (KSTACKx_ADDR 0)) as Hv by lia. rewrite Hv in I0.
      rewrite u64_small in E0 by (unfold KERNEL_VADDR; lia). change KERNEL_VADDR with KBASE in E0. rewrite E0 in I0. discriminate I0.
Qed.

(** C15. The last step of bringing up memory, on the page tables of the boot
    stage and with table pages from the freshly initialised allocators, after
    their self tests: [main] maps the stack of the first CPU.  The call returns
    0; the page at [KSTACKx_ADDR(0)] translates to the frame of [cpu_stacks[0]],
    with read and write access at EL1 and also at EL0, never executable; every other page of the top 512 GB stays unmapped (so the
    stack has guard pages on both sides); and the direct map of the first 4 GB
    is unchanged. *)
Theorem kernel_stack_mapped A a0 e mr pool stk :
  0 < e → e + 2 ^ 23 ≤ PHYS_MEM_END → 0 < mr → mr + 304 ≤ phys_to_virt e → 0 < pool → pool + 256 ≤ phys_to_virt e →
  boot_pages A a0 e → KBASE ≤ stk → stk + CPU_STACK_SIZE ≤ phys_to_virt e →
  ∃ st st1 st2 s', mm_init_allocators e (bss_slab (bss_bstate mr) pool) = Ok (tt, st) ∧
    run_test1 sizes st = Ok (tt, st1) ∧ kmalloc_test st1 = Ok (tt, st2) ∧
    map_kernel_stack a0 stk (mk_pt (bud st2) (boot_mem A a0) None) = Ok (0, s') ∧
    (∀ o, 0 ≤ o < CPU_STACK_SIZE → ∃ ent pte,
       query_in_pgtbl (phys_to_virt a0) (KSTACKx_ADDR 0 + o) s' = Ok (inr ((stk - KBASE) / PAGE_SIZE * PAGE_SIZE + o, ent), s') ∧
       mem s' !! ent = Some pte ∧ get_field 6 2 pte = AARCH64_MMU_ATTR_PAGE_AP_HIGH_RW_EL0_RW ∧ get_field 53 1 pte = 1 ∧ get_field 54 1 pte = 1) ∧
    (∀ x, idx 0 (vpn_of x) = 511 → vpn_of x ≠ vpn_of (KSTACKx_ADDR 0) → query_in_pgtbl (phys_to_virt a0) x s' = Ok (inl (- ENOMEM), s')) ∧
    (∀ a, 0 ≤ a < 2 ^ 32 → ∃ ent, query_in_pgtbl (phys_to_virt a0) (a + KBASE) s' = Ok (inr (a, ent), s')).
Proof.
  intros He Hroom Hmr Hb Hpa Hpb HB Hs1 Hs2. destruct (mm_init_run e mr pool) as (st & st1 & st2 & E & _ & Hl & E1 & E2 & [H2 Hg]); [done..|].
  destruct (booted_region e _ _ He Hroom Hl Hg) as (Hd & H3 & Hst). pose proof (slab_ok_buddy _ _ _ H2) as Hok.
  unfold PHYS_MEM_END in Hroom. rewrite (phys_to_virt_eq e) in Hs2 by lia.
  destruct (map_kernel_stack_view A a0 e (bud st2) ∅ stk) as (s' & Em & Hv); [done..|change CPU_STACK_SIZE with (2 ^ 12) in *; lia|].
  exists st, st1, st2, s'. split_and!; [done..|apply Hv|apply Hv|apply Hv].
Qed.

Lemma demo_boot_pages : boot_pages demo_addrs 0x92000 demo_end.
Proof. split; try split_and!; vm_compute; congruence. Qed.

Lemma kernel_stack_mapped_witness :
  ∃ st st1 st2 s', mm_init_allocators demo_end (bss_slab (bss_bstate demo_mr) demo_pool) = Ok (tt, st) ∧
    run_test1 sizes st = Ok (tt, st1) ∧ kmalloc_test st1 = Ok (tt, st2) ∧
    map_kernel_stack 0x92000 (KBASE + 0x95000) (mk_pt (bud st2) (boot_mem demo_addrs 0x92000) None) = Ok (0, s') ∧
    (∀ o, 0 ≤ o < CPU_STACK_SIZE → ∃ ent pte,
       query_in_pgtbl (phys_to_virt 0x92000) (KSTACKx_ADDR 0 + o) s' = Ok (inr ((KBASE + 0x95000 - KBASE) / PAGE_SIZE * PAGE_SIZE + o, ent), s') ∧
       mem s' !! ent = Some pte ∧ get_field 6 2 pte = AARCH64_MMU_ATTR_PAGE_AP_HIGH_RW_EL0_RW ∧ get_field 53 1 pte = 1 ∧ get_field 54 1 pte = 1) ∧
    (∀ x, idx 0 (vpn_of x) = 511 → vpn_of x ≠ vpn_of (KSTACKx_ADDR 0) → query_in_pgtbl (phys_to_virt 0x92000) x s' = Ok (inl (- ENOMEM), s')) ∧
    (∀ a, 0 ≤ a < 2 ^ 32 → ∃ ent, query_in_pgtbl (phys_to_virt 0x92000) (a + KBASE) s' = Ok (inr (a, ent), s')).
Proof.
  apply (kernel_stack_mapped demo_addrs 0x92000 demo_end demo_mr demo_pool (KBASE + 0x95000)); [..|exact demo_boot_pages| |]; vm_compute; congruence.
Defined.
