(* ===== verification/Machine.v ===== *)
(** * CPUs, interrupts and timers

    [arch/aarch64/machine/smp.c], [pmu.c], [arch/aarch64/plat/raspi3/irq/irq.c],
    [.../irq/timer.c], [irq/timer.c], [arch/aarch64/irq/irq_entry.c],
    [arch/aarch64/plat/raspi3/poweroff.c] and [syscall/syscall.c].

    The state of the running core: its device registers, the system registers
    it can read ([sysrd], inputs) and the instructions with an effect on it that
    it has executed ([done]: [msr], barriers, masking of interrupts; the
    assembly routines [disable_irq] and [set_exception_vector] are one step
    each), and the C variables of these files.  Messages are printed as the
    build asks for; those between a failed check and [BUG] are left out, since a
    stopped kernel has no state.  [u0] is what the uninitialised union of
    [simple_vsprintf] holds when a message is printed; [u t] is that for a
    message at the device time [t]. *)

From stdpp Require Import strings.
From S2P Require Import Prelude Macro ListHead Utils Printk Mmio Uart Kprint Bitops.
Import PL011.

Inductive sysreg : Type :=
| TPIDR_EL1 | CTR_EL0 | MPIDR_EL1 | CNTPCT_EL0 | CNTFRQ_EL0 | CNTP_TVAL_EL0 | CNTP_CTL_EL0
| PMUSERENR_EL0 | PMCR_EL0 | PMCNTENSET_EL0 | PMCCNTR_EL0.

Inductive insn : Type :=
| Msr (r : sysreg) (v : Z)
| DisableIrq
| SetExceptionVector
| Isb
| SmpMb.

(** [struct per_cpu_info] (64 bytes with its padding) *)
Record per_cpu_info : Type := mk_info { cur_exec_ctx : Z; cpu_stack : Z; fpu_owner : Z; fpu_disable : Z }.
Definition sizeof_info : Z := 8 + 8 + 8 + 4 + pad_to_cache_line (8 + 8 + 8 + 4).

(** The globals of [timer.c] *)
Record tstate : Type := mk_tstate { cntp_init : Z; cntp_freq : Z; cntp_tval : Z; tick_per_us : Z }.

Record mstate : Type := mk_mstate {
  uart : ustate;
  sysrd : sysreg → Z;
  tpidr : Z;
  done : list insn;
  once : Z;                       (* the static of [interrupt_init] *)
  timer : tstate;
  irq_handle_type : bytes;        (* by index *)
  cpu_info : gmap Z per_cpu_info; (* by CPU *)
  cpu_info_addr : Z;
  ctr_el0 : Z;
  sleep_lists : nheap;            (* the list heads of [time_states], by address *)
  sleep_locks : gmap Z Z;
  time_states : Z                 (* its address *)
}.

Definition set_uart u (s : mstate) := mk_mstate u (sysrd s) (tpidr s) (done s) (once s) (timer s) (irq_handle_type s) (cpu_info s) (cpu_info_addr s) (ctr_el0 s) (sleep_lists s) (sleep_locks s) (time_states s).
Definition set_tpidr v (s : mstate) := mk_mstate (uart s) (sysrd s) v (done s) (once s) (timer s) (irq_handle_type s) (cpu_info s) (cpu_info_addr s) (ctr_el0 s) (sleep_lists s) (sleep_locks s) (time_states s).
Definition set_done d (s : mstate) := mk_mstate (uart s) (sysrd s) (tpidr s) d (once s) (timer s) (irq_handle_type s) (cpu_info s) (cpu_info_addr s) (ctr_el0 s) (sleep_lists s) (sleep_locks s) (time_states s).
Definition set_once v (s : mstate) := mk_mstate (uart s) (sysrd s) (tpidr s) (done s) v (timer s) (irq_handle_type s) (cpu_info s) (cpu_info_addr s) (ctr_el0 s) (sleep_lists s) (sleep_locks s) (time_states s).
Definition set_timer t (s : mstate) := mk_mstate (uart s) (sysrd s) (tpidr s) (done s) (once s) t (irq_handle_type s) (cpu_info s) (cpu_info_addr s) (ctr_el0 s) (sleep_lists s) (sleep_locks s) (time_states s).
Definition set_types b (s : mstate) := mk_mstate (uart s) (sysrd s) (tpidr s) (done s) (once s) (timer s) b (cpu_info s) (cpu_info_addr s) (ctr_el0 s) (sleep_lists s) (sleep_locks s) (time_states s).
Definition set_cpu_info i (s : mstate) := mk_mstate (uart s) (sysrd s) (tpidr s) (done s) (once s) (timer s) (irq_handle_type s) i (cpu_info_addr s) (ctr_el0 s) (sleep_lists s) (sleep_locks s) (time_states s).
Definition set_ctr v (s : mstate) := mk_mstate (uart s) (sysrd s) (tpidr s) (done s) (once s) (timer s) (irq_handle_type s) (cpu_info s) (cpu_info_addr s) v (sleep_lists s) (sleep_locks s) (time_states s).
Definition set_sleep_lists h (s : mstate) := mk_mstate (uart s) (sysrd s) (tpidr s) (done s) (once s) (timer s) (irq_handle_type s) (cpu_info s) (cpu_info_addr s) (ctr_el0 s) h (sleep_locks s) (time_states s).
Definition set_sleep_locks l (s : mstate) := mk_mstate (uart s) (sysrd s) (tpidr s) (done s) (once s) (timer s) (irq_handle_type s) (cpu_info s) (cpu_info_addr s) (ctr_el0 s) (sleep_lists s) l (time_states s).

Definition on_uart {A} (m : M ustate A) : M mstate A := zoom uart set_uart m.
Definition on_regs {A} (m : M mmio A) : M mstate A := on_uart (on_io m).
Definition run (i : insn) : M mstate unit := modify (λ s, set_done (done s ++ [i]) s).
Definition mrs (r : sysreg) : M mstate Z := gets (λ s, u64 (sysrd s r)).

(** ** [smp.c] *)
Definition get_per_cpu_info : M mstate Z := gets tpidr.

Definition smp_get_cpu_id : M mstate Z :=
  info ← get_per_cpu_info;
  base ← gets cpu_info_addr;
  mret (u32 (Z.quot (info - base) sizeof_info)).

Definition read_ctr : M mstate Z := mrs CTR_EL0.

Definition init_per_cpu_info (cpuid : Z) : M mstate unit :=
  (if cpuid =? 0 then v ← read_ctr; modify (set_ctr v) else mret tt) ;;
  info ← gets (λ s, cpu_info_addr s + cpuid * sizeof_info);
  _ ← load (λ s, cpu_info s !! cpuid);
  modify (λ s, set_cpu_info (<[cpuid := mk_info 0 (u64 (KSTACKx_ADDR cpuid + CPU_STACK_SIZE)) NULL 0]> (cpu_info s)) s) ;;
  modify (set_tpidr info) ;;
  run (Msr TPIDR_EL1 info).

Definition smp_get_mpidr : M mstate Z := mrs MPIDR_EL1.

Section build.
Context {b : build_type}.

(** [kinfo(fmt, args...)] and [kdebug(fmt, args...)]; [fmt] without its terminator *)
Definition say_info (u : nat → Z) (fmt args : list Z) : M mstate unit :=
  t ← gets (λ s, clock (io (uart s)));
  on_regs (kinfo (fmt ++ [0]) args (u t)).
Definition say_debug (u : nat → Z) (fmt args : list Z) : M mstate unit :=
  t ← gets (λ s, clock (io (uart s)));
  on_regs (kdebug (fmt ++ [0]) args (u t)).
(** A line of a message *)
Definition ln (s : string) : list Z := chars s ++ [c_nl].

(** ** [pmu.c] *)
Definition PMUSERENR_BITS : Z := Z.lor (Z.lor (Z.lor 1 (Z.shiftl 1 1)) (Z.shiftl 1 2)) (Z.shiftl 1 3).
Definition PMCR_EL0_E : Z := Z.shiftl 1 0.
Definition PMCR_EL0_LC : Z := Z.shiftl 1 6.
(** [(1 << 31)] is a negative [int]. *)
Definition PMCNTENSET_EL0_C : Z := s32 (Z.shiftl 1 31).

Definition enable_cpu_cnt : M mstate unit :=
  run (Msr PMUSERENR_EL0 PMUSERENR_BITS) ;;
  run (Msr PMCR_EL0 (Z.lor PMCR_EL0_LC PMCR_EL0_E)) ;;
  run (Msr PMCNTENSET_EL0 PMCNTENSET_EL0_C).
Definition disable_cpu_cnt : M mstate unit :=
  run (Msr PMCR_EL0 (Z.lnot PMCR_EL0_E)) ;;
  run (Msr PMCNTENSET_EL0 0).
Definition read_cycles : M mstate Z := mrs PMCCNTR_EL0.
Definition pmu_init (u : nat → Z) : M mstate unit :=
  enable_cpu_cnt ;;
  c ← read_cycles;
  say_debug u (ln "pmu init current_cycle = %lu") [c].

(** ** The platform's timer *)
Definition TICK_MS : Z := 10.
Definition NS_IN_US : Z := 1000.
Definition core_timer_irqcntl (cpuid : Z) : M mstate Z :=
  load (λ _, if (0 <=? cpuid) && (cpuid <? PLAT_CPU_NUM) then Some (CORE_TIMER_IRQCNTL_BASE + cpuid * 4) else None).

Definition plat_timer_init (u : nat → Z) : M mstate unit :=
  cpuid ← smp_get_cpu_id;
  init ← mrs CNTPCT_EL0;
  modify (λ s, set_timer (mk_tstate init (cntp_freq (timer s)) (cntp_tval (timer s)) (tick_per_us (timer s))) s) ;;
  say_debug u (ln "timer init cntpct_el0 = %lu") [init] ;;
  freq ← mrs CNTFRQ_EL0;
  modify (λ s, set_timer (mk_tstate init freq (cntp_tval (timer s)) (tick_per_us (timer s))) s) ;;
  say_debug u (ln "timer init cntfrq_el0 = %lu") [freq] ;;
  let tval := u64 (freq * TICK_MS) / 1000 in
  modify (λ s, set_timer (mk_tstate init freq tval (tick_per_us (timer s))) s) ;;
  say_info u (ln "CPU freq %lu, set timer %lu") [freq; tval] ;;
  modify (λ s, set_timer (mk_tstate init freq tval (freq / 1000 / 1000)) s) ;;
  run (Msr CNTP_TVAL_EL0 tval) ;;
  count_down ← mrs CNTP_TVAL_EL0;
  say_debug u (ln "timer init cntp_tval_el0 = %lu") [count_down] ;;
  reg ← core_timer_irqcntl cpuid;
  on_regs (put32 reg INT_SRC_TIMER1) ;;
  run (Msr CNTP_CTL_EL0 (Z.lor (Z.shiftl 0 1) 1)) ;;
  timer_ctl ← mrs CNTP_CTL_EL0;
  say_debug u (ln "timer init cntp_ctl_el0 = %lu") [timer_ctl].

Definition plat_set_next_timer (tick_delta : Z) : M mstate unit := run (Msr CNTP_TVAL_EL0 tick_delta).
Definition plat_set_init_timer : M mstate unit := t ← gets timer; run (Msr CNTP_TVAL_EL0 (cntp_tval t)).

(** A division by zero is undefined. *)
Definition plat_get_mono_time : M mstate Z :=
  cur_cnt ← mrs CNTPCT_EL0;
  t ← gets timer;
  if tick_per_us t =? 0 then stop HFault
  else mret (u64 (u64 (cur_cnt - cntp_init t) * NS_IN_US) / tick_per_us t).
Definition plat_get_current_tick : M mstate Z := mrs CNTPCT_EL0.

(** ** [irq/timer.c]: [struct time_state] is 32 bytes, its list head at 8, its lock at 24 *)
Definition timer_init (u : nat → Z) : M mstate unit :=
  cpuid ← smp_get_cpu_id;
  (if cpuid =? 0 then
     for_up (Z.to_nat PLAT_CPU_NUM) 0 (λ i,
       base ← gets time_states;
       zoom sleep_lists set_sleep_lists (init_list_head (base + i * 32 + 8)) ;;
       modify (λ s, set_sleep_locks (<[i := 0]> (sleep_locks s)) s))
   else mret tt) ;;
  plat_timer_init u.

Definition handle_timer_irq : M mstate unit := plat_set_init_timer.

(** ** The interrupt controller *)
Definition IRQ_USB : Z := 9.
Definition IRQ_UART : Z := 32 + 25.
Definition IRQ_UART_BIT : Z := Z.shiftl 1 (IRQ_UART - 32).

Definition interrupt_init : M mstate unit :=
  o ← gets once;
  if o =? 1 then
    modify (set_once 0) ;;
    on_regs (put32 BCM2835_IRQ_FIQ_CTRL 0) ;;
    on_regs (put32 BCM2835_IRQ_DISABLE1 (u32 (-1))) ;;
    on_regs (put32 BCM2835_IRQ_DISABLE2 (u32 (-1))) ;;
    on_regs (put32 BCM2835_IRQ_DISABLE_BASIC (u32 (-1))) ;;
    v ← on_regs (get32 BCM2835_IRQ_BASIC);
    on_regs (put32 BCM2835_IRQ_BASIC v) ;;
    v ← on_regs (get32 BCM2835_IRQ_PENDING1);
    on_regs (put32 BCM2835_IRQ_PENDING1 v) ;;
    v ← on_regs (get32 BCM2835_IRQ_PENDING2);
    on_regs (put32 BCM2835_IRQ_PENDING2 v) ;;
    on_regs (plat_enable_irqno IRQ_USB) ;;
    on_uart (enable_uart_irq IRQ_UART) ;;
    run Isb ;;
    run SmpMb
  else mret tt.
Definition plat_interrupt_init : M mstate unit := interrupt_init.

Definition core_irq_source (cpuid : Z) : M mstate Z :=
  load (λ _, if (0 <=? cpuid) && (cpuid <? PLAT_CPU_NUM) then Some (CORE_IRQ_BASE + cpuid * 4) else None).

(** [1 << ctzl(irq_src)]: an [int] shift by 32 or more is undefined, [ub] is
    what it yields. *)
Definition lowest_irq (ub irq_src : Z) : Z :=
  if ctzl irq_src <? 32 then u32 (Z.shiftl 1 (ctzl irq_src)) else ub.

Definition unsupported_format : list Z := chars "Unsupported IRQ %d" ++ [c_nl; 0].

Definition plat_handle_irq (ub u0 : Z) : M mstate unit :=
  cpuid ← smp_get_cpu_id;
  reg ← core_irq_source cpuid;
  irq_src ← on_regs (get32 reg);
  let irq := lowest_irq ub irq_src in
  if irq =? INT_SRC_TIMER1 then handle_timer_irq
  else
    on_regs (kinfo unsupported_format [irq] u0) ;;
    BUG_ON (negb (cpuid =? 0)) ;;
    irq ← on_regs (get32 BCM2835_IRQ_PENDING2);
    if negb (irq =? 0) then
      if negb (Z.land irq IRQ_UART_BIT =? 0) then on_uart uart_irq_handler else mret tt
    else mret tt.

(** ** [irq_entry.c] *)
Definition MAX_IRQ_NUM : Z := 128.
Definition HANDLE_KERNEL : Z := 0.
Definition SYNC_EL0_64 : Z := 8.

Definition arch_interrupt_init_per_cpu : M mstate unit :=
  run DisableIrq ;;
  run SetExceptionVector ;;
  plat_interrupt_init.
Definition arch_interrupt_init : M mstate unit :=
  arch_interrupt_init_per_cpu ;;
  zoom irq_handle_type set_types (memset (Z.to_nat MAX_IRQ_NUM) 0 HANDLE_KERNEL).

Definition GET_ESR_EL1_EC (esr : Z) : Z := Z.land (Z.shiftr esr 26) (BIT 6 - 1).
Definition ESR_EL1_EC_WFI_WFE : Z := 1.
Definition ESR_EL1_EC_IABT_LEL : Z := 32.
Definition ESR_EL1_EC_DABT_LEL : Z := 36.
Definition ESR_EL1_EC_DABT_CEL : Z := 37.

(** [handle_sync]: every class that the [switch] does not return for reaches
    [BUG]; [fix_addr] stays 0 because the page-fault handler is not called. *)
Definition sync_format : list Z := ln "Exception type: %d, ESR: 0x%lx, Fault address: 0x%lx, EC 0b%b".
Definition handle_sync (u : nat → Z) (type esr address : Z) : M mstate Z :=
  let esr_ec := u32 (GET_ESR_EL1_EC esr) in
  say_debug u sync_format [u64 type; esr; address; esr_ec] ;;
  BUG_ON ((type <? SYNC_EL0_64) && negb (esr_ec =? ESR_EL1_EC_DABT_CEL)) ;;
  let fix_addr := 0 in
  if esr_ec =? ESR_EL1_EC_WFI_WFE then say_debug u (ln "Trapped WFI or WFE instruction execution") [] ;; mret address
  else if esr_ec =? ESR_EL1_EC_IABT_LEL then say_debug u (ln "Instruction Abort from a lower Exception level") [] ;; mret address
  else if esr_ec =? ESR_EL1_EC_DABT_LEL then say_debug u (ln "Data Abort from a lower Exception level") [] ;; mret address
  else if esr_ec =? ESR_EL1_EC_DABT_CEL then
    say_debug u (ln "Data Abort from a current Exception level") [] ;;
    if negb (fix_addr =? 0) then mret fix_addr else mret address
  else stop HBug.

Definition handle_irq (ub u0 : Z) : M mstate unit := plat_handle_irq ub u0.
Definition unexpected_handler : M mstate unit := stop HBug.

End build.

(** ** [poweroff.c] and [mailbox.h] *)
Definition MMIO_BASE : Z := KBASE + 0x3F000000.
Definition VIDEOCORE_MBOX : Z := MMIO_BASE + 0x0000B880.
Definition MBOX_READ : Z := VIDEOCORE_MBOX + 0x0.
Definition MBOX_STATUS : Z := VIDEOCORE_MBOX + 0x18.
Definition MBOX_WRITE : Z := VIDEOCORE_MBOX + 0x20.
Definition MBOX_FULL : Z := 0x80000000.
Definition MBOX_EMPTY : Z := 0x40000000.
Definition MBOX_TAG_POWER_STATE : Z := 0x00028001.
Definition PM_RSTC : Z := MMIO_BASE + 0x0010001c.
Definition PM_RSTS : Z := MMIO_BASE + 0x00100020.
Definition PM_WDOG : Z := MMIO_BASE + 0x00100024.
Definition PM_WDOG_MAGIC : Z := 0x5a000000.
Definition PM_RSTC_FULLRST : Z := 0x00000020.

Definition mbox_full (v : Z) : bool := negb (Z.land v MBOX_FULL =? 0).
Definition mbox_empty (v : Z) : bool := negb (Z.land v MBOX_EMPTY =? 0).

(** The device accesses of [plat_poweroff], in order: a read with the value it
    returned, a store with what the array [mbox] held at that moment *)
Inductive power_access : Type :=
| Rd (addr v : Z)
| Wr (addr v : Z) (mbox : list Z).

(** The registers, the array [mbox] on the stack and the accesses so far *)
Record pwstate : Type := mk_pwstate { pio : mmio; mbox_words : list Z; po_log : list power_access }.
Definition on_pio {A} (m : M mmio A) : M pwstate A := zoom pio (λ d s, mk_pwstate d (mbox_words s) (po_log s)) m.
Definition set_mbox (i v : Z) : M pwstate unit :=
  _ ← load (λ s, mbox_words s !! Z.to_nat i);
  modify (λ s, mk_pwstate (pio s) (<[Z.to_nat i := v]> (mbox_words s)) (po_log s)).

(** [*reg] and [*reg = v] *)
Definition po_get (addr : Z) : M pwstate Z :=
  v ← on_pio (get32 addr);
  modify (λ s, mk_pwstate (pio s) (mbox_words s) (po_log s ++ [Rd addr v])) ;;
  mret v.
Definition po_put (addr v : Z) : M pwstate unit :=
  on_pio (put32 addr v) ;;
  modify (λ s, mk_pwstate (pio s) (mbox_words s) (po_log s ++ [Wr addr v (mbox_words s)])).

(** [while (busy( *reg)) ;] *)
Fixpoint po_poll (fuel : nat) (addr : Z) (busy : Z → bool) : M pwstate unit :=
  match fuel with
  | O => stop HFuel
  | S fuel' => v ← po_get addr; if busy v then po_poll fuel' addr busy else mret tt
  end.

(** The low 4 bits of the message address make room for the channel. *)
Definition mbox_word (mbox : Z) : Z := Z.lor (Z.land (u32 (virt_to_phys mbox)) (u32 (Z.lnot 0xF))) (Z.land 8 0xF).

(** [while (1) { while (empty) ; if (r == *MBOX_READ) break; }] *)
Fixpoint mbox_wait (fuel : nat) (r : Z) : M pwstate unit :=
  match fuel with
  | O => stop HFuel
  | S fuel' =>
      n ← gets (λ s, patience (pio s));
      po_poll n MBOX_STATUS mbox_empty ;;
      v ← po_get MBOX_READ;
      if r =? v then mret tt else mbox_wait fuel' r
  end.

Definition GPFSEL (i : Z) : Z := MMIO_BASE + 0x00200000 + 4 * i.
Definition PO_GPPUD : Z := MMIO_BASE + 0x00200094.
Definition PO_GPPUDCLK0 : Z := MMIO_BASE + 0x00200098.
Definition PO_GPPUDCLK1 : Z := MMIO_BASE + 0x0020009C.

(** [mbox] is the address of the array. *)
Definition plat_poweroff (mbox : Z) : M pwstate unit :=
  set_mbox 0 (8 * 4) ;;
  set_mbox 1 0 ;;
  set_mbox 2 MBOX_TAG_POWER_STATE ;;
  set_mbox 3 8 ;;
  set_mbox 4 8 ;;
  set_mbox 5 0 ;;
  set_mbox 6 0 ;;
  set_mbox 7 0 ;;
  let r := mbox_word mbox in
  fuel ← gets (λ s, patience (pio s));
  po_poll fuel MBOX_STATUS mbox_full ;;
  po_put MBOX_WRITE r ;;
  mbox_wait fuel r ;;
  po_put (GPFSEL 0) 0 ;;
  po_put (GPFSEL 1) 0 ;;
  po_put (GPFSEL 2) 0 ;;
  po_put (GPFSEL 3) 0 ;;
  po_put (GPFSEL 4) 0 ;;
  po_put (GPFSEL 5) 0 ;;
  po_put PO_GPPUD 0 ;;
  po_put PO_GPPUDCLK0 0xffffffff ;;
  po_put PO_GPPUDCLK1 0xffffffff ;;
  po_put PO_GPPUDCLK0 0 ;;
  po_put PO_GPPUDCLK1 0 ;;
  r ← po_get PM_RSTS;
  let r := Z.lor (Z.land r (u32 (Z.lnot 0xfffffaaa))) 0x555 in
  po_put PM_RSTS (Z.lor PM_WDOG_MAGIC r) ;;
  po_put PM_WDOG (Z.lor PM_WDOG_MAGIC 10) ;;
  po_put PM_RSTC (Z.lor PM_WDOG_MAGIC PM_RSTC_FULLRST).

(** ** [syscall.c] *)
Definition NR_SYSCALL : Z := 64.
Definition KMK_SYS_poweroff : Z := 51.
Inductive handler : Type := Sys_null_placeholder | Sys_poweroff.
Definition syscall_table : list handler := <[Z.to_nat KMK_SYS_poweroff := Sys_poweroff]> (replicate (Z.to_nat NR_SYSCALL) Sys_null_placeholder).
(** [file] is the address in [m] of the literal [__FILE__]. *)
Definition sys_null_placeholder {b : build_type} (m : bytes) (file u0 : Z) : M mmio Z :=
  kwarn m file 14 (chars "Invoke non-implemented syscall" ++ [c_nl; 0]) [] u0 ;;
  mret (- EBADSYSCALL).
Definition sys_poweroff (mbox : Z) : M pwstate unit := plat_poweroff mbox.
