(* ===== verification/MachineTheorems.v ===== *)
(** * The theorems about CPUs and interrupts *)

From stdpp Require Import strings.
From S2P Require Import Prelude Macro ListHead Utils Printk PrintkSpec Mmio Uart UartTheorems Kprint KernelLog Bitops Machine.
Import PL011.

(** The running core is [cpu]. *)
Definition on_cpu (s : mstate) (cpu : Z) : Prop := 0 ≤ cpu < 4 ∧ tpidr s = cpu_info_addr s + cpu * 64.

Lemma wp_smp_get_cpu_id s cpu (Q : Z → mstate → Prop) : on_cpu s cpu → Q cpu s → wp smp_get_cpu_id s Q.
Proof.
  intros [Hc Ht] HQ. unfold smp_get_cpu_id, get_per_cpu_info. apply wp_bind, wp_gets, wp_bind, wp_gets, wp_ret.
  change sizeof_info with 64. rewrite Ht. replace (cpu_info_addr s + cpu * 64 - cpu_info_addr s) with (cpu * 64) by lia.
  by rewrite Z.quot_mul, u32_small by lia.
Qed.

Lemma wp_on_uart {A} (m : M ustate A) s (Q : A → mstate → Prop) : wp m (uart s) (λ a u, Q a (set_uart u s)) → wp (on_uart m) s Q.
Proof. intros H. by apply wp_zoom. Qed.

(** Reading a device register. *)
Lemma wp_reg_read addr s (Q : Z → mstate → Prop) :
  (∀ d, same_dev (io (uart s)) d → writes d = writes (io (uart s)) → clock d = S (clock (io (uart s))) →
     Q (u32 (dev (io (uart s)) addr (clock (io (uart s))))) (set_uart (mk_ustate d (pl011_buffer (uart s))) s)) →
  wp (on_regs (get32 addr)) s Q.
Proof. intros HQ. apply wp_on_uart, wp_on_io, wp_get32. intros d H1 H2 H3. by apply HQ. Qed.

(** The lowest source decides. *)
Lemma lowest_irq_pow ub src : 0 < src < 2 ^ 32 → lowest_irq ub src = 2 ^ ctzl src ∧ 0 ≤ ctzl src < 32.
Proof.
  intros Hs. destruct (ctzl_spec src ltac:(lia)) as (Hr & Ht & _). unfold lowest_irq.
  assert (ctzl src < 32) as Hlt.
  { destruct (Z_lt_dec (ctzl src) 32) as [|Hge]; [done|]. rewrite Z.bits_above_log2 in Ht; [done|lia|]. pose proof (Z.log2_lt_pow2 src 32). lia. }
  rewrite (proj2 (Z.ltb_lt _ _)) by done. rewrite Z.shiftl_1_l. pose proof (pow2_gt0 (ctzl src) ltac:(lia)). pose proof (Z.pow_lt_mono_r 2 (ctzl src) 32 ltac:(lia) ltac:(lia)).
  rewrite u32_small; lia.
Qed.

Lemma lowest_irq_range ub src : 0 < src < 2 ^ 32 → 0 ≤ lowest_irq ub src < 2 ^ 32.
Proof. intros Hs. destruct (lowest_irq_pow ub src Hs) as [-> Hr]. pose proof (pow2_gt0 (ctzl src)). pose proof (Z.pow_lt_mono_r 2 (ctzl src) 32). lia. Qed.

Lemma lowest_irq_timer ub src : 0 < src < 2 ^ 32 → (lowest_irq ub src =? INT_SRC_TIMER1) = negb (Z.testbit src 0) && Z.testbit src 1.
Proof.
  intros Hs. destruct (ctzl_spec src ltac:(lia)) as (Hr & Ht & Hlow). destruct (lowest_irq_pow ub src Hs) as [-> Hlt]. unfold INT_SRC_TIMER1.
  destruct (decide (ctzl src = 0)) as [E0|Hn0]; [rewrite E0 in *; rewrite Ht; done|].
  rewrite (Hlow 0) by lia. cbn [negb andb]. destruct (decide (ctzl src = 1)) as [E1|Hn1]; [rewrite E1 in *; rewrite Ht; done|].
  rewrite (Hlow 1) by lia. apply Z.eqb_neq. pose proof (pow2_le 2 (ctzl src)). lia.
Qed.

Section build.
Context {b : build_type}.

(** ** Messages *)
Lemma wp_say_info u fmt args s (Q : unit → mstate → Prop) :
  fmt_ok (chars "[INFO] " ++ fmt) args = true → Forall arg_ok args → tx_ready (io (uart s)) → (∀ t, arg_ok (u t)) →
  (∀ d, same_dev (io (uart s)) d → writes d = writes (io (uart s)) ++ dr_writes (info_text fmt args) →
     Q tt (set_uart (mk_ustate d (pl011_buffer (uart s))) s)) → wp (say_info u fmt args) s Q.
Proof.
  intros Hf Ha Ht Hu HQ. apply wp_bind, wp_gets, wp_on_uart, wp_on_io, wp_info_text; [done..|]. intros d H1 H2. by apply HQ.
Qed.

Lemma wp_say_debug u fmt args s (Q : unit → mstate → Prop) :
  fmt_ok (chars "[DEBUG] " ++ fmt) args = true → Forall arg_ok args → tx_ready (io (uart s)) → (∀ t, arg_ok (u t)) →
  (∀ d, same_dev (io (uart s)) d → writes d = writes (io (uart s)) ++ dr_writes (debug_text fmt args) →
     Q tt (set_uart (mk_ustate d (pl011_buffer (uart s))) s)) → wp (say_debug u fmt args) s Q.
Proof.
  intros Hf Ha Ht Hu HQ. apply wp_bind, wp_gets, wp_on_uart, wp_on_io, wp_debug_text; [done..|]. intros d H1 H2. by apply HQ.
Qed.

(** ** The message about an unexpected source *)
Definition unsupported_text (irq : Z) : list Z := chars "[INFO] Unsupported IRQ " ++ int_string (s32 irq) 10 1 0 0 c_a ++ [c_cr; c_nl].

Lemma wp_kinfo_unsupported irq u0 d (Q : unit → mmio → Prop) :
  tx_ready d → 0 ≤ irq < 2 ^ 32 → 0 ≤ u0 < 2 ^ 64 →
  (∀ d', same_dev d d' → writes d' = writes d ++ dr_writes (unsupported_text irq) → Q tt d') → wp (kinfo unsupported_format [irq] u0) d Q.
Proof.
  intros Ht Hi Hu HQ. change unsupported_format with (ln "Unsupported IRQ %d" ++ [0]).
  apply wp_info_text; [reflexivity|repeat constructor; unfold arg_ok; lia|done|done|].
  replace (info_text (ln "Unsupported IRQ %d") [irq]) with (unsupported_text irq); [done|].
  assert (num_text (mk_spec 32 true 10 false) irq no_field = int_string (s32 irq) 10 1 0 0 c_a) as E.
  { rewrite <- signed_text, <- s32_value, (Z.mod_small irq) by (lia || by repeat split). done. }
  unfold unsupported_text. rewrite <- E. reflexivity.
Qed.

(** ** Dispatch *)

(** [plat_handle_irq] after it has read the source of the core's interrupt. *)
Definition dispatch (irq u0 cpu : Z) : M mstate unit :=
  if irq =? INT_SRC_TIMER1 then handle_timer_irq
  else
    on_regs (kinfo unsupported_format [irq] u0) ;;
    BUG_ON (negb (cpu =? 0)) ;;
    irq ← on_regs (get32 BCM2835_IRQ_PENDING2);
    if negb (irq =? 0) then
      if negb (Z.land irq IRQ_UART_BIT =? 0) then on_uart uart_irq_handler else mret tt
    else mret tt.

Lemma irq_dispatch ub u0 s cpu : on_cpu s cpu →
  let d := io (uart s) in let src := u32 (dev d (CORE_IRQ_BASE + cpu * 4) (clock d)) in
  plat_handle_irq ub u0 s = dispatch (lowest_irq ub src) u0 cpu
    (set_uart (mk_ustate (mk_mmio (dev d) (S (clock d)) (writes d) (patience d)) (pl011_buffer (uart s))) s).
Proof.
  intros Hcpu d src. pose proof Hcpu as [Hc _].
  assert (smp_get_cpu_id s = Ok (cpu, s)) as Hid.
  { assert (wp smp_get_cpu_id s (λ a s', a = cpu ∧ s' = s)) as Hw by (eapply wp_smp_get_cpu_id; [exact Hcpu|done]).
    by apply wp_inv in Hw as (a & s' & Ha & -> & ->). }
  unfold plat_handle_irq. unfold mbind, M_bind. rewrite Hid. unfold core_irq_source, load, PLAT_CPU_NUM.
  rewrite (proj2 (Z.leb_le _ _)), (proj2 (Z.ltb_lt _ _)) by lia. cbn [andb].
  unfold on_regs at 1, on_uart at 1, on_io at 1, zoom, get32 at 1. fold d src.
  unfold dispatch. by destruct (lowest_irq ub src =? INT_SRC_TIMER1).
Qed.

Lemma uart_bit v : Z.testbit v 25 = negb (Z.land v IRQ_UART_BIT =? 0).
Proof. change (Z.land v IRQ_UART_BIT) with (get_bit_in_slot v 25). rewrite get_bit_in_slot_spec by lia. by destruct (Z.testbit v 25). Qed.

(** A message leaves the rest of the machine alone. *)
Lemma wp_on_kinfo irq u0 s (Q : unit → mstate → Prop) :
  tx_ready (io (uart s)) → 0 ≤ irq < 2 ^ 32 → 0 ≤ u0 < 2 ^ 64 →
  (∀ d, same_dev (io (uart s)) d → writes d = writes (io (uart s)) ++ dr_writes (unsupported_text irq) →
     Q tt (set_uart (mk_ustate d (pl011_buffer (uart s))) s)) →
  wp (on_regs (kinfo unsupported_format [irq] u0)) s Q.
Proof. intros Ht Hi Hu HQ. apply wp_on_uart, wp_on_io, wp_kinfo_unsupported; [done..|]. intros d H1 H2. by apply HQ. Qed.

(** Core 0 and a source other than the timer: the tail of [dispatch]. *)
Lemma wp_dispatch_uart s q (Q : unit → mstate → Prop) :
  ring_rep (pl011_buffer (uart s)) q → tx_ready (io (uart s)) →
  let d := io (uart s) in
  let c := Z.land (u32 (dev d (RASPI3_PL011_DR PHYSADDR_OFFSET) (S (clock d)))) 0xFF in
  (∀ s', done s' = done s →
     (if Z.testbit (u32 (dev d BCM2835_IRQ_PENDING2 (clock d))) 25 then
        ring_rep (pl011_buffer (uart s')) (enqueue q c) ∧ writes (io (uart s')) = writes d ++ dr_writes [c]
      else pl011_buffer (uart s') = pl011_buffer (uart s) ∧ writes (io (uart s')) = writes d) → Q tt s') →
  wp (irq ← on_regs (get32 BCM2835_IRQ_PENDING2);
      if negb (irq =? 0) then
        if negb (Z.land irq IRQ_UART_BIT =? 0) then on_uart uart_irq_handler else mret tt
      else mret tt) s Q.
Proof.
  intros Hr Ht d c HQ. rewrite uart_bit in HQ. apply wp_bind, wp_reg_read. fold d. intros d2 H4 H5 H6.
  set (pending := u32 (dev d BCM2835_IRQ_PENDING2 (clock d))) in *.
  destruct (Z.eqb_spec pending 0) as [E|_]; cbn [negb]; [rewrite E in HQ; by apply wp_ret, HQ|].
  destruct (negb (Z.land pending IRQ_UART_BIT =? 0)); [|by apply wp_ret, HQ].
  apply wp_on_uart, (wp_uart_irq_handler _ q); [exact Hr|by eapply answers_same|]. cbn [uart set_uart io pl011_buffer]. intros u' Hr' Hd' Hw'.
  assert (Z.land (u32 (dev d2 (RASPI3_PL011_DR PHYSADDR_OFFSET) (clock d2))) 0xFF = c) as Ec by (subst c; destruct H4 as [-> _]; by rewrite H6).
  rewrite Ec in *. apply HQ; [done|]. split; [done|]. cbn [uart set_uart]. by rewrite Hw', H5.
Qed.

Lemma wp_inv_ex {S T} (m : M S unit) s (Q : S → T → Prop) : wp m s (λ _ s', ∃ t, Q s' t) → ∃ s' t, m s = Ok (tt, s') ∧ Q s' t.
Proof. intros H. destruct (proj1 (wp_inv _ _ _) H) as ([] & s' & H' & t & HQ). eauto. Qed.

(** The message is printed before the kernel stops. *)
Lemma kinfo_then_halt irq u0 h {A} (f : M mstate A) s : (∀ s', f s' = Halt h) → tx_ready (io (uart s)) → 0 ≤ irq < 2 ^ 32 → 0 ≤ u0 < 2 ^ 64 →
  (on_regs (kinfo unsupported_format [irq] u0) ;; f) s = Halt h.
Proof.
  intros Hf Ht Hi Hu. assert (wp (on_regs (kinfo unsupported_format [irq] u0)) s (λ _ _, True)) as Hw by (by apply wp_on_kinfo).
  destruct (proj1 (wp_inv _ _ _) Hw) as ([] & s' & E & _). unfold mbind, M_bind. by rewrite E.
Qed.

(** ** Properties *)

(** C34. Interrupts reach their handler.  When the lowest pending source of the
    running core is the physical timer, the handler only restarts the timer
    with the interval of [timer_init].  With any other source, a core other
    than 0 stops in [BUG_ON]; core 0 first prints that the source is
    unsupported, for its own UART interrupt too, and then runs the UART
    handler, which queues and echoes the received byte, exactly when the
    controller reports the UART's interrupt, and otherwise changes nothing. *)
Theorem plat_handle_irq_dispatch ub u0 s cpu q :
  on_cpu s cpu → ring_rep (pl011_buffer (uart s)) q → tx_ready (io (uart s)) → 0 ≤ u0 < 2 ^ 64 →
  let d := io (uart s) in
  let src := u32 (dev d (CORE_IRQ_BASE + cpu * 4) (clock d)) in
  src ≠ 0 →
  if negb (Z.testbit src 0) && Z.testbit src 1 then
    ∃ s', plat_handle_irq ub u0 s = Ok (tt, s') ∧ done s' = done s ++ [Msr CNTP_TVAL_EL0 (cntp_tval (timer s))] ∧
          pl011_buffer (uart s') = pl011_buffer (uart s) ∧ writes (io (uart s')) = writes d
  else if negb (cpu =? 0) then plat_handle_irq ub u0 s = Halt HBug
  else
    ∃ s' t, plat_handle_irq ub u0 s = Ok (tt, s') ∧ done s' = done s ∧
      let message := dr_writes (unsupported_text (2 ^ ctzl src)) in
      let pending := u32 (dev d BCM2835_IRQ_PENDING2 t) in
      let c := Z.land (u32 (dev d (RASPI3_PL011_DR PHYSADDR_OFFSET) (S t))) 0xFF in
      if Z.testbit pending 25 then
        ring_rep (pl011_buffer (uart s')) (enqueue q c) ∧ writes (io (uart s')) = writes d ++ message ++ dr_writes [c]
      else pl011_buffer (uart s') = pl011_buffer (uart s) ∧ writes (io (uart s')) = writes d ++ message.
Proof.
  intros Hcpu Hr Ht Hu d src Hsrc. rewrite (irq_dispatch ub u0 s cpu Hcpu). fold d src.
  assert (0 < src < 2 ^ 32) as Hs by (subst src; unfold u32 in *; pose proof (Z.mod_pos_bound (dev d (CORE_IRQ_BASE + cpu * 4) (clock d)) (2 ^ 32)); lia).
  pose proof (lowest_irq_range ub src Hs) as Hrange. set (s1 := set_uart _ s). unfold dispatch. rewrite (lowest_irq_timer ub src Hs).
  destruct (negb (Z.testbit src 0) && Z.testbit src 1); [eexists; split; [reflexivity|done]|].
  rewrite (proj1 (lowest_irq_pow ub src Hs)) in *. destruct (Z.eqb_spec cpu 0) as [->|Hne]; cbn [negb].
  - apply wp_inv_ex. apply wp_bind, wp_on_kinfo; [exact Ht|done|done|]. intros d' Hsd Hw.
    apply wp_bind, wp_ret. apply (wp_dispatch_uart _ q); [exact Hr|by eapply answers_same|]. cbn [uart set_uart io pl011_buffer].
    intros s' Hd Hcase. exists (clock d'). split; [exact Hd|]. destruct Hsd as [Hdev _]. cbn [dev io uart set_uart s1] in Hdev, Hw. rewrite Hdev in Hcase. cbn zeta.
    destruct (Z.testbit _ 25); destruct Hcase as [Hc1 Hc2]; (split; [exact Hc1|]); rewrite Hc2, Hw; [by rewrite <- app_assoc|done].
  - by apply kinfo_then_halt.
Qed.

End build.

(** A core whose timer fired. *)
Definition demo_machine : mstate :=
  mk_mstate (mk_ustate (mk_mmio (λ a _, if a =? RASPI3_PL011_FR PHYSADDR_OFFSET then 0 else 2) 0 [] 1) (mk_buffer (replicate 16 0) 0 0))
    (λ _, 0) (4096 + 3 * 64) [] 1 (mk_tstate 0 62500000 625000 62) ∅ (list_to_map ((λ i, (i, mk_info 0 0 0 0)) <$> seqZ 0 4)) 4096 0 ∅ ∅ 8192.

Lemma demo_machine_ring : ring_rep (pl011_buffer (uart demo_machine)) [].
Proof. split; [reflexivity|]. cbn. split; [lia|]. split; [lia|]. split; [reflexivity|]. intros i c H. discriminate. Qed.

Lemma plat_handle_irq_dispatch_witness :
  ∃ s', plat_handle_irq (b := Debug_build) 1 0 demo_machine = Ok (tt, s') ∧ done s' = [] ++ [Msr CNTP_TVAL_EL0 625000] ∧
        pl011_buffer (uart s') = pl011_buffer (uart demo_machine) ∧ writes (io (uart s')) = [].
Proof.
  assert (on_cpu demo_machine 3) as Hc. { split; [lia|reflexivity]. }
  assert (tx_ready (io (uart demo_machine))) as Ht. { intros t. exists 0%nat. split; [apply Nat.lt_0_1|reflexivity]. }
  exact (plat_handle_irq_dispatch (b := Debug_build) 1 0 demo_machine 3 [] Hc demo_machine_ring Ht ltac:(split; [discriminate|reflexivity]) ltac:(discriminate)).
Defined.

Lemma exception_class esr : 0 ≤ GET_ESR_EL1_EC esr < 64.
Proof. unfold GET_ESR_EL1_EC. change (BIT 6 - 1) with (Z.ones 6). rewrite Z.land_ones by lia. apply Z.mod_pos_bound. lia. Qed.

(** What a Debug build says about an exception of class [ec] from which it returns. *)
Definition sync_text {b : build_type} (type esr address ec : Z) : list Z :=
  debug_text sync_format [u64 type; esr; address; ec] ++
  debug_text (ln (if ec =? 1 then "Trapped WFI or WFE instruction execution"
                  else if ec =? 32 then "Instruction Abort from a lower Exception level"
                  else if ec =? 36 then "Data Abort from a lower Exception level"
                  else "Data Abort from a current Exception level")) [].

Lemma wp_sync_message {b : build_type} u type esr address s (Q : unit → mstate → Prop) :
  (∀ t, arg_ok (u t)) → tx_ready (io (uart s)) → arg_ok esr → arg_ok address → let ec := GET_ESR_EL1_EC esr in
  (∀ d, same_dev (io (uart s)) d → writes d = writes (io (uart s)) ++ dr_writes (debug_text sync_format [u64 type; esr; address; ec]) →
     Q tt (set_uart (mk_ustate d (pl011_buffer (uart s))) s)) →
  wp (say_debug u sync_format [u64 type; esr; address; ec]) s Q.
Proof.
  intros Hu Ht He Ha ec HQ. pose proof (exception_class esr) as Hc. fold ec in Hc.
  assert (arg_ok ec) as Hec by (unfold arg_ok; lia). apply wp_say_debug; [|by repeat constructor; try apply u64_range; try apply He; try apply Ha; apply Hec|done|done|exact HQ].
  unfold fmt_ok. apply andb_true_iff. split; [reflexivity|].
  assert (0 <=? spec_value (mk_spec 32 true 2 false) ec = true) as E.
  { unfold spec_value. cbn [ns_bits ns_signed andb]. rewrite Z.mod_small by lia. change (32 - 1) with 31. destruct (Z.leb_spec (2 ^ 31) ec); apply Z.leb_le; lia. }
  transitivity (true && ((2 >? 2) || (0 <=? spec_value (mk_spec 32 true 2 false) ec)) && true); [reflexivity|]. by rewrite E.
Qed.

Lemma wp_sync_class {b : build_type} u msg address s (Q : Z → mstate → Prop) :
  msg ∈ ["Trapped WFI or WFE instruction execution"; "Instruction Abort from a lower Exception level";
         "Data Abort from a lower Exception level"; "Data Abort from a current Exception level"]%string →
  (∀ t, arg_ok (u t)) → tx_ready (io (uart s)) →
  (∀ d, writes d = writes (io (uart s)) ++ dr_writes (debug_text (ln msg) []) → Q address (set_uart (mk_ustate d (pl011_buffer (uart s))) s)) →
  wp (say_debug u (ln msg) [] ;; mret address) s Q.
Proof.
  intros Hin Hu Ht HQ. apply wp_bind, wp_say_debug; [|constructor|done|done|].
  - repeat (apply elem_of_cons in Hin as [->|Hin]; [reflexivity|]). by apply elem_of_nil in Hin.
  - intros d _ Hw. by apply wp_ret, HQ.
Qed.

(** [handle_sync] returns only for the exceptions it can resume: a data
    abort of the current level, and, from user mode, a trapped wait and aborts
    of a lower level; it then returns the faulting address, having printed two
    messages in a Debug build and changed nothing else.  Every other
    synchronous exception, system calls included, stops the kernel. *)
Theorem handle_sync_resumes {b : build_type} u type esr address s :
  (∀ t, arg_ok (u t)) → tx_ready (io (uart s)) → arg_ok esr → arg_ok address →
  let ec := GET_ESR_EL1_EC esr in
  if (ec =? 37) || (8 <=? type) && ((ec =? 1) || (ec =? 32) || (ec =? 36)) then
    ∃ d, handle_sync u type esr address s = Ok (address, set_uart (mk_ustate d (pl011_buffer (uart s))) s) ∧
      writes d = writes (io (uart s)) ++ dr_writes (sync_text type esr address ec)
  else handle_sync u type esr address s = Halt HBug.
Proof.
  intros Hu Ht He Ha. cbv zeta. pose proof (exception_class esr) as Hc. unfold handle_sync. rewrite (u32_small (GET_ESR_EL1_EC esr)) by lia. cbv zeta.
  pose proof (λ Q, wp_sync_message u type esr address s Q Hu Ht He Ha) as Hm. cbv zeta in Hm.
  set (ec := GET_ESR_EL1_EC esr) in *. clearbody ec. rewrite Z.leb_antisym.
  unfold ESR_EL1_EC_DABT_CEL, ESR_EL1_EC_WFI_WFE, ESR_EL1_EC_IABT_LEL, ESR_EL1_EC_DABT_LEL, SYNC_EL0_64, sync_text.
  destruct (_ || _) eqn:Eret.
  - assert (∀ m, wp m s (λ r s', r = address ∧ ∃ d, s' = set_uart (mk_ustate d (pl011_buffer (uart s))) s ∧ writes d = writes (io (uart s)) ++
      dr_writes (sync_text type esr address ec)) → ∃ d, m s = Ok (address, set_uart (mk_ustate d (pl011_buffer (uart s))) s) ∧
      writes d = writes (io (uart s)) ++ dr_writes (sync_text type esr address ec)) as Hfin.
    { intros m Hw. destruct (proj1 (wp_inv _ _ _) Hw) as (r & s' & E & -> & d & -> & Hd). by exists d. }
    apply Hfin, wp_bind, Hm. intros d Hd Hw. apply wp_bind, wp_BUG_ON.
    { destruct (Z.eqb_spec ec 37); [by rewrite andb_false_r|]. cbn [orb] in Eret. apply andb_true_iff in Eret as [Et _]. by apply negb_true_iff in Et as ->. }
    assert (∀ d', writes d' = writes d ++ dr_writes (debug_text (ln (if ec =? 1 then "Trapped WFI or WFE instruction execution"
                  else if ec =? 32 then "Instruction Abort from a lower Exception level"
                  else if ec =? 36 then "Data Abort from a lower Exception level" else "Data Abort from a current Exception level")) []) →
      writes d' = writes (io (uart s)) ++ dr_writes (sync_text type esr address ec)) as Htext.
    { intros d' ->. unfold sync_text, dr_writes in *. by rewrite Hw, fmap_app, <- app_assoc. }
    assert (ec = 37 ∨ ec = 1 ∨ ec = 32 ∨ ec = 36) as [-> | [-> | [-> | -> ]]].
    { rewrite orb_true_iff, andb_true_iff, !orb_true_iff, !Z.eqb_eq in Eret. tauto. }
    all: apply wp_sync_class; [set_solver|done|by eapply answers_same|]; intros d' Hw'; split; [done|]; exists d'; split; [done|]; by apply Htext.
  - assert (∀ f : M mstate Z, (∀ s', f s' = Halt HBug) → (say_debug u sync_format [u64 type; esr; address; ec] ;; f) s = Halt HBug) as Hstop.
    { intros f Hf. assert (wp (say_debug u sync_format [u64 type; esr; address; ec]) s (λ _ _, True)) as Hw by by apply Hm.
      destruct (proj1 (wp_inv _ _ _) Hw) as ([] & s' & E & _). unfold mbind, M_bind. by rewrite E. }
    apply Hstop. intros s'. destruct (type <? 8); cbn [negb andb] in *.
    + rewrite orb_false_r in Eret. by rewrite Eret.
    + apply orb_false_iff in Eret as [E1 [[E2 E3]%orb_false_iff E4]%orb_false_iff]. by rewrite E1, E2, E3, E4.
Qed.

(** After [init_per_cpu_info] a core knows its number: [smp_get_cpu_id]
    returns it, its [struct per_cpu_info] has the top of the core's own
    kernel stack, and the stacks of two cores do not overlap: a guard page
    lies between them. *)
Theorem init_per_cpu_info_id s cpu cpu' :
  0 ≤ cpu < 4 → 0 ≤ cpu' < 4 → is_Some (cpu_info s !! cpu) →
  ∃ s', init_per_cpu_info cpu s = Ok (tt, s') ∧ smp_get_cpu_id s' = Ok (cpu, s') ∧
    cpu_info s' !! cpu = Some (mk_info 0 (KSTACKx_ADDR cpu + CPU_STACK_SIZE) NULL 0) ∧
    (cpu < cpu' → KSTACKx_ADDR cpu + CPU_STACK_SIZE + PAGE_SIZE ≤ KSTACKx_ADDR cpu').
Proof.
  intros Hc Hc' [i Hi]. assert (∀ k, 0 ≤ k < 4 → KSTACKx_ADDR k = k * 8192 + KSTACK_BASE) as Hks.
  { intros k Hk. unfold KSTACKx_ADDR, CPU_STACK_SIZE, KSTACK_BASE. rewrite u64_small by lia. lia. }
  assert (wp (init_per_cpu_info cpu) s (λ _ s', on_cpu s' cpu ∧ cpu_info s' !! cpu = Some (mk_info 0 (KSTACKx_ADDR cpu + CPU_STACK_SIZE) NULL 0))) as Hw.
  { unfold init_per_cpu_info. apply wp_bind.
    assert (∀ s0, cpu_info s0 = cpu_info s → wp (info ← gets (λ s, cpu_info_addr s + cpu * sizeof_info);
      _ ← load (λ s, cpu_info s !! cpu);
      modify (λ s, set_cpu_info (<[cpu := mk_info 0 (u64 (KSTACKx_ADDR cpu + CPU_STACK_SIZE)) NULL 0]> (cpu_info s)) s) ;;
      modify (set_tpidr info) ;; run (Msr TPIDR_EL1 info)) s0
      (λ _ s', on_cpu s' cpu ∧ cpu_info s' !! cpu = Some (mk_info 0 (KSTACKx_ADDR cpu + CPU_STACK_SIZE) NULL 0))) as Hgo.
    { intros s0 E. apply wp_bind, wp_gets, wp_bind. eapply wp_load; [by rewrite E|]. apply wp_bind, wp_modify, wp_bind, wp_modify, wp_modify.
      split; [done|]. cbn. rewrite lookup_insert_eq. do 2 f_equal. apply u64_small. rewrite Hks by done. unfold KSTACK_BASE, CPU_STACK_SIZE. lia. }
    destruct (cpu =? 0); [|by apply wp_ret, Hgo]. apply wp_bind, wp_gets, wp_modify. by apply Hgo. }
  destruct (proj1 (wp_inv _ _ _) Hw) as ([] & s' & Hrun & Hon & Hinfo). exists s'. split_and!; [done| |done|].
  - assert (wp smp_get_cpu_id s' (λ a s1, a = cpu ∧ s1 = s')) as Hw' by (eapply wp_smp_get_cpu_id; [exact Hon|done]).
    destruct (proj1 (wp_inv _ _ _) Hw') as (a & s1 & Ha & -> & ->). done.
  - intros Hlt. rewrite !Hks by done. unfold CPU_STACK_SIZE. change PAGE_SIZE with 4096. lia.
Qed.

Lemma init_per_cpu_info_id_witness :
  ∃ s', init_per_cpu_info 2 demo_machine = Ok (tt, s') ∧ smp_get_cpu_id s' = Ok (2, s') ∧
    cpu_info s' !! 2 = Some (mk_info 0 (KSTACKx_ADDR 2 + CPU_STACK_SIZE) NULL 0) ∧
    (2 < 3 → KSTACKx_ADDR 2 + CPU_STACK_SIZE + PAGE_SIZE ≤ KSTACKx_ADDR 3).
Proof.
  apply (init_per_cpu_info_id demo_machine 2 3); [lia|lia|]. exists (mk_info 0 0 0 0). reflexivity.
Defined.
