(* ===== verification/Pmu.v ===== *)
(** * The cycle counter: [arch/aarch64/machine/pmu.c], [pmu.h]

    [Machine] records the instructions of [enable_cpu_cnt] and
    [disable_cpu_cnt]; here they act on the performance monitor of the core, as
    the architecture describes it: writing the bits P and C of [pmcr_el0] resets
    counters and does not stick, [pmcntenset_el0] only ever sets bits, and the
    cycle counter runs while bit E of [pmcr_el0] and bit 31 of [pmcntenset_el0]
    are set.  The inline functions of [pmu.h] read and clear the counter. *)

From S2P Require Import Prelude Machine.

(** ** Bits of [pmcr_el0] *)
Definition PMCR_EL0_MASK : Z := 0x3f.
Definition PMCR_EL0_P : Z := Z.shiftl 1 1.
Definition PMCR_EL0_C : Z := Z.shiftl 1 2.
Definition PMCR_EL0_D : Z := Z.shiftl 1 3.
Definition PMCR_EL0_X : Z := Z.shiftl 1 4.
Definition PMCR_EL0_DP : Z := Z.shiftl 1 5.
Definition PMCR_EL0_N_SHIFT : Z := 11.
Definition PMCR_EL0_N_MASK : Z := 0x1f.

(** ** The performance monitor *)
Record pmu : Type := mk_pmu { pmuserenr : Z; pmcr : Z; pmcnten : Z; pmccntr : Z }.

Definition sticky_bits : Z :=
  Z.lor PMCR_EL0_E (Z.lor PMCR_EL0_D (Z.lor PMCR_EL0_X (Z.lor PMCR_EL0_DP PMCR_EL0_LC))).

Definition pmu_write (i : insn) (p : pmu) : pmu :=
  match i with
  | Msr PMUSERENR_EL0 v => mk_pmu (Z.land v 0xf) (pmcr p) (pmcnten p) (pmccntr p)
  | Msr PMCR_EL0 v => mk_pmu (pmuserenr p) (Z.land v sticky_bits) (pmcnten p) (if Z.testbit v 2 then 0 else pmccntr p)
  | Msr PMCNTENSET_EL0 v => mk_pmu (pmuserenr p) (pmcr p) (Z.lor (pmcnten p) (u32 v)) (pmccntr p)
  | _ => p
  end.
Definition pmu_exec (l : list insn) (p : pmu) : pmu := foldl (λ p i, pmu_write i p) p l.

Definition counting (p : pmu) : bool := Z.testbit (pmcr p) 0 && Z.testbit (pmcnten p) 31.
(** Every 64th cycle counts when D is set, unless LC is. *)
Definition divider (p : pmu) : Z := if Z.testbit (pmcr p) 3 && negb (Z.testbit (pmcr p) 6) then 64 else 1.
Definition elapse (n : Z) (p : pmu) : pmu :=
  if counting p then mk_pmu (pmuserenr p) (pmcr p) (pmcnten p) (u64 (pmccntr p + n / divider p)) else p.

(** [pmu.h] *)
Definition pmu_read_real_cycle (p : pmu) : Z := u64 (pmccntr p).
Definition pmu_clear_cnt (p : pmu) : pmu := mk_pmu (pmuserenr p) (pmcr p) (pmcnten p) 0.

(** The instructions a routine has added. *)
Definition issued (s s' : mstate) (l : list insn) : Prop := done s' = done s ++ l.

Lemma enable_issues s : wp enable_cpu_cnt s (λ _ s', issued s s'
  [Msr PMUSERENR_EL0 PMUSERENR_BITS; Msr PMCR_EL0 (Z.lor PMCR_EL0_LC PMCR_EL0_E); Msr PMCNTENSET_EL0 PMCNTENSET_EL0_C]).
Proof. unfold enable_cpu_cnt, run. repeat first [apply wp_bind|apply wp_modify]. unfold issued. cbn [done set_done]. by rewrite <- !app_assoc. Qed.
Lemma disable_issues s : wp disable_cpu_cnt s (λ _ s', issued s s' [Msr PMCR_EL0 (Z.lnot PMCR_EL0_E); Msr PMCNTENSET_EL0 0]).
Proof. unfold disable_cpu_cnt, run. repeat first [apply wp_bind|apply wp_modify]. unfold issued. cbn [done set_done]. by rewrite <- app_assoc. Qed.

Lemma issued_unique s s' l l' : issued s s' l → issued s s' l' → l = l'.
Proof. unfold issued. intros -> ?%app_inv_head. done. Qed.

(** After [enable_cpu_cnt], from whatever state the monitor was in, clearing the
    counter and reading it [n] cycles later gives [n], and user code may read
    it without a trap. *)
Theorem pmu_enable_counts s p n l : 0 ≤ n < 2 ^ 64 →
  wp enable_cpu_cnt s (λ _ s', issued s s' l →
    let q := pmu_exec l p in
    pmu_read_real_cycle (elapse n (pmu_clear_cnt q)) = n ∧ Z.testbit (pmuserenr q) 0 = true ∧ Z.testbit (pmuserenr q) 2 = true).
Proof.
  intros Hn. eapply wp_mono; [|apply enable_issues]. cbn beta. intros _ s' H1 H2. rewrite <- (issued_unique _ _ _ _ H1 H2). intros q.
  split; [|done]. unfold pmu_read_real_cycle, elapse.
  assert (counting (pmu_clear_cnt q) = true) as ->.
  { unfold counting, q. cbn [pmu_exec foldl pmu_write pmu_clear_cnt pmcr pmcnten].
    rewrite Z.lor_spec. change (Z.testbit (u32 PMCNTENSET_EL0_C) 31) with true. by rewrite orb_true_r. }
  change (divider (pmu_clear_cnt q)) with 1. cbn [pmu_clear_cnt pmccntr]. rewrite Z.div_1_r, Z.add_0_l. by rewrite !u64_small by (rewrite ?u64_small; lia).
Qed.

(** [disable_cpu_cnt] stops the counter, but as a side effect of writing the
    complement of E it also resets it to 0; and the write to [pmcntenset_el0]
    clears nothing: the enable bit of the counter is still set, so that bit E
    alone holds it. *)
Theorem pmu_disable_resets s p n l : Z.testbit (pmcnten p) 31 = true →
  wp disable_cpu_cnt s (λ _ s', issued s s' l →
    let q := pmu_exec l p in
    pmu_read_real_cycle (elapse n q) = 0 ∧ counting q = false ∧ Z.testbit (pmcnten q) 31 = true).
Proof.
  intros Hc. eapply wp_mono; [|apply disable_issues]. cbn beta. intros _ s' H1 H2. rewrite <- (issued_unique _ _ _ _ H1 H2). intros q.
  assert (counting q = false) as Hf by done. unfold elapse. rewrite Hf. split_and!; [done|done|].
  unfold q. cbn [pmu_exec foldl pmu_write pmcnten]. by rewrite Z.lor_spec, Hc.
Qed.
