(* ===== verification/Exception.v ===== *)
(** * Exception entry and return: [arch/aarch64/irq/irq_entry.S]

    The vector table and the code behind it, instruction by instruction, on the
    registers of a core.  [exception_enter] stores the 34 words of the
    interrupted context on the stack of EL1 in the order of [enum reg_type]
    ([registers.h]), [exception_exit] loads them and returns.  The C functions
    it calls are operations on the state of the kernel, collected in the class
    [KernelCode]; a call leaves the scratch registers and the stack below [sp]
    with contents the model does not fix ([junk], [below]). *)

From S2P Require Import Prelude Macro Machine.

(** ** registers.h, smp.h, irq_entry.h, esr.h *)
(** [X n] is the enumerator [Xn], for [n] up to 30. *)
Inductive reg_type : Type := X (n : nat) | SP_EL0 | ELR_EL1 | SPSR_EL1.
(** The value of the enumerator: the number of the word in a saved context. *)
Definition reg_num (r : reg_type) : nat :=
  match r with
  | X n => n
  | SP_EL0 => 31
  | ELR_EL1 => 32
  | SPSR_EL1 => 33
  end.
Definition REG_NUM : Z := 34.
Definition SZ_U64 : Z := 8.
Definition ARCH_EXEC_CONT_SIZE : Z := REG_NUM * SZ_U64.
Definition OFFSET_CURRENT_EXEC_CTX : Z := 0.
Definition OFFSET_LOCAL_CPU_STACK : Z := 8.
Definition ESR_EL1_EC_SHIFT : Z := 26.
Definition ESR_EL1_EC_SVC_64 : Z := 21.
Definition SYNC_EL1h : Z := 4.

(** The vectors, in the order of the table. *)
Inductive vector : Type :=
| sync_el1t | irq_el1t | fiq_el1t | error_el1t
| sync_el1h | irq_el1h | fiq_el1h | error_el1h
| sync_el0_64 | irq_el0_64 | fiq_el0_64 | error_el0_64
| sync_el0_32 | irq_el0_32 | fiq_el0_32 | error_el0_32.

#[global] Instance vector_eq_dec : EqDecision vector.
Proof. solve_decision. Defined.

Definition el1_vector : list vector :=
  [sync_el1t; irq_el1t; fiq_el1t; error_el1t;
   sync_el1h; irq_el1h; fiq_el1h; error_el1h;
   sync_el0_64; irq_el0_64; fiq_el0_64; error_el0_64;
   sync_el0_32; irq_el0_32; fiq_el0_32; error_el0_32].

(** What a C function returns in [x0]: nothing, an [int] in its low half, or 64 bits. *)
Inductive cret : Type := RVoid | RInt (v : Z) | RLong (v : Z).

(** The C functions that the entry code calls. *)
Class KernelCode (K : Type) := {
  c_handle_irq : M K unit;
  c_handle_sync : Z → Z → Z → M K Z;
  c_unexpected : M K unit;
  c_syscall : handler → M K cret
}.

Section code.
Context {K : Type} `{!KernelCode K}.

(** A core: [x0] to [x30], the stack pointers, the system registers, the memory
    of stacks, contexts and per-CPU data by 8-byte words, and the kernel. *)
Record cpu : Type := mk_cpu {
  xr : list Z;
  sp_el1 : Z;
  sp_el0 : Z;
  elr_el1 : Z;
  spsr_el1 : Z;
  esr_el1 : Z;
  tpidr_el1 : Z;
  pc : Z;
  pstate : Z;
  ram : gmap Z Z;
  kern : K
}.

Definition set_xr v s := mk_cpu v (sp_el1 s) (sp_el0 s) (elr_el1 s) (spsr_el1 s) (esr_el1 s) (tpidr_el1 s) (pc s) (pstate s) (ram s) (kern s).
Definition set_sp v s := mk_cpu (xr s) v (sp_el0 s) (elr_el1 s) (spsr_el1 s) (esr_el1 s) (tpidr_el1 s) (pc s) (pstate s) (ram s) (kern s).
Definition set_sp_el0 v s := mk_cpu (xr s) (sp_el1 s) v (elr_el1 s) (spsr_el1 s) (esr_el1 s) (tpidr_el1 s) (pc s) (pstate s) (ram s) (kern s).
Definition set_elr v s := mk_cpu (xr s) (sp_el1 s) (sp_el0 s) v (spsr_el1 s) (esr_el1 s) (tpidr_el1 s) (pc s) (pstate s) (ram s) (kern s).
Definition set_spsr v s := mk_cpu (xr s) (sp_el1 s) (sp_el0 s) (elr_el1 s) v (esr_el1 s) (tpidr_el1 s) (pc s) (pstate s) (ram s) (kern s).
Definition set_ram v s := mk_cpu (xr s) (sp_el1 s) (sp_el0 s) (elr_el1 s) (spsr_el1 s) (esr_el1 s) (tpidr_el1 s) (pc s) (pstate s) v (kern s).
Definition set_kern v s := mk_cpu (xr s) (sp_el1 s) (sp_el0 s) (elr_el1 s) (spsr_el1 s) (esr_el1 s) (tpidr_el1 s) (pc s) (pstate s) (ram s) v.

(** ** Instructions *)
Definition get (n : nat) : M cpu Z := load (λ s, xr s !! n).
Definition put (n : nat) (v : Z) : M cpu unit := modify (λ s, set_xr (<[n := v]> (xr s)) s).
Definition ldr_at (a : Z) : M cpu Z := load (λ s, ram s !! a).
Definition str_at (a v : Z) : M cpu unit := ldr_at a ;; modify (λ s, set_ram (<[a := v]> (ram s)) s).

(** [stp xa, xb, [sp, #off]], [ldp xa, xb, [sp, #off]], [str xa, [sp, #off]] *)
Definition stp (a b : nat) (off : Z) : M cpu unit :=
  va ← get a; vb ← get b; base ← gets sp_el1;
  str_at (u64 (base + off)) va ;;
  str_at (u64 (base + off + 8)) vb.
Definition ldp (a b : nat) (off : Z) : M cpu unit :=
  base ← gets sp_el1;
  va ← ldr_at (u64 (base + off));
  vb ← ldr_at (u64 (base + off + 8));
  put a va ;; put b vb.
Definition str_sp (a : nat) (off : Z) : M cpu unit :=
  va ← get a; base ← gets sp_el1; str_at (u64 (base + off)) va.

(** [mrs xa, reg]; [add sp, sp, #n] *)
Definition mrs (a : nat) (reg : cpu → Z) : M cpu unit := v ← gets reg; put a v.
Definition msr (set : Z → cpu → cpu) (a : nat) : M cpu unit := v ← get a; modify (set v).
Definition add_sp (n : Z) : M cpu unit := modify (λ s, set_sp (u64 (sp_el1 s + n)) s).
Definition eret : M cpu unit :=
  modify (λ s, mk_cpu (xr s) (sp_el1 s) (sp_el0 s) (elr_el1 s) (spsr_el1 s) (esr_el1 s) (tpidr_el1 s) (elr_el1 s) (spsr_el1 s) (ram s) (kern s)).

(** ** The macros of irq_entry.S *)
Definition exception_enter : M cpu unit :=
  add_sp (- ARCH_EXEC_CONT_SIZE) ;;
  stp 0 1 (16 * 0) ;;
  stp 2 3 (16 * 1) ;;
  stp 4 5 (16 * 2) ;;
  stp 6 7 (16 * 3) ;;
  stp 8 9 (16 * 4) ;;
  stp 10 11 (16 * 5) ;;
  stp 12 13 (16 * 6) ;;
  stp 14 15 (16 * 7) ;;
  stp 16 17 (16 * 8) ;;
  stp 18 19 (16 * 9) ;;
  stp 20 21 (16 * 10) ;;
  stp 22 23 (16 * 11) ;;
  stp 24 25 (16 * 12) ;;
  stp 26 27 (16 * 13) ;;
  stp 28 29 (16 * 14) ;;
  mrs 21 sp_el0 ;;
  mrs 22 elr_el1 ;;
  mrs 23 spsr_el1 ;;
  stp 30 21 (16 * 15) ;;
  stp 22 23 (16 * 16).

Definition exception_exit : M cpu unit :=
  ldp 22 23 (16 * 16) ;;
  ldp 30 21 (16 * 15) ;;
  msr set_sp_el0 21 ;;
  msr set_elr 22 ;;
  msr set_spsr 23 ;;
  ldp 0 1 (16 * 0) ;;
  ldp 2 3 (16 * 1) ;;
  ldp 4 5 (16 * 2) ;;
  ldp 6 7 (16 * 3) ;;
  ldp 8 9 (16 * 4) ;;
  ldp 10 11 (16 * 5) ;;
  ldp 12 13 (16 * 6) ;;
  ldp 14 15 (16 * 7) ;;
  ldp 16 17 (16 * 8) ;;
  ldp 18 19 (16 * 9) ;;
  ldp 20 21 (16 * 10) ;;
  ldp 22 23 (16 * 11) ;;
  ldp 24 25 (16 * 12) ;;
  ldp 26 27 (16 * 13) ;;
  ldp 28 29 (16 * 14) ;;
  add_sp ARCH_EXEC_CONT_SIZE ;;
  eret.

(** [mrs x24, TPIDR_EL1; add x24, x24, #off; ldr x24, [x24]; mov sp, x24] *)
Definition switch_stack (off : Z) : M cpu unit :=
  mrs 24 tpidr_el1 ;;
  p ← get 24; put 24 (u64 (p + off)) ;;
  p ← get 24; v ← ldr_at p; put 24 v ;;
  msr set_sp 24.
Definition switch_to_cpu_stack : M cpu unit := switch_stack OFFSET_LOCAL_CPU_STACK.
Definition switch_to_thread_ctx : M cpu unit := switch_stack OFFSET_CURRENT_EXEC_CTX.

(** ** Calls *)

(** What a call leaves in a scratch register and on the stack below [sp]. *)
Variables (junk : nat → Z) (below : Z → gmap Z Z → gmap Z Z).

(** [x19] to [x29] survive a call. *)
Definition callee_saved (n : nat) : bool := (19 <=? n)%nat && (n <=? 29)%nat.
Definition after_call (regs : list Z) (r : cret) : list Z :=
  let regs := imap (λ n v, if callee_saved n then v else junk n) regs in
  match r with
  | RVoid => regs
  | RInt v => <[0%nat := Z.lor (Z.shiftl (Z.shiftr (junk 0) 32) 32) (u32 v)]> regs
  | RLong v => <[0%nat := v]> regs
  end.
Definition call (f : M K cret) : M cpu unit :=
  r ← zoom kern set_kern f;
  modify (λ s, set_xr (after_call (xr s) r) (set_ram (below (sp_el1 s) (ram s)) s)).

Definition bl_handle_irq : M cpu unit := call (c_handle_irq ;; mret RVoid).
Definition bl_handle_sync : M cpu unit :=
  x0 ← get 0; x1 ← get 1; x2 ← get 2;
  call (r ← c_handle_sync x0 x1 x2; mret (RLong r)).
Definition bl_unexpected_handler : M cpu unit := call (c_unexpected ;; mret RVoid).

(** ** The vectors *)

(** The addresses of [syscall_table] and of the handlers. *)
Variables (table_addr : Z) (handler_addr : handler → Z).

(** [adr x27, syscall_table; uxtw x16, w8; ldr x16, [x27, x16, lsl #3]; blr x16]:
    a number beyond the table reads memory that is not part of it. *)
Definition el0_syscall : M cpu unit :=
  put 27 table_addr ;;
  w8 ← get 8; put 16 (u32 w8) ;;
  n ← get 16;
  h ← load (λ _, syscall_table !! Z.to_nat n);
  put 16 (handler_addr h) ;;
  call (c_syscall h) ;;
  switch_to_thread_ctx ;;
  str_sp 0 0 ;;
  exception_exit.

Definition irq_entry : M cpu unit :=
  exception_enter ;;
  bl_handle_irq ;;
  exception_exit.

Definition sync_el1h_entry : M cpu unit :=
  exception_enter ;;
  put 0 SYNC_EL1h ;;
  mrs 1 esr_el1 ;;
  mrs 2 elr_el1 ;;
  bl_handle_sync ;;
  str_sp 0 (16 * 16) ;;
  exception_exit.

Definition sync_el0_64_entry : M cpu unit :=
  exception_enter ;;
  switch_to_cpu_stack ;;
  mrs 25 esr_el1 ;;
  x25 ← get 25; put 24 (Z.shiftr x25 ESR_EL1_EC_SHIFT) ;;
  x24 ← get 24;
  if x24 =? ESR_EL1_EC_SVC_64 then el0_syscall
  else
    put 0 SYNC_EL0_64 ;;
    mrs 1 esr_el1 ;;
    mrs 2 elr_el1 ;;
    bl_handle_sync ;;
    switch_to_thread_ctx ;;
    exception_exit.

Definition entry (v : vector) : M cpu unit :=
  match v with
  | irq_el1h | irq_el0_64 => irq_entry
  | sync_el1h => sync_el1h_entry
  | sync_el0_64 => sync_el0_64_entry
  | _ => bl_unexpected_handler
  end.

(** [mov sp, x0; dmb ish; exception_exit] *)
Definition eret_to_thread : M cpu unit :=
  x0 ← get 0; modify (set_sp x0) ;;
  exception_exit.

(** The core takes an exception at the slot [n] of [el1_vector]: [ret] is the
    preferred return address, [esr] the syndrome. *)
Definition take_exception (n : nat) (ret esr : Z) : M cpu unit :=
  modify (λ s, mk_cpu (xr s) (sp_el1 s) (sp_el0 s) ret (pstate s) esr (tpidr_el1 s) (pc s) (pstate s) (ram s) (kern s)) ;;
  v ← load (λ _, el1_vector !! n);
  entry v.
End code.
Arguments cpu K : clear implicits.
