(* ===== verification/ExceptionOps.v ===== *)
(** * What the exception entry code does to a core

    [frame c m ws] says that the memory [m] holds the words [ws] of a context at
    [c].  [exception_enter] builds the frame of the interrupted context,
    [exception_exit] restores the registers from a frame, and a call in between
    leaves it alone; the vectors compose these three facts. *)

From S2P Require Import Prelude Macro Machine Exception.

Section ops.
Context {K : Type} `{!KernelCode K}.
Implicit Types (s : cpu K) (ws : list Z) (m : gmap Z Z).

(** ** Frames *)
Definition frame (c : Z) m ws : Prop :=
  length ws = 34%nat ∧ ∀ i w, ws !! i = Some w → m !! (c + 8 * Z.of_nat i) = Some w.
Definition same_outside (lo hi : Z) m m' : Prop := ∀ a, ¬ (lo ≤ a < hi) → m' !! a = m !! a.
(** A frame does not wrap around. *)
Definition in_space (c : Z) : Prop := 0 ≤ c ∧ c + ARCH_EXEC_CONT_SIZE < 2 ^ 64.

Lemma frame_lookup c m ws i : frame c m ws → (i < 34)%nat → ∃ w, ws !! i = Some w ∧ m !! (c + 8 * Z.of_nat i) = Some w.
Proof. intros [Hl Hf] Hi. destruct (lookup_lt_is_Some_2 ws i ltac:(lia)) as [w Hw]. eauto. Qed.

Lemma frame_insert c m ws i w : frame c m ws → (i < 34)%nat → frame c (<[c + 8 * Z.of_nat i := w]> m) (<[i := w]> ws).
Proof.
  intros [Hl Hf] Hi. split; [by rewrite length_insert|]. intros j v Hj. destruct (decide (i = j)) as [->|Hne].
  - rewrite list_lookup_insert_eq in Hj by lia. injection Hj as ->. apply lookup_insert_eq.
  - rewrite list_lookup_insert_ne in Hj by done. rewrite lookup_insert_ne by lia. by apply Hf.
Qed.

Lemma frame_same c m m' ws lo hi : frame c m ws → same_outside lo hi m m' →
  (hi ≤ c ∨ c + ARCH_EXEC_CONT_SIZE ≤ lo) → frame c m' ws.
Proof.
  intros [Hl Hf] Hs Hd. split; [done|]. intros i w Hi. rewrite Hs; [by apply Hf|].
  apply lookup_lt_Some in Hi. unfold ARCH_EXEC_CONT_SIZE, REG_NUM, SZ_U64 in Hd. lia.
Qed.

Lemma same_outside_insert lo hi m m' a v : same_outside lo hi m m' → lo ≤ a < hi → same_outside lo hi m (<[a := v]> m').
Proof. intros Hs Ha b Hb. rewrite lookup_insert_ne by (intros ->; done). by apply Hs. Qed.

(** ** Single instructions *)
Lemma wp_get n v s (Q : Z → cpu K → Prop) : xr s !! n = Some v → Q v s → wp (get n) s Q.
Proof. intros. by eapply wp_load. Qed.

Lemma wp_str_at a v s (Q : unit → cpu K → Prop) :
  is_Some (ram s !! a) → Q tt (set_ram (<[a := v]> (ram s)) s) → wp (str_at a v) s Q.
Proof. intros [w Hw] HQ. apply wp_bind. eapply wp_load; [exact Hw|]. by apply wp_modify. Qed.

Lemma wp_put n v s (Q : unit → cpu K → Prop) : Q tt (set_xr (<[n := v]> (xr s)) s) → wp (put n v) s Q.
Proof. exact (wp_modify _ s Q). Qed.

Lemma wp_mrs n reg s (Q : unit → cpu K → Prop) : Q tt (set_xr (<[n := reg s]> (xr s)) s) → wp (mrs n reg) s Q.
Proof. intros HQ. apply wp_bind, wp_gets, wp_put, HQ. Qed.

Lemma wp_msr set n v s (Q : unit → cpu K → Prop) : xr s !! n = Some v → Q tt (set v s) → wp (msr set n) s Q.
Proof. intros Hn HQ. apply wp_bind. eapply wp_get; [exact Hn|]. exact (wp_modify _ s Q HQ). Qed.

(** A pair of words of the frame at [sp]. *)
Lemma wp_stp c a b k va vb ws s (Q : unit → cpu K → Prop) : in_space c → sp_el1 s = c → frame c (ram s) ws → (k < 17)%nat →
  xr s !! a = Some va → xr s !! b = Some vb →
  (∀ m, frame c m (<[S (2 * k) := vb]> (<[(2 * k)%nat := va]> ws)) → same_outside c (c + ARCH_EXEC_CONT_SIZE) (ram s) m → Q tt (set_ram m s)) →
  wp (stp a b (16 * Z.of_nat k)) s Q.
Proof.
  intros [Hc0 Hc1] Hsp Hf Hk Ha Hb HQ. unfold stp. apply wp_bind. eapply wp_get; [exact Ha|]. apply wp_bind. eapply wp_get; [exact Hb|].
  apply wp_bind, wp_gets. rewrite Hsp. unfold ARCH_EXEC_CONT_SIZE, REG_NUM, SZ_U64 in *. rewrite !u64_small by lia.
  replace (c + 16 * Z.of_nat k) with (c + 8 * Z.of_nat (2 * k)) by lia.
  replace (c + 8 * Z.of_nat (2 * k) + 8) with (c + 8 * Z.of_nat (S (2 * k))) by lia.
  destruct (frame_lookup _ _ _ (2 * k) Hf ltac:(lia)) as (w0 & _ & E0). destruct (frame_lookup _ _ _ (S (2 * k)) Hf ltac:(lia)) as (w1 & _ & E1).
  apply wp_bind, wp_str_at; [by eexists|]. apply wp_str_at; [cbn [ram set_ram]; rewrite lookup_insert_ne by lia; by eexists|].
  cbn [ram set_ram xr sp_el1 sp_el0 elr_el1 spsr_el1 esr_el1 tpidr_el1 pc pstate kern]. apply HQ; [apply frame_insert; [by apply frame_insert; [|lia]|lia]|].
  apply same_outside_insert; [apply same_outside_insert; [by intros ?|lia]|lia].
Qed.

Lemma wp_ldp c a b k va vb ws s (Q : unit → cpu K → Prop) : in_space c → sp_el1 s = c → frame c (ram s) ws → (k < 17)%nat →
  ws !! (2 * k)%nat = Some va → ws !! S (2 * k) = Some vb →
  Q tt (set_xr (<[b := vb]> (<[a := va]> (xr s))) s) → wp (ldp a b (16 * Z.of_nat k)) s Q.
Proof.
  intros [Hc0 Hc1] Hsp [Hl Hf] Hk Ha Hb HQ. unfold ldp. apply wp_bind, wp_gets. rewrite Hsp.
  unfold ARCH_EXEC_CONT_SIZE, REG_NUM, SZ_U64 in *. rewrite !u64_small by lia.
  replace (c + 16 * Z.of_nat k) with (c + 8 * Z.of_nat (2 * k)) by lia.
  replace (c + 8 * Z.of_nat (2 * k) + 8) with (c + 8 * Z.of_nat (S (2 * k))) by lia.
  apply wp_bind. eapply wp_load; [by apply Hf|]. apply wp_bind. eapply wp_load; [by apply Hf|].
  apply wp_bind, wp_modify, wp_modify. exact HQ.
Qed.

(** ** Saving and restoring *)

(** The words of the context of [s], in the order of [enum reg_type]. *)
Definition context s : list Z := xr s ++ [sp_el0 s; elr_el1 s; spsr_el1 s].
(** A register of the interrupted code. *)
Definition reg_value (r : reg_type) s : Z :=
  match r with
  | SP_EL0 => sp_el0 s
  | ELR_EL1 => elr_el1 s
  | SPSR_EL1 => spsr_el1 s
  | X n => nth n (xr s) 0
  end.

(** The word of a register in the context is the one its enumerator names. *)
Lemma context_layout s r : length (xr s) = 31%nat → (∀ n, r = X n → (n ≤ 30)%nat) → context s !! reg_num r = Some (reg_value r s).
Proof.
  intros Hl Hr. unfold context. destruct r as [n| | |]; cbn [reg_num reg_value]; [|by rewrite lookup_app_r, Hl by lia..].
  specialize (Hr n eq_refl). rewrite lookup_app_l by lia. rewrite nth_lookup.
  destruct (lookup_lt_is_Some_2 (xr s) n) as [v ->]; [lia|done].
Qed.

(** The registers that [exception_enter] uses. *)
Definition entered s : list Z := <[23%nat := spsr_el1 s]> (<[22%nat := elr_el1 s]> (<[21%nat := sp_el0 s]> (xr s))).

Lemma same_outside_refl lo hi m : same_outside lo hi m m.
Proof. by intros ?. Qed.

Lemma same_outside_trans lo hi m m' m'' : same_outside lo hi m m' → same_outside lo hi m' m'' → same_outside lo hi m m''.
Proof. intros H1 H2 a Ha. by rewrite H2, H1. Qed.

Lemma same_outside_wider lo hi lo' hi' m m' : lo' ≤ lo → hi ≤ hi' → same_outside lo hi m m' → same_outside lo' hi' m m'.
Proof. intros Hl Hh Hs a Ha. apply Hs. lia. Qed.

Lemma set_ram_ram m m' s : set_ram m' (set_ram m s) = set_ram m' s.
Proof. done. Qed.

(** The next pair: [Hx] gives the registers, [Hf] the frame, [Hs] the memory so far. *)
Ltac step_stp Hc Hx Hf Hs c k :=
  apply wp_bind; eapply (wp_stp c _ _ k); [exact Hc|reflexivity|exact Hf|lia|cbn; rewrite Hx; reflexivity|cbn; rewrite Hx; reflexivity|];
  let m := fresh "m" in let Hf' := fresh in let Hs' := fresh in let Hn := fresh in
  intros m Hf' Hs'; clear Hf; rename Hf' into Hf; cbn [insert list_insert Nat.mul Nat.add] in Hf;
  pose proof (same_outside_trans _ _ _ _ _ Hs Hs') as Hn; clear Hs Hs'; rename Hn into Hs;
  rewrite set_ram_ram; cbn [ram set_ram] in Hs.

Lemma wp_enter_mrs {B} (f : M (cpu K) B) s (Q : B → cpu K → Prop) :
  wp f (set_xr (entered s) s) Q → wp (mrs 21 sp_el0 ;; mrs 22 elr_el1 ;; mrs 23 spsr_el1 ;; f) s Q.
Proof. intros HQ. do 3 apply wp_bind, wp_mrs. exact HQ. Qed.

Lemma wp_exception_enter s c ws (Q : unit → cpu K → Prop) :
  length (xr s) = 31%nat → sp_el1 s = c + ARCH_EXEC_CONT_SIZE → in_space c → frame c (ram s) ws →
  (∀ m, frame c m (context s) → same_outside c (c + ARCH_EXEC_CONT_SIZE) (ram s) m →
    Q tt (set_xr (entered s) (set_sp c (set_ram m s)))) →
  wp exception_enter s Q.
Proof.
  intros Hl Hsp Hc Hf HQ. destruct (xr s) as [|? regs] eqn:Hx; [discriminate|].
  do 30 (destruct regs as [|? regs]; [discriminate|]). destruct regs; [|discriminate]. clear Hl.
  apply wp_bind, wp_modify. rewrite Hsp.
  replace (u64 (c + ARCH_EXEC_CONT_SIZE + - ARCH_EXEC_CONT_SIZE)) with c by (rewrite u64_small; unfold in_space, ARCH_EXEC_CONT_SIZE, REG_NUM, SZ_U64 in *; lia).
  pose proof (same_outside_refl c (c + ARCH_EXEC_CONT_SIZE) (ram s)) as Hs. pose proof (proj1 Hf) as Hw.
  do 34 (destruct ws as [|? ws]; [discriminate|]). destruct ws; [|discriminate]. clear Hw.
  replace (set_sp c s) with (set_ram (ram s) (set_sp c s)) by done. 
  step_stp Hc Hx Hf Hs c 0%nat. step_stp Hc Hx Hf Hs c 1%nat. step_stp Hc Hx Hf Hs c 2%nat. step_stp Hc Hx Hf Hs c 3%nat. step_stp Hc Hx Hf Hs c 4%nat.
  step_stp Hc Hx Hf Hs c 5%nat. step_stp Hc Hx Hf Hs c 6%nat. step_stp Hc Hx Hf Hs c 7%nat. step_stp Hc Hx Hf Hs c 8%nat. step_stp Hc Hx Hf Hs c 9%nat.
  step_stp Hc Hx Hf Hs c 10%nat. step_stp Hc Hx Hf Hs c 11%nat. step_stp Hc Hx Hf Hs c 12%nat. step_stp Hc Hx Hf Hs c 13%nat. step_stp Hc Hx Hf Hs c 14%nat.
  apply wp_enter_mrs.
  assert (entered s = <[23%nat := spsr_el1 s]> (<[22%nat := elr_el1 s]> (<[21%nat := sp_el0 s]> (xr s)))) as Hx' by done.
  rewrite Hx in Hx'. cbn [insert list_insert] in Hx'.
  match goal with |- wp _ (set_xr ?e _) _ => change e with (entered s) end.
  apply wp_bind. eapply (wp_stp c _ _ 15%nat); [exact Hc|reflexivity|exact Hf|lia|cbn [xr set_xr]; rewrite Hx'; reflexivity|cbn [xr set_xr]; rewrite Hx'; reflexivity|].
  intros m1' Hf' Hs'. cbn [insert list_insert Nat.mul Nat.add] in Hf'.
  eapply (wp_stp c _ _ 16%nat); [exact Hc|reflexivity|exact Hf'|lia|cbn [xr set_xr set_ram]; rewrite Hx'; reflexivity|cbn [xr set_xr set_ram]; rewrite Hx'; reflexivity|].
  intros m' Hf'' Hs''. cbn [insert list_insert Nat.mul Nat.add] in Hf''.
  apply (HQ m'); [unfold context; rewrite Hx; exact Hf''|].
  exact (same_outside_trans _ _ _ _ _ Hs (same_outside_trans _ _ _ _ _ Hs' Hs'')).
Qed.

(** The core after a return from the context [ws] at [c]. *)
Definition restored (c : Z) ws s : cpu K :=
  mk_cpu (take 31 ws) (c + ARCH_EXEC_CONT_SIZE) (nth (reg_num SP_EL0) ws 0) (nth (reg_num ELR_EL1) ws 0) (nth (reg_num SPSR_EL1) ws 0)
    (esr_el1 s) (tpidr_el1 s) (nth (reg_num ELR_EL1) ws 0) (nth (reg_num SPSR_EL1) ws 0) (ram s) (kern s).

Lemma set_xr_xr l l' s : set_xr l' (set_xr l s) = set_xr l' s.
Proof. done. Qed.

Lemma xr_set_xr l s : xr (set_xr l s) = l.
Proof. done. Qed.

(** The next pair of the frame [Hf] at [sp]. *)
Ltac step_ldp Hc Hsp Hf c k :=
  apply wp_bind; eapply (wp_ldp c _ _ k); [exact Hc|exact Hsp|exact Hf|lia|reflexivity|reflexivity|];
  rewrite set_xr_xr, xr_set_xr; cbn [insert list_insert].

(** [add sp, sp, #ARCH_EXEC_CONT_SIZE; eret] *)
Lemma wp_leave c regs sp0 elr spsr s (Q : unit → cpu K → Prop) : in_space c → sp_el1 s = c →
  Q tt (mk_cpu regs (c + ARCH_EXEC_CONT_SIZE) sp0 elr spsr (esr_el1 s) (tpidr_el1 s) elr spsr (ram s) (kern s)) →
  wp (add_sp ARCH_EXEC_CONT_SIZE ;; eret) (set_xr regs (set_spsr spsr (set_elr elr (set_sp_el0 sp0 s)))) Q.
Proof.
  intros Hc Hsp HQ. apply wp_bind, wp_modify, wp_modify. cbn -[u64 ARCH_EXEC_CONT_SIZE]. rewrite Hsp, u64_small; [exact HQ|].
  unfold in_space, ARCH_EXEC_CONT_SIZE, REG_NUM, SZ_U64 in *. lia.
Qed.

Lemma wp_exception_exit s c ws (Q : unit → cpu K → Prop) :
  length (xr s) = 31%nat → sp_el1 s = c → in_space c → frame c (ram s) ws → Q tt (restored c ws s) → wp exception_exit s Q.
Proof.
  intros Hl Hsp Hc Hf HQ. assert (s = set_xr (xr s) s) as Hs by (by destruct s). revert Hs.
  destruct (xr s) as [|? regs]; [discriminate|]. do 30 (destruct regs as [|? regs]; [discriminate|]). destruct regs; [|discriminate]. clear Hl.
  pose proof (proj1 Hf) as Hw. do 34 (destruct ws as [|? ws]; [discriminate|]). destruct ws; [|discriminate]. clear Hw.
  intros Hs. rewrite Hs. unfold exception_exit.
  step_ldp Hc Hsp Hf c 16%nat. step_ldp Hc Hsp Hf c 15%nat.
  do 3 (apply wp_bind; eapply wp_msr; [reflexivity|]).
  match goal with |- wp _ (set_spsr ?a (set_elr ?b (set_sp_el0 ?d (set_xr ?l s)))) _ =>
    change (set_spsr a (set_elr b (set_sp_el0 d (set_xr l s)))) with (set_xr l (set_spsr a (set_elr b (set_sp_el0 d s)))) end.
  step_ldp Hc Hsp Hf c 0%nat. step_ldp Hc Hsp Hf c 1%nat. step_ldp Hc Hsp Hf c 2%nat. step_ldp Hc Hsp Hf c 3%nat. step_ldp Hc Hsp Hf c 4%nat.
  step_ldp Hc Hsp Hf c 5%nat. step_ldp Hc Hsp Hf c 6%nat. step_ldp Hc Hsp Hf c 7%nat. step_ldp Hc Hsp Hf c 8%nat. step_ldp Hc Hsp Hf c 9%nat.
  step_ldp Hc Hsp Hf c 10%nat. step_ldp Hc Hsp Hf c 11%nat. step_ldp Hc Hsp Hf c 12%nat. step_ldp Hc Hsp Hf c 13%nat. step_ldp Hc Hsp Hf c 14%nat.
  apply (wp_leave c); [exact Hc|exact Hsp|exact HQ].
Qed.
End ops.

(** ** The vectors *)
Section vectors.
Context {K : Type} `{!KernelCode K} (junk : nat → Z) (below : Z → gmap Z Z → gmap Z Z) (table_addr : Z) (handler_addr : handler → Z).
(** A call uses at most a kernel stack below its [sp]. *)
Hypothesis Hbelow : ∀ sp m, same_outside (sp - CPU_STACK_SIZE) sp m (below sp m).
Implicit Types (s : cpu K).

(** The interrupted code goes on at [pc'], with [x0'] in place of [x0] if given,
    the kernel in state [k'], and memory changed between [lo] and [hi] only. *)
Record resumed s (pc' : Z) (x0' : option Z) (k' : K) (P : Z → Prop) s' : Prop := {
  re_xr : xr s' = match x0' with None => xr s | Some v => <[0%nat := v]> (xr s) end;
  re_sp : sp_el1 s' = sp_el1 s;
  re_sp0 : sp_el0 s' = sp_el0 s;
  re_tpidr : tpidr_el1 s' = tpidr_el1 s;
  re_pc : pc s' = pc';
  re_pstate : pstate s' = spsr_el1 s;
  re_kern : kern s' = k';
  re_ram : ∀ a, ¬ P a → ram s' !! a = ram s !! a
}.

(** A core with room for a context at [c]. *)
Record can_enter s (c : Z) : Prop := {
  ce_regs : length (xr s) = 31%nat;
  ce_sp : sp_el1 s = c + ARCH_EXEC_CONT_SIZE;
  ce_space : in_space c;
  ce_frame : ∃ ws, frame c (ram s) ws
}.

Lemma wp_call f r k' s (Q : unit → cpu K → Prop) : f (kern s) = Ok (r, k') →
  Q tt (set_xr (after_call junk (xr s) r) (set_ram (below (sp_el1 s) (ram s)) (set_kern k' s))) → wp (call junk below f) s Q.
Proof. intros Hf HQ. apply wp_bind. unfold wp, zoom. rewrite Hf. exact HQ. Qed.

Lemma length_after_call regs r : length (after_call junk regs r) = length regs.
Proof. unfold after_call. by destruct r; rewrite ?length_insert, length_imap. Qed.

Lemma context_fields s : length (xr s) = 31%nat →
  take 31 (context s) = xr s ∧ nth (reg_num SP_EL0) (context s) 0 = sp_el0 s ∧
  nth (reg_num ELR_EL1) (context s) 0 = elr_el1 s ∧ nth (reg_num SPSR_EL1) (context s) 0 = spsr_el1 s.
Proof.
  intros Hl. unfold context. rewrite !app_nth2 by (cbn [reg_num]; lia). rewrite Hl.
  split; [by rewrite take_app_length'|done].
Qed.

Lemma length_entered s : length (entered s) = length (xr s).
Proof. unfold entered. by rewrite !length_insert. Qed.

(** A word of the context that is replaced before the return. *)
Lemma nth_insert_eq (l : list Z) i v : (i < length l)%nat → nth i (<[i := v]> l) 0 = v.
Proof. intros Hi. by rewrite nth_lookup, list_lookup_insert_eq. Qed.
Lemma nth_insert_ne (l : list Z) i j v : i ≠ j → nth i (<[j := v]> l) 0 = nth i l 0.
Proof. intros Hi. by rewrite !nth_lookup, list_lookup_insert_ne. Qed.

Lemma wp_str_sp c a k v ws s (Q : unit → cpu K → Prop) : in_space c → sp_el1 s = c → frame c (ram s) ws → (k < 34)%nat →
  xr s !! a = Some v →
  (∀ m, frame c m (<[k := v]> ws) → same_outside c (c + ARCH_EXEC_CONT_SIZE) (ram s) m → Q tt (set_ram m s)) →
  wp (str_sp a (8 * Z.of_nat k)) s Q.
Proof.
  intros [Hc0 Hc1] Hsp Hf Hk Ha HQ. unfold str_sp. apply wp_bind. eapply wp_get; [exact Ha|]. apply wp_bind, wp_gets. rewrite Hsp.
  unfold ARCH_EXEC_CONT_SIZE, REG_NUM, SZ_U64 in *. rewrite u64_small by lia.
  destruct (frame_lookup _ _ _ k Hf Hk) as (w & _ & Ew). apply wp_str_at; [by eexists|].
  apply HQ; [by apply frame_insert|]. apply same_outside_insert; [apply same_outside_refl|lia].
Qed.

Lemma call_x0 regs v : (0 < length regs)%nat → after_call junk regs (RLong v) !! 0%nat = Some v.
Proof. intros Hl. unfold after_call. apply list_lookup_insert_eq. by rewrite length_imap. Qed.

Lemma first_three (l : list Z) a b d : (3 ≤ length l)%nat →
  let l' := <[2%nat := d]> (<[1%nat := b]> (<[0%nat := a]> l)) in
  l' !! 0%nat = Some a ∧ l' !! 1%nat = Some b ∧ l' !! 2%nat = Some d.
Proof. do 3 (destruct l as [|? l]; [simpl; lia|]). done. Qed.

(** The call of [handle_sync]: arguments from the system registers, result in [x0]. *)
Lemma wp_sync_call {B} (f : M (cpu K) B) type r k' s (Q : B → cpu K → Prop) :
  (3 ≤ length (xr s))%nat → c_handle_sync type (esr_el1 s) (elr_el1 s) (kern s) = Ok (r, k') →
  (∀ regs, length regs = length (xr s) → regs !! 0%nat = Some r →
    wp f (set_xr regs (set_ram (below (sp_el1 s) (ram s)) (set_kern k' s))) Q) →
  wp (put 0 type ;; mrs 1 esr_el1 ;; mrs 2 elr_el1 ;; bl_handle_sync junk below ;; f) s Q.
Proof.
  intros Hl Hk HQ. apply wp_bind, wp_put, wp_bind, wp_mrs, wp_bind, wp_mrs. rewrite !set_xr_xr, !xr_set_xr.
  destruct (first_three (xr s) type (esr_el1 s) (elr_el1 s) Hl) as (E0 & E1 & E2).
  apply wp_bind. unfold bl_handle_sync. do 3 (apply wp_bind; eapply wp_get; [rewrite xr_set_xr; first [exact E0|exact E1|exact E2]|]).
  eapply (wp_call _ (RLong r) k'); [unfold mbind, M_bind; cbn [kern set_xr]; by rewrite Hk|]. rewrite !xr_set_xr.
  apply HQ; [by rewrite length_after_call, !length_insert|]. apply call_x0. rewrite !length_insert. lia.
Qed.

(** The whole run of an interrupt. *)
Lemma wp_irq_entry s c k' : can_enter s c → c_handle_irq (kern s) = Ok (tt, k') →
  wp (irq_entry junk below) s (λ _ s', resumed s (elr_el1 s) None k' (λ a, c - CPU_STACK_SIZE ≤ a < c + ARCH_EXEC_CONT_SIZE) s').
Proof.
  intros [Hl Hsp Hc [ws Hf]] Hk. apply wp_bind. eapply wp_exception_enter; [exact Hl|exact Hsp|exact Hc|exact Hf|]. intros m Hfm Hs.
  apply wp_bind. eapply (wp_call _ RVoid k'); [unfold mbind, M_bind; cbn [kern set_xr set_sp set_ram]; by rewrite Hk|].
  eapply wp_exception_exit; [by rewrite xr_set_xr, length_after_call; cbn [xr set_xr]; rewrite length_entered|reflexivity|exact Hc| |].
  - cbn [ram set_xr set_ram]. eapply frame_same; [exact Hfm|apply Hbelow|]. left. apply Z.le_refl.
  - destruct (context_fields s Hl) as (E1 & E2 & E3 & E4). unfold restored. rewrite E1, E2, E3, E4. split; try done.
    cbn [ram set_xr set_ram sp_el1 set_sp]. intros a Ha. cbn beta in Ha. rewrite (Hbelow c m a) by (unfold CPU_STACK_SIZE, ARCH_EXEC_CONT_SIZE, REG_NUM, SZ_U64 in *; lia).
    apply Hs. unfold CPU_STACK_SIZE, ARCH_EXEC_CONT_SIZE, REG_NUM, SZ_U64 in *. lia.
Qed.

(** A data abort of the kernel. *)
Lemma wp_sync_el1h s c r k' : can_enter s c → c_handle_sync SYNC_EL1h (esr_el1 s) (elr_el1 s) (kern s) = Ok (r, k') →
  wp (sync_el1h_entry junk below) s (λ _ s', resumed s r None k' (λ a, c - CPU_STACK_SIZE ≤ a < c + ARCH_EXEC_CONT_SIZE) s').
Proof.
  intros [Hl Hsp Hc [ws Hf]] Hk. apply wp_bind. eapply wp_exception_enter; [exact Hl|exact Hsp|exact Hc|exact Hf|]. intros m Hfm Hs.
  eapply wp_sync_call; [rewrite xr_set_xr, length_entered; lia|exact Hk|]. intros regs Hr H0. rewrite xr_set_xr, length_entered in Hr.
  apply wp_bind. eapply (wp_str_sp c _ 32%nat); [exact Hc|reflexivity| |lia|exact H0|].
  { eapply frame_same; [exact Hfm|apply Hbelow|]. left. apply Z.le_refl. }
  cbn [ram set_xr set_ram sp_el1 set_sp set_kern]. intros m' Hf' Hs'.
  eapply wp_exception_exit; [cbn; congruence|reflexivity|exact Hc|exact Hf'|].
  destruct (context_fields s Hl) as (E1 & E2 & E3 & E4). unfold restored.
  assert (length (context s) = 34%nat) as Hcl by apply Hfm.
  rewrite take_insert_ge, nth_insert_eq, !nth_insert_ne, E1, E2, E4 by (done || cbn [reg_num]; lia). split; try done.
  cbn [ram set_xr set_ram sp_el1 set_sp]. intros a Ha. cbn beta in Ha.
  unfold CPU_STACK_SIZE, ARCH_EXEC_CONT_SIZE, REG_NUM, SZ_U64 in *. rewrite Hs' by lia. rewrite (Hbelow c m a) by lia. apply Hs. lia.
Qed.

(** ** Exceptions of user mode *)

(** The per-CPU data of the core: the context of the running thread is at [c],
    the kernel stack ends at [top], and the three do not overlap. *)
Record per_cpu s (c top : Z) : Prop := {
  pu_tpidr : 0 ≤ tpidr_el1 s ∧ tpidr_el1 s + OFFSET_LOCAL_CPU_STACK < 2 ^ 64;
  pu_ctx : ram s !! (tpidr_el1 s + OFFSET_CURRENT_EXEC_CTX) = Some c;
  pu_stack : ram s !! (tpidr_el1 s + OFFSET_LOCAL_CPU_STACK) = Some top;
  pu_apart : ∀ off, off = OFFSET_CURRENT_EXEC_CTX ∨ off = OFFSET_LOCAL_CPU_STACK →
    ¬ (c ≤ tpidr_el1 s + off < c + ARCH_EXEC_CONT_SIZE) ∧ ¬ (top - CPU_STACK_SIZE ≤ tpidr_el1 s + off < top);
  pu_disjoint : top ≤ c ∨ c + ARCH_EXEC_CONT_SIZE ≤ top - CPU_STACK_SIZE
}.

Lemma wp_switch_stack off v s (Q : unit → cpu K → Prop) :
  length (xr s) = 31%nat → 0 ≤ tpidr_el1 s + off < 2 ^ 64 → ram s !! (tpidr_el1 s + off) = Some v →
  (∀ regs, length regs = 31%nat → (∀ i, i ≠ 24%nat → regs !! i = xr s !! i) → Q tt (set_sp v (set_xr regs s))) →
  wp (switch_stack off) s Q.
Proof.
  intros Hl Hu Hv HQ. unfold switch_stack. apply wp_bind, wp_mrs.
  apply wp_bind. eapply wp_get; [apply list_lookup_insert_eq; lia|]. apply wp_bind, wp_put.
  apply wp_bind. eapply wp_get; [apply list_lookup_insert_eq; rewrite xr_set_xr, length_insert; lia|].
  apply wp_bind. eapply wp_load; [cbn [ram set_xr]; by rewrite u64_small|]. apply wp_bind, wp_put.
  eapply wp_msr; [apply list_lookup_insert_eq; rewrite !xr_set_xr, !length_insert; lia|]. rewrite !set_xr_xr, !xr_set_xr.
  apply HQ; [by rewrite !length_insert|]. intros i Hi. by rewrite !list_lookup_insert_ne.
Qed.

(** What the caller of a function finds in [x0]. *)
Definition x0_of (r : cret) : Z :=
  match r with RVoid => junk 0 | RInt v => Z.lor (Z.shiftl (Z.shiftr (junk 0) 32) 32) (u32 v) | RLong v => v end.

Lemma after_call_x0 regs r : (0 < length regs)%nat → after_call junk regs r !! 0%nat = Some (x0_of r).
Proof.
  intros Hl. unfold after_call. destruct r; simpl; [|apply list_lookup_insert_eq; by rewrite length_imap..].
  destruct regs as [|x regs]; [simpl in Hl; lia|done].
Qed.

(** The state of the core in the middle of a user exception: the user's context
    is saved and the core runs on its kernel stack. *)
Record in_kernel s (c top : Z) s1 : Prop := {
  ik_regs : length (xr s1) = 31%nat;
  ik_sp : sp_el1 s1 = top;
  ik_frame : frame c (ram s1) (context s);
  ik_ram : same_outside c (c + ARCH_EXEC_CONT_SIZE) (ram s) (ram s1);
  ik_rest : tpidr_el1 s1 = tpidr_el1 s ∧ esr_el1 s1 = esr_el1 s ∧ elr_el1 s1 = elr_el1 s ∧ kern s1 = kern s;
  ik_args : ∀ i, (i ≤ 20)%nat → xr s1 !! i = xr s !! i
}.

Lemma wp_enter_kernel {B} (f : M (cpu K) B) s c top (Q : B → cpu K → Prop) : can_enter s c → per_cpu s c top →
  (∀ s1, in_kernel s c top s1 → wp f s1 Q) → wp (exception_enter ;; switch_to_cpu_stack ;; f) s Q.
Proof.
  intros [Hl Hsp Hc [ws Hf]] [[Ht0 Ht1] _ Hst Hap _] HQ. apply wp_bind.
  eapply wp_exception_enter; [exact Hl|exact Hsp|exact Hc|exact Hf|]. intros m Hfm Hs.
  apply wp_bind. eapply (wp_switch_stack _ top); [by rewrite xr_set_xr, length_entered|unfold OFFSET_LOCAL_CPU_STACK in *; cbn; lia| |].
  { cbn [ram set_xr set_sp set_ram tpidr_el1]. rewrite Hs; [exact Hst|]. apply Hap. by right. }
  intros regs Hr Hsame. apply HQ. split; try done. intros i Hi. cbn [xr set_sp set_xr]. rewrite Hsame by lia.
  rewrite xr_set_xr. unfold entered. by rewrite !list_lookup_insert_ne by lia.
Qed.

(** Back to the thread, whose context [g] may have changed. *)
Lemma wp_leave_kernel {B} (f : M (cpu K) B) s c top s1 regs k' (Q : B → cpu K → Prop) : per_cpu s c top → in_kernel s c top s1 →
  length regs = 31%nat →
  (∀ regs', length regs' = 31%nat → regs' !! 0%nat = regs !! 0%nat →
    frame c (below top (ram s1)) (context s) →
    (∀ a, ¬ (c ≤ a < c + ARCH_EXEC_CONT_SIZE ∨ top - CPU_STACK_SIZE ≤ a < top) → below top (ram s1) !! a = ram s !! a) →
    wp f (set_sp c (set_xr regs' (set_ram (below top (ram s1)) (set_kern k' s1)))) Q) →
  wp (switch_to_thread_ctx ;; f) (set_xr regs (set_ram (below top (ram s1)) (set_kern k' s1))) Q.
Proof.
  intros [[Ht0 Ht1] Hct _ Hap Hd] [Hl Hsp Hf Hs (Etp & _) _] Hr HQ. apply wp_bind.
  destruct (Hap _ (or_introl eq_refl)) as [Hap1 Hap2].
  eapply (wp_switch_stack _ c); [done|unfold OFFSET_CURRENT_EXEC_CTX, OFFSET_LOCAL_CPU_STACK in *; cbn; rewrite Etp; lia| |].
  { cbn [ram set_xr set_kern set_ram tpidr_el1]. rewrite Etp, Hbelow, Hs by done. exact Hct. }
  intros regs' Hr' Hsame. apply HQ; [done|by rewrite Hsame|eapply frame_same; [exact Hf|apply Hbelow|lia]|].
  intros a Ha. rewrite Hbelow, Hs by lia. done.
Qed.

Definition user_writes (c top : Z) (a : Z) : Prop := c ≤ a < c + ARCH_EXEC_CONT_SIZE ∨ top - CPU_STACK_SIZE ≤ a < top.

Lemma in_kernel_set_xr s c top s1 regs : in_kernel s c top s1 → length regs = 31%nat →
  (∀ i, (i ≤ 20)%nat → regs !! i = xr s !! i) → in_kernel s c top (set_xr regs s1).
Proof. intros [_ Hsp Hf Hs Hr _] Hl Ha. by split. Qed.

(** The exception class, and the registers used to find it. *)
Lemma wp_classify {B} (f : Z → M (cpu K) B) s c top s1 (Q : B → cpu K → Prop) : in_kernel s c top s1 →
  (∀ s2, in_kernel s c top s2 → wp (f (Z.shiftr (esr_el1 s) ESR_EL1_EC_SHIFT)) s2 Q) →
  wp (mrs 25 esr_el1 ;; x25 ← get 25; put 24 (Z.shiftr x25 ESR_EL1_EC_SHIFT) ;; x24 ← get 24; f x24) s1 Q.
Proof.
  intros Hk HQ. pose proof Hk as [Hl _ _ _ (_ & Ees & _) Ha]. apply wp_bind, wp_mrs.
  apply wp_bind. eapply wp_get; [apply list_lookup_insert_eq; lia|]. apply wp_bind, wp_put.
  apply wp_bind. eapply wp_get; [apply list_lookup_insert_eq; rewrite xr_set_xr, length_insert; lia|]. rewrite set_xr_xr, xr_set_xr, Ees.
  apply HQ. apply in_kernel_set_xr; [done|by rewrite !length_insert|]. intros i Hi. rewrite !list_lookup_insert_ne by lia. by apply Ha.
Qed.

(** A system call: the handler's [x0] is what the thread finds in its own. *)
Lemma wp_syscall s c top s1 w8 h r k' : can_enter s c → per_cpu s c top → in_kernel s c top s1 →
  xr s !! 8%nat = Some w8 → syscall_table !! Z.to_nat (u32 w8) = Some h → c_syscall h (kern s) = Ok (r, k') →
  wp (el0_syscall junk below table_addr handler_addr) s1 (λ _ s', resumed s (elr_el1 s) (Some (x0_of r)) k' (user_writes c top) s').
Proof.
  intros [Hl Hsp Hc _] Hp Hk H8 Hh Hr. pose proof Hk as [Hl1 Hsp1 _ _ (Etp & _ & _ & Ek) Ha]. unfold el0_syscall.
  apply wp_bind, wp_put, wp_bind. eapply wp_get; [cbn [xr set_xr]; rewrite list_lookup_insert_ne, Ha by lia; exact H8|].
  apply wp_bind, wp_put, wp_bind. eapply wp_get; [apply list_lookup_insert_eq; cbn [xr set_xr]; rewrite length_insert; lia|].
  apply wp_bind. eapply wp_load; [exact Hh|]. apply wp_bind, wp_put. rewrite !set_xr_xr, !xr_set_xr.
  apply wp_bind. eapply (wp_call _ r k'); [cbn [kern set_xr]; by rewrite Ek|]. rewrite xr_set_xr. cbn [sp_el1 ram set_xr]. rewrite Hsp1.
  eapply (wp_leave_kernel _ s c top s1); [done|done|by rewrite length_after_call, !length_insert|]. intros regs Hlr H0 Hf Hm.
  rewrite after_call_x0 in H0 by (rewrite !length_insert; lia).
  apply wp_bind. eapply (wp_str_sp c 0%nat 0%nat); [exact Hc|done|exact Hf|lia|exact H0|]. intros m Hfm Hs.
  eapply wp_exception_exit; [done|done|exact Hc|exact Hfm|].
  destruct (context_fields s Hl) as (E1 & E2 & E3 & E4). unfold restored. rewrite take_insert_lt, E1, !nth_insert_ne, E2, E3, E4 by (done || lia).
  split; try done. cbn [ram set_ram]. intros a Hna. rewrite Hs; [by apply Hm|]. unfold user_writes in Hna. cbn. lia.
Qed.

(** The two ways a synchronous exception of user mode goes. *)
Lemma wp_svc s c top w8 h r k' : can_enter s c → per_cpu s c top →
  Z.shiftr (esr_el1 s) ESR_EL1_EC_SHIFT = ESR_EL1_EC_SVC_64 →
  xr s !! 8%nat = Some w8 → syscall_table !! Z.to_nat (u32 w8) = Some h → c_syscall h (kern s) = Ok (r, k') →
  wp (sync_el0_64_entry junk below table_addr handler_addr) s
    (λ _ s', resumed s (elr_el1 s) (Some (x0_of r)) k' (user_writes c top) s').
Proof.
  intros He Hp Hec H8 Hh Hr. unfold sync_el0_64_entry. eapply wp_enter_kernel; [done|done|]. intros s1 Hk.
  eapply wp_classify; [done|]. intros s2 Hk2. rewrite Hec, Z.eqb_refl. by eapply wp_syscall.
Qed.

Lemma wp_user_fault s c top r k' : can_enter s c → per_cpu s c top →
  Z.shiftr (esr_el1 s) ESR_EL1_EC_SHIFT ≠ ESR_EL1_EC_SVC_64 →
  c_handle_sync SYNC_EL0_64 (esr_el1 s) (elr_el1 s) (kern s) = Ok (r, k') →
  wp (sync_el0_64_entry junk below table_addr handler_addr) s
    (λ _ s', resumed s (elr_el1 s) None k' (user_writes c top) s').
Proof.
  intros He Hp Hec Hr. pose proof He as [Hl Hsp Hc _]. unfold sync_el0_64_entry. eapply wp_enter_kernel; [done|done|]. intros s1 Hk.
  eapply wp_classify; [done|]. intros s2 Hk2. rewrite (proj2 (Z.eqb_neq _ _) Hec).
  pose proof Hk2 as [Hl2 Hsp2 _ _ (Etp & Ees & Eel & Ek) _].
  eapply (wp_sync_call _ _ r k'); [lia|by rewrite Ees, Eel, Ek|]. intros regs Hlr _. rewrite Hsp2.
  eapply (wp_leave_kernel _ s c top s2); [done|done|congruence|]. intros regs' Hlr' _ Hf Hm.
  eapply wp_exception_exit; [done|done|exact Hc|exact Hf|].
  destruct (context_fields s Hl) as (E1 & E2 & E3 & E4). unfold restored. rewrite E1, E2, E3, E4. by split.
Qed.

(** ** A number beyond the table *)

(** The outcome of [f], as a value: runs of a prefix can be followed by [wp]
    also when the rest stops. *)
Definition outcome {B} (f : M (cpu K) B) : M (cpu K) (res (B * cpu K)) := λ s, Ok (f s, s).

Lemma wp_outcome {B} (f : M (cpu K) B) s (o : res (B * cpu K)) : f s = o → wp (outcome f) s (λ r _, r = o).
Proof. done. Qed.

Lemma ends_bind {A B} (m : M (cpu K) A) (f : A → M (cpu K) B) s o : wp m s (λ a s', f a s' = o) → (m ≫= f) s = o.
Proof. unfold wp, mbind, M_bind. by destruct (m s) as [[a s']|]. Qed.

(** Undo [outcome] behind a prefix. *)
Ltac ends_in Hw :=
  repeat (apply ends_bind; eapply wp_mono; [|exact (wp_bind_inv _ _ _ _ Hw)]; clear Hw; cbn beta; intros ? ? Hw); exact Hw.

Lemma syscall_beyond s c top s1 w8 : in_kernel s c top s1 → xr s !! 8%nat = Some w8 →
  syscall_table !! Z.to_nat (u32 w8) = None → el0_syscall junk below table_addr handler_addr s1 = Halt HFault.
Proof.
  intros [Hl _ _ _ _ Ha] H8 Hn. unfold el0_syscall. unfold mbind, M_bind, put, modify, get, load. cbn [xr set_xr].
  rewrite list_lookup_insert_ne, Ha, H8 by lia. cbn [xr set_xr]. rewrite list_lookup_insert_eq by (rewrite length_insert; lia). by rewrite Hn.
Qed.

Lemma svc_beyond s c top w8 : can_enter s c → per_cpu s c top →
  Z.shiftr (esr_el1 s) ESR_EL1_EC_SHIFT = ESR_EL1_EC_SVC_64 →
  xr s !! 8%nat = Some w8 → syscall_table !! Z.to_nat (u32 w8) = None →
  sync_el0_64_entry junk below table_addr handler_addr s = Halt HFault.
Proof.
  intros He Hp Hec H8 Hn. unfold sync_el0_64_entry.
  match goal with |- (exception_enter ;; switch_to_cpu_stack ;; ?f) s = _ => set (rest := f) end.
  assert (wp (exception_enter ;; switch_to_cpu_stack ;; outcome rest) s (λ r _, r = Halt HFault)) as Hw.
  { eapply wp_enter_kernel; [done|done|]. intros s1 Hk. apply wp_outcome. subst rest.
    match goal with |- (mrs 25 esr_el1 ;; x25 ← get 25; put 24 _ ;; x24 ← get 24; @?f x24) s1 = _ => set (g := f) end.
    assert (wp (mrs 25 esr_el1 ;; x25 ← get 25; put 24 (Z.shiftr x25 ESR_EL1_EC_SHIFT) ;; x24 ← get 24; outcome (g x24)) s1 (λ r _, r = Halt HFault)) as Hw.
    { apply (wp_classify (λ x, outcome (g x)) s c top); [done|]. intros s2 Hk2. apply wp_outcome. subst g. cbn beta. rewrite Hec, Z.eqb_refl.
      by eapply syscall_beyond. }
    ends_in Hw. }
  ends_in Hw.
Qed.
End vectors.
