(* ===== verification/Constants.v ===== *)
(** * The numbers of the headers

    The error codes of [common/errno.h], the system call numbers of
    [uapi/syscall_num.h] and the exception classes and fault codes of
    [arch/machine/esr.h], as tables of names and values, and what the code that
    uses them relies on: an error code survives the trip through a pointer and
    is told from every object of the kernel, each system call has its own slot
    of [syscall_table], and an exception class can be read back from the
    syndrome it is part of. *)

From stdpp Require Import strings.
From S2P Require Import Prelude Macro Machine.

#[local] Open Scope string_scope.
#[local] Open Scope Z_scope.

(** ** Error codes *)
Definition errno_table : list (string * Z) :=
  [("EPERM", 1); ("ENOENT", 2); ("ESRCH", 3); ("EINTR", 4); ("EIO", 5); ("ENXIO", 6); ("E2BIG", 7); ("ENOEXEC", 8);
   ("EBADF", 9); ("ECHILD", 10); ("EAGAIN", 11); ("ENOMEM", 12); ("EACCES", 13); ("EFAULT", 14); ("ENOTBLK", 15);
   ("EBUSY", 16); ("EEXIST", 17); ("EXDEV", 18); ("ENODEV", 19); ("ENOTDIR", 20); ("EISDIR", 21); ("EINVAL", 22);
   ("ENFILE", 23); ("EMFILE", 24); ("ENOTTY", 25); ("ETXTBSY", 26); ("EFBIG", 27); ("ENOSPC", 28); ("ESPIPE", 29);
   ("EROFS", 30); ("EMLINK", 31); ("EPIPE", 32); ("EDOM", 33); ("ERANGE", 34); ("EDEADLK", 35); ("ENAMETOOLONG", 36);
   ("ENOLCK", 37); ("ENOSYS", 38); ("ENOTEMPTY", 39); ("ELOOP", 40); ("EWOULDBLOCK", 11); ("ENOMSG", 42);
   ("EIDRM", 43); ("ECHRNG", 44); ("EL2NSYNC", 45); ("EL3HLT", 46); ("EL3RST", 47); ("ELNRNG", 48); ("EUNATCH", 49);
   ("ENOCSI", 50); ("EL2HLT", 51); ("EBADE", 52); ("EBADR", 53); ("EXFULL", 54); ("ENOANO", 55); ("EBADRQC", 56);
   ("EBADSLT", 57); ("EDEADLOCK", 35); ("EBFONT", 59); ("ENOSTR", 60); ("ENODATA", 61); ("ETIME", 62); ("ENOSR", 63);
   ("ENONET", 64); ("ENOPKG", 65); ("EREMOTE", 66); ("ENOLINK", 67); ("EADV", 68); ("ESRMNT", 69); ("ECOMM", 70);
   ("EPROTO", 71); ("EMULTIHOP", 72); ("EDOTDOT", 73); ("EBADMSG", 74); ("EOVERFLOW", 75); ("ENOTUNIQ", 76);
   ("EBADFD", 77); ("EREMCHG", 78); ("ELIBACC", 79); ("ELIBBAD", 80); ("ELIBSCN", 81); ("ELIBMAX", 82);
   ("ELIBEXEC", 83); ("EILSEQ", 84); ("ERESTART", 85); ("ESTRPIPE", 86); ("EUSERS", 87); ("ENOTSOCK", 88);
   ("EDESTADDRREQ", 89); ("EMSGSIZE", 90); ("EPROTOTYPE", 91); ("ENOPROTOOPT", 92); ("EPROTONOSUPPORT", 93);
   ("ESOCKTNOSUPPORT", 94); ("EOPNOTSUPP", 95); ("ENOTSUP", 95); ("EPFNOSUPPORT", 96); ("EAFNOSUPPORT", 97);
   ("EADDRINUSE", 98); ("EADDRNOTAVAIL", 99); ("ENETDOWN", 100); ("ENETUNREACH", 101); ("ENETRESET", 102);
   ("ECONNABORTED", 103); ("ECONNRESET", 104); ("ENOBUFS", 105); ("EISCONN", 106); ("ENOTCONN", 107);
   ("ESHUTDOWN", 108); ("ETOOMANYREFS", 109); ("ETIMEDOUT", 110); ("ECONNREFUSED", 111); ("EHOSTDOWN", 112);
   ("EHOSTUNREACH", 113); ("EALREADY", 114); ("EINPROGRESS", 115); ("ESTALE", 116); ("EUCLEAN", 117);
   ("ENOTNAM", 118); ("ENAVAIL", 119); ("EISNAM", 120); ("EREMOTEIO", 121); ("EDQUOT", 122); ("ENOMEDIUM", 123);
   ("EMEDIUMTYPE", 124); ("ECANCELED", 125); ("ENOKEY", 126); ("EKEYEXPIRED", 127); ("EKEYREVOKED", 128);
   ("EKEYREJECTED", 129); ("EOWNERDEAD", 130); ("ENOTRECOVERABLE", 131); ("ERFKILL", 132); ("EHWPOISON", 133);
   ("EIPCRETRY", 199); ("ECAPBILITY", 200); ("EBADSYSCALL", 202); ("ENOMAPPING", 203)].

(** Two names of one code. *)
Definition errno_aliases : list string := ["EWOULDBLOCK"; "EDEADLOCK"; "ENOTSUP"].

(** ** System calls *)
Definition syscall_numbers : list (string * Z) :=
  [("KMK_SYS_putstr", 0); ("KMK_SYS_getc", 1); ("KMK_SYS_create_pmo", 2); ("KMK_SYS_map_pmo", 4);
   ("KMK_SYS_unmap_pmo", 5); ("KMK_SYS_write_pmo", 6); ("KMK_SYS_read_pmo", 7); ("KMK_SYS_get_phys_addr", 8);
   ("KMK_SYS_revoke_cap", 9); ("KMK_SYS_transfer_caps", 10); ("KMK_SYS_create_cap_group", 11);
   ("KMK_SYS_exit_group", 12); ("KMK_SYS_kill_group", 60); ("KMK_SYS_create_thread", 13);
   ("KMK_SYS_thread_exit", 14); ("KMK_SYS_register_recycle", 15); ("KMK_SYS_cap_group_recycle", 16);
   ("KMK_SYS_ipc_close_connection", 17); ("KMK_SYS_yield", 18); ("KMK_SYS_set_affinity", 19);
   ("KMK_SYS_get_affinity", 20); ("KMK_SYS_set_prio", 21); ("KMK_SYS_get_prio", 22); ("KMK_SYS_suspend", 23);
   ("KMK_SYS_resume", 24); ("KMK_SYS_ptrace", 25); ("KMK_SYS_register_server", 26); ("KMK_SYS_register_client", 27);
   ("KMK_SYS_ipc_register_cb_return", 28); ("KMK_SYS_ipc_call", 29); ("KMK_SYS_ipc_return", 30);
   ("KMK_SYS_ipc_exit_routine_return", 31); ("KMK_SYS_ipc_get_cap", 32); ("KMK_SYS_ipc_set_cap", 33);
   ("KMK_SYS_create_notifc", 34); ("KMK_SYS_wait", 35); ("KMK_SYS_notify", 36); ("KMK_SYS_irq_register", 37);
   ("KMK_SYS_irq_wait", 38); ("KMK_SYS_irq_ack", 39); ("KMK_SYS_configure_irq", 40);
   ("KMK_SYS_user_fault_register", 41); ("KMK_SYS_user_fault_map", 42); ("KMK_SYS_clock_gettime", 43);
   ("KMK_SYS_clock_nanosleep", 44); ("KMK_SYS_handle_brk", 45); ("KMK_SYS_handle_mprotect", 46);
   ("KMK_SYS_cache_flush", 47); ("KMK_SYS_cache_config", 48); ("KMK_SYS_get_current_tick", 49);
   ("KMK_SYS_get_pci_device", 50); ("KMK_SYS_poweroff", 51); ("KMK_SYS_empty_syscall", 52); ("KMK_SYS_top", 53);
   ("KMK_SYS_get_free_mem_size", 54); ("KMK_SYS_get_mem_usage_msg", 55); ("KMK_SYS_get_system_info", 56);
   ("KMK_SYS_futex", 57); ("KMK_SYS_set_tid_address", 58)].

(** ** Exception syndromes *)
Definition esr_el1_classes : list (string * Z) :=
  [("ESR_EL1_EC_UNKNOWN", 0); ("ESR_EL1_EC_WFI_WFE", 1); ("ESR_EL1_EC_ENFP", 7); ("ESR_EL1_EC_ILLEGAL_EXEC", 14);
   ("ESR_EL1_EC_SVC_32", 17); ("ESR_EL1_EC_SVC_64", 21); ("ESR_EL1_EC_MRS_MSR_64", 24); ("ESR_EL1_EC_IABT_LEL", 32);
   ("ESR_EL1_EC_IABT_CEL", 33); ("ESR_EL1_EC_PC_ALIGN", 34); ("ESR_EL1_EC_DABT_LEL", 36);
   ("ESR_EL1_EC_DABT_CEL", 37); ("ESR_EL1_EC_SP_ALIGN", 38); ("ESR_EL1_EC_FP_32", 40); ("ESR_EL1_EC_FP_64", 44);
   ("ESR_EL1_EC_SError", 47)].

Definition fault_codes : list (string * Z) :=
  [("IFSC_TRANS_FAULT_L0", 4); ("IFSC_TRANS_FAULT_L1", 5); ("IFSC_TRANS_FAULT_L2", 6); ("IFSC_TRANS_FAULT_L3", 7);
   ("IFSC_ACCESS_FAULT_L1", 9); ("IFSC_ACCESS_FAULT_L2", 10); ("IFSC_ACCESS_FAULT_L3", 11);
   ("IFSC_PERM_FAULT_L1", 13); ("IFSC_PERM_FAULT_L2", 14); ("IFSC_PERM_FAULT_L3", 15); ("DFSC_TRANS_FAULT_L0", 4);
   ("DFSC_TRANS_FAULT_L1", 5); ("DFSC_TRANS_FAULT_L2", 6); ("DFSC_TRANS_FAULT_L3", 7); ("DFSC_ACCESS_FAULT_L1", 9);
   ("DFSC_ACCESS_FAULT_L2", 10); ("DFSC_ACCESS_FAULT_L3", 11); ("DFSC_PERM_FAULT_L1", 13);
   ("DFSC_PERM_FAULT_L2", 14); ("DFSC_PERM_FAULT_L3", 15)].

Definition esr_el2_classes : list (string * Z) :=
  [("ESR_EL2_EC_UNKNOWN", 0); ("ESR_EL2_EC_WFx", 1); ("ESR_EL2_EC_CP15_32", 3); ("ESR_EL2_EC_CP15_64", 4);
   ("ESR_EL2_EC_CP14_MR", 5); ("ESR_EL2_EC_CP14_LS", 6); ("ESR_EL2_EC_FP_ASIMD", 7); ("ESR_EL2_EC_CP10_ID", 8);
   ("ESR_EL2_EC_PAC", 9); ("ESR_EL2_EC_CP14_64", 12); ("ESR_EL2_EC_ILL", 14); ("ESR_EL2_EC_SVC32", 17);
   ("ESR_EL2_EC_HVC32", 18); ("ESR_EL2_EC_SMC32", 19); ("ESR_EL2_EC_SVC64", 21); ("ESR_EL2_EC_HVC64", 22);
   ("ESR_EL2_EC_SMC64", 23); ("ESR_EL2_EC_SYS64", 24); ("ESR_EL2_EC_SVE", 25); ("ESR_EL2_EC_IABT_LOW", 32);
   ("ESR_EL2_EC_IABT_CUR", 33); ("ESR_EL2_EC_PC_ALIGN", 34); ("ESR_EL2_EC_DABT_LOW", 36);
   ("ESR_EL2_EC_DABT_CUR", 37); ("ESR_EL2_EC_SP_ALIGN", 38); ("ESR_EL2_EC_FP_EXC32", 40);
   ("ESR_EL2_EC_FP_EXC64", 44); ("ESR_EL2_EC_SERROR", 47); ("ESR_EL2_EC_BREAKPT_LOW", 48);
   ("ESR_EL2_EC_BREAKPT_CUR", 49); ("ESR_EL2_EC_SOFTSTP_LOW", 50); ("ESR_EL2_EC_SOFTSTP_CUR", 51);
   ("ESR_EL2_EC_WATCHPT_LOW", 52); ("ESR_EL2_EC_WATCHPT_CUR", 53); ("ESR_EL2_EC_BKPT32", 56);
   ("ESR_EL2_EC_VECTOR32", 58); ("ESR_EL2_EC_BRK64", 60)].

Definition GET_ESR_EL1_FSC (esr : Z) : Z := Z.land (Z.shiftr esr 0) (BIT 6 - 1).
Definition GET_ESR_EL1_WnR (esr : Z) : Z := Z.land (Z.shiftr esr 6) 1.
(** The mask is an [int] with its top bit set, so it is negative and sign-extended. *)
Definition ESR_EL_EC_MASK : Z := s32 (Z.shiftl 0x3F 26).
Definition ESR_EL_EC (esr : Z) : Z := Z.shiftr (Z.land esr (u64 ESR_EL_EC_MASK)) 26.

(** ** Tables *)
Definition names (l : list (string * Z)) : list string := l.*1.
Definition values (l : list (string * Z)) : list Z := l.*2.
Definition within (lo hi : Z) (l : list (string * Z)) : bool := forallb (λ p, (lo <=? p.2) && (p.2 <? hi)) l.

Lemma within_spec lo hi l n v : within lo hi l = true → (n, v) ∈ l → lo ≤ v < hi.
Proof.
  intros Hw Hl. unfold within in Hw. rewrite forallb_forall in Hw.
  specialize (Hw _ (proj1 (list_elem_of_In _ _) Hl)). cbn [snd] in Hw. apply andb_prop in Hw as [H1%Z.leb_le H2%Z.ltb_lt]. done.
Qed.

Fixpoint distinct (l : list Z) : bool :=
  match l with [] => true | x :: l' => negb (existsb (Z.eqb x) l') && distinct l' end.

Lemma distinct_NoDup l : distinct l = true → NoDup l.
Proof.
  induction l as [|x l IH]; [constructor|]. cbn [distinct]. intros [Hx Hl]%andb_prop. constructor; [|by apply IH].
  intros Hin. apply negb_true_iff, not_true_iff_false in Hx. apply Hx, existsb_exists. exists x. rewrite Z.eqb_refl.
  split; [by apply list_elem_of_In|done].
Qed.

(** The codes without the aliases. *)
Definition own_codes : list (string * Z) := List.filter (λ p, negb (existsb (String.eqb p.1) errno_aliases)) errno_table.

(** Every error code is an error pointer, comes back from it unchanged, and no
    address up to the last [EMAX] bytes is mistaken for one; different codes
    have different numbers, apart from the three aliases. *)
Theorem error_pointers_roundtrip :
  (∀ n e, (n, e) ∈ errno_table → IS_ERR (ERR_PTR (- e)) = true ∧ PTR_ERR (ERR_PTR (- e)) = - e) ∧
  (∀ p, 0 ≤ p ≤ 2 ^ 64 - EMAX → IS_ERR p = false) ∧
  NoDup (values own_codes).
Proof.
  split; [|split].
  - intros n e He. assert (1 ≤ e < EMAX) as Hr by (by eapply within_spec; [|exact He]).
    unfold EMAX in *. unfold IS_ERR, PTR_ERR, ERR_PTR. rewrite (s64_small (- e)) by lia.
    assert (s64 (u64 (- e)) = - e) as ->; [|split; [|done]; apply andb_true_intro; unfold EMAX; split; [apply Z.ltb_lt; lia|apply Z.gtb_lt; lia]].
    unfold s64, u64. rewrite (Z.mod_opp_l_nz e) by (rewrite ?Z.mod_small; lia). rewrite (Z.mod_small e) by lia.
    replace (2 ^ 64 - e + 2 ^ 63) with (2 ^ 63 - e + 1 * 2 ^ 64) by lia. rewrite Z.mod_add, Z.mod_small by lia. lia.
  - intros p Hp. unfold IS_ERR, EMAX in *. apply andb_false_iff. destruct (decide (p < 2 ^ 63)).
    + left. rewrite s64_small by lia. apply Z.ltb_ge. lia.
    + right. assert (s64 p = p - 2 ^ 64) as ->.
      { unfold s64. replace (p + 2 ^ 63) with (p - 2 ^ 63 + 1 * 2 ^ 64) by lia. rewrite Z.mod_add, Z.mod_small by lia. lia. }
      rewrite Z.gtb_ltb. apply Z.ltb_ge. lia.
  - apply distinct_NoDup; vm_compute; reflexivity.
Qed.

(** Every named system call has a slot of its own in the table. *)
Lemma syscall_slots :
  NoDup (values syscall_numbers) ∧
  ∀ n k, (n, k) ∈ syscall_numbers → ∃ h, syscall_table !! Z.to_nat k = Some h ∧ (h = Sys_poweroff ↔ k = KMK_SYS_poweroff).
Proof.
  split; [apply distinct_NoDup; vm_compute; reflexivity|]. intros n k Hk. assert (0 ≤ k < NR_SYSCALL) as Hr by (by eapply within_spec; [|exact Hk]).
  unfold NR_SYSCALL, syscall_table in *. destruct (decide (k = KMK_SYS_poweroff)) as [->|Hne]; [by eexists|].
  exists Sys_null_placeholder. rewrite list_lookup_insert_ne by (unfold KMK_SYS_poweroff in *; lia).
  split; [apply lookup_replicate_2; unfold NR_SYSCALL; lia|]. split; [discriminate|done].
Qed.

(** The classes are six bits wide and distinct, and a class is read back from a
    syndrome whatever the other fields hold. *)
Lemma esr_class_roundtrip :
  NoDup (values esr_el1_classes) ∧ NoDup (values esr_el2_classes) ∧
  ∀ n ec iss high, (n, ec) ∈ (esr_el1_classes ++ esr_el2_classes)%list → 0 ≤ iss < 2 ^ 26 → 0 ≤ high →
    GET_ESR_EL1_EC (high * 2 ^ 32 + ec * 2 ^ 26 + iss) = ec.
Proof.
  split; [apply distinct_NoDup; vm_compute; reflexivity|split; [apply distinct_NoDup; vm_compute; reflexivity|]].
  intros n ec iss high Hec Hi Hh. assert (0 ≤ ec < 64) as Hr by (by eapply within_spec; [|exact Hec]).
  unfold GET_ESR_EL1_EC. change (BIT 6 - 1) with (2 ^ 6 - 1). rewrite land_ones_mod, Z.shiftr_div_pow2 by lia.
  replace (high * 2 ^ 32 + ec * 2 ^ 26 + iss) with ((high * 2 ^ 6 + ec) * 2 ^ 26 + iss) by lia.
  rewrite Z.div_add_l, Z.div_small, Z.add_0_r by lia. rewrite Z.add_comm, Z.mod_add, Z.mod_small by lia. done.
Qed.

(** [ESR_EL_EC] does not mask the bits above the class. *)
Lemma ESR_EL_EC_unmasked esr : 0 ≤ esr < 2 ^ 64 → ESR_EL_EC esr = Z.shiftr esr 26.
Proof.
  intros He. unfold ESR_EL_EC. change (u64 ESR_EL_EC_MASK) with (Z.shiftl (2 ^ 38 - 1) 26).
  rewrite Z.shiftr_land, Z.shiftr_shiftl_l, Z.shiftl_0_r, land_ones_mod by lia. apply Z.mod_small.
  rewrite Z.shiftr_div_pow2 by lia. split; [apply Z.div_pos; lia|apply Z.div_lt_upper_bound; lia].
Qed.
