(* ===== verification/SystemRegs.v ===== *)
(** * Fields of system registers: [esr.h], [registers.h]

    The syndrome of a data abort taken to EL2, the saved program state, and the
    control register of EL2, as tables of fields; masks and values are computed
    from the tables the way the headers shift them.  The lemmas say that the
    fields fit together: no bit belongs to two of them. *)

From stdpp Require Import strings.
From S2P Require Import Prelude Macro.

#[local] Open Scope string_scope.
#[local] Open Scope Z_scope.

(** [(mask) << SHIFT] *)
Definition field_mask (f : string * Z * Z) : Z := let '(_, mask, shift) := f in Z.shiftl mask shift.

(** ** Data aborts *)

(** Shared by data and instruction aborts *)
Definition abort_fields : list (string * Z * Z) :=
  [("ESR_EL2_SET_MASK", 3, 11); ("ESR_EL2_FnV", 1, 10); ("ESR_EL2_EA", 1, 9); ("ESR_EL2_S1PTW", 1, 7)].
Definition ESR_EL2_FSC : Z := 0x3F.
Definition ESR_EL2_FSC_TYPE : Z := 0x3C.
Definition abort_types : list (string * Z) :=
  [("ESR_EL2_FSC_EXTABT", 0x10); ("ESR_EL2_FSC_SERROR", 0x11); ("ESR_EL2_FSC_ACCESS", 0x08);
   ("ESR_EL2_FSC_FAULT", 0x04); ("ESR_EL2_FSC_PERM", 0x0C)].
Definition data_abort_fields : list (string * Z * Z) :=
  [("ESR_EL2_ISV", 1, 24); ("ESR_EL2_SAS", 3, 22); ("ESR_EL2_SSE", 1, 21); ("ESR_EL2_SRT_MASK", 0x1F, 16);
   ("ESR_EL2_SF", 1, 15); ("ESR_EL2_AR", 1, 14); ("ESR_EL2_VNCR", 1, 13); ("ESR_EL2_CM", 1, 8); ("ESR_EL2_WNR", 1, 6)].
(** Other exceptions taken to EL2 *)
Definition hyp_fields : list (string * Z * Z) :=
  [("ESR_EL2_CV", 1, 24); ("ESR_EL2_COND_MASK", 0xF, 20); ("ESR_EL2_WFx_ISS_TI", 1, 0)].
Definition ESR_EL2_xVC_IMM_MASK : Z := Z.shiftl 1 16 - 1.

(** ** The saved program state *)
Definition spsr_masks : list Z := [BIT 9; BIT 8; BIT 7; BIT 6].
Definition SPSR_EL1_EL0t : Z := 0.
Definition SPSR_EL1_EL1t : Z := 4.
Definition SPSR_EL1_EL1h : Z := 5.
Definition SPSR_EL1_KERNEL : Z := SPSR_EL1_EL1h.
Definition SPSR_EL1_USER : Z := SPSR_EL1_EL0t.

(** ** [SCTLR_EL2] *)
Definition sctlr_el2_bits : list (string * Z) :=
  [("SCTLR_EL2_DSSBS", 44); ("SCTLR_EL2_EnIA", 31); ("SCTLR_EL2_EnIB", 30); ("SCTLR_EL2_EnDA", 27); ("SCTLR_EL2_EE", 25);
   ("SCTLR_EL2_EIS", 22); ("SCTLR_EL2_IESB", 21); ("SCTLR_EL2_WXN", 19); ("SCTLR_EL2_EnDB", 13); ("SCTLR_EL2_I", 12);
   ("SCTLR_EL2_EOS", 11); ("SCTLR_EL2_nAA", 6); ("SCTLR_EL2_SA", 3); ("SCTLR_EL2_C", 2); ("SCTLR_EL2_A", 1); ("SCTLR_EL2_M", 0)].
Definition or_all (l : list Z) : Z := foldr Z.lor 0 l.
Definition SCTLR_EL2_FLAGS : Z := or_all (BIT <$> [0; 1; 2; 3; 12; 21]).
Definition SCTLR_EL2_RES1 : Z := or_all (BIT <$> [4; 5; 11; 16; 18; 22; 23; 28; 29]).

(** ** Fields that fit together *)
Fixpoint apart (l : list Z) : bool :=
  match l with [] => true | x :: l' => forallb (λ y, Z.land x y =? 0) l' && apart l' end.

Lemma or_all_bit l i : Z.testbit (or_all l) i = true ↔ ∃ m, m ∈ l ∧ Z.testbit m i = true.
Proof.
  induction l as [|x l IH]; cbn [or_all foldr].
  - rewrite Z.bits_0. split; [done|]. by intros (m & ?%not_elem_of_nil & _).
  - rewrite Z.lor_spec, orb_true_iff. fold (or_all l). rewrite IH. set_solver.
Qed.

Lemma apart_once l i m m' j k : apart l = true → l !! j = Some m → l !! k = Some m' →
  Z.testbit m i = true → Z.testbit m' i = true → j = k.
Proof.
  revert j k. induction l as [|x l IH]; intros j k; [done|]. cbn [apart]. intros [Hx Hl]%andb_prop. rewrite forallb_forall in Hx.
  assert (∀ n y, l !! n = Some y → Z.testbit x i = true → Z.testbit y i = true → False) as Hno.
  { intros n y Hy H1 H2. apply list_elem_of_lookup_2, list_elem_of_In, Hx, Z.eqb_eq in Hy.
    assert (Z.testbit (Z.land x y) i = true) as Hb by (by rewrite Z.land_spec, H1, H2). by rewrite Hy, Z.bits_0 in Hb. }
  destruct j as [|j], k as [|k]; cbn; intros Hj Hk Hm Hm'; simplify_eq; [done|exfalso; eauto|exfalso; eauto|].
  f_equal. by apply (IH j k).
Qed.

(** Every bit of the syndrome of a data abort belongs to exactly one field, and
    the code of the fault type lies in the field [FSC]. *)
Definition syndrome_masks : list Z := ESR_EL2_FSC :: (field_mask <$> (abort_fields ++ data_abort_fields)%list).

Theorem data_abort_syndrome_partition i : 0 ≤ i < 25 →
  ∃ j m, syndrome_masks !! j = Some m ∧ Z.testbit m i = true ∧
    ∀ k m', syndrome_masks !! k = Some m' → Z.testbit m' i = true → k = j.
Proof.
  intros Hi. assert (or_all syndrome_masks = Z.ones 25) as Hall by reflexivity.
  destruct (proj1 (or_all_bit syndrome_masks i)) as (m & [j Hj]%list_elem_of_lookup & Hm).
  { rewrite Hall, Z.testbit_ones_nonneg by lia. apply Z.ltb_lt. lia. }
  exists j, m. split_and!; [done|done|]. intros k m' Hk Hm'. by eapply (apart_once syndrome_masks i m' m).
Qed.

Lemma abort_types_inside n v : (n, v) ∈ abort_types → Z.land v ESR_EL2_FSC = v.
Proof. intros Hin. repeat (apply elem_of_cons in Hin as [[= -> ->]|Hin]; [reflexivity|]). by apply not_elem_of_nil in Hin. Qed.

(** Masking interrupts does not disturb the mode, and the flags for EL2 leave
    the reserved bits alone. *)
Lemma program_state_fields : apart (0xF :: spsr_masks) = true ∧ or_all spsr_masks = Z.shiftl 0xF 6 ∧
  Z.land SCTLR_EL2_FLAGS SCTLR_EL2_RES1 = 0.
Proof. repeat split. Qed.
