(* ===== verification/DeviceMap.v ===== *)
(** * The device registers of the Raspberry Pi 3: [plat/raspi3/machine.h]

    The register blocks of the board as the kernel addresses them.  Every
    register lies in the window that the boot page tables map as device memory
    ([Boot]), so a driver's access reaches the bus address the header means. *)

From stdpp Require Import strings.
From S2P Require Import Prelude Macro Mmio Uart Machine Boot Constants.

#[local] Open Scope string_scope.
#[local] Open Scope Z_scope.

Definition BCM2835_TIMER_BASE : Z := RPI_PERIPHERAL_BASE + 0xB400.
Definition BCM2835_GPIO_REGS_BASE : Z := RPI_PERIPHERAL_BASE + 0x200000.
Definition BCM2835_AUX_BASE : Z := RPI_PERIPHERAL_BASE + 0x215000.
Definition BCM2835_UART0_BASE : Z := RPI_PERIPHERAL_BASE + 0x201000.
Definition CORE_MBOX_CTL_BASE : Z := KBASE + 0x40000050.
Definition CORE_MBOX_CTL (cpu : Z) : Z := CORE_MBOX_CTL_BASE + cpu * 0x4.
Definition CORE_MBOX_SET_BASE : Z := KBASE + 0x40000080.
Definition CORE_MBOX_SET (cpu box : Z) : Z := CORE_MBOX_SET_BASE + cpu * 0x10 + box * 0x4.
Definition CORE_MBOX_RDCLR_BASE : Z := KBASE + 0x400000c0.
Definition CORE_MBOX_RDCLR (cpu box : Z) : Z := CORE_MBOX_RDCLR_BASE + cpu * 0x10 + box * 0x4.
Definition BCM2835_INTC_TOTAL_IRQ : Z := 64 + 8.
Definition INTERRUPT_VECTOR_MAX : Z := 64 + 8 - 1.

Definition arm_timer_registers : list (string * Z) :=
  [("BCM2835_TIMER_LOD", BCM2835_TIMER_BASE + 0x00); ("BCM2835_TIMER_VAL", BCM2835_TIMER_BASE + 0x04);
   ("BCM2835_TIMER_CTL", BCM2835_TIMER_BASE + 0x08); ("BCM2835_TIMER_CLI", BCM2835_TIMER_BASE + 0x0C);
   ("BCM2835_TIMER_RIS", BCM2835_TIMER_BASE + 0x10); ("BCM2835_TIMER_MIS", BCM2835_TIMER_BASE + 0x14);
   ("BCM2835_TIMER_RLD", BCM2835_TIMER_BASE + 0x18); ("BCM2835_TIMER_DIV", BCM2835_TIMER_BASE + 0x1C);
   ("BCM2835_TIMER_CNT", BCM2835_TIMER_BASE + 0x20)].

Definition gpio_registers : list (string * Z) :=
  [("BCM2835_GPIO_GPFSEL1", BCM2835_GPIO_REGS_BASE + 0x04); ("BCM2835_GPIO_GPSET0", BCM2835_GPIO_REGS_BASE + 0x1C);
   ("BCM2835_GPIO_GPCLR0", BCM2835_GPIO_REGS_BASE + 0x28); ("BCM2835_GPIO_GPPUD", BCM2835_GPIO_REGS_BASE + 0x94);
   ("BCM2835_GPIO_GPPUDCLK0", BCM2835_GPIO_REGS_BASE + 0x98)].

Definition aux_registers : list (string * Z) :=
  [("AUX_ENABLES", BCM2835_AUX_BASE + 0x04); ("AUX_MU_IO_REG", BCM2835_AUX_BASE + 0x40);
   ("AUX_MU_IER_REG", BCM2835_AUX_BASE + 0x44); ("AUX_MU_IIR_REG", BCM2835_AUX_BASE + 0x48);
   ("AUX_MU_LCR_REG", BCM2835_AUX_BASE + 0x4C); ("AUX_MU_MCR_REG", BCM2835_AUX_BASE + 0x50);
   ("AUX_MU_LSR_REG", BCM2835_AUX_BASE + 0x54); ("AUX_MU_MSR_REG", BCM2835_AUX_BASE + 0x58);
   ("AUX_MU_SCRATCH", BCM2835_AUX_BASE + 0x5C); ("AUX_MU_CNTL_REG", BCM2835_AUX_BASE + 0x60);
   ("AUX_MU_STAT_REG", BCM2835_AUX_BASE + 0x64); ("AUX_MU_BAUD_REG", BCM2835_AUX_BASE + 0x68)].

Definition uart0_registers : list (string * Z) :=
  [("BCM2835_UART0_DR", BCM2835_UART0_BASE + 0x00); ("BCM2835_UART0_RSRECR", BCM2835_UART0_BASE + 0x04);
   ("BCM2835_UART0_FR", BCM2835_UART0_BASE + 0x18); ("BCM2835_UART0_ILPR", BCM2835_UART0_BASE + 0x20);
   ("BCM2835_UART0_IBRD", BCM2835_UART0_BASE + 0x24); ("BCM2835_UART0_FBRD", BCM2835_UART0_BASE + 0x28);
   ("BCM2835_UART0_LCRH", BCM2835_UART0_BASE + 0x2C); ("BCM2835_UART0_CR", BCM2835_UART0_BASE + 0x30);
   ("BCM2835_UART0_IFLS", BCM2835_UART0_BASE + 0x34); ("BCM2835_UART0_IMSC", BCM2835_UART0_BASE + 0x38);
   ("BCM2835_UART0_RIS", BCM2835_UART0_BASE + 0x3C); ("BCM2835_UART0_MIS", BCM2835_UART0_BASE + 0x40);
   ("BCM2835_UART0_ICR", BCM2835_UART0_BASE + 0x44); ("BCM2835_UART0_DMACR", BCM2835_UART0_BASE + 0x48);
   ("BCM2835_UART0_ITCR", BCM2835_UART0_BASE + 0x80); ("BCM2835_UART0_ITIP", BCM2835_UART0_BASE + 0x84);
   ("BCM2835_UART0_ITOP", BCM2835_UART0_BASE + 0x88); ("BCM2835_UART0_TDR", BCM2835_UART0_BASE + 0x8C)].

Definition intc_registers : list (string * Z) :=
  [("BCM2835_IRQ_BASIC", BCM2835_BASE_INTC + 0x00); ("BCM2835_IRQ_PENDING1", BCM2835_BASE_INTC + 0x04);
   ("BCM2835_IRQ_PENDING2", BCM2835_BASE_INTC + 0x08); ("BCM2835_IRQ_FIQ_CTRL", BCM2835_BASE_INTC + 0x0C);
   ("BCM2835_IRQ_ENABLE1", BCM2835_BASE_INTC + 0x10); ("BCM2835_IRQ_ENABLE2", BCM2835_BASE_INTC + 0x14);
   ("BCM2835_IRQ_ENABLE_BASIC", BCM2835_BASE_INTC + 0x18); ("BCM2835_IRQ_DISABLE1", BCM2835_BASE_INTC + 0x1C);
   ("BCM2835_IRQ_DISABLE2", BCM2835_BASE_INTC + 0x20); ("BCM2835_IRQ_DISABLE_BASIC", BCM2835_BASE_INTC + 0x24)].

Definition gpu_timer_registers : list (string * Z) :=
  [("BCM2835_GPU_TIMER_CS", BCM2835_TIMER_BASE + 0x00); ("BCM2835_GPU_TIMER_CLO", BCM2835_TIMER_BASE + 0x04);
   ("BCM2835_GPU_TIMER_CHI", BCM2835_TIMER_BASE + 0x08); ("BCM2835_GPU_TIMER_C0", BCM2835_TIMER_BASE + 0x0C);
   ("BCM2835_GPU_TIMER_C1", BCM2835_TIMER_BASE + 0x10); ("BCM2835_GPU_TIMER_C2", BCM2835_TIMER_BASE + 0x14);
   ("BCM2835_GPU_TIMER_C3", BCM2835_TIMER_BASE + 0x18)].

Definition core_irq_sources : list (string * Z) :=
  [("CORE0_IRQ_SOURCE", CORE_IRQ_BASE + 0x0); ("CORE1_IRQ_SOURCE", CORE_IRQ_BASE + 0x4);
   ("CORE2_IRQ_SOURCE", CORE_IRQ_BASE + 0x8); ("CORE3_IRQ_SOURCE", CORE_IRQ_BASE + 0xc)].

Definition core_fiq_sources : list (string * Z) :=
  [("CORE0_FIQ_SOURCE", CORE_IRQ_BASE + 0x0); ("CORE1_FIQ_SOURCE", CORE_IRQ_BASE + 0x4);
   ("CORE2_FIQ_SOURCE", CORE_IRQ_BASE + 0x8); ("CORE3_FIQ_SOURCE", CORE_IRQ_BASE + 0xc)].

Definition core_timer_controls : list (string * Z) :=
  [("CORE0_TIMER_IRQCNTL", CORE_TIMER_IRQCNTL_BASE + 0x0); ("CORE1_TIMER_IRQCNTL", CORE_TIMER_IRQCNTL_BASE + 0x4);
   ("CORE2_TIMER_IRQCNTL", CORE_TIMER_IRQCNTL_BASE + 0x8); ("CORE3_TIMER_IRQCNTL", CORE_TIMER_IRQCNTL_BASE + 0xc)].

Definition peripheral_irq_ids : list (string * Z) :=
  [("BCM2835_IRQ_ID_AUX", 29); ("BCM2835_IRQ_ID_SPI_SLAVE", 43); ("BCM2835_IRQ_ID_PWA0", 45);
   ("BCM2835_IRQ_ID_PWA1", 46); ("BCM2835_IRQ_ID_SMI", 48); ("BCM2835_IRQ_ID_GPIO_0", 49);
   ("BCM2835_IRQ_ID_GPIO_1", 50); ("BCM2835_IRQ_ID_GPIO_2", 51); ("BCM2835_IRQ_ID_GPIO_3", 52);
   ("BCM2835_IRQ_ID_I2C", 53); ("BCM2835_IRQ_ID_SPI", 54); ("BCM2835_IRQ_ID_PCM", 55); ("BCM2835_IRQ_ID_UART", 57)].

Definition BCM2835_IRQ_ID_BASIC_BASE_ID : Z := 64.
Definition basic_irq_ids : list (string * Z) :=
  [("BCM2835_IRQ_ID_TIMER_0", 64); ("BCM2835_IRQ_ID_MAILBOX_0", 65); ("BCM2835_IRQ_ID_DOORBELL_0", 66);
   ("BCM2835_IRQ_ID_DOORBELL_1", 67); ("BCM2835_IRQ_ID_GPU0_HALTED", 68); ("BCM2835_IRQ_ID_GPU1_HALTED", 69);
   ("BCM2835_IRQ_ID_ILL_ACCESS_1", 70); ("BCM2835_IRQ_ID_ILL_ACCESS_0", 71)].

Definition irq_ids : list (string * Z) := (peripheral_irq_ids ++ basic_irq_ids)%list.

Definition irq_sources : list (string * Z) :=
  [("INT_SRC_TIMER0", 0x001); ("INT_SRC_TIMER1", 0x002); ("INT_SRC_TIMER2", 0x004); ("INT_SRC_TIMER3", 0x008);
   ("INT_SRC_MBOX0", 0x010); ("INT_SRC_MBOX1", 0x020); ("INT_SRC_MBOX2", 0x040); ("INT_SRC_MBOX3", 0x080)].

(** The mailboxes between the cores. *)
Definition core_mailboxes : list (string * Z) :=
  ((λ c, ("CORE_MBOX_CTL", CORE_MBOX_CTL c)) <$> seqZ 0 PLAT_CPU_NUM) ++
  ('(c, b) ← list_prod (seqZ 0 PLAT_CPU_NUM) (seqZ 0 4); [("CORE_MBOX_SET", CORE_MBOX_SET c b); ("CORE_MBOX_RDCLR", CORE_MBOX_RDCLR c b)]).

(** The registers of the board, each once. *)
Definition device_registers : list (string * Z) :=
  (arm_timer_registers ++ gpio_registers ++ aux_registers ++ uart0_registers ++ intc_registers ++
   core_irq_sources ++ core_timer_controls ++ core_mailboxes)%list.

Definition word_aligned (l : list (string * Z)) : bool := forallb (λ p, p.2 mod 4 =? 0) l.

(** Each register is a word of its own in the device window, and the page tables
    of the boot code translate its address to the bus address, as device memory. *)
Theorem device_registers_mapped A :
  Boot.table_addr (a_ttbr1_l1 A) → Boot.table_addr (a_ttbr1_l2 A) →
  NoDup (values device_registers) ∧
  ∀ n a, (n, a) ∈ device_registers →
    a mod 4 = 0 ∧ RPI_PERIPHERAL_BASE ≤ a ∧ high A a = Some (a - KBASE, 0).
Proof.
  intros H3 H4. split; [apply distinct_NoDup; vm_compute; reflexivity|]. intros n a Ha.
  assert (RPI_PERIPHERAL_BASE ≤ a < KBASE + 2 ^ 32) as Hr by (apply (within_spec _ _ device_registers n); [vm_compute; reflexivity|exact Ha]).
  assert (word_aligned device_registers = true) as Hw by (vm_compute; reflexivity).
  unfold word_aligned in Hw. rewrite forallb_forall in Hw. specialize (Hw _ (proj1 (list_elem_of_In _ _) Ha)). apply Z.eqb_eq in Hw.
  split; [exact Hw|split; [apply Hr|]]. unfold RPI_PERIPHERAL_BASE, KBASE in Hr.
  pose proof (high_correct A H3 H4 (a - KBASE) ltac:(unfold KBASE; lia)) as E.
  replace (u64 (a - KBASE + KERNEL_VADDR)) with a in E by (rewrite u64_small; unfold KBASE, KERNEL_VADDR; lia).
  rewrite E. rewrite (proj2 (Z.ltb_ge _ _)) by (unfold PERIPHERAL_BASE, KBASE; lia). done.
Qed.

(** The GPU timer is defined on the ARM timer's base and the FIQ sources on the
    IRQ sources' base: these names denote registers of the other device. *)
Lemma misplaced_registers :
  take 7 (values arm_timer_registers) = values gpu_timer_registers ∧ values core_fiq_sources = values core_irq_sources.
Proof. split; reflexivity. Qed.

(** Interrupt numbers are distinct and below the number of vectors; the source
    bits are distinct single bits. *)
Lemma interrupt_numbers :
  NoDup (values irq_ids) ∧ (∀ n i, (n, i) ∈ irq_ids → 0 ≤ i ≤ INTERRUPT_VECTOR_MAX) ∧
  (∀ n i, (n, i) ∈ basic_irq_ids → BCM2835_IRQ_ID_BASIC_BASE_ID ≤ i) ∧
  values irq_sources = (λ i, 2 ^ i) <$> seqZ 0 8.
Proof.
  split; [apply distinct_NoDup; vm_compute; reflexivity|split; [|split; [|vm_compute; reflexivity]]].
  2: { intros n i Hi. apply (within_spec _ 72 basic_irq_ids n); [vm_compute; reflexivity|exact Hi]. } intros n i Hi.
  assert (0 ≤ i < BCM2835_INTC_TOTAL_IRQ) by (apply (within_spec _ _ irq_ids n); [vm_compute; reflexivity|exact Hi]).
  unfold BCM2835_INTC_TOTAL_IRQ, INTERRUPT_VECTOR_MAX in *. lia.
Qed.

(** ** Bits *)
Definition uart0_bits : list (string * Z) :=
  [("BCM2835_UART0_MIS_RX", 0x10); ("BCM2835_UART0_MIS_TX", 0x20); ("BCM2835_UART0_IMSC_RX", 0x10);
   ("BCM2835_UART0_IMSC_TX", 0x20); ("BCM2835_UART0_FR_RXFE", 0x10); ("BCM2835_UART0_FR_TXFF", 0x20);
   ("BCM2835_UART0_ICR_RX", 0x10); ("BCM2835_UART0_ICR_TX", 0x20)].
Definition system_timer_bits : list Z := (λ i, Z.shiftl 1 i) <$> [0; 1; 2; 3].
(** Where a core's timer interrupts go *)
Definition timer_irq_routes : list Z := [0x01; 0x02; 0x04; 0x08].
Definition timer_fiq_routes : list Z := [0x10; 0x20; 0x40; 0x80].
Definition CNTPNSIRQ : Z := 0x2.

(** The timer is enabled with the bit of the interrupt source register where
    the routing register wants the bit of its non-secure timer: they are the
    same bit, routed to IRQ and not to FIQ. *)
Lemma timer_route : INT_SRC_TIMER1 = CNTPNSIRQ ∧ CNTPNSIRQ ∈ timer_irq_routes ∧ CNTPNSIRQ ∉ timer_fiq_routes.
Proof.
  split; [reflexivity|split; [by apply list_elem_of_further, list_elem_of_here|]].
  intros Hin. repeat (apply elem_of_cons in Hin as [Hin|Hin]; [discriminate Hin|]). by apply not_elem_of_nil in Hin.
Qed.

(** ** The serial ports of the boot stage and of the kernel

    Both headers name the registers at the same offsets; [base] is where the
    peripherals are, by physical address at boot and by kernel address later. *)
Definition serial_registers (base : Z) : list (string * Z) :=
  let pl011 := base + 0x201000 in
  [("GPFSEL1", base + 0x00200004); ("GPSET0", base + 0x0020001C); ("GPCLR0", base + 0x00200028);
   ("GPPUD", base + 0x00200094); ("GPPUDCLK0", base + 0x00200098);
   ("AUX_ENABLES", base + 0x00215004); ("AUX_MU_IO_REG", base + 0x00215040); ("AUX_MU_IER_REG", base + 0x00215044);
   ("AUX_MU_IIR_REG", base + 0x00215048); ("AUX_MU_LCR_REG", base + 0x0021504C); ("AUX_MU_MCR_REG", base + 0x00215050);
   ("AUX_MU_LSR_REG", base + 0x00215054); ("AUX_MU_MSR_REG", base + 0x00215058); ("AUX_MU_SCRATCH", base + 0x0021505C);
   ("AUX_MU_CNTL_REG", base + 0x00215060); ("AUX_MU_STAT_REG", base + 0x00215064); ("AUX_MU_BAUD_REG", base + 0x00215068);
   ("RASPI3_PL011_DR", pl011 + 0x00); ("RASPI3_PL011_FR", pl011 + 0x18); ("RASPI3_PL011_IBRD", pl011 + 0x24);
   ("RASPI3_PL011_FBRD", pl011 + 0x28); ("RASPI3_PL011_LCRH", pl011 + 0x2C); ("RASPI3_PL011_CR", pl011 + 0x30);
   ("RASPI3_PL011_IFLS", pl011 + 0x34); ("RASPI3_PL011_IMSC", pl011 + 0x38); ("RASPI3_PL011_RIS", pl011 + 0x3C);
   ("RASPI3_PL011_MIS", pl011 + 0x40); ("RASPI3_PL011_ICR", pl011 + 0x44)].

Definition member (l : list Z) (x : Z) : bool := existsb (Z.eqb x) l.

(** The boot stage and the kernel drive the same serial port: a register of one
    is the register of the same name of the other, translated by the direct
    map, and one of the registers of the board. *)
Theorem serial_registers_agree n a : (n, a) ∈ serial_registers EarlyUart.BOOT_PHYSADDR_OFFSET →
  (n, phys_to_virt a) ∈ serial_registers PHYSADDR_OFFSET ∧ phys_to_virt a ∈ values device_registers.
Proof.
  intros Hin.
  assert (serial_registers PHYSADDR_OFFSET = (λ p, (p.1, phys_to_virt p.2)) <$> serial_registers EarlyUart.BOOT_PHYSADDR_OFFSET) as E by (vm_compute; reflexivity).
  split; [rewrite E; apply list_elem_of_fmap; by exists (n, a)|].
  assert (forallb (λ p, member (values device_registers) (phys_to_virt p.2)) (serial_registers EarlyUart.BOOT_PHYSADDR_OFFSET) = true) as Hall by (vm_compute; reflexivity).
  rewrite forallb_forall in Hall. specialize (Hall _ (proj1 (list_elem_of_In _ _) Hin)). cbn [snd] in Hall.
  unfold member in Hall. apply existsb_exists in Hall as (x & Hx%list_elem_of_In & ->%Z.eqb_eq). done.
Qed.
