(* ===== verification/Timer.v ===== *)
(** * The system timer at work

    What [timer_init] and [plat_timer_init] set up, and the tick and the clock
    that [handle_timer_irq] and [plat_get_mono_time] make of it. *)

From stdpp Require Import strings.
From S2P Require Import Prelude Macro ListHead Utils Printk PrintkSpec Mmio Uart UartTheorems Kprint KernelLog Bitops Machine MachineTheorems.
Import PL011.

Section build.
Context {b : build_type}.

(** ** The messages, before and after the interrupt is routed: the frequency and
    the interval, and in a Debug build the registers that were read *)
Definition timer_text1 (rd : sysreg → Z) : list Z :=
  let f := u64 (rd CNTFRQ_EL0) in
  debug_text (ln "timer init cntpct_el0 = %lu") [u64 (rd CNTPCT_EL0)] ++
  debug_text (ln "timer init cntfrq_el0 = %lu") [f] ++
  info_text (ln "CPU freq %lu, set timer %lu") [f; u64 (f * TICK_MS) / 1000] ++
  debug_text (ln "timer init cntp_tval_el0 = %lu") [u64 (rd CNTP_TVAL_EL0)].
Definition timer_text2 (rd : sysreg → Z) : list Z := debug_text (ln "timer init cntp_ctl_el0 = %lu") [u64 (rd CNTP_CTL_EL0)].

(** ** Initialisation *)
Definition sleep_list (s : mstate) (i : Z) : Z := time_states s + i * 32 + 8.

(** What [plat_timer_init] leaves on core [cpu]: the globals, the instructions and the stores to devices. *)
Record timer_set (s : mstate) (cpu : Z) (s' : mstate) : Prop := {
  tm_globals : let f := u64 (sysrd s CNTFRQ_EL0) in
    timer s' = mk_tstate (u64 (sysrd s CNTPCT_EL0)) f (u64 (f * TICK_MS) / 1000) (f / 1000 / 1000);
  tm_done : let f := u64 (sysrd s CNTFRQ_EL0) in
    done s' = done s ++ [Msr CNTP_TVAL_EL0 (u64 (f * TICK_MS) / 1000); Msr CNTP_CTL_EL0 1];
  tm_writes : writes (io (uart s')) = writes (io (uart s)) ++ dr_writes (timer_text1 (sysrd s)) ++
    [(CORE_TIMER_IRQCNTL_BASE + cpu * 4, INT_SRC_TIMER1)] ++ dr_writes (timer_text2 (sysrd s));
  tm_lists : sleep_lists s' = sleep_lists s ∧ sleep_locks s' = sleep_locks s;
  tm_dev : same_dev (io (uart s)) (io (uart s'));
  tm_regs : sysrd s' = sysrd s
}.

Lemma u64_arg x : arg_ok (u64 x).
Proof. apply u64_range. Qed.

Lemma dr_writes_app l l' : dr_writes (l ++ l') = dr_writes l ++ dr_writes l'.
Proof. apply fmap_app. Qed.

Lemma wp_plat_timer_init u s cpu (Q : unit → mstate → Prop) :
  on_cpu s cpu → tx_ready (io (uart s)) → (∀ t, arg_ok (u t)) → (∀ s', timer_set s cpu s' → Q tt s') → wp (plat_timer_init u) s Q.
Proof.
  intros Hc Ht Hu HQ. unfold plat_timer_init. apply wp_bind, (wp_smp_get_cpu_id _ _ _ Hc).
  apply wp_bind, wp_gets, wp_bind, wp_modify, wp_bind, wp_say_debug; [reflexivity|repeat constructor; apply u64_arg|done|done|]. intros d1 D1 W1.
  apply wp_bind, wp_gets. cbn [sysrd set_timer set_uart uart io pl011_buffer] in D1, W1 |- *. set (f := u64 (sysrd s CNTFRQ_EL0)). set (tval := u64 (f * TICK_MS) / 1000).
  assert (arg_ok tval) as Hv.
  { unfold tval. pose proof (u64_range (f * TICK_MS)). split; [apply Z.div_pos; lia|]. apply Z.div_lt_upper_bound; lia. }
  apply wp_bind, wp_modify, wp_bind, wp_say_debug; [reflexivity|repeat constructor; apply u64_arg|by eapply answers_same|done|]. intros d2 D2 W2.
  cbn [sysrd set_timer set_uart uart io pl011_buffer] in D2, W2 |- *. assert (same_dev (io (uart s)) d2) as D02 by by etrans.
  apply wp_bind, wp_modify, wp_bind, wp_say_info; [reflexivity|apply Forall_cons; split; [apply u64_arg|by repeat constructor; apply Hv]|by eapply answers_same|done|]. intros d3 D3 W3.
  cbn [sysrd set_timer set_uart uart io pl011_buffer] in D3, W3 |- *. assert (same_dev (io (uart s)) d3) as D03 by by etrans.
  apply wp_bind, wp_modify, wp_bind, wp_modify, wp_bind, wp_gets, wp_bind, wp_say_debug; [reflexivity|repeat constructor; apply u64_arg|by eapply answers_same|done|]. intros d4 D4 W4.
  cbn [sysrd set_timer set_done set_uart uart io pl011_buffer] in D4, W4 |- *. assert (same_dev (io (uart s)) d4) as D04 by by etrans.
  apply wp_bind. eapply wp_load.
  { destruct Hc as [Hc _]. rewrite (proj2 (Z.leb_le 0 cpu)), (proj2 (Z.ltb_lt cpu PLAT_CPU_NUM)) by (unfold PLAT_CPU_NUM; lia). reflexivity. }
  apply wp_bind, wp_on_uart, wp_on_io, wp_put32. intros d5 D5 W5. cbn [io uart set_uart] in D5, W5. assert (same_dev (io (uart s)) d5) as D05 by by etrans.
  apply wp_bind, wp_modify, wp_bind, wp_gets, wp_say_debug; [reflexivity|repeat constructor; apply u64_arg|by eapply answers_same|done|]. intros d6 D6 W6.
  cbn [sysrd set_timer set_done set_uart uart io pl011_buffer done timer] in D6, W6 |- *. apply HQ.
  split; cbv zeta; fold f; fold tval; [done| | |done|by etrans|done]; cbn [uart io set_uart set_done done].
  - by rewrite <- app_assoc.
  - rewrite W6, W5, W4, W3, W2, W1. unfold timer_text1, timer_text2. cbv zeta. fold f. fold tval. by rewrite !dr_writes_app, <- !app_assoc.
Qed.

(** The loop of [timer_init] on core 0. *)
Lemma wp_timer_lists s (Q : unit → mstate → Prop) :
  (∀ i, 0 ≤ i < 4 → is_Some (sleep_lists s !! sleep_list s i)) →
  (∀ h k, (∀ i, 0 ≤ i < 4 → dlist h (sleep_list s i) [] ∧ k !! i = Some 0) → Q tt (set_sleep_locks k (set_sleep_lists h s))) →
  wp (for_up (Z.to_nat PLAT_CPU_NUM) 0 (λ i,
       base ← gets time_states;
       zoom sleep_lists set_sleep_lists (init_list_head (base + i * 32 + 8)) ;;
       modify (λ s, set_sleep_locks (<[i := 0]> (sleep_locks s)) s))) s Q.
Proof.
  intros Hs HQ. apply (wp_for_up (λ j s', ∃ h k, s' = set_sleep_locks k (set_sleep_lists h s) ∧
    (∀ i, 0 ≤ i < 4 → is_Some (h !! sleep_list s i)) ∧ ∀ i, 0 ≤ i < j → dlist h (sleep_list s i) [] ∧ k !! i = Some 0)).
  - exists (sleep_lists s), (sleep_locks s). split; [by destruct s|]. split; [done|lia].
  - intros j s' Hj (h & k & -> & Hh & Hd). change (Z.of_nat (Z.to_nat PLAT_CPU_NUM)) with 4 in Hj. apply wp_bind, wp_gets. cbn [time_states set_sleep_locks set_sleep_lists].
    apply wp_bind, wp_zoom. apply wp_init_list_head; [by apply Hh; lia|]. intros h' Hd' Hf. apply wp_modify.
    exists h', (<[j := 0]> k). fold (sleep_list s j) in *. split; [done|]. split.
    + intros i Hi. destruct (decide (i = j)) as [->|Hne]; [|rewrite Hf; [by apply Hh|unfold sleep_list; lia]].
      eapply dlist_is_Some; [exact Hd'|left].
    + intros i Hi. destruct (decide (i = j)) as [->|Hne]; [by rewrite lookup_insert_eq|]. rewrite lookup_insert_ne by done.
      destruct (Hd i) as [Hdi Hki]; [lia|]. split; [|done]. eapply dlist_frame; [|exact Hdi].
      intros x ->%list_elem_of_singleton. apply Hf. unfold sleep_list. lia.
  - intros s' (h & k & -> & _ & Hd). apply HQ. intros i Hi. apply Hd. done.
Qed.

Lemma wp_timer_init u s cpu (Q : unit → mstate → Prop) :
  on_cpu s cpu → tx_ready (io (uart s)) → (∀ t, arg_ok (u t)) → (∀ i, 0 ≤ i < 4 → is_Some (sleep_lists s !! sleep_list s i)) →
  (∀ s1 s', timer_set s1 cpu s' → sysrd s1 = sysrd s → done s1 = done s → uart s1 = uart s →
     (cpu = 0 → ∀ i, 0 ≤ i < 4 → dlist (sleep_lists s1) (sleep_list s i) [] ∧ sleep_locks s1 !! i = Some 0) → Q tt s') →
  wp (timer_init u) s Q.
Proof.
  intros Hc Ht Hu Hs HQ. unfold timer_init. apply wp_bind, (wp_smp_get_cpu_id _ _ _ Hc), wp_bind. destruct (Z.eqb_spec cpu 0) as [->|Hne].
  - apply (wp_timer_lists _ _ Hs). intros h k Hd. set (s1 := set_sleep_locks k (set_sleep_lists h s)).
    apply (wp_plat_timer_init u s1 0 _ Hc); [done|done|]. intros s' Hset. by apply (HQ s1).
  - apply wp_ret. apply (wp_plat_timer_init u s cpu _ Hc); [done|done|]. intros s' Hset. by apply (HQ s).
Qed.

(** ** The clock *)
Lemma clock_value s d : let k := tick_per_us (timer s) in
  u64 (sysrd s CNTPCT_EL0) = u64 (cntp_init (timer s) + d) → 0 ≤ d < 2 ^ 64 →
  plat_get_mono_time s = if k =? 0 then Halt HFault else Ok (u64 (d * 1000) / k, s).
Proof.
  cbv zeta. intros Hc Hd. unfold plat_get_mono_time, mbind, M_bind, mrs, gets. rewrite Hc. case_cmp; [done|].
  unfold mret, M_ret. do 3 f_equal. unfold NS_IN_US. f_equal. f_equal.
  unfold u64. rewrite Zminus_mod_idemp_l. replace (cntp_init (timer s) + d - cntp_init (timer s)) with d by lia. apply Z.mod_small. lia.
Qed.

(** Once the product no longer fits 64 bits the clock has jumped back. *)
Lemma clock_behind d f : 0 ≤ d < 2 ^ 64 → 10 ^ 6 ≤ f < 2 ^ 64 → 2 ^ 64 ≤ d * 1000 → u64 (d * 1000) / (f / 10 ^ 6) < d * 10 ^ 9 / f.
Proof.
  intros Hd Hf Hx. pose proof (Z.div_mod f (10 ^ 6) ltac:(lia)) as Hdm. pose proof (Z.mod_pos_bound f (10 ^ 6) ltac:(lia)) as Hr. set (k := f / 10 ^ 6) in *.
  pose proof (Z.div_mod (d * 1000) (2 ^ 64) ltac:(lia)) as Hm. pose proof (Z.mod_pos_bound (d * 1000) (2 ^ 64) ltac:(lia)) as Hr2.
  assert (1 ≤ d * 1000 / 2 ^ 64) as Hq by (apply Z.div_le_lower_bound; lia). fold (u64 (d * 1000)) in Hm, Hr2. set (q := d * 1000 / 2 ^ 64) in *. set (r := u64 (d * 1000)) in *.
  assert (r ≤ 2 ^ 64 - 8) as Hr8.
  { assert (r = 8 * (d * 125 - 2 ^ 61 * q)) by lia. lia. }
  assert (1 ≤ k < 2 ^ 45) as Hk by lia. set (t := r / k). assert (t * k ≤ r) as Ht by (unfold t; rewrite Z.mul_comm; apply Z.mul_div_le; lia).
  assert (0 ≤ t) as Ht0 by (apply Z.div_pos; lia). clearbody t k q r. apply Z.lt_le_trans with (t + 1); [lia|]. apply Z.div_le_lower_bound; [lia|].
  assert (f * (t + 1) ≤ 10 ^ 6 * ((k + 1) * (t + 1))) as H1 by nia. assert ((k + 1) * (t + 1) ≤ d * 1000) as H2; [|nia].
  destruct (decide (k = 1)) as [-> | Hk1]; [lia|]. assert (2 * t ≤ r) by nia. lia.
Qed.

(** Dividing by a whole number of ticks per microsecond makes the clock fast, never slow. *)
Lemma clock_drift d f : 0 ≤ d → 10 ^ 6 ≤ f → let k := f / 10 ^ 6 in let t := d * 1000 / k in
  d * 10 ^ 9 / f ≤ t ∧ t * k * f ≤ d * 10 ^ 9 * (k + 1) ∧ (f mod 10 ^ 6 = 0 → t = d * 10 ^ 9 / f).
Proof.
  intros Hd Hf. cbv zeta. set (k := f / 10 ^ 6). pose proof (Z.div_mod f (10 ^ 6) ltac:(lia)) as Hdm. fold k in Hdm.
  pose proof (Z.mod_pos_bound f (10 ^ 6) ltac:(lia)) as Hr. assert (1 ≤ k) as Hk by lia. clearbody k. set (t := d * 1000 / k).
  assert (t * k ≤ d * 1000) as Ht by (unfold t; rewrite Z.mul_comm; apply Z.mul_div_le; lia). split_and!.
  - unfold t. apply Z.div_le_lower_bound; [lia|]. pose proof (Z.mul_div_le (d * 10 ^ 9) f ltac:(lia)) as Hm. set (q := d * 10 ^ 9 / f) in *.
    assert (0 ≤ q) by (apply Z.div_pos; lia). nia.
  - assert (t * k * f ≤ d * 1000 * f) by (apply Z.mul_le_mono_nonneg_r; lia). nia.
  - intros H0. unfold t. assert (f = 10 ^ 6 * k) as -> by lia. clear Hdm. replace (d * 10 ^ 9) with (10 ^ 6 * (d * 1000)) by lia. rewrite Z.div_mul_cancel_l by lia. done.
Qed.

(** C35. [timer_init] starts a 10 ms tick and a clock: for a counter of less
    than [2^64 / 10] Hz, the core's timer is loaded with a hundredth of the
    frequency, unmasked and routed to the core, the messages of the build are
    sent, the boot core's call also empties all sleep lists, and every timer
    interrupt reloads the same interval.  [plat_get_mono_time], read [d] ticks
    later ([d] a 64-bit difference) on a counter of at least 1 MHz, behaves in two
    ways.  While [d * 1000] is below [2^64], it is never behind the
    true number of nanoseconds, is ahead of it by at most one part in [k] ([k]
    the whole ticks in a microsecond), and is exact when the frequency is a
    whole number of MHz.  From then on the product has wrapped around and the
    clock is always behind.  A counter slower than 1 MHz makes it divide by zero. *)
Theorem timer_tick_and_clock u s cpu : let f := u64 (sysrd s CNTFRQ_EL0) in
  on_cpu s cpu → tx_ready (io (uart s)) → (∀ t, arg_ok (u t)) → f * 10 < 2 ^ 64 →
  (∀ i, 0 ≤ i < 4 → is_Some (sleep_lists s !! sleep_list s i)) →
  ∃ s', timer_init u s = Ok (tt, s') ∧
    done s' = done s ++ [Msr CNTP_TVAL_EL0 (f / 100); Msr CNTP_CTL_EL0 1] ∧
    writes (io (uart s')) = writes (io (uart s)) ++ dr_writes (timer_text1 (sysrd s)) ++ [(CORE_TIMER_IRQCNTL_BASE + cpu * 4, INT_SRC_TIMER1)] ++
      dr_writes (timer_text2 (sysrd s)) ∧
    (cpu = 0 → ∀ i, 0 ≤ i < 4 → dlist (sleep_lists s') (sleep_list s i) [] ∧ sleep_locks s' !! i = Some 0) ∧
    (∀ s2, timer s2 = timer s' → handle_timer_irq s2 = Ok (tt, set_done (done s2 ++ [Msr CNTP_TVAL_EL0 (f / 100)]) s2)) ∧
    (∀ s2 d, timer s2 = timer s' → u64 (sysrd s2 CNTPCT_EL0) = u64 (sysrd s CNTPCT_EL0 + d) → 0 ≤ d < 2 ^ 64 →
       (f < 10 ^ 6 → plat_get_mono_time s2 = Halt HFault) ∧
       (10 ^ 6 ≤ f → ∃ t, plat_get_mono_time s2 = Ok (t, s2) ∧
          (d * 1000 < 2 ^ 64 → d * 10 ^ 9 / f ≤ t ∧ t * (f / 10 ^ 6) * f ≤ d * 10 ^ 9 * (f / 10 ^ 6 + 1) ∧ (f mod 10 ^ 6 = 0 → t = d * 10 ^ 9 / f)) ∧
          (2 ^ 64 ≤ d * 1000 → t < d * 10 ^ 9 / f))).
Proof.
  intros f Hc Ht Hu Hf Hs. pose proof (u64_range (sysrd s CNTFRQ_EL0)) as Hf0. fold f in Hf0.
  assert (u64 (f * TICK_MS) / 1000 = f / 100) as Ev.
  { unfold TICK_MS. rewrite u64_small by lia. change 1000 with (100 * 10). apply Z.div_mul_cancel_r; lia. }
  assert (f / 1000 / 1000 = f / 10 ^ 6) as Ek by (rewrite Z.div_div by lia; done).
  assert (wp (timer_init u) s (λ _ s', ∃ s1, timer_set s1 cpu s' ∧ sysrd s1 = sysrd s ∧ done s1 = done s ∧ uart s1 = uart s ∧
     (cpu = 0 → ∀ i, 0 ≤ i < 4 → dlist (sleep_lists s1) (sleep_list s i) [] ∧ sleep_locks s1 !! i = Some 0))) as Hw.
  { apply (wp_timer_init u s cpu _ Hc Ht Hu Hs). intros s1 s' H1 H2 H3 H4 H5. exists s1. done. }
  destruct (proj1 (wp_inv _ _ _) Hw) as ([] & s' & E & s1 & [Hg Hd Hwr [Hl Hk] _ _] & E1 & E2 & E3 & H5). cbv zeta in *. exists s'.
  rewrite E1 in *. fold f in Hg, Hd. rewrite E2, Ev in Hd. rewrite E3 in Hwr. rewrite Ev, Ek in Hg. split_and!; [done..| | |].
  - rewrite Hl, Hk. exact H5.
  - intros s2 E4. unfold handle_timer_irq, plat_set_init_timer, run, mbind, M_bind, gets, modify. by rewrite E4, Hg.
  - intros s2 d E4 Hcnt Hd0. rewrite (clock_value s2 d); rewrite ?E4, ?Hg; cbn [tick_per_us cntp_init]; [|by rewrite Hcnt; unfold u64; rewrite Zplus_mod_idemp_l|done].
    split; intros Hfm.
    + by rewrite Z.div_small by lia.
    + assert (1 ≤ f / 10 ^ 6) by (apply Z.div_le_lower_bound; lia). rewrite (proj2 (Z.eqb_neq (f / 10 ^ 6) 0)) by lia. eexists. split; [done|]. split.
      * intros Hd1. rewrite u64_small by lia. apply clock_drift; lia.
      * intros Hd1. apply clock_behind; lia.
Qed.
End build.

(** The boot core with a counter of 62.5 MHz. *)
Definition demo_boot_core : mstate :=
  mk_mstate (mk_ustate (mk_mmio (λ _ _, 0) 0 [] 1) (mk_buffer (replicate 16 0) 0 0))
    (λ r, match r with CNTFRQ_EL0 => 62500000 | _ => 0 end) 4096 [] 1 (mk_tstate 0 0 0 0) ∅ ∅ 4096 0
    (list_to_map ((λ i, (8192 + i * 32 + 8, mk_list_head 0 0)) <$> seqZ 0 4)) ∅ 8192.
(** The core [s] when its counter stands at [c]. *)
Definition at_count (c : Z) (s : mstate) : mstate :=
  mk_mstate (uart s) (λ r, match r with CNTPCT_EL0 => c | _ => 0 end) (tpidr s) (done s) (once s) (timer s)
    (irq_handle_type s) (cpu_info s) (cpu_info_addr s) (ctr_el0 s) (sleep_lists s) (sleep_locks s) (time_states s).

(** 10 ms later the clock is right (and fast by less than 1 percent), after eighteen years it is behind. *)
Lemma timer_tick_and_clock_witness :
  ∃ s' t t', timer_init (b := Debug_build) (λ _, 0) demo_boot_core = Ok (tt, s') ∧ done s' = [Msr CNTP_TVAL_EL0 625000; Msr CNTP_CTL_EL0 1] ∧
    plat_get_mono_time (at_count 625000 s') = Ok (t, at_count 625000 s') ∧ 10000000 ≤ t ∧
    plat_get_mono_time (at_count (2 ^ 55) s') = Ok (t', at_count (2 ^ 55) s') ∧ t' < 2 ^ 55 * 10 ^ 9 / 62500000.
Proof.
  destruct (timer_tick_and_clock (b := Debug_build) (λ _, 0) demo_boot_core 0) as (s' & E & Hd & _ & _ & _ & Hclk).
  - split; [lia|reflexivity].
  - intros t. exists 0%nat. split; [apply Nat.lt_0_1|reflexivity].
  - intros t. split; [lia|reflexivity].
  - reflexivity.
  - intros i Hi. assert (i = 0 ∨ i = 1 ∨ i = 2 ∨ i = 3) as [-> | [-> | [-> | -> ]]] by lia; eexists; reflexivity.
  - destruct (Hclk (at_count 625000 s') 625000 eq_refl eq_refl) as [_ Hok]; [lia|]. destruct Hok as (t & Et & Hin & _); [vm_compute; congruence|].
    destruct (Hclk (at_count (2 ^ 55) s') (2 ^ 55) eq_refl eq_refl) as [_ Hok]; [lia|]. destruct Hok as (t' & Et' & _ & Hout); [vm_compute; congruence|].
    exists s', t, t'. split; [exact E|]. split; [exact Hd|]. split; [exact Et|]. split; [exact (proj1 (Hin eq_refl))|]. split; [exact Et'|].
    apply Hout. vm_compute. congruence.
Defined.
