(* ===== verification/Poweroff.v ===== *)
(** * Powering off: [arch/aarch64/plat/raspi3/poweroff.c] at work

    The mailbox is a device that is neither full nor empty for ever, and that
    answers the message from some moment on. *)

From S2P Require Import Prelude Macro Utils Printk Mmio Uart Kprint Bitops Machine.

(** The device registers answer, and the mailbox holds [r] from its [t0]-th access on. *)
Record mailbox_ok (d : mmio) (r : Z) (t0 : nat) : Prop := {
  mb_full : answers MBOX_STATUS mbox_full d;
  mb_empty : answers MBOX_STATUS mbox_empty d;
  mb_reply : ∀ t, (t0 ≤ t)%nat → u32 (dev d MBOX_READ t) = r;
  mb_patience : (t0 < patience d)%nat
}.

Lemma mailbox_same d d' r t0 : same_dev d d' → mailbox_ok d r t0 → mailbox_ok d' r t0.
Proof. intros Hs [H1 H2 H3 H4]. split; [by eapply answers_same|by eapply answers_same|..]; destruct Hs as [E1 E2]; by rewrite ?E1, ?E2. Qed.

(** ** What the accesses look like

    [went s s' l w]: the accesses [l] happened, of which [w] are the stores. *)
Record went (s s' : pwstate) (l : list power_access) (w : list (Z * Z)) : Prop := {
  went_dev : same_dev (pio s) (pio s');
  went_mbox : mbox_words s' = mbox_words s;
  went_log : po_log s' = po_log s ++ l;
  went_writes : writes (pio s') = writes (pio s) ++ w
}.

Lemma went_trans s1 s2 s3 l1 l2 w1 w2 : went s1 s2 l1 w1 → went s2 s3 l2 w2 → went s1 s3 (l1 ++ l2) (w1 ++ w2).
Proof.
  intros [D1 M1 L1 W1] [D2 M2 L2 W2]. split; [by etrans|congruence|by rewrite L2, L1, app_assoc|by rewrite W2, W1, app_assoc].
Qed.

(** The status was read until its bit [b] (31: full, 30: empty) was clear. *)
Definition polled (b : Z) (l : list power_access) : Prop :=
  ∃ vs v, l = Rd MBOX_STATUS <$> vs ++ [v] ∧ Forall (λ x, Z.testbit x b = true) vs ∧ Z.testbit v b = false.

(** The mailbox was read whenever it held something, until the word [r] came. *)
Inductive awaited (r : Z) : list power_access → Prop :=
| aw_hit l : polled 30 l → awaited r (l ++ [Rd MBOX_READ r])
| aw_other l v l' : polled 30 l → v ≠ r → awaited r l' → awaited r (l ++ [Rd MBOX_READ v] ++ l').

(** The stores [w] while the message [m] was in memory. *)
Definition stores (m : list Z) (w : list (Z * Z)) : list power_access := (λ p, Wr p.1 p.2 m) <$> w.

Lemma land_bit v b : 0 ≤ b → negb (Z.land v (2 ^ b) =? 0) = Z.testbit v b.
Proof.
  intros Hb. destruct (Z.testbit v b) eqn:E.
  - apply negb_true_iff, Z.eqb_neq. intros H0. assert (Z.testbit (Z.land v (2 ^ b)) b = false) as H by (by rewrite H0, Z.bits_0).
    rewrite Z.land_spec, E, Z.pow2_bits_true in H; done.
  - apply negb_false_iff, Z.eqb_eq, Z.bits_inj'. intros i Hi. rewrite Z.bits_0, Z.land_spec.
    destruct (decide (i = b)) as [-> | Hne]; [by rewrite E|]. rewrite Z.pow2_bits_false by done. apply andb_false_r.
Qed.

(** ** The accesses one by one *)
Lemma wp_po_get addr s (Q : Z → pwstate → Prop) :
  (∀ s', let v := u32 (dev (pio s) addr (clock (pio s))) in
     went s s' [Rd addr v] [] → clock (pio s') = S (clock (pio s)) → Q v s') → wp (po_get addr) s Q.
Proof.
  intros HQ. unfold po_get. apply wp_bind, wp_zoom, wp_get32. intros d' Hd Hw Hc. apply wp_bind, wp_modify, wp_ret, HQ; [|done].
  split; [done|done|done|]. cbn [pio]. by rewrite Hw, app_nil_r.
Qed.

Lemma wp_po_put addr v s (Q : unit → pwstate → Prop) :
  (∀ s', went s s' [Wr addr v (mbox_words s)] [(addr, v)] → Q tt s') → wp (po_put addr v) s Q.
Proof. intros HQ. unfold po_put. apply wp_bind, wp_zoom, wp_put32. intros d' Hd Hw. apply wp_modify, HQ. by split. Qed.

Lemma wp_po_poll fuel b (busy : Z → bool) s (Q : unit → pwstate → Prop) :
  (∀ v, busy v = Z.testbit v b) → (∃ k, (k < fuel)%nat ∧ busy (u32 (dev (pio s) MBOX_STATUS (clock (pio s) + k))) = false) →
  (∀ s' l, went s s' l [] → polled b l → (clock (pio s) < clock (pio s'))%nat → Q tt s') → wp (po_poll fuel MBOX_STATUS busy) s Q.
Proof.
  intros Hbusy. revert s Q. induction fuel as [|fuel IH]; intros s Q (k & Hk & Hb) HQ; [lia|]. cbn [po_poll]. apply wp_bind, wp_po_get.
  cbv zeta. intros s1 H1 Hc1. destruct (busy (u32 (dev (pio s) MBOX_STATUS (clock (pio s))))) eqn:E.
  - apply IH.
    + destruct k as [|k]; [rewrite Nat.add_0_r in Hb; congruence|]. exists k. split; [lia|]. destruct H1 as [[-> _] _ _ _]. rewrite Hc1.
      by replace (S (clock (pio s)) + k)%nat with (clock (pio s) + S k)%nat by lia.
    + intros s' l H2 (vs & v & -> & Hvs & Hv) Hc. apply (HQ s' _ (went_trans _ _ _ _ _ _ _ H1 H2)); [|lia].
      eexists (_ :: vs), v. split_and!; [reflexivity|constructor; [by rewrite <- Hbusy|done]|done].
  - apply wp_ret, (HQ s1 _ H1); [|lia]. eexists [], _. split_and!; [reflexivity|constructor|by rewrite <- Hbusy].
Qed.

Lemma mbox_full_bit v : mbox_full v = Z.testbit v 31.
Proof. apply (land_bit v 31). lia. Qed.
Lemma mbox_empty_bit v : mbox_empty v = Z.testbit v 30.
Proof. apply (land_bit v 30). lia. Qed.

Lemma wp_mbox_wait fuel r t0 s (Q : unit → pwstate → Prop) :
  mailbox_ok (pio s) r t0 → (t0 < clock (pio s) + fuel)%nat → (0 < fuel)%nat →
  (∀ s' l, went s s' l [] → awaited r l → Q tt s') → wp (mbox_wait fuel r) s Q.
Proof.
  revert s Q. induction fuel as [|fuel IH]; intros s Q Hm Hf H0 HQ; [lia|]. cbn [mbox_wait]. apply wp_bind, wp_gets, wp_bind.
  apply (wp_po_poll _ 30); [apply mbox_empty_bit|apply Hm|]. intros s1 l1 H1 Hl1 Hc1. apply wp_bind, wp_po_get. cbv zeta. intros s2 H2 Hc2.
  pose proof (went_trans _ _ _ _ _ _ _ H1 H2) as H12. case_cmp as Hr.
  - apply wp_ret, (HQ s2 _ H12). rewrite <- Hr. by constructor.
  - destruct (decide (t0 ≤ clock (pio s1))%nat) as [Hle|Hgt].
    + exfalso. apply Hr. symmetry. apply (mb_reply _ _ _ (mailbox_same _ _ _ _ (went_dev _ _ _ _ H1) Hm)). done.
    + apply IH; [eapply mailbox_same; [|exact Hm]; apply H12|lia|lia|]. intros s' l' H' Hl'.
      apply (HQ s' _ (went_trans _ _ _ _ _ _ _ H12 H')). rewrite <- app_assoc. constructor 2; [done|by apply not_eq_sym|done].
Qed.

(** The pins are released, then the watchdog is told to halt. *)
Definition release_pins : list (Z * Z) :=
  [(GPFSEL 0, 0); (GPFSEL 1, 0); (GPFSEL 2, 0); (GPFSEL 3, 0); (GPFSEL 4, 0); (GPFSEL 5, 0); (PO_GPPUD, 0);
   (PO_GPPUDCLK0, 0xffffffff); (PO_GPPUDCLK1, 0xffffffff); (PO_GPPUDCLK0, 0); (PO_GPPUDCLK1, 0)].
Definition halt_partition : list (Z * Z) :=
  [(PM_RSTS, 0x5a000555); (PM_WDOG, 0x5a00000a); (PM_RSTC, 0x5a000020)].

(** Whatever the status register held, partition 63 is written. *)
Lemma halt_value v : Z.lor PM_WDOG_MAGIC (Z.lor (Z.land (u32 v) (u32 (Z.lnot 0xfffffaaa))) 0x555) = 0x5a000555.
Proof.
  change (u32 (Z.lnot 0xfffffaaa)) with 0x555. assert (Z.lor (Z.land (u32 v) 0x555) 0x555 = 0x555) as ->; [|reflexivity].
  apply Z.bits_inj'. intros i Hi. rewrite Z.lor_spec, Z.land_spec. by destruct (Z.testbit 0x555 i); rewrite ?andb_false_r, ?orb_true_r.
Qed.

Definition power_message : list Z := [32; 0; 0x28001; 8; 8; 0; 0; 0].

Lemma wp_set_mbox i v s (Q : unit → pwstate → Prop) : (Z.to_nat i < length (mbox_words s))%nat →
  Q tt (mk_pwstate (pio s) (<[Z.to_nat i := v]> (mbox_words s)) (po_log s)) → wp (set_mbox i v) s Q.
Proof. intros Hi HQ. destruct (lookup_lt_is_Some_2 _ _ Hi) as [x Hx]. apply wp_bind. eapply wp_load; [done|]. by apply wp_modify. Qed.

(** The channel fits into the bits that alignment leaves free. *)
Lemma channel_word x : x mod 16 = 0 → 0 ≤ x < 2 ^ 32 → Z.lor (Z.land x (u32 (Z.lnot 0xF))) (Z.land 8 0xF) = x + 8.
Proof.
  intros Hx Hr. apply Z.mod_divide in Hx as [q ->]; [|lia]. change (u32 (Z.lnot 0xF)) with (Z.shiftl (Z.ones 28) 4). change (Z.land 8 0xF) with 8.
  change 16 with (2 ^ 4) in *. rewrite <- (Z.shiftl_mul_pow2 q 4), <- Z.shiftl_land, Z.land_ones, Z.mod_small by lia.
  symmetry. apply Z.add_nocarry_lor. apply Z.bits_inj'. intros i Hi. rewrite Z.land_spec, Z.bits_0. destruct (Z_lt_dec i 4).
  - by rewrite Z.shiftl_spec_low by lia.
  - rewrite (Z.bits_above_log2 8 i), andb_false_r by (change (Z.log2 8) with 3; lia). done.
Qed.

(** The whole sequence of accesses, with the word [r] for the mailbox. *)
Definition power_off_log (r : Z) (l : list power_access) : Prop :=
  ∃ l1 l2 v, polled 31 l1 ∧ awaited r l2 ∧
    l = l1 ++ [Wr MBOX_WRITE r power_message] ++ l2 ++ stores power_message release_pins ++ [Rd PM_RSTS v] ++ stores power_message halt_partition.

Lemma went_dev_ok s s' l w r t0 : went s s' l w → mailbox_ok (pio s) r t0 → mailbox_ok (pio s') r t0.
Proof. intros H. apply mailbox_same, H. Qed.

(** A further store, after the accesses [l] with the message [m] in memory. *)
Lemma wp_po_put_on s0 l w m addr v s (Q : unit → pwstate → Prop) : mbox_words s = m → went s0 s l w →
  (∀ s', mbox_words s' = m → went s0 s' (l ++ stores m [(addr, v)]) (w ++ [(addr, v)]) → Q tt s') → wp (po_put addr v) s Q.
Proof.
  intros <- H HQ. apply wp_po_put. intros s' H'. apply HQ; [apply H'|]. exact (went_trans _ _ _ _ _ _ _ H H').
Qed.

Lemma wp_plat_poweroff mbox s t0 : let r := mbox_word mbox in
  length (mbox_words s) = 8%nat → mailbox_ok (pio s) r t0 →
  wp (plat_poweroff mbox) s (λ _ s', mbox_words s' = power_message ∧
    writes (pio s') = writes (pio s) ++ [(MBOX_WRITE, r)] ++ release_pins ++ halt_partition ∧
    ∃ l, po_log s' = po_log s ++ l ∧ power_off_log r l).
Proof.
  intros r Hlen Hm. unfold plat_poweroff. do 8 (apply wp_bind, wp_set_mbox; [cbn [mbox_words]; rewrite ?length_insert, Hlen; apply Nat.ltb_lt; reflexivity|]).
  destruct s as [d l lg]. cbn [pio mbox_words po_log] in *. do 8 (destruct l as [|? l]; [discriminate Hlen|]). destruct l; [|discriminate Hlen].
  cbv zeta. fold r. match goal with |- wp _ ?x _ => change x with (mk_pwstate d power_message lg) end.
  set (s0 := mk_pwstate d power_message lg). apply wp_bind, wp_gets, wp_bind, (wp_po_poll _ 31); [apply mbox_full_bit|apply Hm|].
  intros s1 l1 H1 Hl1 _. apply wp_bind, wp_po_put. intros s2 H2. pose proof (went_trans _ _ _ _ _ _ _ H1 H2) as H12.
  apply wp_bind, (wp_mbox_wait _ r t0 s2); [by eapply went_dev_ok|destruct Hm; cbn [s0 pio]; lia|destruct Hm; cbn [s0 pio]; lia|].
  intros s3 l2 H3 Hl2. pose proof (went_trans _ _ _ _ _ _ _ H12 H3) as H. rewrite (went_mbox _ _ _ _ H1) in H.
  assert (mbox_words s3 = power_message) as M by apply H. clear H1 H2 H3 H12.
  do 11 (apply wp_bind, (wp_po_put_on _ _ _ _ _ _ _ _ M H); clear M H; intros ? M H).
  apply wp_bind, wp_po_get. cbv zeta. intros s4 H4 _. rewrite halt_value. set (v := u32 _) in *.
  pose proof (went_trans _ _ _ _ _ _ _ H H4) as H'. assert (mbox_words s4 = power_message) as M' by apply H'. clear M H H4.
  do 2 (apply wp_bind, (wp_po_put_on _ _ _ _ _ _ _ _ M' H'); clear M' H'; intros ? M' H').
  apply (wp_po_put_on _ _ _ _ _ _ _ _ M' H'). clear M' H'. intros s5 M [_ _ L W]. cbn [s0 pio po_log mbox_words] in L, W. split_and!; [done|..].
  - rewrite W. cbn [app]. reflexivity.
  - eexists. split; [exact L|]. exists l1, l2, v. split_and!; [done|done|]. cbn [s0 mbox_words]. rewrite <- !app_assoc. reflexivity.
Qed.

(** ** The property *)

(** C36. [plat_poweroff] runs to its end whenever the mailbox answers (at any
    later moment, possibly after replies to others), and its device accesses,
    reads included, are exactly these, in this order: the mailbox status until
    bit 31 (full) is clear; the store of the message's physical address, with
    channel 8 in the low bits, made when the eight words of the request to
    switch the power off are in memory; the status until bit 30 (empty) is
    clear and then the mailbox, again and again until the word read is the one
    that was stored; only then the stores that release the pins, the read of
    the reset status, and the stores that start the watchdog with the halt
    partition, whatever the reset status was. *)
Theorem poweroff_sequence mbox s t0 : let r := mbox_word mbox in
  length (mbox_words s) = 8%nat → mailbox_ok (pio s) r t0 →
  ∃ s' l, plat_poweroff mbox s = Ok (tt, s') ∧ mbox_words s' = power_message ∧
    po_log s' = po_log s ++ l ∧ power_off_log r l ∧
    writes (pio s') = writes (pio s) ++ [(MBOX_WRITE, r)] ++ release_pins ++ halt_partition ∧
    (mbox mod 16 = 0 → KBASE ≤ mbox < KBASE + 2 ^ 32 → r = mbox - KBASE + 8).
Proof.
  intros r Hlen Hm. pose proof (wp_plat_poweroff mbox s t0 Hlen Hm) as Hw.
  destruct (proj1 (wp_inv _ _ _) Hw) as ([] & s' & E & H1 & H2 & l & H3 & H4). exists s', l. split_and!; [done..|].
  intros Hal Hr. unfold r, mbox_word, KBASE in *. rewrite virt_to_phys_eq by (unfold KBASE; lia). unfold KBASE. rewrite u32_small by lia.
  change 0xFFFFFF0000000000 with KBASE in *. apply channel_word; [|lia].
  rewrite Zminus_mod, Hal. reflexivity.
Qed.

(** A mailbox that answers someone else first. *)
Definition demo_mailbox : mmio := mk_mmio (λ a t, if a =? MBOX_READ then (if (t <? 5)%nat then 7 else 0x90008) else 0) 0 [] 8.

Lemma demo_mailbox_ok : mailbox_ok demo_mailbox (mbox_word (KBASE + 0x90000)) 5.
Proof.
  split.
  - intros t. exists 0%nat. split; [apply Nat.ltb_lt; reflexivity|reflexivity].
  - intros t. exists 0%nat. split; [apply Nat.ltb_lt; reflexivity|reflexivity].
  - intros t Ht. cbn [dev demo_mailbox pio]. rewrite Z.eqb_refl, (proj2 (Nat.ltb_ge t 5) Ht). reflexivity.
  - apply Nat.ltb_lt. reflexivity.
Qed.

Lemma poweroff_sequence_witness :
  ∃ s' l, plat_poweroff (KBASE + 0x90000) (mk_pwstate demo_mailbox (replicate 8 0) []) = Ok (tt, s') ∧ mbox_words s' = power_message ∧
    po_log s' = [] ++ l ∧ power_off_log (mbox_word (KBASE + 0x90000)) l ∧
    writes (pio s') = [] ++ [(MBOX_WRITE, mbox_word (KBASE + 0x90000))] ++ release_pins ++ halt_partition ∧
    ((KBASE + 0x90000) mod 16 = 0 → KBASE ≤ KBASE + 0x90000 < KBASE + 2 ^ 32 → mbox_word (KBASE + 0x90000) = KBASE + 0x90000 - KBASE + 8).
Proof.
  exact (poweroff_sequence (KBASE + 0x90000) (mk_pwstate demo_mailbox (replicate 8 0) []) 5 eq_refl demo_mailbox_ok).
Defined.
