(* ===== verification/Main.v ===== *)
(** * The kernel's main function

    [main] of [arch/aarch64/main.c] and, as it calls them, [mm_init]
    ([mm/mm.c]), [test_slab] ([mm/slab_test.c]), [print_buddy_info]
    ([mm/buddy.c]), [print_slab_info] ([mm/slab.c]) and the end of
    [kmalloc_test] ([mm/kmalloc.c]), with the messages they print in the given
    build, on the state of the whole kernel.  The warnings of the allocators
    ([kwarn] and [kdebug] in [slab.c], [kmalloc.c] and [buddy.c:56]) belong to calls that
    return [NULL] or get an invalid pointer and are not modelled; [main] makes
    no such call.  [u t] is what the uninitialised union of
    [simple_vsprintf] holds when a message is printed at the device time [t]. *)

From stdpp Require Import strings.
From S2P Require Import Prelude Macro ListHead Buddy Chunks BuddyInv BuddyOps BuddySpec BuddyCount BuddyInit BuddyTheorems.
From S2P Require Import PageTable PageTableInv PageTableOps Pages PageTableTheorems.
From S2P Require Import Slab SlabInv SlabOps SlabSpec SlabTheorems Utils Kmalloc KmallocTheorems Mm FreeLists SlabExact SlabTest.
From S2P Require Import Printk PrintkSpec Mmio Uart UartTheorems Kprint KernelLog Bitops Machine MachineTheorems Timer Poweroff Boot KernelMap.
Import PL011.

(** The heap with the arrays of the slab test, the memory of the page tables,
    the running core with its devices, the message buffer of [plat_poweroff]
    on the stack, and [big_kernel_lock]. *)
Record kernel : Type := mk_kernel {
  heap : teststate;
  tables : gmap Z Z;
  core : mstate;
  mbox_buf : list Z;
  big_kernel_lock : Z
}.

Definition set_heap (t : teststate) (s : kernel) : kernel := mk_kernel t (tables s) (core s) (mbox_buf s) (big_kernel_lock s).
Definition set_core (c : mstate) (s : kernel) : kernel := mk_kernel (heap s) (tables s) c (mbox_buf s) (big_kernel_lock s).
Definition set_bkl (v : Z) (s : kernel) : kernel := mk_kernel (heap s) (tables s) (core s) (mbox_buf s) v.

Definition kio (s : kernel) : mmio := io (uart (core s)).
Definition core_io (d : mmio) (c : mstate) : mstate := set_uart (mk_ustate d (pl011_buffer (uart c))) c.
Definition kslab (s : kernel) : sstate := t_slab (heap s).
Definition kset_slab (st : sstate) (s : kernel) : kernel := set_heap (with_slab st (heap s)) s.

Definition on_heap {A} (m : M teststate A) : M kernel A := zoom heap set_heap m.
Definition on_kslab {A} (m : M sstate A) : M kernel A := on_heap (on_slab m).
Definition on_kbuddy {A} (m : M bstate A) : M kernel A := on_kslab (on_bud m).
Definition on_core {A} (m : M mstate A) : M kernel A := zoom core set_core m.
(** The page tables, with table pages from the buddy allocator; [rss] is [NULL]. *)
Definition on_tables {A} (m : M (ptstate bstate) A) : M kernel A :=
  zoom (λ s, mk_pt (bud (kslab s)) (tables s) None)
       (λ p s, mk_kernel (with_slab (set_bud (src p) (kslab s)) (heap s)) (mem p) (core s) (mbox_buf s) (big_kernel_lock s)) m.
Definition on_power {A} (m : M pwstate A) : M kernel A :=
  zoom (λ s, mk_pwstate (kio s) (mbox_buf s) [])
       (λ p s, mk_kernel (heap s) (tables s) (core_io (pio p) (core s)) (mbox_words p) (big_kernel_lock s)) m.

Section main.
Context {b : build_type}.
Variable (u : nat → Z).

(** [kinfo(fmt, args...)], [kdebug(fmt, args...)] and [printk(fmt, args...)]; [fmt] without its terminator *)
Definition say (fmt args : list Z) : M kernel unit := on_core (say_info u fmt args).
Definition dbg (fmt args : list Z) : M kernel unit := on_core (say_debug u fmt args).
Definition say_raw (fmt args : list Z) : M kernel unit :=
  t ← gets (λ s, clock (kio s));
  on_core (on_regs (console_printk ∅ (fmt ++ [0]) args (u t))).

Definition print_buddy_info : M kernel unit :=
  n ← on_kbuddy get_free_pages_nums_from_buddy;
  say (ln "Free pages has %ld: ") [n] ;;
  for_up (Z.to_nat BUDDY_MAX_ORDER) 0 (λ order,
    nr ← on_kbuddy (get_nr_free order);
    say (ln "order %d: %ld") [order; nr]) ;;
  f1 ← on_kbuddy get_free_mem_size_from_buddy;
  f2 ← on_kbuddy get_free_mem_size_from_buddy;
  t1 ← on_kbuddy get_total_mem_size_from_buddy;
  t2 ← on_kbuddy get_total_mem_size_from_buddy;
  say (ln "Free Memory size: %ldMB %ldKB, Total Memory size: %ldMB %ldKB")
    [f1 / 1024 / 1024; f2 / 1024 mod 1024; t1 / 1024 / 1024; t2 / 1024 mod 1024].

(** The format reads 64 bits for the [int] [counts[order]]: the upper half of
    the argument, [hi order], is not determined. *)
Definition print_slab_info (hi : Z → Z) : M kernel unit :=
  counts ← on_kslab (calculate_slab_free_block_count (Z.to_nat SLAB_POOL_SIZE) MIN_SLAB_BLOCK_ORDER);
  for_up (Z.to_nat (MAX_SLAB_BLOCK_ORDER - MIN_SLAB_BLOCK_ORDER + 1)) 0 (λ order,
    c ← load (λ _, counts !! Z.to_nat order);
    say (ln "slab pool of order-%d: free block count %lu") [order; u32 c + hi order * 2 ^ 32]).

(** [while (loop-- > 0)]: the body sees [loop - 1], and [i] counts the messages. *)
Fixpoint test_slab_loop (loop : nat) (i : Z) : M kernel unit :=
  match loop with
  | O => mret tt
  | S loop' =>
      i' ← (if Z.of_nat loop' mod 100 =? 0 then say_raw (chars "...%d%%") [i * 10] ;; mret (i + 1) else mret i);
      on_heap (on_slab (run_test1 sizes)) ;;
      on_heap (run_test sizes) ;;
      test_slab_loop loop' i'
  end.

Definition test_slab : M kernel Z :=
  say (chars "Start slab test") [] ;;
  free_buddy_size_before ← on_kbuddy get_free_mem_size_from_buddy;
  test_slab_loop 1000 0 ;;
  free_buddy_size_after ← on_kbuddy get_free_mem_size_from_buddy;
  assert (free_buddy_size_after =? free_buddy_size_before) ;;
  say_raw (ln "...100%%") [] ;;
  say (ln "Slab test passed") [] ;;
  mret 0.

(** [kmalloc_test] with its message *)
Definition kmalloc_test_report : M kernel unit :=
  on_kslab kmalloc_test ;;
  say (ln "kmalloc test passed") [].

(** [init_buddy] with its messages, the kernel image ending at [e] *)
Definition kernel_init_buddy (e : Z) : M kernel unit :=
  dbg (ln "available pyhsical memory region: [0x%lx, 0x%lx)") [available_phys_mem_start e; available_phys_mem_end] ;;
  on_kbuddy (set_up_region e) ;;
  dbg (ln "free physical memory region: [0x%lx, 0x%lx)") [free_phys_mem_start e; available_phys_mem_end] ;;
  on_kbuddy (init_free_lists (region_pages e)).

(** [mm_init] *)
Definition mm_init (hi : Z → Z) (e : Z) : M kernel unit :=
  kernel_init_buddy e ;;
  say (ln "Buddy system initialized.") [] ;;
  print_buddy_info ;;
  on_kslab init_slab ;;
  say (ln "Slab allocator initialized.") [] ;;
  print_slab_info hi ;;
  test_slab ;;
  kmalloc_test_report.

(** [main], with [boot_ttbr1_l0] at the physical address [a0], [cpu_stacks] at
    [stacks], and the buffer of [plat_poweroff] at [mbox]; the result of the
    mapping is not looked at. *)
Definition main (hi : Z → Z) (e a0 stacks mbox : Z) : M kernel unit :=
  say (ln "Hello KingdoMicroKernel! I am in kernel now!") [] ;;
  modify (set_bkl 0) ;;
  say (ln "big_kernel_lock init finished") [] ;;
  on_core (init_per_cpu_info 0) ;;
  say (ln "per-CPU info init finished") [] ;;
  mm_init hi e ;;
  say (ln "mm init finished") [] ;;
  _ ← on_tables (map_kernel_stack a0 stacks);
  on_core arch_interrupt_init ;;
  on_core (timer_init u) ;;
  say (ln "interrupt init finished") [] ;;
  on_core (pmu_init u) ;;
  say (ln "pmu init finished") [] ;;
  on_power (plat_poweroff mbox).
End main.
