(* ===== verification/ExceptionTheorems.v ===== *)
(** * Interrupts, aborts and system calls from end to end

    The vectors of [irq_entry.S] with the C functions of the kernel behind
    them: what the interrupted code sees when it goes on. *)

From S2P Require Import Prelude Macro Buddy BuddyInit Slab SlabTheorems SlabTest Utils Mmio Uart Kprint Machine MachineTheorems Poweroff Exception ExceptionOps Main.

(** ** The interface, met by the kernel *)

(** [m] holds the literals of the messages, [file] is the address of [__FILE__];
    [ub] and [u0] stand for the undefined values of [plat_handle_irq] and of the
    print union, [mbox] is the address of the buffer of [plat_poweroff]. *)
Definition kernel_code {b : build_type} (m : bytes) (file ub u0 mbox : Z) : KernelCode kernel := {|
  c_handle_irq := on_core (handle_irq ub u0);
  c_handle_sync := λ type esr address, on_core (handle_sync (λ _, u0) type esr address);
  c_unexpected := on_core unexpected_handler;
  c_syscall := λ h, match h with
    | Sys_null_placeholder => r ← on_core (on_regs (sys_null_placeholder m file u0)); mret (RInt r)
    | Sys_poweroff => on_power (sys_poweroff mbox) ;; mret RVoid
    end
|}.

Section theorems.
Context {K : Type} `{!KernelCode K} (junk : nat → Z) (below : Z → gmap Z Z → gmap Z Z) (table_addr : Z) (handler_addr : handler → Z).
Implicit Types (s : cpu K).

(** The code that was interrupted in [s] goes on in [s'] at [pc']: all its
    registers are as they were, except [x0] when [x0'] says so, and memory is
    changed at most where [P] holds. *)
Record goes_on s (pc' : Z) (x0' : option Z) (k' : K) (P : Z → Prop) s' : Prop := {
  go_xr : xr s' = match x0' with None => xr s | Some v => <[0%nat := v]> (xr s) end;
  go_sp : sp_el1 s' = sp_el1 s;
  go_sp0 : sp_el0 s' = sp_el0 s;
  go_tpidr : tpidr_el1 s' = tpidr_el1 s;
  go_pc : pc s' = pc';
  go_pstate : pstate s' = pstate s;
  go_kern : kern s' = k';
  go_ram : ∀ a, ¬ P a → ram s' !! a = ram s !! a
}.

Notation take_exception := (take_exception junk below table_addr handler_addr).

(** The hardware does not touch what the entry code relies on. *)
Definition taken (ret esr : Z) s : cpu K :=
  mk_cpu (xr s) (sp_el1 s) (sp_el0 s) ret (pstate s) esr (tpidr_el1 s) (pc s) (pstate s) (ram s) (kern s).

Lemma taken_enter ret esr s c : can_enter s c → can_enter (taken ret esr s) c.
Proof. intros []. by split. Qed.

Lemma taken_per_cpu ret esr s c top : per_cpu s c top → per_cpu (taken ret esr s) c top.
Proof. intros []. by split. Qed.

(** The hardware's part of taking an exception. *)
Lemma wp_take_exception v n ret esr s (Q : unit → cpu K → Prop) : el1_vector !! n = Some v →
  wp (entry junk below table_addr handler_addr v)
     (taken ret esr s) Q →
  wp (take_exception n ret esr) s Q.
Proof. intros Hv HQ. apply wp_bind, wp_modify, wp_bind. by eapply wp_load. Qed.

Lemma resumed_goes_on s ret esr pc' x0' k' P s' :
  resumed (taken ret esr s) pc' x0' k' P s' →
  goes_on s pc' x0' k' P s'.
Proof. intros []. by split. Qed.

Lemma run_vector v n ret esr s pc' x0' k' P : el1_vector !! n = Some v →
  wp (entry junk below table_addr handler_addr v) (taken ret esr s) (λ _ s', resumed (taken ret esr s) pc' x0' k' P s') →
  ∃ s', take_exception n ret esr s = Ok (tt, s') ∧ goes_on s pc' x0' k' P s'.
Proof.
  intros Hv Hw. pose proof (wp_take_exception v n ret esr s _ Hv Hw) as Hrun.
  destruct (proj1 (wp_inv _ _ _) Hrun) as ([] & s' & E & HP). exists s'. split; [done|by eapply resumed_goes_on].
Qed.

Hypothesis Hbelow : ∀ sp m, same_outside (sp - CPU_STACK_SIZE) sp m (below sp m).

(** C3. An interrupt is invisible to the code it interrupts.  Whether it
    arrives in the kernel or in user mode, whatever [handle_irq] does to the
    kernel's state, to the scratch registers and to the stack below its own
    frame, the interrupted code goes on at the interrupted instruction with all
    of [x0] to [x30], both stack pointers and the processor state as they were,
    and its memory untouched above its own stack pointer. *)
Theorem irq_transparent s n c ret esr k' :
  (n = 5 ∨ n = 9)%nat → can_enter s c → c_handle_irq (kern s) = Ok (tt, k') →
  ∃ s', take_exception n ret esr s = Ok (tt, s') ∧
    goes_on s ret None k' (λ a, c - CPU_STACK_SIZE ≤ a < sp_el1 s) s'.
Proof.
  intros Hn He Hk. pose proof (ce_sp _ _ He) as Hsp. rewrite Hsp.
  assert (∃ v, el1_vector !! n = Some v ∧ entry junk below table_addr handler_addr v = irq_entry junk below) as (v & Hv & Ev).
  { destruct Hn as [-> | ->]; eexists; split; reflexivity. }
  eapply run_vector; [exact Hv|]. rewrite Ev. exact (wp_irq_entry junk below Hbelow _ c k' (taken_enter _ _ _ _ He) Hk).
Qed.

Lemma table_lookup n : 0 ≤ n < NR_SYSCALL →
  syscall_table !! Z.to_nat n = Some (if n =? KMK_SYS_poweroff then Sys_poweroff else Sys_null_placeholder).
Proof.
  unfold NR_SYSCALL, syscall_table. intros Hn. destruct (Z.eqb_spec n KMK_SYS_poweroff) as [->|Hne]; [reflexivity|].
  rewrite list_lookup_insert_ne by (unfold KMK_SYS_poweroff in *; lia). apply lookup_replicate_2. unfold NR_SYSCALL. lia.
Qed.

(** C4. A system call returns to its caller.  A thread that executes [svc] with
    the number of a handler in [w8] goes on after the instruction with the
    handler's [x0] in its own [x0] and every other register, its stack pointer
    and its processor state as they were; the kernel wrote only to its own
    stack and to the thread's context.  A number of [NR_SYSCALL] or more is not
    checked: the entry code reads a handler from beyond [syscall_table]. *)
Theorem syscall_returns s c top ret esr w8 :
  can_enter s c → per_cpu s c top → Z.shiftr esr ESR_EL1_EC_SHIFT = ESR_EL1_EC_SVC_64 → xr s !! 8%nat = Some w8 →
  (u32 w8 < NR_SYSCALL → ∀ r k',
    c_syscall (if u32 w8 =? KMK_SYS_poweroff then Sys_poweroff else Sys_null_placeholder) (kern s) = Ok (r, k') →
    ∃ s', take_exception 8 ret esr s = Ok (tt, s') ∧ goes_on s ret (Some (x0_of junk r)) k' (user_writes c top) s') ∧
  (NR_SYSCALL ≤ u32 w8 → take_exception 8 ret esr s = Halt HFault).
Proof.
  intros He Hp Hec H8. assert (0 ≤ u32 w8) as H0 by (apply Z.mod_pos_bound; lia). split.
  - intros Hn r k' Hr. eapply (run_vector sync_el0_64); [reflexivity|].
    exact (wp_svc junk below table_addr handler_addr Hbelow _ c top w8 _ r k' (taken_enter _ _ _ _ He) (taken_per_cpu _ _ _ _ _ Hp) Hec H8
      (table_lookup _ (conj H0 Hn)) Hr).
  - intros Hn.
    unfold Exception.take_exception, mbind, M_bind, modify, load. cbn [el1_vector lookup list_lookup entry].
    apply (svc_beyond junk below table_addr handler_addr _ c top w8 (taken_enter _ _ _ _ He) (taken_per_cpu _ _ _ _ _ Hp)); [done|done|].
    apply lookup_ge_None. unfold syscall_table. rewrite length_insert, length_replicate. unfold NR_SYSCALL in *. lia.
Qed.
End theorems.

(** The other vectors, and classes that [handle_sync] does not know, stop the
    kernel; an abort of the kernel is retried. *)
Lemma unexpected_vectors {b : build_type} (m : bytes) (file ub u0 mbox : Z) junk below table_addr handler_addr n v ret esr (s : cpu kernel) :
  el1_vector !! n = Some v → v ∉ [sync_el1h; irq_el1h; sync_el0_64; irq_el0_64] →
  take_exception (KernelCode0 := kernel_code m file ub u0 mbox) junk below table_addr handler_addr n ret esr s = Halt HBug.
Proof.
  intros Hv Hn. unfold take_exception, mbind, M_bind, modify, load. rewrite Hv.
  destruct v; try reflexivity; exfalso; apply Hn; repeat (apply list_elem_of_here || apply list_elem_of_further).
Qed.

(** The numbers that [irq_entry.h] gives to the vectors *)
Definition exception_types : list (vector * Z) :=
  [(sync_el1t, 0); (irq_el1t, 1); (fiq_el1t, 2); (error_el1t, 3); (sync_el1h, 4); (irq_el1h, 5); (fiq_el1h, 6); (error_el1h, 7);
   (sync_el0_64, 8); (irq_el0_64, 9); (fiq_el0_64, 10); (error_el0_64, 11); (sync_el0_32, 12); (irq_el0_32, 13); (fiq_el0_32, 14); (error_el0_32, 15)].

(** A type is the slot of its vector in the table, so the handlers learn from it
    which vector was taken. *)
Lemma exception_type_is_slot v t : (v, t) ∈ exception_types → 0 ≤ t ∧ el1_vector !! Z.to_nat t = Some v.
Proof. intros Hin. repeat (apply elem_of_cons in Hin as [[= -> ->]|Hin]; [by split|]). by apply not_elem_of_nil in Hin. Qed.

(** ** A core for the examples *)
Definition demo_frame : Z := 0x10000.
Definition demo_top : Z := 0x20000.
Definition demo_percpu : Z := 0x30000.
Definition demo_ram : gmap Z Z :=
  <[demo_percpu := demo_frame]> (<[demo_percpu + 8 := demo_top]> (list_to_map ((λ i, (demo_frame + 8 * i, 0)) <$> seqZ 0 34))).
Definition demo_state (c : mstate) : kernel := mk_kernel (mk_test (bss_slab (bss_bstate 1) 0) [] []) ∅ c (replicate 8 0) 0.
Definition demo_core (x8 : Z) (c : mstate) : cpu kernel :=
  mk_cpu (<[8%nat := x8]> (replicate 31 7)) (demo_frame + ARCH_EXEC_CONT_SIZE) 0x5000 0 0 0 demo_percpu 0x4000 0x60000000 demo_ram (demo_state c).

Lemma demo_can_enter x8 c : can_enter (demo_core x8 c) demo_frame.
Proof.
  split; [reflexivity|reflexivity|split; [discriminate|reflexivity]|]. exists (replicate 34 0). split; [reflexivity|].
  intros i w Hi. do 34 (destruct i as [|i]; [injection Hi as <-; vm_compute; reflexivity|]). discriminate.
Qed.

Lemma demo_per_cpu x8 c : per_cpu (demo_core x8 c) demo_frame demo_top.
Proof.
  split; [split; [discriminate|reflexivity]|vm_compute; reflexivity|vm_compute; reflexivity| |right; vm_compute; discriminate].
  intros off [-> | ->]; unfold demo_frame, demo_top, ARCH_EXEC_CONT_SIZE, REG_NUM, SZ_U64, CPU_STACK_SIZE, OFFSET_CURRENT_EXEC_CTX, OFFSET_LOCAL_CPU_STACK; cbn; unfold demo_percpu; lia.
Qed.

Lemma below_nothing (sp : Z) (m : gmap Z Z) : same_outside (sp - CPU_STACK_SIZE) sp m m.
Proof. apply same_outside_refl. Qed.

Lemma demo_timer_irq : ∃ k', c_handle_irq (KernelCode := kernel_code (b := Debug_build) ∅ 0 1 0 0) (demo_state demo_machine) = Ok (tt, k').
Proof. eexists. vm_compute. reflexivity. Qed.

Lemma irq_transparent_witness : ∃ k' s',
  take_exception (KernelCode0 := kernel_code (b := Debug_build) ∅ 0 1 0 0) (λ _, 0) (λ _ m, m) 0 (λ _, 0) 9 0x4000 0 (demo_core 7 demo_machine) = Ok (tt, s') ∧
  goes_on (demo_core 7 demo_machine) 0x4000 None k' (λ a, demo_frame - CPU_STACK_SIZE ≤ a < demo_frame + ARCH_EXEC_CONT_SIZE) s'.
Proof.
  destruct demo_timer_irq as [k' Hk]. exists k'.
  exact (irq_transparent (KernelCode0 := kernel_code (b := Debug_build) ∅ 0 1 0 0) (λ _, 0) (λ _ m, m) 0 (λ _, 0) below_nothing (demo_core 7 demo_machine) 9 demo_frame
    0x4000 0 k' (or_intror eq_refl) (demo_can_enter 7 demo_machine) Hk).
Defined.

Definition demo_off : mstate := core_io demo_mailbox demo_machine.

Lemma demo_poweroff : ∃ k', c_syscall (KernelCode := kernel_code (b := Debug_build) ∅ 0 1 0 (KBASE + 0x90000)) Sys_poweroff (demo_state demo_off) = Ok (RVoid, k') ∧
  writes (kio k') = [(MBOX_WRITE, mbox_word (KBASE + 0x90000))] ++ release_pins ++ halt_partition.
Proof.
  pose proof (wp_plat_poweroff (KBASE + 0x90000) (mk_pwstate demo_mailbox (replicate 8 0) []) 5 eq_refl demo_mailbox_ok) as Hw.
  destruct (proj1 (wp_inv _ _ _) Hw) as ([] & p & E & _ & Ew & _).
  eexists. unfold c_syscall, kernel_code, on_power, sys_poweroff, mbind, M_bind, zoom.
  change (mk_pwstate (kio (demo_state demo_off)) (mbox_buf (demo_state demo_off)) []) with (mk_pwstate demo_mailbox (replicate 8 0) []).
  rewrite E. split; [reflexivity|exact Ew].
Qed.

(** A thread that asks for the power to be switched off. *)
Lemma syscall_returns_witness : ∃ k' s',
  take_exception (KernelCode0 := kernel_code (b := Debug_build) ∅ 0 1 0 (KBASE + 0x90000)) (λ _, 0) (λ _ m, m) 0 (λ _, 0) 8 0x4004 (21 * 2 ^ 26) (demo_core 51 demo_off) = Ok (tt, s') ∧
  goes_on (demo_core 51 demo_off) 0x4004 (Some 0) k' (user_writes demo_frame demo_top) s' ∧
  writes (kio k') = [(MBOX_WRITE, mbox_word (KBASE + 0x90000))] ++ release_pins ++ halt_partition.
Proof.
  destruct demo_poweroff as (k' & Hk & Hw).
  destruct (proj1 (syscall_returns (KernelCode0 := kernel_code (b := Debug_build) ∅ 0 1 0 (KBASE + 0x90000)) (λ _, 0) (λ _ m, m) 0 (λ _, 0) below_nothing
    (demo_core 51 demo_off) demo_frame demo_top 0x4004 (21 * 2 ^ 26) 51 (demo_can_enter 51 demo_off) (demo_per_cpu 51 demo_off) eq_refl eq_refl)
    eq_refl RVoid k' Hk) as (s' & E & Hg).
  exists k', s'. split; [exact E|split; [exact Hg|exact Hw]].
Defined.
