(* ===== verification/MainTheorems.v ===== *)
(** * The run of [main]

    The stages of [main] one after the other, each with the text it prints;
    [talked] is what a stage that only prints and works on the heap does to the
    rest of the kernel. *)

From stdpp Require Import strings.
From S2P Require Import Prelude Macro ListHead Buddy Chunks BuddyInv BuddyOps BuddySpec BuddyCount BuddyInit BuddyTheorems.
From S2P Require Import PageTable PageTableInv PageTableOps Pages PageTableTheorems.
From S2P Require Import Slab SlabInv SlabOps SlabSpec SlabTheorems Utils Kmalloc KmallocTheorems Mm FreeLists SlabExact SlabTest.
From S2P Require Import Printk PrintkSpec Mmio Uart UartTheorems Kprint KernelLog Bitops Machine MachineTheorems Timer Poweroff Boot KernelMap Main.
Import PL011.








Section stages.
Context {bt : build_type} (u : nat → Z) (Hu : ∀ t, arg_ok (u t)).












(** ** The self tests *)
Fixpoint progress (loop : nat) (i : Z) : list Z :=
  match loop with
  | O => []
  | S loop' => if Z.of_nat loop' mod 100 =? 0 then print_text (chars "...%d%%") [i * 10] ++ progress loop' (i + 1) else progress loop' i
  end.









End stages.

(** ** Interrupts *)





(** ** The whole run *)







Section run.
Context {bt : build_type} (u : nat → Z) (Hu : ∀ t, arg_ok (u t)) (hi : Z → Z) (Hhi : ∀ o, 0 ≤ hi o < 2 ^ 32).
Context (A : boot_addrs) (e a0 stk mr pa mbox : Z) (t0 : nat).



End run.


(** The progress that [test_slab] reports. *)
Lemma progress_text : progress 1000 0 = chars "...0%...10%...20%...30%...40%...50%...60%...70%...80%...90%".
Proof. by vm_compute. Qed.

(** ** The property *)




